(* ===== verification/_CoqProject ===== *)
-Q . S2P
Prelude.v
Heap.v
Lists.v
ListSpec.v
Machine.v
Logic.v
Context.v
Task.v
Platform.v
Timer.v
Semaphore.v
MsgPort.v
Init.v
SysArch.v
TestPrograms.v
NetDemo.v
Invariant.v
Checker.v
Demo.v
TestListSpec.v
TaskSpec.v
SchedSpec.v
Scheduler.v
ContextSpec.v
BootSpec.v
Device.v
Assembly.v
AssemblySpec.v
ContextSwitch.v
SwitchDemo.v
ResetSpec.v
Signals.v
TimerSpec.v
Nesting.v
Mail.v
Rely.v
Liveness.v
AppChecker.v
WaitSpec.v
Threads.v
ThreadTimers.v
TaskOps.v
ThreadTasks.v
ThreadLwip.v
System.v
TestSystem.v
Interpreter.v
PortSpec.v
ThreadPorts.v
SemSpec.v
SemTrace.v
ArchSpec.v
ArchTimeout.v
