(* ===== verification/Prelude.v ===== *)
(** * MARTOS: a verification development of the kernel

    MARTOS is a small preemptive real-time kernel in C for the Cortex-M4
    (STM32F4).  This library models its list package, tasks and signals, the
    scheduler and the other interrupt handlers of the port, timers, semaphores,
    message ports, start-up, the assembly of reset and context switch, its lwIP
    port, the test programs and the network demo, and proves what they promise.

    ** The program

    - [src/list.c]: doubly linked lists with a head and a tail sentinel; a
      priority queue ([list_enqueue]).
    - [src/task.c]: tasks in the lists [ready] and [waiting] of [src/data.c],
      signals ([signal_allocate], [signal_send], [signal_wait]).
    - [platforms/stm32f4-discovery/platform.c]: [disable]/[enable], the PendSV
      handler, which is the scheduler, the SysTick handler, which is the
      round-robin clock, the TIM2 handler, which is the tick of the timers, and
      the first stack frame of a task.
    - [pendsv_handler.s], [reset_handler.s] beside it: the registers of a task saved
      and loaded around the scheduler, and the way from reset to the first task.
    - [src/timer.c]: a queue of timers in order of their tick, polled by TIM2.
    - [src/semaphore.c], [src/msgport.c]: on top of signals.
    - [src/init.c]: start-up; the vector table is in [platform.c];
      [lwip_martos/sys_arch.c]: lwIP's operating system layer.
    - [src/test_common], [src/test_list], [src/test_message], [src/netproj/n.c]:
      two test programs and a demo.

    ** The files, and what they model

    - [Heap], [Lists]: the memory of list nodes and [list.c] statement by
      statement, in an option and state monad (undefined behaviour has no
      result); representation predicates and one refinement lemma per function.
      [ListSpec]: the abstract queues and the simulation of every sequence of
      calls.
    - [Machine]: the types of [martos.h] and [platform.h], the global state
      ([Kernel]: interrupt mask, handler mode, pending PendSV, the globals of
      [data.c], all objects by address), and the monad of the kernel functions.
      A computation returns, spins, faults, or is preempted: [Preempt] marks the
      points at which interrupts are or become enabled in thread code, with the
      rest of the computation, which is resumed in whatever state the handlers
      and the other tasks leave.  [Logic]: the program logics [wp] (one
      computation), [run] (uninterrupted), [quietly] (no interrupt arrives).
    - [Context], [Task], [Platform], [Timer], [Semaphore], [MsgPort], [Init],
      [SysArch], [TestPrograms], [NetDemo]: the C functions, under their C
      names.  [Init] also has the vector table.  [Device]: the set-up of LEDs,
      interrupt priorities and clocks, and start-up with it.  [Assembly]: the
      instructions that [pendsv_handler.s] and [reset_handler.s] use, what the
      hardware stacks at an exception, and the two handlers.
    - [Invariant]: the kernel invariant [kinv] (lists in memory, tasks in the
      list their state says, ready list and timer queue sorted, well-formed
      tasks), the scheduling invariant [sched_ok] and [idle_ok] (a task is always
      ready to run), and how list operations preserve it.  [Checker] decides the
      invariant, [Demo] is the concrete system of the witnesses; [AppChecker]
      decides what tasks keep of an application's objects.
    - [TaskSpec], [Signals], [SchedSpec], [Scheduler], [TimerSpec], [PortSpec],
      [SemSpec], [ContextSpec], [BootSpec], [TaskOps], [ArchSpec]: what the
      functions do where no interrupt can arrive.  [TestListSpec]: the list test.
      [SemTrace]: semaphores against a reference model, over any history of
      calls.  [Nesting]: interrupts between the statements of the PendSV handler.
      [AssemblySpec], [ContextSwitch]: the assembly of the context switch
      ([SwitchDemo] evaluates it); [ResetSpec]: the one of the reset.
    - [Rely]: what a task may assume of its environment while it is preempted
      ([env], [resumed]) and guarantees to the others ([others]), and the logic
      of thread code [wpt] under preemption.  An [App] says who owns which task,
      timer, port and message.  [Mail]: the ports of a state and the messages in
      them, which grow under a task's feet but lose nothing while it owns the
      port.  [WaitSpec], [Threads]: the signal functions in thread code;
      [ThreadTimers]: timers a task owns, and [timer_delay]; [ThreadPorts]:
      message ports; [ThreadTasks]: tasks created by a running task;
      [ThreadLwip]: threads that lwIP starts.
    - [System]: the transition system of all tasks and interrupts.
      [TestSystem]: the message test as an instance of it.  [Interpreter]: its
      steps as a function, to run it on a given sequence of events;
      [ArchTimeout]: such runs through [sys_arch_sem_wait] and
      [sys_arch_mbox_fetch].  [Liveness]: runs of the two clocks.

    ** The theorems

    - Lists: every sequence of calls within the contract has the results and
      effects of the abstract queues ([list_insert] at the head, which the code
      does not do, is outside); [list_enqueue] and [list_rem_head] are a stable
      priority queue; the list test of the repository passes.
    - The system: if the code of every task is safe (which the rules of
      [Threads], [ThreadTimers], [ThreadPorts] and [ThreadTasks] prove for the
      functions they are about), every interleaving of tasks and interrupts keeps the
      invariants; in particular the running task has a priority at least as high
      as every ready one, or a context switch is pending, or the running task is
      between making a task ready and its call of [reschedule]; and no handler
      fails.  The message test is an instance, from its start-up on.
    - Blocking: [signal_wait], [timer_delay] and [msgport_wait], which calls
      [signal_wait] inside its critical section, return under every environment.
    - Messages: what a task waits for in its port is what it then takes, and over
      any number of rounds nothing in the port is lost or reordered, under every
      environment; a send is one atomic step, which puts the message behind the
      others and signals the owner.
    - Semaphores: every history of calls has the results of a counter with a
      queue; requests are granted in order and no permit is created.
    - Handlers: interrupts that arrive between the statements of the PendSV handler
      have the effect of interrupts before and behind it, since it masks them
      where it changes the shared structures.
    - Context switches: the assembly handler implements the PendSV exception of the
      model, and a task that comes back finds all its registers as they were.
    - Reset: from the reset handler to the first instruction of the init task.
    - Scheduling: what the PendSV handler does, round robin, the quantum; tasks
      that only compute get one quantum each in turn, for ever.  Timers fire at
      their tick.
    - Each operation: its full effect and the preservation of the invariant, on
      every branch that is within its contract, and where it matters outside.
    - Findings: the lost wake-up of [sem_signal], [task_set_prio] on a ready
      task, the pending signal a failing [signal_allocate] discards, the
      [NULL] dereference of [task_find], [timer_abort], one [enable] too many,
      [list_insert] at the head, the alarm of the network demo that halts the
      system, messages stranded by
      [sys_arch_mbox_fetch], the dangling request behind a timeout of
      [sys_arch_sem_wait], delays across the wrap-around of the clock, the jump to
      the first task that an interrupt can divert.

    ** Bounds, fuel and simplifications

    - List walks take [walk_bound] steps of fuel, one more than the number of
      cells in memory; the refinement lemmas prove this enough for every list.
    - [signal_wait] takes the number of times it may be switched in; two rounds
      of its loop are proved enough under every environment.
    - Unsigned fields wrap ([uwrap]); signed overflow of [id_nestcnt] and of a
      semaphore's count is undefined and faults.  Addresses are unbounded
      integers; pointer arithmetic wraps nowhere in the code.
    - Interrupt handlers run one after the other.  On the hardware SysTick and
      TIM2, to which [Device] gives priority 0, can also interrupt PendSV, which
      has the lowest, where it has interrupts enabled; [Nesting] proves that this
      comes to the same, with a call of a function as one statement.  TIM2 and
      SysTick do not interrupt each other.
    - [TIM2_IRQHandler] is entered on the update event only: the test and the
      clearing of the event's flag are left out.  [timer_init_platform] sets the
      clock; what it does to the device is [tim2_init] of [Device].
    - [task_find] reads a name through a null pointer for a name that no ready or
      waiting task has, and [task_init] calls it with such names.  The model reads
      the node at address 0, if there is one, and faults otherwise.  Theorems whose
      code gets there assume that address 0 reads as a node with a name that no task
      has, as the alias of the vector table in flash might ([rt_null] of [BootSpec],
      [mm_null] of [TestSystem], [ao_null] of [Rely], and so [in_thread]).
    - The runs of [Interpreter] and [ArchTimeout] instantiate the parameters that
      stand for lwIP: a network that never fails, a [tcpip_init] that creates a
      thread of lwIP's priority, an allocator with two blocks.
    - [msgport_wait] takes the number of rounds of its loop as fuel too; three are
      proved enough under every environment.
    - The thread-level theorems on ports are about applications in which a message
      is sent by the task that owns it ([App]).
    - The vendor's functions are a parameter of [Device]: they return and leave the
      kernel's memory alone, and SysTick may tick in them, but not a whole quantum.
    - The other files see a context switch as [PendSV_exception], given the address of
      the frame; [Assembly] has the registers.  There a compiled C function
      preserves [r4]..[r11] and the stack pointer and leaves anything in the other
      registers (the parameter [scratch]); addresses are 4-aligned but do not wrap;
      [Reset_Handler] runs with interrupts only where C functions admit them, and
      [reset_jump_race] has the one that matters.  The alignment of the stack at an
      exception is the default of the Cortex-M4.
    - Preemption is modelled at the points where interrupts become enabled and at
      the entry of [disable], [reschedule] and [timer_get_clock]: between them
      thread code touches only data of its own task or object.
    - Between operations, most functional theorems are stated where no interrupt
      can arrive ([calm]: inside [disable] or in a handler), where the effect is
      atomic; [Threads], [ThreadTimers], [ThreadPorts] and [ThreadTasks] have the
      thread versions of the functions on signals, timers, ports and tasks.
    - Automatic variables of a task are objects at fixed addresses of its stack.
      [timer_delay] is proved for a variable whose indeterminate status is not
      [TIMER_ADDED] by chance.  The code does not need that ([timer_init] sets the
      status); the predicates on the timers a task owns read a timer of that
      status as one that may be in the queue.
    - [TestSystem] starts behind [martos_pre] and [timer_init], during which no
      interrupt is modelled.
    - An endless loop of a program is a round that the system repeats.

    ** Not modelled

    The linker script, whose symbols are parameters of [Assembly]; lwIP itself (its
    allocator and constants are parameters of [SysArch], its functions parameters of
    [NetDemo]); its configuration, but for the critical section and assertion macros
    of [cc.h] and the thread and memory options of [lwipopts.h]; the vendor's
    peripheral library and the C library; the statistics counters of lwIP
    ([SYS_STATS]) in [sys_arch.c]; the code of [n.c] behind its endless
    loops, which is never reached, and the code of [sys_arch.c] under [#if 0].

    Semaphores are not covered in thread code: [sem_signal] is undefined at the
    upper end of the count, and that no task reaches it is a matter of how an
    application counts permits, which ownership of objects cannot express.
    [msgport_reply] is not covered there either: the replier need not be the owner
    of the message.

    The network demo has no theorem that it is safe, since it is not: [Interpreter]
    has a run in which it halts the system. *)

From stdpp Require Export prelude gmap strings list.
From Stdlib Require Export ZArith Lia Sorted.

#[export] Set Default Goal Selector "!".

(** ** Scopes and notations *)

Declare Scope kernel_scope.
Delimit Scope kernel_scope with K.
Open Scope Z_scope.

(** An address of the 32-bit address space; [NULL] is zero. *)
Abbreviation addr := Z.
Abbreviation NULL := 0%Z.

(** ** Fixed-width integers

    [uwrap w z] is the conversion of [z] to an unsigned [w]-bit type,
    [swrap w z] the conversion to a signed one. *)
Definition uwrap (w z : Z) : Z := z mod 2 ^ w.
Definition swrap (w z : Z) : Z := (z + 2 ^ (w - 1)) mod 2 ^ w - 2 ^ (w - 1).

Lemma uwrap_small w z : 0 <= z < 2 ^ w -> uwrap w z = z.
Proof. intros. by apply Z.mod_small. Qed.

Lemma uwrap_bound w z : 0 <= w -> 0 <= uwrap w z < 2 ^ w.
Proof. intros. apply Z.mod_pos_bound. by apply Z.pow_pos_nonneg. Qed.

Lemma swrap_small w z : 0 < w -> - 2 ^ (w - 1) <= z < 2 ^ (w - 1) -> swrap w z = z.
Proof.
  intros Hw Hz. unfold swrap.
  assert (2 ^ w = 2 * 2 ^ (w - 1)) as E.
  { rewrite <- Z.pow_succ_r by lia. f_equal. lia. }
  rewrite Z.mod_small by lia. lia.
Qed.

(** Testing, setting and clearing the bit of a signal number. *)
Lemma land_pow2 n a : 0 <= n -> Z.land (2 ^ n) a = if Z.testbit a n then 2 ^ n else 0.
Proof.
  intros Hn. apply Z.bits_inj'. intros i Hi. rewrite Z.land_spec, Z.pow2_bits_eqb by done.
  destruct (Z.eqb_spec n i) as [<-|Hne].
  - destruct (Z.testbit a n); simpl; [|by rewrite Z.bits_0].
    by rewrite Z.pow2_bits_true.
  - simpl. destruct (Z.testbit a n); [|by rewrite Z.bits_0].
    by rewrite Z.pow2_bits_false.
Qed.

Lemma lor_pow2_bits n a i : 0 <= n -> 0 <= i ->
  Z.testbit (Z.lor a (2 ^ n)) i = bool_decide (i = n) || Z.testbit a i.
Proof.
  intros Hn Hi. rewrite Z.lor_spec, Z.pow2_bits_eqb by done.
  case_bool_decide; destruct (Z.eqb_spec n i); try lia; by destruct (Z.testbit a i).
Qed.

Lemma land_lnot_pow2_bits n a i : 0 <= n -> 0 <= i ->
  Z.testbit (Z.land a (Z.lnot (2 ^ n))) i = negb (bool_decide (i = n)) && Z.testbit a i.
Proof.
  intros Hn Hi. rewrite Z.land_spec, Z.lnot_spec, Z.pow2_bits_eqb by done.
  case_bool_decide; destruct (Z.eqb_spec n i); try lia; by destruct (Z.testbit a i).
Qed.

(** Comparisons and bit operations stay folded under [simpl]. *)
#[global] Arguments Z.eqb : simpl never.
#[global] Arguments Z.ltb : simpl never.
#[global] Arguments Z.leb : simpl never.
#[global] Arguments Z.pow : simpl never.
#[global] Arguments Z.land : simpl never.
#[global] Arguments Z.lor : simpl never.
#[global] Arguments Z.lnot : simpl never.
#[global] Arguments Z.shiftl : simpl never.
#[global] Arguments Z.modulo : simpl never.
#[global] Arguments Z.add : simpl never.
#[global] Arguments Z.sub : simpl never.

(** ** Lists with a default end *)

(** [first q c] is the first element of [c], or [q]; [final p c] the last
    element of [c], or [p]. *)
Definition first (q : Z) (c : list Z) : Z := match c with [] => q | a :: _ => a end.

Fixpoint final (p : Z) (c : list Z) : Z :=
  match c with [] => p | a :: c' => final a c' end.

Lemma first_app q c1 c2 : first q (c1 ++ c2) = first (first q c2) c1.
Proof. by destruct c1. Qed.

Lemma final_app p c1 c2 : final p (c1 ++ c2) = final (final p c1) c2.
Proof. revert p. induction c1 as [|a c1 IH]; intros p; [done|apply IH]. Qed.

Lemma final_snoc p c a : final p (c ++ [a]) = a.
Proof. by rewrite final_app. Qed.

Lemma final_elem p c : final p c = p \/ final p c ∈ c.
Proof.
  revert p. induction c as [|a c IH]; intros p; [by left|].
  right. destruct (IH a) as [E|E]; simpl; [rewrite E; set_solver|set_solver].
Qed.

Lemma snoc_cases {A} (xs : list A) : xs = [] \/ exists ys y, xs = ys ++ [y].
Proof. destruct xs as [|y ys _] using rev_ind; [by left|right; eauto]. Qed.

Lemma filter_none {A} (P : A -> Prop) `{forall x, Decision (P x)} (xs : list A) :
  Forall (fun x => ~ P x) xs -> filter P xs = [].
Proof.
  induction 1 as [|x xs Hx _ IH]; [done|]. by rewrite filter_cons, decide_False.
Qed.

(** Removing a known element of a duplicate-free list. *)
Definition remove_elem (n : Z) (xs : list Z) : list Z := filter (fun x => x <> n) xs.

Lemma remove_elem_notin n xs : n ∉ xs -> remove_elem n xs = xs.
Proof.
  unfold remove_elem. induction xs as [|x xs IH]; intros H; [done|].
  rewrite filter_cons. apply not_elem_of_cons in H as [H1 H2].
  rewrite decide_True by congruence. f_equal. auto.
Qed.

Lemma remove_elem_middle n xs ys :
  n ∉ xs -> n ∉ ys -> remove_elem n (xs ++ n :: ys) = xs ++ ys.
Proof.
  intros Hx Hy. unfold remove_elem. rewrite filter_app, filter_cons.
  rewrite decide_False by naive_solver.
  fold (remove_elem n xs) (remove_elem n ys).
  by rewrite !remove_elem_notin.
Qed.

Lemma elem_of_remove_elem n a xs : a ∈ remove_elem n xs <-> a ∈ xs /\ a <> n.
Proof. unfold remove_elem. rewrite list_elem_of_filter. naive_solver. Qed.

(** [set_solver] sees through [remove_elem]. *)
#[export] Instance set_unfold_remove_elem (a n : Z) (xs : list Z) P :
  SetUnfoldElemOf a xs P -> SetUnfoldElemOf a (remove_elem n xs) (P /\ a <> n).
Proof. intros [H]. constructor. by rewrite elem_of_remove_elem, H. Qed.

(** ** Tactics shared by the components *)

(** Splits a conjunction goal and closes the easy leaves. *)
Ltac split_done := repeat split; try done; try lia.

(** Decides a boolean test of the goal. *)
Ltac case_bool :=
  match goal with
  | |- context [if ?b then _ else _] => let E := fresh "E" in destruct b eqn:E
  end.

Ltac norm_bool :=
  repeat match goal with
  | H : (_ =? _) = true |- _ => apply Z.eqb_eq in H
  | H : (_ =? _) = false |- _ => apply Z.eqb_neq in H
  | H : (_ <? _) = true |- _ => apply Z.ltb_lt in H
  | H : (_ <? _) = false |- _ => apply Z.ltb_ge in H
  | H : (_ <=? _) = true |- _ => apply Z.leb_le in H
  | H : (_ <=? _) = false |- _ => apply Z.leb_gt in H
  | H : negb _ = true |- _ => apply negb_true_iff in H
  | H : negb _ = false |- _ => apply negb_false_iff in H
  | H : _ && _ = true |- _ => apply andb_true_iff in H as [? ?]
  | H : _ || _ = false |- _ => apply orb_false_iff in H as [? ?]
  end.

Create HintDb martos.
#[export] Hint Resolve uwrap_small uwrap_bound : martos.

