(* ===== verification/Heap.v ===== *)
(** * The memory that holds list nodes

    [include/martos/martos.h], types [Node], [MinNode] and [List].  Every
    kernel object that can be queued starts with a list node and is cast to
    [Node *] (or [MinNode *]) by the list functions, so one map from the
    object's address to its two links serves all of them; [name] and [prio]
    exist only for the objects that embed a whole [Node].  An access to an
    address that holds no cell has no result: it is undefined behaviour in C. *)

From S2P Require Import Prelude.

(** [typedef struct MinNode_ { next; prev } MinNode], and the first two
    fields of [Node]. *)
Record MinNode := mkMin { next : addr; prev : addr }.

(** The fields of [Node] behind its links.  [name] is a C string or [NULL]. *)
Record Node := mkNode { name : option string; prio : Z }.

#[global] Instance MinNode_eq_dec : EqDecision MinNode.
Proof. solve_decision. Defined.
#[global] Instance Node_eq_dec : EqDecision Node.
Proof. solve_decision. Defined.

Record Heap := mkHeap { links : gmap Z MinNode; nodes : gmap Z Node }.

(** [typedef struct { MinNode head; MinNode tail; } List]: the address of
    [list->head] is the address of the list, and [list->tail] follows it
    after the two 32-bit pointers of [head]. *)
Definition tail (list : addr) : addr := list + 8.

(** ** A state and error monad on the heap *)

Definition HM (A : Type) : Type := Heap -> option (A * Heap).

#[global] Instance H_ret : MRet HM := fun A a h => Some (a, h).
#[global] Instance H_bind : MBind HM := fun A B f m h =>
  match m h with Some (a, h') => f a h' | None => None end.

Definition hfault {A} : HM A := fun _ => None.

Definition get_next (a : addr) : HM addr := fun h =>
  c ← links h !! a; Some (next c, h).
Definition get_prev (a : addr) : HM addr := fun h =>
  c ← links h !! a; Some (prev c, h).
Definition set_next (a v : addr) : HM unit := fun h =>
  c ← links h !! a;
  Some (tt, mkHeap (<[a := mkMin v (prev c)]> (links h)) (nodes h)).
Definition set_prev (a v : addr) : HM unit := fun h =>
  c ← links h !! a;
  Some (tt, mkHeap (<[a := mkMin (next c) v]> (links h)) (nodes h)).
Definition get_prio (a : addr) : HM Z := fun h =>
  c ← nodes h !! a; Some (prio c, h).
Definition get_name (a : addr) : HM (option string) := fun h =>
  c ← nodes h !! a; Some (name c, h).

(** [strcmp] of the C library, as the source uses it (compared with 0): both
    arguments must be strings. *)
Definition strcmp_eq (s1 s2 : option string) : HM bool :=
  match s1, s2 with
  | Some a, Some b => mret (bool_decide (a = b))
  | _, _ => hfault
  end.

(** The number of steps after which a walk over [next] pointers must have
    visited a node twice, hence never ends. *)
Definition walk_bound (h : Heap) : nat := S (size (links h)).
#[global] Arguments walk_bound : simpl never.

Definition with_bound {A} (f : nat -> HM A) : HM A := fun h => f (walk_bound h) h.
