(* ===== verification/Lists.v ===== *)
(** * Lists ([src/list.c])

    The list functions on the heap of [Heap.v], the representation predicate
    of a doubly linked list, and the refinement of the functions to operations
    on abstract queues. *)

From S2P Require Import Prelude Heap.

(** ** The functions of [src/list.c] *)

(** [void list_unlink(Node *const node)] *)
Definition list_unlink (node : addr) : HM unit :=
  p ← get_prev node; n ← get_next node; set_next p n;;
  n ← get_next node; p ← get_prev node; set_prev n p.

(** [void list_init(List *const list)] *)
Definition list_init (list : addr) : HM unit :=
  set_next list (tail list);;
  set_prev list NULL;;
  set_next (tail list) NULL;;
  set_prev (tail list) list.

(** [bool list_is_empty(List *const list)] *)
Definition list_is_empty (list : addr) : HM bool :=
  p ← get_prev (tail list);
  if list =? p then mret true else mret false.

(** [void list_add_tail(List *const list, Node *const node)] *)
Definition list_add_tail (list node : addr) : HM unit :=
  set_next node (tail list);;
  p ← get_prev (tail list); set_prev node p;;
  p ← get_prev (tail list); set_next p node;;
  set_prev (tail list) node.

(** [Node *list_get_head(List *const list)] *)
Definition list_get_head (list : addr) : HM addr :=
  e ← list_is_empty list;
  if (e : bool) then mret NULL else get_next list.

(** [Node *list_rem_head(List *const list)] *)
Definition list_rem_head (list : addr) : HM addr :=
  node ← list_get_head list;
  (if negb (NULL =? node) then list_unlink node else mret tt);;
  mret node.

(** [void list_insert(List *const list, Node *const node, Node *const prev)].
    The [NULL] branch only executes [assert(true)]. *)
Definition list_insert (list node prv : addr) : HM unit :=
  if NULL =? prv then mret tt
  else
    pn ← get_next prv;
    if negb (NULL =? pn) then
      n ← get_next prv; set_next node n;;
      set_prev node prv;;
      n ← get_next prv; set_prev n node;;
      set_next prv node
    else list_add_tail list node.

(** The loop of [list_enqueue]: the first node of lower priority, or the
    tail of the list. *)
Fixpoint enqueue_scan (fuel : nat) (node nextnode : addr) : HM addr :=
  match fuel with
  | O => hfault
  | S fuel =>
      nn ← get_next nextnode;
      if negb (NULL =? nn) then
        p1 ← get_prio nextnode;
        p2 ← get_prio node;
        if p1 <? p2 then mret nextnode
        else nn ← get_next nextnode; enqueue_scan fuel node nn
      else mret nextnode
  end.

(** [void list_enqueue(List *const list, Node *const node)] *)
Definition list_enqueue (list node : addr) : HM unit :=
  nextnode ← get_next list;
  nextnode ← with_bound (fun fuel => enqueue_scan fuel node nextnode);
  set_next node nextnode;;
  p ← get_prev nextnode; set_prev node p;;
  p ← get_prev nextnode; set_next p node;;
  set_prev nextnode node.

(** The loop of [list_find]. *)
Fixpoint find_scan (fuel : nat) (nm : option string) (nextnode : addr) : HM addr :=
  match fuel with
  | O => hfault
  | S fuel =>
      nn ← get_next nextnode;
      if negb (NULL =? nn) then
        s ← get_name nextnode;
        same ← strcmp_eq s nm;
        if (same : bool) then mret nextnode
        else nn ← get_next nextnode; find_scan fuel nm nn
      else mret NULL
  end.

(** [Node *list_find(List *const start, char *const name)] *)
Definition list_find (start : addr) (nm : option string) : HM addr :=
  nextnode ← get_next start;
  with_bound (fun fuel => find_scan fuel nm nextnode).

(** ** Representation of a doubly linked list

    [seg m p c q]: the nodes [c] are linked to each other in this order, the
    first one back to [p] and the last one forward to [q]. *)
Fixpoint seg (m : gmap Z MinNode) (p : addr) (c : list Z) (q : addr) : Prop :=
  match c with
  | [] => True
  | a :: c' => m !! a = Some (mkMin (first q c') p) /\ seg m a c' q
  end.

(** The cells of a list: its head, its nodes, its tail. *)
Definition chain (l : addr) (xs : list Z) : list Z := l :: xs ++ [tail l].

Definition dll (m : gmap Z MinNode) (l : addr) (xs : list Z) : Prop :=
  NoDup (NULL :: chain l xs) /\ seg m NULL (chain l xs) NULL.

(** ** Abstract queues

    The abstract state of all lists of the system: the queue of node
    addresses each list holds. *)
Abbreviation Queues := (gmap Z (list Z)).

(** [reps m Q]: the heap holds every queue of [Q], in disjoint cells. *)
Record reps (m : gmap Z MinNode) (Q : Queues) : Prop := mkReps {
  reps_dll : forall l xs, Q !! l = Some xs -> dll m l xs;
  reps_disj : forall l1 l2 xs1 xs2 a, Q !! l1 = Some xs1 -> Q !! l2 = Some xs2 ->
    a ∈ chain l1 xs1 -> a ∈ chain l2 xs2 -> l1 = l2 }.

(** A node that is in memory and in no list. *)
Definition unowned (Q : Queues) (a : addr) : Prop :=
  forall l xs, Q !! l = Some xs -> a ∉ chain l xs.

Record free_node (m : gmap Z MinNode) (Q : Queues) (n : addr) : Prop := mkFree {
  free_alloc : is_Some (m !! n);
  free_nonnull : n <> NULL;
  free_unowned : unowned Q n }.

(** The cells outside [S] are unchanged. *)
Definition same_except (S : list Z) (m m' : gmap Z MinNode) : Prop :=
  dom m' = dom m /\ forall a, a ∉ S -> m' !! a = m !! a.

(** Insertion in priority order: before the first node of lower priority. *)
Fixpoint prio_insert (pr : Z -> Z) (n : Z) (xs : list Z) : list Z :=
  match xs with
  | [] => [n]
  | x :: xs' => if pr x <? pr n then n :: x :: xs' else x :: prio_insert pr n xs'
  end.

(** The priority the heap records for a node. *)
Definition prio_of (h : Heap) (a : addr) : Z :=
  match nodes h !! a with Some c => prio c | None => 0 end.

(** The first node of a given name. *)
Definition has_name (h : Heap) (s : string) (a : addr) : bool :=
  match nodes h !! a with Some c => bool_decide (name c = Some s) | None => false end.

Fixpoint find_name (h : Heap) (s : string) (xs : list Z) : addr :=
  match xs with
  | [] => NULL
  | x :: xs' => if has_name h s x then x else find_name h s xs'
  end.

(** [set_solver] sees through [chain]. *)
#[export] Instance set_unfold_chain (a l : Z) (xs : list Z) P :
  SetUnfoldElemOf a xs P ->
  SetUnfoldElemOf a (chain l xs) (a = l \/ P \/ a = tail l).
Proof. intros [H]. constructor. unfold chain. set_unfold. rewrite H. tauto. Qed.

(** ** Segments *)

Lemma seg_app m p c1 c2 q :
  seg m p (c1 ++ c2) q <-> seg m p c1 (first q c2) /\ seg m (final p c1) c2 q.
Proof.
  revert p. induction c1 as [|a c1 IH]; intros p; simpl; [tauto|].
  rewrite IH, first_app. tauto.
Qed.

Lemma seg_ext m m' p c q :
  (forall a, a ∈ c -> m' !! a = m !! a) -> seg m p c q -> seg m' p c q.
Proof.
  revert p. induction c as [|a c IH]; intros p Hext; simpl; [done|].
  intros [Ha Hs]. split; [rewrite Hext; [done|set_solver]|].
  apply IH; [set_solver|done].
Qed.

Lemma seg_lookup m p c q a : seg m p c q -> a ∈ c -> is_Some (m !! a).
Proof.
  revert p. induction c as [|b c IH]; intros p; simpl; [set_solver|].
  intros [Hb Hs] [->|Hin]%elem_of_cons; eauto.
Qed.

Lemma first_cons_final l x1 : exists c1, l :: x1 = c1 ++ [final l x1].
Proof.
  revert l. induction x1 as [|a x1 IH]; intros l; [by exists []|].
  destruct (IH a) as [c1 E]. exists (l :: c1). simpl. by rewrite <- E.
Qed.

Lemma first_tail_cons b x2 : exists c2, x2 ++ [b] = first b x2 :: c2.
Proof. destruct x2 as [|a x2]; simpl; eauto. Qed.

(** The chain around an insertion point. *)
Lemma chain_split l x1 x2 : exists c1 c2,
  l :: x1 = c1 ++ [final l x1] /\ x2 ++ [tail l] = first (tail l) x2 :: c2 /\
  chain l (x1 ++ x2) = c1 ++ final l x1 :: first (tail l) x2 :: c2.
Proof.
  destruct (first_cons_final l x1) as [c1 E1].
  destruct (first_tail_cons (tail l) x2) as [c2 E2].
  exists c1, c2. split_and!; [done..|].
  unfold chain. rewrite <- app_assoc, E2, app_comm_cons, E1, <- app_assoc. done.
Qed.

(** The two cells around an insertion point point at each other. *)
Lemma dll_cells m l x1 x2 : dll m l (x1 ++ x2) ->
  exists pa nb, m !! final l x1 = Some (mkMin (first (tail l) x2) pa) /\
    m !! first (tail l) x2 = Some (mkMin nb (final l x1)) /\
    final l x1 <> first (tail l) x2 /\
    final l x1 ∈ chain l (x1 ++ x2) /\ first (tail l) x2 ∈ chain l (x1 ++ x2).
Proof.
  intros [Hnd Hs].
  destruct (chain_split l x1 x2) as (c1 & c2 & E1 & E2 & E).
  rewrite E in *. apply seg_app in Hs as [_ (Ha & Hb & _)]. simpl in *.
  apply NoDup_cons in Hnd as [_ Hnd]. apply NoDup_app in Hnd as (_ & _ & Hnd).
  apply NoDup_cons in Hnd as [Hne _].
  eexists _, _; split_and!; [exact Ha|exact Hb|set_solver..].
Qed.

(** Linking a node in between two neighbours ... *)
Lemma dll_splice m m' l x1 x2 n :
  dll m l (x1 ++ x2) -> n ∉ NULL :: chain l (x1 ++ x2) ->
  m' !! n = Some (mkMin (first (tail l) x2) (final l x1)) ->
  (forall c, m !! final l x1 = Some c ->
    m' !! final l x1 = Some (mkMin n (prev c))) ->
  (forall c, m !! first (tail l) x2 = Some c ->
    m' !! first (tail l) x2 = Some (mkMin (next c) n)) ->
  (forall x, x <> final l x1 -> x <> first (tail l) x2 -> x <> n ->
    m' !! x = m !! x) ->
  dll m' l (x1 ++ n :: x2).
Proof.
  intros [Hnd Hs] Hn Hm'n Hm'a Hm'b Hext.
  destruct (chain_split l x1 x2) as (c1 & c2 & E1 & E2 & E).
  assert (chain l (x1 ++ n :: x2) =
    c1 ++ final l x1 :: n :: first (tail l) x2 :: c2) as E'.
  { unfold chain. rewrite <- app_assoc. simpl.
    rewrite E2, app_comm_cons, E1, <- app_assoc. done. }
  unfold dll. rewrite E in Hnd, Hs, Hn. rewrite E'.
  set (a := final l x1) in *. set (b := first (tail l) x2) in *.
  clearbody a b. clear E E' E1 E2.
  apply seg_app in Hs as [Hs1 (Ha & Hb & Hs2)]. simpl in *.
  apply NoDup_cons in Hnd as [H0 Hnd].
  assert (NoDup (c1 ++ a :: n :: b :: c2)) as Hnd'.
  { replace (c1 ++ a :: n :: b :: c2) with ((c1 ++ [a]) ++ n :: b :: c2)
      by (by rewrite <- app_assoc).
    rewrite <- Permutation_middle, <- app_assoc. apply NoDup_cons.
    split; [set_solver|done]. }
  split; [apply NoDup_cons; split; [set_solver|done]|].
  apply NoDup_app in Hnd as (_ & Hd1 & Hnd).
  apply NoDup_cons in Hnd as [Hab Hnd]. apply NoDup_cons in Hnd as [Hbc _].
  apply seg_app. simpl. split_and!.
  - eapply seg_ext; [|exact Hs1]. intros x Hx. apply Hext; set_solver.
  - by rewrite (Hm'a _ Ha).
  - done.
  - by rewrite (Hm'b _ Hb).
  - eapply seg_ext; [|exact Hs2]. intros x Hx. apply Hext; set_solver.
Qed.

(** ... and taking it out again. *)
Lemma dll_unsplice m m' l x1 x2 n :
  dll m l (x1 ++ n :: x2) ->
  (forall c, m !! final l x1 = Some c ->
    m' !! final l x1 = Some (mkMin (first (tail l) x2) (prev c))) ->
  (forall c, m !! first (tail l) x2 = Some c ->
    m' !! first (tail l) x2 = Some (mkMin (next c) (final l x1))) ->
  (forall x, x <> final l x1 -> x <> first (tail l) x2 -> m' !! x = m !! x) ->
  dll m' l (x1 ++ x2).
Proof.
  intros [Hnd Hs] Hm'a Hm'b Hext.
  destruct (chain_split l x1 x2) as (c1 & c2 & E1 & E2 & E).
  assert (chain l (x1 ++ n :: x2) =
    c1 ++ final l x1 :: n :: first (tail l) x2 :: c2) as E'.
  { unfold chain. rewrite <- app_assoc. simpl.
    rewrite E2, app_comm_cons, E1, <- app_assoc. done. }
  unfold dll. rewrite E' in Hnd, Hs. rewrite E.
  set (a := final l x1) in *. set (b := first (tail l) x2) in *.
  clearbody a b. clear E E' E1 E2.
  apply seg_app in Hs as [Hs1 (Ha & Hn & Hb & Hs2)]. simpl in *.
  apply NoDup_cons in Hnd as [H0 Hnd].
  apply NoDup_app in Hnd as (Hnd1 & Hd1 & Hnd).
  apply NoDup_cons in Hnd as [Han Hnd]. apply NoDup_cons in Hnd as [Hnb Hnd].
  split.
  { apply NoDup_cons. split; [set_solver|]. apply NoDup_app.
    split_and!; [done|set_solver|apply NoDup_cons; split; [set_solver|done]]. }
  apply NoDup_cons in Hnd as [Hbc _].
  apply seg_app. simpl. split_and!.
  - eapply seg_ext; [|exact Hs1]. intros x Hx. apply Hext; set_solver.
  - by rewrite (Hm'a _ Ha).
  - by rewrite (Hm'b _ Hb).
  - eapply seg_ext; [|exact Hs2]. intros x Hx. apply Hext; set_solver.
Qed.

(** ** Updating one queue of many *)

(** The outcome of a list operation: it returns [r], the heap now holds the
    queues [Q'], and no cell outside [S] was written. *)
Definition list_step {A} (h : Heap) (S : list Z) (Q' : Queues) (r : A)
    (res : option (A * Heap)) : Prop :=
  exists m', res = Some (r, mkHeap m' (nodes h)) /\ reps m' Q' /\
    same_except S (links h) m'.

Lemma same_except_mono S S' m m' :
  same_except S m m' -> S ⊆ S' -> same_except S' m m'.
Proof. intros [Hd He] Hs. split; [done|]. intros a Ha. apply He. set_solver. Qed.

Lemma dll_ext m m' l xs :
  (forall a, a ∈ chain l xs -> m' !! a = m !! a) -> dll m l xs -> dll m' l xs.
Proof. intros He [Hn Hs]. split; [done|]. by eapply seg_ext. Qed.

Lemma reps_update m m' Q l xs xs' ns :
  reps m Q -> Q !! l = Some xs -> dll m' l xs' ->
  chain l xs' ⊆ chain l xs ++ ns -> (forall n, n ∈ ns -> unowned Q n) ->
  same_except (ns ++ chain l xs) m m' -> reps m' (<[l := xs']> Q).
Proof.
  intros [Hd Hj] Hl Hd' Hsub Hns [_ Hext]. split.
  - intros l1 xs1 [[<- <-]|[Hne H1]]%lookup_insert_Some; [done|].
    eapply dll_ext; [|eauto]. intros a Ha. apply Hext.
    intros [Hin|Hin]%elem_of_app; [by eapply Hns|]. eapply Hne, Hj; eauto.
  - intros l1 l2 xs1 xs2 a [[<- <-]|[Hne1 H1]]%lookup_insert_Some
      [[<- <-]|[Hne2 H2]]%lookup_insert_Some Ha1 Ha2; [done|..|by eauto].
    + apply Hsub, elem_of_app in Ha1 as [Ha1|Ha1]; [by eauto|].
      by edestruct Hns.
    + apply Hsub, elem_of_app in Ha2 as [Ha2|Ha2]; [by eauto|].
      by edestruct Hns.
Qed.

(** The head and the tail of a list the heap holds. *)
Lemma free_node_notin m Q n l xs :
  free_node m Q n -> Q !! l = Some xs -> n ∉ NULL :: chain l xs.
Proof. intros [_ H0 Hu] Hl. apply not_elem_of_cons. eauto. Qed.

Lemma dom_insert_same (m : gmap Z MinNode) a v :
  is_Some (m !! a) -> dom (<[a := v]> m) = dom m.
Proof. intros Ha%elem_of_dom. rewrite dom_insert_L. set_solver. Qed.

(** Runs heap code whose lookups are known. *)
Ltac heap_run :=
  repeat (unfold mbind, H_bind, mret, H_ret, get_next, get_prev, set_next,
    set_prev, get_prio, get_name in *; simplify_map_eq/=).

Ltac dom_same :=
  repeat (rewrite dom_insert_same; [|eauto; simplify_map_eq; eauto]); try done.

(** ** Each function refines an operation on the abstract queues *)

Section refinement.
Context (h : Heap) (Q : Queues) (Hreps : reps (links h) Q).

Lemma is_empty_run l xs : Q !! l = Some xs ->
  list_is_empty l h = Some (bool_decide (xs = []), h).
Proof.
  intros Hl. pose proof (reps_dll _ _ Hreps _ _ Hl) as Hd.
  destruct (dll_cells _ l xs [] ltac:(by rewrite app_nil_r))
    as (pa & nb & Ha & Hb & Hne & _). simpl in *.
  unfold list_is_empty. heap_run.
  destruct (snoc_cases xs) as [->|(ys & y & ->)]; simpl.
  { by rewrite Z.eqb_refl. }
  rewrite final_snoc. destruct Hd as [Hnd _].
  destruct (l =? y) eqn:E; norm_bool.
  - subst. apply NoDup_cons in Hnd as [_ [Hnd _]%NoDup_cons]. set_solver.
  - by destruct ys.
Qed.

Lemma splice_step l x1 x2 n m' :
  Q !! l = Some (x1 ++ x2) -> free_node (links h) Q n ->
  dom m' = dom (links h) ->
  m' !! n = Some (mkMin (first (tail l) x2) (final l x1)) ->
  (forall c, links h !! final l x1 = Some c ->
    m' !! final l x1 = Some (mkMin n (prev c))) ->
  (forall c, links h !! first (tail l) x2 = Some c ->
    m' !! first (tail l) x2 = Some (mkMin (next c) n)) ->
  (forall x, x <> final l x1 -> x <> first (tail l) x2 -> x <> n ->
    m' !! x = links h !! x) ->
  reps m' (<[l := x1 ++ n :: x2]> Q) /\
  same_except (n :: chain l (x1 ++ x2)) (links h) m'.
Proof.
  intros Hl Hf Hdom Hn Ha Hb Hext.
  pose proof (reps_dll _ _ Hreps _ _ Hl) as Hd.
  destruct (dll_cells _ _ _ _ Hd) as (pa & nb & _ & _ & _ & Hia & Hib).
  assert (same_except (n :: chain l (x1 ++ x2)) (links h) m') as Hs.
  { split; [done|]. intros x [? Hx]%not_elem_of_cons.
    apply Hext; [intros ->..|]; done. }
  split; [|done].
  eapply (reps_update _ _ _ _ _ _ [n]); [done|exact Hl|..|exact Hs].
  - eapply dll_splice; [exact Hd|by eapply free_node_notin|done..].
  - unfold chain. set_solver.
  - intros ? ->%list_elem_of_singleton. apply Hf.
Qed.

Lemma unsplice_step l x1 x2 n m' :
  Q !! l = Some (x1 ++ n :: x2) -> dom m' = dom (links h) ->
  (forall c, links h !! final l x1 = Some c ->
    m' !! final l x1 = Some (mkMin (first (tail l) x2) (prev c))) ->
  (forall c, links h !! first (tail l) x2 = Some c ->
    m' !! first (tail l) x2 = Some (mkMin (next c) (final l x1))) ->
  (forall x, x <> final l x1 -> x <> first (tail l) x2 ->
    m' !! x = links h !! x) ->
  reps m' (<[l := x1 ++ x2]> Q) /\
  same_except (chain l (x1 ++ x2)) (links h) m'.
Proof.
  intros Hl Hdom Ha Hb Hext.
  pose proof (reps_dll _ _ Hreps _ _ Hl) as Hd.
  pose proof (dll_unsplice _ _ _ _ _ _ Hd Ha Hb Hext) as Hd'.
  destruct (dll_cells _ _ _ _ Hd') as (pa & nb & _ & _ & _ & Hia & Hib).
  assert (same_except (chain l (x1 ++ x2)) (links h) m') as Hs.
  { split; [done|]. intros x Hx. apply Hext; intros ->; done. }
  split; [|done].
  eapply (reps_update _ _ _ _ _ _ []); [done|exact Hl|done|..].
  - unfold chain. set_solver.
  - set_solver.
  - eapply same_except_mono; [exact Hs|]. unfold chain. set_solver.
Qed.

Lemma add_tail_step l xs n : Q !! l = Some xs -> free_node (links h) Q n ->
  list_step h (n :: chain l xs) (<[l := xs ++ [n]]> Q) tt (list_add_tail l n h).
Proof.
  intros Hl Hf. pose proof (reps_dll _ _ Hreps _ _ Hl) as Hd.
  assert (n ∉ NULL :: chain l xs) as Hn by by eapply free_node_notin.
  destruct (dll_cells _ l xs [] ltac:(by rewrite app_nil_r))
    as (pa & nb & Ha & Hb & Hne & Hia & Hib). simpl in *.
  rewrite app_nil_r in Hia, Hib.
  destruct (free_alloc _ _ _ Hf) as [[nn pn] Hnn].
  assert (n <> final l xs /\ n <> tail l) as [Hna Hnt] by set_solver.
  unfold list_add_tail. heap_run. eexists; split; [done|].
  pose proof (splice_step l xs [] n) as Hsplice. rewrite app_nil_r in Hsplice.
  apply Hsplice; [done|done|dom_same|..]; simpl; intros; simplify_map_eq; done.
Qed.

(** [list_unlink] of a node of a list. *)
Lemma unlink_step l x1 x2 n : Q !! l = Some (x1 ++ n :: x2) ->
  list_step h (chain l (x1 ++ x2)) (<[l := x1 ++ x2]> Q) tt (list_unlink n h).
Proof.
  intros Hl. pose proof (reps_dll _ _ Hreps _ _ Hl) as Hd.
  destruct (dll_cells _ l x1 (n :: x2) Hd) as (pa & nb & Ha & Hn & Han & _).
  pose proof Hd as Hd2. rewrite cons_middle, app_assoc in Hd2.
  destruct (dll_cells _ l (x1 ++ [n]) x2 Hd2) as (pn & nb' & Hn' & Hb & Hnb & _).
  rewrite final_snoc in *. simpl in *. simplify_eq.
  assert (final l x1 <> first (tail l) x2) as Hab.
  { destruct Hd as [Hnd _]. destruct (chain_split l x1 (n :: x2)) as (c1 & c2 & E1 & E2 & E).
    rewrite E in Hnd. simpl in *. simplify_eq.
    destruct (first_tail_cons (tail l) x2) as [c3 E3]. rewrite E3 in Hnd.
    apply NoDup_cons in Hnd as [_ (_ & _ & [Hnd _]%NoDup_cons)%NoDup_app]. set_solver. }
  unfold list_unlink. heap_run. eexists; split; [done|].
  eapply unsplice_step; [done|dom_same|..]; simpl; intros; simplify_map_eq; done.
Qed.

Lemma get_head_run l xs : Q !! l = Some xs ->
  list_get_head l h = Some (first NULL xs, h).
Proof.
  intros Hl. unfold list_get_head, mbind, H_bind at 1.
  rewrite (is_empty_run l xs Hl). destruct xs as [|x xs]; [done|].
  rewrite bool_decide_false by done.
  destruct (dll_cells _ l [] (x :: xs) (reps_dll _ _ Hreps _ _ Hl)) as (pa & nb & Ha & _).
  simpl in *. by heap_run.
Qed.

Lemma node_nonnull l x xs : Q !! l = Some xs -> x ∈ xs -> x <> NULL.
Proof.
  intros Hl Hx. destruct (reps_dll _ _ Hreps _ _ Hl) as [[Hnd _]%NoDup_cons _].
  intros ->. apply Hnd. unfold chain. set_solver.
Qed.

Lemma rem_head_nil l : Q !! l = Some [] ->
  list_rem_head l h = Some (NULL, h).
Proof.
  intros Hl. unfold list_rem_head, mbind, H_bind at 1.
  by rewrite (get_head_run l [] Hl).
Qed.

Lemma rem_head_step l x xs : Q !! l = Some (x :: xs) ->
  list_step h (chain l xs) (<[l := xs]> Q) x (list_rem_head l h).
Proof.
  intros Hl. unfold list_rem_head, mbind, H_bind at 1.
  rewrite (get_head_run l _ Hl). cbn [first].
  pose proof (node_nonnull _ x _ Hl ltac:(set_solver)) as Hx.
  replace (NULL =? x) with false by lia. cbn [negb].
  destruct (unlink_step l [] xs x Hl) as (m' & E & ? & ?).
  exists m'. unfold H_bind. by rewrite E.
Qed.

Lemma init_step l c1 c2 : links h !! l = Some c1 -> links h !! tail l = Some c2 ->
  l <> NULL -> tail l <> NULL -> unowned (delete l Q) l -> unowned (delete l Q) (tail l) ->
  list_step h [l; tail l] (<[l := []]> Q) tt (list_init l h).
Proof.
  intros H1 H2 Hn1 Hn2 Hu1 Hu2. unfold list_init.
  assert (l <> tail l) as Hne by (unfold tail; lia).
  heap_run. eexists; split; [done|].
  match goal with |- reps ?m _ /\ _ => set (m' := m) end.
  assert (same_except [l; tail l] (links h) m') as Hs.
  { split; [unfold m'; dom_same|]. intros a Ha. unfold m'.
    assert (a <> l /\ a <> tail l) as [? ?] by set_solver. by simplify_map_eq. }
  split; [|done]. split.
  - intros l1 xs1 [[<- <-]|[Hne1 Hl1]]%lookup_insert_Some.
    + split; [unfold chain; simpl; repeat (apply NoDup_cons; split); [set_solver..|apply NoDup_nil_2]|].
      simpl. unfold m'. by simplify_map_eq.
    + eapply dll_ext; [|by eapply reps_dll]. intros a Ha. apply Hs.
      assert (delete l Q !! l1 = Some xs1) as Hd by by rewrite lookup_delete_ne.
      intros [->|[->|[]%elem_of_nil]%elem_of_cons]%elem_of_cons;
        [by eapply Hu1|by eapply Hu2].
  - assert (forall l2 xs2 a, l <> l2 -> Q !! l2 = Some xs2 -> a ∈ chain l [] ->
      a ∈ chain l2 xs2 -> False) as Hdis.
    { intros l2 xs2 a Hne2 Hl2 Ha1 Ha2.
      assert (delete l Q !! l2 = Some xs2) as Hd by by rewrite lookup_delete_ne.
      apply elem_of_cons in Ha1 as [->|Ha1]; [by eapply Hu1|].
      apply list_elem_of_singleton in Ha1 as ->. by eapply Hu2. }
    intros l1 l2 xs1 xs2 a [[<- <-]|[Hne1 Hl1]]%lookup_insert_Some
      [[<- <-]|[Hne2 Hl2]]%lookup_insert_Some Ha1 Ha2; [done|exfalso; eauto..|].
    by eapply reps_disj.
Qed.

(** *** Walks *)

Lemma head_cell l xs : Q !! l = Some xs ->
  links h !! l = Some (mkMin (first (tail l) xs) NULL).
Proof.
  intros Hl. destruct (reps_dll _ _ Hreps _ _ Hl) as [_ [Hh _]]. rewrite Hh.
  by destruct xs.
Qed.

Lemma tail_cell l xs : Q !! l = Some xs ->
  links h !! tail l = Some (mkMin NULL (final l xs)) /\ tail l <> NULL.
Proof.
  intros Hl. destruct (reps_dll _ _ Hreps _ _ Hl) as [Hnd Hs].
  unfold chain in Hs. rewrite app_comm_cons in Hs.
  apply seg_app in Hs as [_ [Ht _]]. split; [done|].
  apply NoDup_cons in Hnd as [Hn _]. unfold chain in Hn. set_solver.
Qed.

Lemma node_cell l x1 x x2 : Q !! l = Some (x1 ++ x :: x2) ->
  links h !! x = Some (mkMin (first (tail l) x2) (final l x1)) /\
  first (tail l) x2 <> NULL.
Proof.
  intros Hl. pose proof (reps_dll _ _ Hreps _ _ Hl) as Hd.
  destruct (dll_cells _ l x1 (x :: x2) Hd) as (pa & nb & _ & Hb & _).
  pose proof Hd as Hd2. rewrite cons_middle, app_assoc in Hd2.
  destruct (dll_cells _ l (x1 ++ [x]) x2 Hd2) as (pa' & nb' & Ha & _ & _ & _ & Hin).
  rewrite final_snoc in *. simpl in *. simplify_eq. split; [done|].
  destruct Hd as [[Hnd _]%NoDup_cons _]. intros E. apply Hnd.
  rewrite <- E. by rewrite <- app_assoc in Hin.
Qed.

Lemma walk_bound_ok l xs : Q !! l = Some xs -> (length xs < walk_bound h)%nat.
Proof.
  intros Hl. destruct (reps_dll _ _ Hreps _ _ Hl) as [[_ Hnd]%NoDup_cons Hs].
  assert (length (chain l xs) <= size (links h))%nat as Hle.
  { rewrite <- size_dom, <- (size_list_to_set (C := gset Z)) by done.
    apply subseteq_size. intros a Ha%elem_of_list_to_set.
    apply elem_of_dom. by eapply seg_lookup. }
  unfold chain, walk_bound in *. simpl in Hle. rewrite length_app in Hle. lia.
Qed.

Lemma scan_run l n x1 x2 fuel : Q !! l = Some (x1 ++ x2) ->
  (length x2 < fuel)%nat -> is_Some (nodes h !! n) ->
  (forall x, x ∈ x2 -> is_Some (nodes h !! x)) ->
  exists y1 y2, x2 = y1 ++ y2 /\ prio_insert (prio_of h) n x2 = y1 ++ n :: y2 /\
    enqueue_scan fuel n (first (tail l) x2) h = Some (first (tail l) y2, h).
Proof.
  intros Hl Hf Hn. revert x1 fuel Hl Hf.
  induction x2 as [|x x2 IH]; intros x1 fuel Hl Hf Hx;
    (destruct fuel as [|fuel]; simpl in Hf; [lia|]); simpl.
  - exists [], []. split_and!; [done..|]. rewrite app_nil_r in Hl.
    destruct (tail_cell _ _ Hl) as [Ht _]. by heap_run.
  - destruct (node_cell _ _ _ _ Hl) as [Hc Hnn].
    destruct (Hx x ltac:(set_solver)) as [cx Hcx]. destruct Hn as [cn Hcn].
    assert (negb (NULL =? first (tail l) x2) = true) as Hb by lia.
    unfold prio_of at 1 2. heap_run. rewrite Hb. heap_run. case_bool.
    + exists [], (x :: x2). done.
    + destruct (IH (x1 ++ [x]) fuel) as (y1 & y2 & -> & E1 & E2);
        [by rewrite <- app_assoc|lia|set_solver|].
      exists (x :: y1), y2. split_and!; [done|by rewrite E1|]. by heap_run.
Qed.

Lemma enqueue_step l xs n : Q !! l = Some xs -> free_node (links h) Q n ->
  is_Some (nodes h !! n) -> (forall x, x ∈ xs -> is_Some (nodes h !! x)) ->
  list_step h (n :: chain l xs) (<[l := prio_insert (prio_of h) n xs]> Q) tt
    (list_enqueue l n h).
Proof.
  intros Hl Hf Hn Hx. destruct (free_alloc _ _ _ Hf) as [[nn pn] Hnn].
  destruct (scan_run l n [] xs (walk_bound h) Hl (walk_bound_ok _ _ Hl) Hn Hx)
    as (y1 & y2 & -> & E1 & E2).
  pose proof (reps_dll _ _ Hreps _ _ Hl) as Hd.
  assert (n ∉ NULL :: chain l (y1 ++ y2)) as Hnc by by eapply free_node_notin.
  destruct (dll_cells _ l y1 y2 Hd) as (pa & nb & Ha & Hb & Hne & Hia & Hib).
  assert (n <> final l y1 /\ n <> first (tail l) y2) as [Hna Hnt] by set_solver.
  pose proof (head_cell _ _ Hl) as Hh. rewrite E1.
  unfold list_enqueue, with_bound. heap_run. eexists; split; [done|].
  apply splice_step; [done|done|dom_same|..]; intros; simplify_map_eq; done.
Qed.

Lemma insert_step l x1 x2 n : Q !! l = Some (x1 ++ x2) ->
  free_node (links h) Q n ->
  list_step h (n :: chain l (x1 ++ x2)) (<[l := x1 ++ n :: x2]> Q) tt
    (list_insert l n (final l x1) h).
Proof.
  intros Hl Hf. pose proof (reps_dll _ _ Hreps _ _ Hl) as Hd.
  assert (n ∉ NULL :: chain l (x1 ++ x2)) as Hn by by eapply free_node_notin.
  destruct (dll_cells _ l x1 x2 Hd) as (pa & nb & Ha & Hb & Hne & Hia & Hib).
  destruct (free_alloc _ _ _ Hf) as [[nn pn] Hnn].
  assert (n <> final l x1 /\ n <> first (tail l) x2) as [Hna Hnt] by set_solver.
  assert (forall a, a ∈ chain l (x1 ++ x2) -> a <> NULL) as Hnz.
  { destruct Hd as [[Hz _]%NoDup_cons _]. intros a Hin ->. done. }
  pose proof (Hnz _ Hia) as Hz1. pose proof (Hnz _ Hib) as Hz2.
  unfold list_insert. replace (NULL =? final l x1) with false by lia.
  heap_run. replace (NULL =? first (tail l) x2) with false by lia. heap_run.
  eexists; split; [done|].
  apply splice_step; [done|done|dom_same|..]; intros; simplify_map_eq; done.
Qed.

(** Inserting after the tail sentinel falls back on [list_add_tail]. *)
Lemma insert_tail_run l xs n : Q !! l = Some xs ->
  list_insert l n (tail l) h = list_add_tail l n h.
Proof.
  intros Hl. destruct (tail_cell _ _ Hl) as [Ht Hnz].
  unfold list_insert. replace (NULL =? tail l) with false by lia.
  unfold mbind at 1, H_bind at 1, get_next at 1. rewrite Ht. done.
Qed.

Lemma find_scan_run l s x1 x2 fuel : Q !! l = Some (x1 ++ x2) ->
  (length x2 < fuel)%nat ->
  (forall x, x ∈ x2 -> exists c nm, nodes h !! x = Some c /\ name c = Some nm) ->
  find_scan fuel (Some s) (first (tail l) x2) h = Some (find_name h s x2, h).
Proof.
  revert x1 fuel. induction x2 as [|x x2 IH]; intros x1 fuel Hl Hf Hx;
    (destruct fuel as [|fuel]; simpl in Hf; [lia|]); simpl.
  - rewrite app_nil_r in Hl. destruct (tail_cell _ _ Hl) as [Ht _]. by heap_run.
  - destruct (node_cell _ _ _ _ Hl) as [Hc Hnn].
    destruct (Hx x ltac:(set_solver)) as (c & nm & Hcx & Hnm).
    assert (negb (NULL =? first (tail l) x2) = true) as Hb by lia.
    unfold has_name. heap_run. rewrite Hb. heap_run.
    rewrite Hnm. simpl. heap_run.
    destruct (decide (nm = s)) as [->|Hne].
    + rewrite !bool_decide_true by done. done.
    + rewrite !bool_decide_false by congruence. heap_run.
      apply (IH (x1 ++ [x])); [by rewrite <- app_assoc|lia|set_solver].
Qed.

Lemma find_run l s xs : Q !! l = Some xs ->
  (forall x, x ∈ xs -> exists c nm, nodes h !! x = Some c /\ name c = Some nm) ->
  list_find l (Some s) h = Some (find_name h s xs, h).
Proof.
  intros Hl Hx. pose proof (head_cell _ _ Hl) as Hh. unfold list_find, get_next.
  unfold mbind at 1, H_bind at 1. rewrite Hh. cbn [mbind option_bind next].
  eapply (find_scan_run l s []); [done|by eapply walk_bound_ok|done].
Qed.
End refinement.

#[global] Arguments chain : simpl never.
