(* ===== verification/ListSpec.v ===== *)
(** * The contract of the list component

    The abstract machine the list functions implement (an executable function
    on abstract queues, undefined where a caller breaks the contract), the
    simulation of every sequence of calls by it, and what the priority queue
    built from [list_enqueue] and [list_rem_head] delivers. *)

From S2P Require Import Prelude Heap Lists.

(** ** Calls of [src/list.c] and their results *)

Inductive list_op :=
  | OpInit (l : addr)
  | OpIsEmpty (l : addr)
  | OpAddTail (l n : addr)
  | OpGetHead (l : addr)
  | OpRemHead (l : addr)
  | OpInsert (l n p : addr)
  | OpEnqueue (l n : addr)
  | OpFind (l : addr) (s : string)
  | OpUnlink (l n : addr).

Inductive list_res := RUnit | RBool (b : bool) | RPtr (a : addr).

(** The concrete call; the list an [OpUnlink] names is implicit in the code. *)
Definition exec_op (o : list_op) : HM list_res :=
  match o with
  | OpInit l => list_init l;; mret RUnit
  | OpIsEmpty l => b ← list_is_empty l; mret (RBool b)
  | OpAddTail l n => list_add_tail l n;; mret RUnit
  | OpGetHead l => a ← list_get_head l; mret (RPtr a)
  | OpRemHead l => a ← list_rem_head l; mret (RPtr a)
  | OpInsert l n p => list_insert l n p;; mret RUnit
  | OpEnqueue l n => list_enqueue l n;; mret RUnit
  | OpFind l s => a ← list_find l (Some s); mret (RPtr a)
  | OpUnlink _ n => list_unlink n;; mret RUnit
  end.

Fixpoint exec_ops (os : list list_op) : HM (list list_res) :=
  match os with
  | [] => mret []
  | o :: os' => r ← exec_op o; rs ← exec_ops os'; mret (r :: rs)
  end.

(** ** The abstract machine *)

#[global] Instance unowned_dec Q a : Decision (unowned Q a).
Proof.
  refine (cast_if (decide (map_Forall (fun l xs => a ∉ chain l xs) Q))); done.
Defined.

(** Insertion after [p], the head of the list or one of its nodes. *)
Fixpoint insert_after (p n x : addr) (xs : list Z) : list Z :=
  if decide (p = x) then n :: xs
  else match xs with [] => [] | y :: ys => y :: insert_after p n y ys end.

Section abstract.
(** The addresses that hold a list cell, and the names and priorities of
    the nodes: no list function changes them. *)
Context (D : gset Z) (N : gmap Z Node).

Definition usable (Q : Queues) (n : addr) : Prop :=
  n ∈ D /\ n <> NULL /\ unowned Q n.

#[global] Instance usable_dec Q n : Decision (usable Q n).
Proof. unfold usable. apply _. Defined.

Definition all_prio (xs : list Z) : Prop := Forall (fun x => is_Some (N !! x)) xs.
Definition all_named (xs : list Z) : Prop :=
  Forall (fun x => is_Some (N !! x ≫= name)) xs.

(** A call outside the contract has no result.  Neither has [list_insert] with
    [prev = NULL], for which [martos.h] promises what the code does not do. *)
Definition abs_op (o : list_op) (Q : Queues) : option (list_res * Queues) :=
  match o with
  | OpInit l =>
      guard (usable (delete l Q) l);; guard (usable (delete l Q) (tail l));;
      Some (RUnit, <[l := []]> Q)
  | OpIsEmpty l => xs ← Q !! l; Some (RBool (bool_decide (xs = [])), Q)
  | OpAddTail l n =>
      xs ← Q !! l; guard (usable Q n);; Some (RUnit, <[l := xs ++ [n]]> Q)
  | OpGetHead l => xs ← Q !! l; Some (RPtr (first NULL xs), Q)
  | OpRemHead l =>
      xs ← Q !! l;
      match xs with
      | [] => Some (RPtr NULL, Q)
      | x :: xs' => Some (RPtr x, <[l := xs']> Q)
      end
  | OpInsert l n p =>
      if decide (p = NULL) then None
      else
        xs ← Q !! l; guard (usable Q n);;
        if decide (p = tail l) then Some (RUnit, <[l := xs ++ [n]]> Q)
        else guard (p ∈ l :: xs);; Some (RUnit, <[l := insert_after p n l xs]> Q)
  | OpEnqueue l n =>
      xs ← Q !! l; guard (usable Q n);; guard (all_prio (n :: xs));;
      Some (RUnit, <[l := prio_insert (fun a => from_option prio 0 (N !! a)) n xs]> Q)
  | OpFind l s =>
      xs ← Q !! l; guard (all_named xs);;
      Some (RPtr (find_name (mkHeap ∅ N) s xs), Q)
  | OpUnlink l n =>
      xs ← Q !! l; guard (n ∈ xs);; Some (RUnit, <[l := remove_elem n xs]> Q)
  end.

Fixpoint abs_ops (os : list list_op) (Q : Queues) : option (list list_res * Queues) :=
  match os with
  | [] => Some ([], Q)
  | o :: os' =>
      '(r, Q') ← abs_op o Q; '(rs, Q'') ← abs_ops os' Q'; Some (r :: rs, Q'')
  end.
End abstract.

(** The heap [h] is in the abstract state [Q] of the machine for [D], [N]. *)
Record refines (D : gset Z) (N : gmap Z Node) (Q : Queues) (h : Heap) : Prop := mkRef {
  ref_dom : dom (links h) = D;
  ref_nodes : nodes h = N;
  ref_reps : reps (links h) Q }.

(** ** Single calls *)

Lemma list_step_refines {A} D N Q Q' h S (r : A) res :
  refines D N Q h -> list_step h S Q' r res ->
  exists h', res = Some (r, h') /\ refines D N Q' h'.
Proof.
  intros [Hd Hn Hr] (m' & -> & Hr' & [Hd' _]). eexists; split; [done|].
  split; simpl; congruence.
Qed.

Lemma usable_free D N Q h n : refines D N Q h -> usable D Q n -> free_node (links h) Q n.
Proof.
  intros [Hd _ _] (Hin & Hn & Hu). split; [|done..].
  apply elem_of_dom. congruence.
Qed.

Lemma insert_after_split p n x xs : p ∈ x :: xs -> NoDup (x :: xs) ->
  exists x1 x2, xs = x1 ++ x2 /\ p = final x x1 /\ insert_after p n x xs = x1 ++ n :: x2.
Proof.
  revert x. induction xs as [|y ys IH]; intros x Hp Hnd; simpl.
  - apply list_elem_of_singleton in Hp as ->. rewrite decide_True by done.
    by exists [], [].
  - case_decide as E; [subst; by exists [], (y :: ys)|].
    apply NoDup_cons in Hnd as [_ Hnd].
    destruct (IH y) as (x1 & x2 & -> & -> & ->); [set_solver|done|].
    by exists (y :: x1), x2.
Qed.

Lemma bind_ok {A B} (m : HM A) (f : A -> HM B) h a h' :
  m h = Some (a, h') -> (m ≫= f) h = f a h'.
Proof. intros E. unfold mbind, H_bind. by rewrite E. Qed.

Lemma queue_nodup m Q l xs : reps m Q -> Q !! l = Some xs ->
  NoDup (l :: xs) /\ tail l ∉ l :: xs.
Proof.
  intros Hr Hl. destruct (reps_dll _ _ Hr _ _ Hl) as [[_ Hnd]%NoDup_cons _].
  unfold chain in Hnd. rewrite app_comm_cons in Hnd.
  apply NoDup_app in Hnd as (H1 & H2 & _). split; [done|]. intros Hin.
  by eapply (H2 (tail l)), list_elem_of_singleton.
Qed.

(** An operation that writes, or only reads, followed by its result. *)
Lemma exec_step {A} (m : HM A) D N Q Q1 h (a : A) (f : A -> list_res) S :
  refines D N Q h -> list_step h S Q1 a (m h) ->
  exists h', (x ← m; mret (f x)) h = Some (f a, h') /\ refines D N Q1 h'.
Proof.
  intros Href Hs. destruct (list_step_refines _ _ _ _ _ _ _ _ Href Hs) as (h' & E & ?).
  exists h'. by rewrite (bind_ok _ _ _ _ _ E).
Qed.

Lemma exec_read {A} (m : HM A) D N Q h (a : A) (f : A -> list_res) :
  refines D N Q h -> m h = Some (a, h) ->
  exists h', (x ← m; mret (f x)) h = Some (f a, h') /\ refines D N Q h'.
Proof. intros Href E. exists h. by rewrite (bind_ok _ _ _ _ _ E). Qed.

Lemma exec_op_refines D N Q Q' h o r :
  refines D N Q h -> abs_op D N o Q = Some (r, Q') ->
  exists h', exec_op o h = Some (r, h') /\ refines D N Q' h'.
Proof.
  intros Href Habs. pose proof (ref_reps _ _ _ _ Href) as Hr.
  pose proof (ref_nodes _ _ _ _ Href) as HN.
  destruct o as [l|l|l n|l|l|l n p|l n|l s|l n]; simpl in Habs;
    try (case_decide as Hp; [done|]);
    repeat match type of Habs with
    | (guard _ ≫= _) = _ => let Hg := fresh "Hg" in apply bind_Some in Habs as (Hg & _ & Habs)
    | (_ ≫= _) = _ => apply bind_Some in Habs as (xs & Hl & Habs)
    end; simplify_eq/=.
  - destruct Hg as (Hin1 & Hn1 & Hu1), Hg0 as (Hin2 & Hn2 & Hu2).
    rewrite <- (ref_dom _ _ _ _ Href) in Hin1, Hin2.
    apply elem_of_dom in Hin1 as [c1 ?], Hin2 as [c2 ?].
    eapply (exec_step _ _ _ _ _ _ tt (fun _ => RUnit)); [done|]. by eapply init_step.
  - eapply (exec_read _ _ _ _ _ _ RBool); [done|]. by apply (is_empty_run h _ Hr).
  - eapply (exec_step _ _ _ _ _ _ tt (fun _ => RUnit)); [done|].
    apply add_tail_step; [done..|]. by eapply usable_free.
  - eapply (exec_read _ _ _ _ _ _ RPtr); [done|]. by apply (get_head_run h _ Hr).
  - destruct xs as [|x xs]; simplify_eq/=.
    + eapply (exec_read _ _ _ _ _ _ RPtr); [done|]. by apply (rem_head_nil h _ Hr).
    + eapply (exec_step _ _ _ _ _ _ x RPtr); [done|]. by apply rem_head_step.
  - eapply usable_free in Hg; [|done].
    case_decide as Ht; simplify_eq/=.
    + eapply (exec_step _ _ _ _ _ _ tt (fun _ => RUnit)); [done|].
      rewrite (insert_tail_run h _ Hr l xs n Hl). by apply add_tail_step.
    + apply bind_Some in Habs as (Hpin & _ & Habs). simplify_eq/=.
      destruct (queue_nodup _ _ _ _ Hr Hl) as [Hnd _].
      destruct (insert_after_split p n l xs Hpin Hnd) as (x1 & x2 & -> & -> & ->).
      eapply (exec_step _ _ _ _ _ _ tt (fun _ => RUnit)); [done|]. by apply insert_step.
  - eapply (exec_step _ _ _ _ _ _ tt (fun _ => RUnit)); [done|].
    apply Forall_cons in Hg0 as [Hpn Hpx]. rewrite Forall_forall in Hpx.
    assert (prio_insert (fun a => from_option prio 0 (nodes h !! a)) n xs
      = prio_insert (prio_of h) n xs) as -> by done.
    apply enqueue_step; [done..|by eapply usable_free|done|done].
  - eapply (exec_read _ _ _ _ _ _ RPtr); [done|]. 
    assert (find_name {| links := ∅; nodes := nodes h |} s xs = find_name h s xs) as ->.
    { clear. induction xs as [|x xs IH]; [done|]. simpl. by rewrite IH. }
    apply (find_run h _ Hr); [done|]. unfold all_named in Hg. rewrite Forall_forall in Hg. intros x Hx.
    destruct (Hg x Hx) as [nm E]. apply bind_Some in E as (c & ? & ?). eauto.
  - apply list_elem_of_split in Hg as (x1 & x2 & ->).
    destruct (queue_nodup _ _ _ _ Hr Hl) as [[_ Hnd]%NoDup_cons _].
    apply NoDup_app in Hnd as (_ & Hx1 & [Hx2 _]%NoDup_cons).
    rewrite remove_elem_middle; [|intros Hin; by eapply Hx1; [|left]|done].
    eapply (exec_step _ _ _ _ _ _ tt (fun _ => RUnit)); [done|]. by apply unlink_step.
Qed.

(** ** Priority insertion *)

Section prio_insert.
Context (pr : Z -> Z).

Lemma prio_insert_perm n xs : Permutation (prio_insert pr n xs) (n :: xs).
Proof.
  induction xs as [|x xs IH]; simpl; [done|]. case_bool; [done|].
  rewrite IH. apply Permutation_swap.
Qed.

Lemma prio_insert_sorted n xs :
  StronglySorted (fun a b => pr b <= pr a) xs ->
  StronglySorted (fun a b => pr b <= pr a) (prio_insert pr n xs).
Proof.
  induction 1 as [|x xs Hs IH Hx]; simpl; [by repeat constructor|].
  case_bool; norm_bool.
  - constructor; [by constructor|]. constructor; [lia|].
    eapply Forall_impl; [exact Hx|]. simpl. lia.
  - constructor; [done|]. rewrite prio_insert_perm. by constructor.
Qed.

(** Equal priorities keep their order of arrival. *)
Lemma prio_insert_stable n xs p :
  StronglySorted (fun a b => pr b <= pr a) xs ->
  filter (fun a => pr a = p) (prio_insert pr n xs) =
    filter (fun a => pr a = p) xs ++ filter (fun a => pr a = p) [n].
Proof.
  induction 1 as [|x xs Hs IH Hx]; simpl; [done|].
  case_bool; norm_bool.
  - rewrite (filter_cons _ n (x :: xs)). rewrite (filter_cons _ n []).
    case_decide as Hn; simpl; [|by rewrite app_nil_r].
    rewrite (filter_none _ (x :: xs)); [done|].
    constructor; [lia|]. eapply Forall_impl; [exact Hx|]. simpl. lia.
  - rewrite !(filter_cons _ x). case_decide; simpl; by rewrite IH.
Qed.

(** Where the new element goes: behind every element at least as high,
    before every lower one. *)
Lemma prio_insert_head n xs : StronglySorted (fun a b => pr b <= pr a) xs ->
  forall x, x ∈ xs -> pr (first NULL (prio_insert pr n xs)) >= pr x.
Proof.
  intros Hs x Hx. destruct Hs as [|y ys Hs Hy]; [set_solver|]. simpl.
  assert (pr x <= pr y).
  { apply elem_of_cons in Hx as [->|Hx]; [lia|].
    rewrite Forall_forall in Hy. by apply Hy. }
  case_bool; norm_bool; simpl; lia.
Qed.
End prio_insert.

Abbreviation prio_in N := (fun a => from_option prio 0 (N !! a)).
Abbreviation by_prio N := (StronglySorted (fun a b => prio_in N b <= prio_in N a)).

(** A batch of insertions. *)
Definition enqueue_all (N : gmap Z Node) (xs ns : list Z) : list Z :=
  foldl (fun ys n => prio_insert (prio_in N) n ys) xs ns.

Lemma enqueue_all_perm N xs ns : Permutation (enqueue_all N xs ns) (xs ++ ns).
Proof.
  revert xs. induction ns as [|n ns IH]; intros xs; simpl; [by rewrite app_nil_r|].
  rewrite IH, prio_insert_perm. simpl. apply Permutation_middle.
Qed.

Lemma enqueue_all_sorted N xs ns : by_prio N xs -> by_prio N (enqueue_all N xs ns).
Proof.
  revert xs. induction ns as [|n ns IH]; intros xs Hs; simpl; [done|].
  apply IH. by apply prio_insert_sorted.
Qed.

Lemma enqueue_all_stable N xs ns p : by_prio N xs ->
  filter (fun a => prio_in N a = p) (enqueue_all N xs ns) =
    filter (fun a => prio_in N a = p) xs ++ filter (fun a => prio_in N a = p) ns.
Proof.
  revert xs. induction ns as [|n ns IH]; intros xs Hs; simpl; [by rewrite app_nil_r|].
  rewrite IH by by apply prio_insert_sorted.
  rewrite prio_insert_stable by done. rewrite <- app_assoc. f_equal.
  symmetry. apply (filter_app _ [n] ns).
Qed.

(** ** Runs of calls *)

Lemma exec_ops_cons o os h r h1 rs h2 :
  exec_op o h = Some (r, h1) -> exec_ops os h1 = Some (rs, h2) ->
  exec_ops (o :: os) h = Some (r :: rs, h2).
Proof. intros E1 E2. simpl. by rewrite (bind_ok _ _ _ _ _ E1), (bind_ok _ _ _ _ _ E2). Qed.

Lemma exec_ops_app os1 os2 h rs1 h1 rs2 h2 :
  exec_ops os1 h = Some (rs1, h1) -> exec_ops os2 h1 = Some (rs2, h2) ->
  exec_ops (os1 ++ os2) h = Some (rs1 ++ rs2, h2).
Proof.
  revert h rs1. induction os1 as [|o os1 IH]; intros h rs1 E1 E2; simpl in E1.
  { unfold mret, H_ret in E1. by simplify_eq/=. }
  unfold mbind, H_bind, mret, H_ret in E1.
  destruct (exec_op o h) as [[r h']|] eqn:Eo; [|done].
  destruct (exec_ops os1 h') as [[rs h'']|] eqn:Eos; [|done]. simplify_eq/=.
  rewrite (bind_ok _ _ _ _ _ Eo). by rewrite (bind_ok _ _ _ _ _ (IH _ _ Eos E2)).
Qed.

Lemma unowned_update Q l xs xs' n :
  Q !! l = Some xs -> unowned Q n -> n ∉ xs' -> unowned (<[l := xs']> Q) n.
Proof.
  intros Hl Hu Hn l1 xs1 [[<- <-]|[_ H1]]%lookup_insert_Some; [|by eauto].
  specialize (Hu _ _ Hl). unfold chain in *. set_solver.
Qed.

Lemma exec_enqueue_all D N l ns Q xs h :
  refines D N Q h -> Q !! l = Some xs -> NoDup ns -> (forall n, n ∈ ns -> usable D Q n) ->
  all_prio N (xs ++ ns) ->
  exists h', exec_ops (map (OpEnqueue l) ns) h = Some (map (fun _ => RUnit) ns, h') /\
    refines D N (<[l := enqueue_all N xs ns]> Q) h'.
Proof.
  revert Q xs h. induction ns as [|n ns IH]; intros Q xs h Href Hl Hnd Hu Hp; simpl.
  { exists h. by rewrite insert_id. }
  apply NoDup_cons in Hnd as [Hn Hnd].
  apply Forall_app in Hp as [Hpx [Hpn Hpns]%Forall_cons].
  destruct (exec_op_refines D N Q (<[l := prio_insert (prio_in N) n xs]> Q) h (OpEnqueue l n) RUnit)
    as (h1 & E1 & Href1); [done| |].
  { simpl. rewrite Hl. simpl.
    assert (usable D Q n) as Hun by (apply Hu; set_solver).
    assert (all_prio N (n :: xs)) as Hall by by constructor.
    rewrite (option_guard_True (usable D Q n)) by done.
    by rewrite (option_guard_True (all_prio N (n :: xs))). }
  destruct (IH (<[l := prio_insert (prio_in N) n xs]> Q) (prio_insert (prio_in N) n xs) h1)
    as (h' & E2 & Href2); [done|by simplify_map_eq|done|..].
  - intros n' Hn'. destruct (Hu n') as (? & ? & Hu'); [set_solver|]. split_and!; [done..|].
    eapply unowned_update; [exact Hl|done|]. rewrite prio_insert_perm.
    specialize (Hu' _ _ Hl). unfold chain in Hu'. set_solver.
  - apply Forall_app. split; [|done]. rewrite prio_insert_perm. by constructor.
  - exists h'. split; [by eapply (exec_ops_cons (OpEnqueue l n))|]. by rewrite insert_insert_eq in Href2.
Qed.

Lemma exec_drain D N l xs Q h : refines D N Q h -> Q !! l = Some xs ->
  exists h', exec_ops (repeat (OpRemHead l) (length xs)) h = Some (map RPtr xs, h') /\
    refines D N (<[l := []]> Q) h'.
Proof.
  revert Q h. induction xs as [|x xs IH]; intros Q h Href Hl; simpl.
  { exists h. by rewrite insert_id. }
  destruct (exec_op_refines D N Q (<[l := xs]> Q) h (OpRemHead l) (RPtr x))
    as (h1 & E1 & Href1); [done|by simpl; rewrite Hl|].
  destruct (IH (<[l := xs]> Q) h1) as (h' & E2 & Href2); [done|by simplify_map_eq|].
  exists h'. split; [by eapply (exec_ops_cons (OpRemHead l))|]. by rewrite insert_insert_eq in Href2.
Qed.

(** ** Properties *)

(** C16. Every sequence of calls of the functions of [src/list.c] that keeps
    their contract terminates without touching memory outside the lists and
    computes, on the doubly linked heap structure, exactly the results and the
    queues of the abstract machine.  [list_insert] with [prev = NULL] is no part of
    the machine: [martos.h] promises an insertion at the head of the list, but
    the code, for any arguments, does nothing. *)
Theorem list_calls_refine D N Q h os rs Q' :
  refines D N Q h -> abs_ops D N os Q = Some (rs, Q') ->
  (exists h', exec_ops os h = Some (rs, h') /\ refines D N Q' h') /\
  forall l n, exec_op (OpInsert l n NULL) h = Some (RUnit, h).
Proof.
  intros Href Habs. split; [|done]. revert Href Habs. revert Q h rs. induction os as [|o os IH]; intros Q h rs Href Habs; simpl in Habs.
  { simplify_eq. by exists h. }
  apply bind_Some in Habs as ([r Q1] & E1 & Habs).
  apply bind_Some in Habs as ([rs' Q2] & E2 & ?). simplify_eq/=.
  destruct (exec_op_refines _ _ _ _ _ _ _ Href E1) as (h1 & ? & Href1).
  destruct (IH _ _ _ Href1 E2) as (h2 & ? & ?). eauto using exec_ops_cons.
Qed.

(** C17. Enqueueing nodes one by one on an empty list and removing the head as
    often returns exactly these nodes, highest priority first, and first in
    first out among nodes of the same priority; the list is empty again. *)
Theorem enqueue_drain_sorts D N Q h l ns :
  refines D N Q h -> Q !! l = Some [] -> NoDup ns ->
  (forall n, n ∈ ns -> usable D Q n) -> all_prio N ns ->
  exists out h',
    exec_ops (map (OpEnqueue l) ns ++ repeat (OpRemHead l) (length ns)) h =
      Some (map (fun _ => RUnit) ns ++ map RPtr out, h') /\
    Permutation out ns /\ by_prio N out /\
    (forall p, filter (fun a => prio_in N a = p) out =
               filter (fun a => prio_in N a = p) ns) /\
    refines D N Q h'.
Proof.
  intros Href Hl Hnd Hu Hp.
  destruct (exec_enqueue_all D N l ns Q [] h) as (h1 & E1 & Href1); [done..|].
  pose proof (enqueue_all_perm N [] ns) as Hperm.
  destruct (exec_drain D N l (enqueue_all N [] ns) _ h1 Href1) as (h2 & E2 & Href2);
    [by simplify_map_eq|].
  rewrite insert_insert_eq, insert_id in Href2 by done.
  exists (enqueue_all N [] ns), h2. split_and!; [|done|..|done].
  - eapply exec_ops_app; [done|]. by rewrite (Permutation_length Hperm) in E2.
  - apply enqueue_all_sorted. constructor.
  - intros p. by rewrite enqueue_all_stable by constructor.
Qed.

(** ** A concrete heap *)

(** An uninitialised list at 16, three nodes at 100, 200, 300. *)
Definition demo_nodes : gmap Z Node :=
  list_to_map [(100, mkNode (Some "one") 3); (200, mkNode (Some "two") 8);
               (300, mkNode (Some "three") 3)].
Definition demo_heap : Heap :=
  mkHeap (list_to_map ((fun a => (a, mkMin NULL NULL)) <$> [16; 24; 100; 200; 300]))
         demo_nodes.
Definition demo_ops : list list_op :=
  [OpInit 16; OpIsEmpty 16; OpRemHead 16; OpAddTail 16 100; OpAddTail 16 200;
   OpFind 16 "two"; OpInsert 16 300 100; OpUnlink 16 200; OpRemHead 16;
   OpEnqueue 16 200; OpGetHead 16; OpFind 16 "one"].

Lemma demo_refines_empty :
  refines (dom (links demo_heap)) demo_nodes ∅ demo_heap.
Proof. split; [done..|]. split; intros *; by rewrite lookup_empty. Qed.

Lemma list_calls_refine_witness : exists h',
  exec_ops demo_ops demo_heap =
    Some ([RUnit; RBool true; RPtr NULL; RUnit; RUnit; RPtr 200; RUnit; RUnit;
           RPtr 100; RUnit; RPtr 200; RPtr NULL], h') /\
  refines (dom (links demo_heap)) demo_nodes {[16 := [200; 300]]} h'.
Proof.
  apply (proj1 (list_calls_refine (dom (links demo_heap)) demo_nodes ∅ demo_heap demo_ops _ _
    demo_refines_empty ltac:(vm_compute; reflexivity))).
Defined.

Definition demo_heap_init : Heap :=
  match list_init 16 demo_heap with Some (_, h) => h | None => demo_heap end.

Lemma demo_refines_init :
  refines (dom (links demo_heap)) demo_nodes {[16 := []]} demo_heap_init.
Proof.
  destruct (exec_op_refines (dom (links demo_heap)) demo_nodes ∅ {[16 := []]}
    demo_heap (OpInit 16) RUnit demo_refines_empty) as (h' & E & Href).
  - vm_compute. reflexivity.
  - assert (h' = demo_heap_init) as <-; [|done].
    vm_compute in E. injection E as <-. vm_compute. reflexivity.
Qed.

Lemma enqueue_drain_sorts_witness : exists out h',
  exec_ops (map (OpEnqueue 16) [100; 200; 300] ++ repeat (OpRemHead 16) 3) demo_heap_init =
    Some ([RUnit; RUnit; RUnit] ++ map RPtr out, h') /\
  Permutation out [100; 200; 300].
Proof.
  destruct (enqueue_drain_sorts (dom (links demo_heap)) demo_nodes {[16 := []]}
    demo_heap_init 16 [100; 200; 300]) as (out & h' & E & Hp & _).
  - apply demo_refines_init.
  - reflexivity.
  - apply (bool_decide_unpack _). vm_compute. exact I.
  - intros n Hn. apply (bool_decide_unpack _).
    repeat (apply elem_of_cons in Hn as [->|Hn]; [vm_compute; exact I|]).
    by apply not_elem_of_nil in Hn.
  - apply (bool_decide_unpack _). vm_compute. exact I.
  - exists out, h'. split; [exact E|exact Hp].
Defined.
