(* ===== verification/Machine.v ===== *)
(** * The machine and the kernel's data

    The types of [include/martos/martos.h] and of
    [platforms/stm32f4-discovery/platform.h], the global variables of
    [src/data.c], the processor state the kernel depends on (interrupt mask,
    handler mode, pending PendSV, timer tick), and the monad in which the
    kernel functions are written.  The monad makes the points where an
    interrupt can arrive explicit: wherever interrupts become or are enabled,
    a computation in thread mode returns [Preempt] with its rest, which is
    resumed in whatever state the handlers and the other tasks leave. *)

From S2P Require Import Prelude Heap.

(** ** Constants of [martos.h] and [default_config.h] *)

Definition NODE_PRIO_MIN : Z := - 2 ^ 15.
Definition NODE_PRIO_MAX : Z := 2 ^ 15 - 1.
Definition TASK_PRIO_MIN : Z := - 2 ^ 15.
Definition TASK_PRIO_MAX : Z := 2 ^ 15 - 1 - 1.
Definition TASK_PRIO_EXCLUSIVE : Z := 2 ^ 15 - 1.
Definition SIGF_SINGLE : Z := 1.
Definition SIGNALS_WIDTH : Z := 16.
Definition QUANTUM : Z := 4.
Definition INIT_TASK_STACK_SIZE : Z := 2048.

(** ** Types of [martos.h] and [platform.h] *)

Inductive Task_State :=
  | TASK_INVALID
  | TASK_INITIALIZED
  | TASK_RUNNING
  | TASK_READY
  | TASK_WAITING.

Inductive MsgPort_Action := MSGPORT_INVALID | MSGPORT_SIGNAL | MSGPORT_IGNORE.

Inductive Timer_Operation := TIMER_NONE | TIMER_DELAY | TIMER_ALARM.

Inductive Timer_Status :=
  | TIMER_INVALID
  | TIMER_INITIALIZED
  | TIMER_ADDED
  | TIMER_DONE
  | TIMER_ABORTED.

#[global] Instance Task_State_eq_dec : EqDecision Task_State.
Proof. solve_decision. Defined.
#[global] Instance MsgPort_Action_eq_dec : EqDecision MsgPort_Action.
Proof. solve_decision. Defined.
#[global] Instance Timer_Operation_eq_dec : EqDecision Timer_Operation.
Proof. solve_decision. Defined.
#[global] Instance Timer_Status_eq_dec : EqDecision Timer_Status.
Proof. solve_decision. Defined.

(** [TaskContext]: the saved stack frame and the limits of the stack. *)
Record TaskContext := mkContext { frame : addr; bos : addr; tos : addr }.

(** [Task], behind its [node]. *)
Record Task := mkTask {
  context : TaskContext;
  sig_alloc : Z;
  sig_wait : Z;
  sig_recvd : Z;
  t_id_nestcnt : Z;
  state : Task_State }.

Definition set_context (v : TaskContext) (t : Task) : Task :=
  mkTask v (sig_alloc t) (sig_wait t) (sig_recvd t) (t_id_nestcnt t) (state
    t).
Definition set_sig_alloc (v : Z) (t : Task) : Task :=
  mkTask (context t) v (sig_wait t) (sig_recvd t) (t_id_nestcnt t) (state t).
Definition set_sig_wait (v : Z) (t : Task) : Task :=
  mkTask (context t) (sig_alloc t) v (sig_recvd t) (t_id_nestcnt t) (state t).
Definition set_sig_recvd (v : Z) (t : Task) : Task :=
  mkTask (context t) (sig_alloc t) (sig_wait t) v (t_id_nestcnt t) (state t).
Definition set_t_id_nestcnt (v : Z) (t : Task) : Task :=
  mkTask (context t) (sig_alloc t) (sig_wait t) (sig_recvd t) v (state t).
Definition set_state (v : Task_State) (t : Task) : Task :=
  mkTask (context t) (sig_alloc t) (sig_wait t) (sig_recvd t) (t_id_nestcnt t)
    v.

(** [SemaphoreRequest], behind its [node]. *)
Record SemaphoreRequest := mkReq {
  waiter : addr;
  rq_signal : Z }.

Definition set_waiter (v : addr) (r : SemaphoreRequest) : SemaphoreRequest :=
  mkReq v (rq_signal r).
Definition set_rq_signal (v : Z) (r : SemaphoreRequest) : SemaphoreRequest :=
  mkReq (waiter r) v.

(** [MsgPort], behind its [message_list]. *)
Record MsgPort := mkPort {
  mp_task : addr;
  mp_signal : Z;
  action : MsgPort_Action }.

Definition set_mp_task (v : addr) (p : MsgPort) : MsgPort :=
  mkPort v (mp_signal p) (action p).
Definition set_mp_signal (v : Z) (p : MsgPort) : MsgPort :=
  mkPort (mp_task p) v (action p).
Definition set_action (v : MsgPort_Action) (p : MsgPort) : MsgPort :=
  mkPort (mp_task p) (mp_signal p) v.

(** [Timer], behind its [node]. *)
Record Timer := mkTimer {
  tm_task : addr;
  tm_signal : Z;
  delay : Z;
  tick : Z;
  op : Timer_Operation;
  status : Timer_Status }.

Definition set_tm_task (v : addr) (t : Timer) : Timer :=
  mkTimer v (tm_signal t) (delay t) (tick t) (op t) (status t).
Definition set_tm_signal (v : Z) (t : Timer) : Timer :=
  mkTimer (tm_task t) v (delay t) (tick t) (op t) (status t).
Definition set_delay (v : Z) (t : Timer) : Timer :=
  mkTimer (tm_task t) (tm_signal t) v (tick t) (op t) (status t).
Definition set_tick (v : Z) (t : Timer) : Timer :=
  mkTimer (tm_task t) (tm_signal t) (delay t) v (op t) (status t).
Definition set_op (v : Timer_Operation) (t : Timer) : Timer :=
  mkTimer (tm_task t) (tm_signal t) (delay t) (tick t) v (status t).
Definition set_status (v : Timer_Status) (t : Timer) : Timer :=
  mkTimer (tm_task t) (tm_signal t) (delay t) (tick t) (op t) v.

(** ** The state

    [primask], [handler], [pendsv]: interrupts are masked, an interrupt
    handler is active, PendSV is pending.  [id_nestcnt], [elapsed], [running]
    are the globals of [src/data.c], [timer_now] the one of [platform.c].  The
    rest is memory, by type of object and address: [sems] holds the [count] of
    a [Semaphore] (its [req_queue] is the list at the same address), [msgs]
    the [reply_port] of a [Message], [sysmsgs] the [ptr] of a [sys_msg_t],
    [words] the 32-bit words of the stacks; [psp] is the process stack
    pointer. *)
Record Kernel := mkKernel {
  primask : bool;
  handler : bool;
  pendsv : bool;
  id_nestcnt : Z;
  elapsed : Z;
  running : addr;
  timer_now : Z;
  heap : Heap;
  tasks : gmap Z Task;
  timer_objs : gmap Z Timer;
  sems : gmap Z Z;
  reqs : gmap Z SemaphoreRequest;
  ports : gmap Z MsgPort;
  msgs : gmap Z addr;
  sysmsgs : gmap Z addr;
  words : gmap Z Z;
  psp : addr }.

Definition set_primask (v : bool) (k : Kernel) : Kernel :=
  mkKernel v (handler k) (pendsv k) (id_nestcnt k) (elapsed k) (running k)
    (timer_now k) (heap k) (tasks k) (timer_objs k) (sems k) (reqs k) (ports
    k) (msgs k) (sysmsgs k) (words k) (psp k).
Definition set_handler (v : bool) (k : Kernel) : Kernel :=
  mkKernel (primask k) v (pendsv k) (id_nestcnt k) (elapsed k) (running k)
    (timer_now k) (heap k) (tasks k) (timer_objs k) (sems k) (reqs k) (ports
    k) (msgs k) (sysmsgs k) (words k) (psp k).
Definition set_pendsv (v : bool) (k : Kernel) : Kernel :=
  mkKernel (primask k) (handler k) v (id_nestcnt k) (elapsed k) (running k)
    (timer_now k) (heap k) (tasks k) (timer_objs k) (sems k) (reqs k) (ports
    k) (msgs k) (sysmsgs k) (words k) (psp k).
Definition set_id_nestcnt (v : Z) (k : Kernel) : Kernel :=
  mkKernel (primask k) (handler k) (pendsv k) v (elapsed k) (running k)
    (timer_now k) (heap k) (tasks k) (timer_objs k) (sems k) (reqs k) (ports
    k) (msgs k) (sysmsgs k) (words k) (psp k).
Definition set_elapsed (v : Z) (k : Kernel) : Kernel :=
  mkKernel (primask k) (handler k) (pendsv k) (id_nestcnt k) v (running k)
    (timer_now k) (heap k) (tasks k) (timer_objs k) (sems k) (reqs k) (ports
    k) (msgs k) (sysmsgs k) (words k) (psp k).
Definition set_running (v : addr) (k : Kernel) : Kernel :=
  mkKernel (primask k) (handler k) (pendsv k) (id_nestcnt k) (elapsed k) v
    (timer_now k) (heap k) (tasks k) (timer_objs k) (sems k) (reqs k) (ports
    k) (msgs k) (sysmsgs k) (words k) (psp k).
Definition set_timer_now (v : Z) (k : Kernel) : Kernel :=
  mkKernel (primask k) (handler k) (pendsv k) (id_nestcnt k) (elapsed k)
    (running k) v (heap k) (tasks k) (timer_objs k) (sems k) (reqs k) (ports
    k) (msgs k) (sysmsgs k) (words k) (psp k).
Definition set_heap (v : Heap) (k : Kernel) : Kernel :=
  mkKernel (primask k) (handler k) (pendsv k) (id_nestcnt k) (elapsed k)
    (running k) (timer_now k) v (tasks k) (timer_objs k) (sems k) (reqs k)
    (ports k) (msgs k) (sysmsgs k) (words k) (psp k).
Definition set_tasks (v : gmap Z Task) (k : Kernel) : Kernel :=
  mkKernel (primask k) (handler k) (pendsv k) (id_nestcnt k) (elapsed k)
    (running k) (timer_now k) (heap k) v (timer_objs k) (sems k) (reqs k)
    (ports k) (msgs k) (sysmsgs k) (words k) (psp k).
Definition set_timer_objs (v : gmap Z Timer) (k : Kernel) : Kernel :=
  mkKernel (primask k) (handler k) (pendsv k) (id_nestcnt k) (elapsed k)
    (running k) (timer_now k) (heap k) (tasks k) v (sems k) (reqs k) (ports k)
    (msgs k) (sysmsgs k) (words k) (psp k).
Definition set_sems (v : gmap Z Z) (k : Kernel) : Kernel :=
  mkKernel (primask k) (handler k) (pendsv k) (id_nestcnt k) (elapsed k)
    (running k) (timer_now k) (heap k) (tasks k) (timer_objs k) v (reqs k)
    (ports k) (msgs k) (sysmsgs k) (words k) (psp k).
Definition set_reqs (v : gmap Z SemaphoreRequest) (k : Kernel) : Kernel :=
  mkKernel (primask k) (handler k) (pendsv k) (id_nestcnt k) (elapsed k)
    (running k) (timer_now k) (heap k) (tasks k) (timer_objs k) (sems k) v
    (ports k) (msgs k) (sysmsgs k) (words k) (psp k).
Definition set_ports (v : gmap Z MsgPort) (k : Kernel) : Kernel :=
  mkKernel (primask k) (handler k) (pendsv k) (id_nestcnt k) (elapsed k)
    (running k) (timer_now k) (heap k) (tasks k) (timer_objs k) (sems k) (reqs
    k) v (msgs k) (sysmsgs k) (words k) (psp k).
Definition set_msgs (v : gmap Z addr) (k : Kernel) : Kernel :=
  mkKernel (primask k) (handler k) (pendsv k) (id_nestcnt k) (elapsed k)
    (running k) (timer_now k) (heap k) (tasks k) (timer_objs k) (sems k) (reqs
    k) (ports k) v (sysmsgs k) (words k) (psp k).
Definition set_sysmsgs (v : gmap Z addr) (k : Kernel) : Kernel :=
  mkKernel (primask k) (handler k) (pendsv k) (id_nestcnt k) (elapsed k)
    (running k) (timer_now k) (heap k) (tasks k) (timer_objs k) (sems k) (reqs
    k) (ports k) (msgs k) v (words k) (psp k).
Definition set_words (v : gmap Z Z) (k : Kernel) : Kernel :=
  mkKernel (primask k) (handler k) (pendsv k) (id_nestcnt k) (elapsed k)
    (running k) (timer_now k) (heap k) (tasks k) (timer_objs k) (sems k) (reqs
    k) (ports k) (msgs k) (sysmsgs k) v (psp k).
Definition set_psp (v : addr) (k : Kernel) : Kernel :=
  mkKernel (primask k) (handler k) (pendsv k) (id_nestcnt k) (elapsed k)
    (running k) (timer_now k) (heap k) (tasks k) (timer_objs k) (sems k) (reqs
    k) (ports k) (msgs k) (sysmsgs k) (words k) v.

(** The statically allocated lists [ready] and [waiting] of [src/data.c], the
    list [timers] of [src/timer.c] and [init_task] and its stack of
    [src/init.c].  The linker places them; only that they are apart matters. *)
Definition ready : addr := 536870912.
Definition waiting : addr := 536870928.
Definition timers : addr := 536870944.
Definition init_task : addr := 536870960.
Definition init_task_stack : addr := 536875008.

(** ** The monad

    A computation returns, or spins forever in a [while (1);] loop, or runs
    into undefined behaviour, or exceeds the bound on the number of times a
    task is switched back in while it waits, or reaches a point where
    interrupts are enabled and hands over to the environment. *)
Inductive Res (A : Type) :=
  | Ret (a : A) (k : Kernel)
  | Spin (k : Kernel)
  | Fault
  | NoFuel
  | Preempt (k : Kernel) (resume : Kernel -> Res A).
Arguments Ret {A} a k.
Arguments Spin {A} k.
Arguments Fault {A}.
Arguments NoFuel {A}.
Arguments Preempt {A} k resume.

Fixpoint bindR {A B} (f : A -> Kernel -> Res B) (r : Res A) : Res B :=
  match r with
  | Ret a k => f a k
  | Spin k => Spin k
  | Fault => Fault
  | NoFuel => NoFuel
  | Preempt k resume => Preempt k (fun k' => bindR f (resume k'))
  end.

Definition M (A : Type) : Type := Kernel -> Res A.
#[global] Instance M_ret : MRet M := fun A a k => Ret a k.
#[global] Instance M_bind : MBind M := fun A B f m k => bindR f (m k).

Definition fault {A} : M A := fun _ => Fault.
Definition spin {A} : M A := fun k => Spin k.
Definition out_of_fuel {A} : M A := fun _ => NoFuel.
Definition gets {A} (f : Kernel -> A) : M A := fun k => Ret (f k) k.
Definition modify (f : Kernel -> Kernel) : M unit := fun k => Ret tt (f k).

(** A list function. *)
Definition listop {A} (f : HM A) : M A := fun k =>
  match f (heap k) with
  | Some (a, h) => Ret a (set_heap h k)
  | None => Fault
  end.

(** Reading an object in memory. *)
Definition load {V} (sel : Kernel -> gmap Z V) (a : addr) : M V := fun k =>
  match sel k !! a with Some v => Ret v k | None => Fault end.

(** Updating a field of an object in memory. *)
Definition upd_task (t : addr) (f : Task -> Task) : M unit :=
  T ← load tasks t; modify (fun k => set_tasks (<[t := f T]> (tasks k)) k).
Definition upd_timer (t : addr) (f : Timer -> Timer) : M unit :=
  T ← load timer_objs t; modify (fun k => set_timer_objs (<[t := f T]> (timer_objs k)) k).
Definition upd_port (p : addr) (f : MsgPort -> MsgPort) : M unit :=
  P ← load ports p; modify (fun k => set_ports (<[p := f P]> (ports k)) k).
Definition upd_req (r : addr) (f : SemaphoreRequest -> SemaphoreRequest) : M unit :=
  X ← load reqs r; modify (fun k => set_reqs (<[r := f X]> (reqs k)) k).

(** ** Interrupts *)

(** Thread code with interrupts enabled can be preempted. *)
Definition interruptible (k : Kernel) : bool := negb (primask k) && negb (handler k).

Definition irq_window : M unit := fun k =>
  if interruptible k then Preempt k (fun k' => Ret tt k') else Ret tt k.

Definition __disable_irq : M unit := modify (set_primask true).
Definition __enable_irq : M unit := modify (set_primask false);; irq_window.

(** [id_nestcnt++] and [id_nestcnt--]: [NestCnt] is [int_fast16_t], 32 bits
    wide on this platform; signed overflow is undefined. *)
Definition add_nestcnt (d : Z) : M unit :=
  n ← gets id_nestcnt;
  if (- 2 ^ 31 <=? n + d) && (n + d <? 2 ^ 31)
  then modify (set_id_nestcnt (n + d)) else fault.

(** [void disable(void)] of [platform.c] *)
Definition disable : M unit :=
  irq_window;; __disable_irq;; add_nestcnt 1.

(** [void user_halt(void)] of [init.c] *)
Definition user_halt {A} : M A := disable;; spin.

(** [void abort(void)] of [platform.c] *)
Definition abort {A} : M A := (user_halt : M unit);; spin.

(** [void __assert_func(...)] of [platform.c], what a failing [assert] calls *)
Definition __assert_func {A} : M A := __disable_irq;; (abort : M unit);; spin.

Definition assert_that (b : bool) : M unit := if b then mret tt else __assert_func.

(** [void enable(void)] of [platform.c] *)
Definition enable : M unit :=
  n ← gets id_nestcnt;
  assert_that (-1 <=? n);;
  add_nestcnt (-1);;
  n ← gets id_nestcnt;
  if n <? 0 then __enable_irq else mret tt.

(** [void reschedule(void)] of [platform.c]: sets PendSV pending. *)
Definition reschedule : M unit := modify (set_pendsv true);; irq_window.
