(* ===== verification/Logic.v ===== *)
(** * A program logic for the kernel monad

    [wp I R m k Q]: started in [k], the computation [m] meets no undefined
    behaviour, no failing assertion and no fuel limit; wherever it can be
    preempted (or spins with interrupts enabled) the state satisfies [I], and
    if every resumption leads from the state [k1] of the preemption to a
    state [k2] with [R k1 k2], it ends with [Q].  With [I] false nothing may
    preempt [m], which is then an uninterrupted run. *)

From S2P Require Import Prelude Heap Lists Machine.

Section wp.
Context (I : Kernel -> Prop) (R : Kernel -> Kernel -> Prop).

Fixpoint wpR {A} (r : Res A) (Q : A -> Kernel -> Prop) : Prop :=
  match r with
  | Ret a k => Q a k
  | Spin k => I k
  | Fault | NoFuel => False
  | Preempt k resume => I k /\ forall k', R k k' -> wpR (resume k') Q
  end.

Definition wp {A} (m : M A) (k : Kernel) (Q : A -> Kernel -> Prop) : Prop :=
  wpR (m k) Q.

Lemma wpR_mono {A} (r : Res A) (Q Q' : A -> Kernel -> Prop) :
  (forall a k, Q a k -> Q' a k) -> wpR r Q -> wpR r Q'.
Proof.
  intros HQ. induction r as [a k|k| | |k f IH]; simpl; [by apply HQ|done..|].
  intros [? Hf]. split; [done|]. eauto.
Qed.

Lemma wpR_bind {A B} (r : Res A) (f : A -> Kernel -> Res B) Q :
  wpR (bindR f r) Q <-> wpR r (fun a k => wpR (f a k) Q).
Proof.
  induction r as [a k|k| | |k g IH]; simpl; [done..|].
  split; intros [? Hf]; (split; [done|]); intros; apply IH; eauto.
Qed.

Lemma wp_mono {A} (m : M A) k (Q Q' : A -> Kernel -> Prop) :
  wp m k Q -> (forall a k', Q a k' -> Q' a k') -> wp m k Q'.
Proof. intros ? HQ. by eapply wpR_mono. Qed.

Lemma wp_bind {A B} (m : M A) (f : A -> M B) k Q :
  wp m k (fun a k' => wp (f a) k' Q) -> wp (m ≫= f) k Q.
Proof. unfold wp, mbind, M_bind. by rewrite wpR_bind. Qed.

Lemma wp_unbind {A B} (m : M A) (f : A -> M B) k Q :
  wp (m ≫= f) k Q -> wp m k (fun a k' => wp (f a) k' Q).
Proof. unfold wp, mbind, M_bind. by rewrite wpR_bind. Qed.

Lemma wp_ret {A} (a : A) k (Q : A -> Kernel -> Prop) : Q a k -> wp (mret a) k Q.
Proof. done. Qed.

Lemma wp_gets {A} (f : Kernel -> A) k (Q : A -> Kernel -> Prop) :
  Q (f k) k -> wp (gets f) k Q.
Proof. done. Qed.

Lemma wp_modify f k (Q : unit -> Kernel -> Prop) : Q tt (f k) -> wp (modify f) k Q.
Proof. done. Qed.

Lemma wp_load {V} (sel : Kernel -> gmap Z V) a k v (Q : V -> Kernel -> Prop) :
  sel k !! a = Some v -> Q v k -> wp (load sel a) k Q.
Proof. unfold wp, load. by intros ->. Qed.

Lemma wp_upd_task t f k T (Q : unit -> Kernel -> Prop) :
  tasks k !! t = Some T -> Q tt (set_tasks (<[t := f T]> (tasks k)) k) ->
  wp (upd_task t f) k Q.
Proof. intros E HQ. unfold upd_task. by eapply wp_bind, wp_load. Qed.

Lemma wp_upd_timer t f k T (Q : unit -> Kernel -> Prop) :
  timer_objs k !! t = Some T ->
  Q tt (set_timer_objs (<[t := f T]> (timer_objs k)) k) -> wp (upd_timer t f) k Q.
Proof. intros E HQ. unfold upd_timer. by eapply wp_bind, wp_load. Qed.

Lemma wp_upd_port t f k T (Q : unit -> Kernel -> Prop) :
  ports k !! t = Some T ->
  Q tt (set_ports (<[t := f T]> (ports k)) k) -> wp (upd_port t f) k Q.
Proof. intros E HQ. unfold upd_port. by eapply wp_bind, wp_load. Qed.

Lemma wp_upd_req t f k T (Q : unit -> Kernel -> Prop) :
  reqs k !! t = Some T ->
  Q tt (set_reqs (<[t := f T]> (reqs k)) k) -> wp (upd_req t f) k Q.
Proof. intros E HQ. unfold upd_req. by eapply wp_bind, wp_load. Qed.

(** A list function, by its refinement lemma of [Lists.v]. *)
Lemma wp_list_step {A} (f : HM A) k S Q' (r : A) (Q : A -> Kernel -> Prop) :
  list_step (heap k) S Q' r (f (heap k)) ->
  (forall m', reps m' Q' -> same_except S (links (heap k)) m' ->
    Q r (set_heap (mkHeap m' (nodes (heap k))) k)) ->
  wp (listop f) k Q.
Proof. intros (m' & E & Hr & Hs) HQ. unfold wp, listop. rewrite E. by apply HQ. Qed.

(** A list function that only reads. *)
Lemma wp_list_read {A} (f : HM A) k (r : A) (Q : A -> Kernel -> Prop) :
  f (heap k) = Some (r, heap k) -> Q r k -> wp (listop f) k Q.
Proof. intros E HQ. unfold wp, listop. rewrite E. by destruct k. Qed.

Lemma wp_assert b k (Q : unit -> Kernel -> Prop) :
  b = true -> Q tt k -> wp (assert_that b) k Q.
Proof. by intros ->. Qed.

(** ** Interrupt control *)

Lemma wp_window k (Q : unit -> Kernel -> Prop) :
  (interruptible k = false -> Q tt k) ->
  (interruptible k = true -> I k /\ forall k', R k k' -> Q tt k') ->
  wp irq_window k Q.
Proof. unfold wp, irq_window. destruct (interruptible k); simpl; eauto. Qed.

Lemma wp_window_calm k (Q : unit -> Kernel -> Prop) :
  interruptible k = false -> Q tt k -> wp irq_window k Q.
Proof. unfold wp, irq_window. by intros ->. Qed.

Lemma wp_add_nestcnt d k (Q : unit -> Kernel -> Prop) :
  - 2 ^ 31 <= id_nestcnt k + d < 2 ^ 31 ->
  Q tt (set_id_nestcnt (id_nestcnt k + d) k) -> wp (add_nestcnt d) k Q.
Proof.
  intros Hd HQ. unfold add_nestcnt. eapply wp_bind, wp_gets.
  replace (_ && _) with true; [done|]. symmetry. apply andb_true_iff.
  split; [apply Z.leb_le|apply Z.ltb_lt]; lia.
Qed.
End wp.

Arguments wpR I R {A} r Q.
Arguments wp I R {A} m k Q : simpl never.

(** The state inside one more level of [disable]. *)
Definition lock (k : Kernel) : Kernel :=
  set_id_nestcnt (id_nestcnt k + 1) (set_primask true k).

(** The state after one level of [enable]. *)
Definition unlock (k : Kernel) : Kernel :=
  let k1 := set_id_nestcnt (id_nestcnt k - 1) k in
  if id_nestcnt k1 <? 0 then set_primask false k1 else k1.

(** The interrupt state [disable] and [enable] maintain between calls:
    interrupts are masked exactly inside a [disable], and the nesting depth
    is within the range of [int16_t], which [signal_wait] stores it in. *)
Record irq_ok (k : Kernel) : Prop := mkIrqOk {
  irq_mask : primask k = (0 <=? id_nestcnt k);
  irq_nest : -1 <= id_nestcnt k < 32000 }.

(** No interrupt handler can run: inside [disable] or inside a handler. *)
Definition calm (k : Kernel) : Prop := irq_ok k /\ interruptible k = false.

Lemma calm_frame k k' : primask k' = primask k -> handler k' = handler k ->
  id_nestcnt k' = id_nestcnt k -> calm k -> calm k'.
Proof.
  intros Ep Eh En [[Hm Hn] Hi]. split; [split; congruence|].
  unfold interruptible in *. by rewrite Ep, Eh.
Qed.

Lemma lock_calm k : irq_ok k -> id_nestcnt k < 31999 -> calm (lock k).
Proof.
  intros [Hm Hn] Hlt. split; [split; simpl|done]; [|lia].
  symmetry. apply Z.leb_le. lia.
Qed.

Section calls.
Context (I : Kernel -> Prop) (R : Kernel -> Kernel -> Prop).

Lemma wp_disable_calm k (Q : unit -> Kernel -> Prop) :
  calm k -> Q tt (lock k) -> wp I R disable k Q.
Proof.
  intros [[Hm Hn] Hi] HQ. unfold disable. eapply wp_bind, wp_window_calm; [done|].
  eapply wp_bind, wp_modify, wp_add_nestcnt; simpl; [lia|done].
Qed.

Lemma wp_disable k (Q : unit -> Kernel -> Prop) : irq_ok k ->
  (interruptible k = true -> I k) ->
  (forall k1, interruptible k = true /\ R k k1 \/ interruptible k = false /\ k1 = k ->
    - 2 ^ 31 <= id_nestcnt k1 + 1 < 2 ^ 31 /\ Q tt (lock k1)) ->
  wp I R disable k Q.
Proof.
  intros [Hm Hn] HI HQ. unfold disable. eapply wp_bind, wp_window; intros Hi.
  - eapply wp_bind, wp_modify, wp_add_nestcnt; simpl; apply HQ; auto.
  - split; [auto|]. intros k1 HR.
    eapply wp_bind, wp_modify, wp_add_nestcnt; simpl; apply HQ; auto.
Qed.

(** [enable] when the state remains calm behind it. *)
Lemma wp_enable_calm k (Q : unit -> Kernel -> Prop) :
  -1 <= id_nestcnt k < 2 ^ 31 -> interruptible (unlock k) = false ->
  Q tt (unlock k) -> wp I R enable k Q.
Proof.
  intros Hn Hi HQ. unfold enable. eapply wp_bind, wp_gets, wp_bind, wp_assert.
  { apply Z.leb_le. lia. }
  eapply wp_bind, wp_add_nestcnt; [lia|]. eapply wp_bind, wp_gets.
  unfold unlock in *.
  replace (id_nestcnt k + -1) with (id_nestcnt k - 1) by lia.
  case_bool; [|done]. eapply wp_bind, wp_modify. by apply wp_window_calm.
Qed.

Lemma wp_enable k (Q : unit -> Kernel -> Prop) :
  -1 <= id_nestcnt k < 2 ^ 31 ->
  (interruptible (unlock k) = false -> Q tt (unlock k)) ->
  (interruptible (unlock k) = true -> I (unlock k) /\ forall k', R (unlock k) k' -> Q tt k') ->
  (id_nestcnt k < 1 \/ interruptible (unlock k) = false) ->
  wp I R enable k Q.
Proof.
  intros Hn Hc Hi Hd. unfold enable. eapply wp_bind, wp_gets, wp_bind, wp_assert.
  { apply Z.leb_le. lia. }
  eapply wp_bind, wp_add_nestcnt; [lia|]. eapply wp_bind, wp_gets.
  unfold unlock in *.
  replace (id_nestcnt k + -1) with (id_nestcnt k - 1) by lia. simpl in *.
  destruct (id_nestcnt k - 1 <? 0) eqn:E.
  - eapply wp_bind, wp_modify. by apply wp_window.
  - apply Hc. destruct Hd as [Hd|Hd]; [norm_bool; lia|done].
Qed.

Lemma unlock_lock_calm k k' : calm k ->
  id_nestcnt k' = id_nestcnt k + 1 -> primask k' = true -> handler k' = handler k ->
  interruptible (unlock k') = false.
Proof.
  intros [[Hm Hn] Hi] E1 E2 E3. unfold unlock, interruptible in *. simpl.
  case_bool; simpl; rewrite ?E2, ?E3 in *; [|done].
  norm_bool. rewrite Hm in Hi. replace (0 <=? id_nestcnt k) with false in Hi by lia.
  by destruct (handler k).
Qed.
End calls.

Lemma kernel_ext k1 k2 :
  primask k1 = primask k2 -> handler k1 = handler k2 -> pendsv k1 = pendsv k2 ->
  id_nestcnt k1 = id_nestcnt k2 -> elapsed k1 = elapsed k2 -> running k1 = running k2 ->
  timer_now k1 = timer_now k2 -> heap k1 = heap k2 -> tasks k1 = tasks k2 ->
  timer_objs k1 = timer_objs k2 -> sems k1 = sems k2 -> reqs k1 = reqs k2 ->
  ports k1 = ports k2 -> msgs k1 = msgs k2 -> sysmsgs k1 = sysmsgs k2 ->
  words k1 = words k2 -> psp k1 = psp k2 -> k1 = k2.
Proof. destruct k1, k2; simpl; intros; subst; reflexivity. Qed.

(** Leaving the critical section of a calm state restores the interrupt state. *)
Lemma unlock_restore k k' : irq_ok k ->
  id_nestcnt k' = id_nestcnt k + 1 -> primask k' = true ->
  unlock k' = set_id_nestcnt (id_nestcnt k) (set_primask (primask k) k').
Proof.
  intros [Hm Hn] E1 E2. unfold unlock. simpl. rewrite E1.
  replace (id_nestcnt k + 1 - 1) with (id_nestcnt k) by lia.
  destruct (id_nestcnt k <? 0) eqn:E; norm_bool.
  - assert (primask k = false) as -> by (rewrite Hm; apply Z.leb_gt; lia).
    apply kernel_ext; reflexivity.
  - assert (primask k = true) as -> by (rewrite Hm; apply Z.leb_le; lia).
    apply kernel_ext; try reflexivity. exact E2.
Qed.

(** [enable] at the end of a critical section entered in the calm state [k]. *)
Lemma wp_enable_back I R k k' (Q : unit -> Kernel -> Prop) : calm k ->
  id_nestcnt k' = id_nestcnt k + 1 -> primask k' = true -> handler k' = handler k ->
  Q tt (set_id_nestcnt (id_nestcnt k) (set_primask (primask k) k')) ->
  wp I R enable k' Q.
Proof.
  intros Hc E1 E2 E3 HQ. pose proof Hc as [[Hm Hn] _].
  apply wp_enable_calm; [lia|by eapply unlock_lock_calm|].
  by rewrite (unlock_restore k k') by (done || apply Hc).
Qed.

(** ** Uninterrupted runs

    [run m k Q]: [m] runs from [k] to its end without a preemption. *)
Definition run {A} (m : M A) (k : Kernel) (Q : A -> Kernel -> Prop) : Prop :=
  exists a k', m k = Ret a k' /\ Q a k'.

Lemma wp_run {A} (m : M A) k Q :
  wp (fun _ => False) (fun _ _ => False) m k Q <-> run m k Q.
Proof.
  unfold wp, run. destruct (m k); simpl; split.
  all: try naive_solver.
Qed.

(** Running an uninterrupted prefix. *)
Lemma run_bind {A B} (m : M A) (f : A -> M B) k a k' :
  m k = Ret a k' -> (m ≫= f) k = f a k'.
Proof. intros E. unfold mbind, M_bind. by rewrite E. Qed.

(** ** Runs without interrupts

    [quiet_run m k]: the result of [m] when nothing ever preempts it, as before
    the interrupt sources are switched on. *)
Fixpoint quiet {A} (r : Res A) : option (A * Kernel) :=
  match r with
  | Ret a k => Some (a, k)
  | Preempt k f => quiet (f k)
  | Spin _ | Fault | NoFuel => None
  end.

Definition quiet_run {A} (m : M A) (k : Kernel) : option (A * Kernel) := quiet (m k).

Definition quietly {A} (m : M A) (k : Kernel) (Q : A -> Kernel -> Prop) : Prop :=
  exists a k', quiet_run m k = Some (a, k') /\ Q a k'.

Lemma quiet_bindR {A B} (f : A -> Kernel -> Res B) (r : Res A) :
  quiet (bindR f r) = '(a, k) ← quiet r; quiet (f a k).
Proof. induction r as [a k|k| | |k g IH]; simpl; auto. Qed.

Lemma quietly_bind {A B} (m : M A) (f : A -> M B) k Q :
  quietly m k (fun a k' => quietly (f a) k' Q) -> quietly (m ≫= f) k Q.
Proof.
  intros (a & k1 & E1 & b & k2 & E2 & HQ). exists b, k2. split; [|done].
  unfold quiet_run, mbind, M_bind in *. by rewrite quiet_bindR, E1.
Qed.

Lemma quietly_wp {A} (m : M A) k Q :
  wp (fun _ => False) (fun _ _ => False) m k Q -> quietly m k Q.
Proof. rewrite wp_run. intros (a & k' & E & HQ). exists a, k'. unfold quiet_run. by rewrite E. Qed.

Lemma quietly_mono {A} (m : M A) k (Q Q' : A -> Kernel -> Prop) :
  quietly m k Q -> (forall a k', Q a k' -> Q' a k') -> quietly m k Q'.
Proof. intros (a & k' & E & HQ) Himp. exists a, k'. auto. Qed.

Lemma quietly_window k (Q : unit -> Kernel -> Prop) : Q tt k -> quietly irq_window k Q.
Proof.
  intros HQ. exists tt, k. unfold quiet_run, irq_window.
  by destruct (interruptible k).
Qed.

Lemma quietly_disable k (Q : unit -> Kernel -> Prop) : irq_ok k ->
  Q tt (lock k) -> quietly disable k Q.
Proof.
  intros [Hm Hn] HQ. unfold disable. apply quietly_bind, quietly_window, quietly_wp.
  eapply wp_bind, wp_modify, wp_add_nestcnt; simpl; [lia|done].
Qed.

Lemma quietly_enable k (Q : unit -> Kernel -> Prop) : -1 <= id_nestcnt k < 2 ^ 31 ->
  Q tt (unlock k) -> quietly enable k Q.
Proof.
  intros Hn HQ. unfold enable.
  apply quietly_bind, quietly_wp, wp_gets, quietly_bind, quietly_wp, wp_assert;
    [apply Z.leb_le; lia|].
  apply quietly_bind, quietly_wp, wp_add_nestcnt; [lia|].
  apply quietly_bind, quietly_wp, wp_gets.
  unfold unlock in *. replace (id_nestcnt k + -1) with (id_nestcnt k - 1) by lia.
  case_bool; [|by apply quietly_wp, wp_ret].
  by apply quietly_bind, quietly_wp, wp_modify, quietly_window.
Qed.

(** Runs the next binding of the goal and of [H], whose computation is a
    prefix of the goal's. *)
Ltac peel H :=
  apply wp_unbind in H;
  eapply wp_bind, wp_mono; [exact H|]; clear H; simpl; intros ? ? H.

(** As [peel], where interrupts are off for other reasons. *)
Ltac peel_quietly H :=
  apply wp_unbind in H;
  eapply quietly_bind, quietly_wp, wp_mono; [exact H|]; clear H; simpl; intros ? ? H.

(** Symbolic execution: one rule per primitive, the state kept as an
    expression; [side] closes lookups. *)
Ltac wp_side := simpl; simplify_map_eq; eauto; try done.

Ltac wp_step :=
  lazymatch goal with
  | |- wp _ _ (_ ≫= _) _ _ => apply wp_bind
  | |- wp _ _ (mret _) _ _ => apply wp_ret
  | |- wp _ _ (gets _) _ _ => apply wp_gets
  | |- wp _ _ (modify _) _ _ => apply wp_modify
  | |- wp _ _ (load _ _) _ _ => eapply wp_load; [wp_side; fail|]
  | |- wp _ _ (upd_task _ _) _ _ => eapply wp_upd_task; [wp_side; fail|]
  | |- wp _ _ (upd_timer _ _) _ _ => eapply wp_upd_timer; [wp_side; fail|]
  | |- wp _ _ (upd_port _ _) _ _ => eapply wp_upd_port; [wp_side; fail|]
  | |- wp _ _ (upd_req _ _) _ _ => eapply wp_upd_req; [wp_side; fail|]
  end; simpl.
