(* ===== verification/Context.v ===== *)
(** * Task contexts ([platforms/stm32f4-discovery/platform.c], [platform.h])

    The initial stack frame of a task and the check of its stack bounds.
    Stack memory is word addressed; a store outside the mapped words is
    undefined.  A [StackFrame] is 16 words: [r4]..[r11] saved by software and
    [r0], [r1], [r2], [r3], [r12], [lr], [pc], [xpsr] by the hardware. *)

From S2P Require Import Prelude Heap Lists Machine Logic.

(** ** [StackFrame] *)

Definition sizeof_StackFrame : Z := 64.
Definition off_r4 : Z := 0.
Definition off_r0 : Z := 32.
Definition off_lr : Z := 52.
Definition off_pc : Z := 56.
Definition off_xpsr : Z := 60.

(** [static const uint32_t EPSR_T = 1 << 24;] *)
Definition EPSR_T : Z := Z.shiftl 1 24.

(** The address of [static void dead_end(void)], in flash. *)
Definition dead_end : addr := 134217729.

Definition store_word (a v : Z) : M unit :=
  _ ← load words a; modify (fun k => set_words (<[a := v]> (words k)) k).

(** The loop that clears the words between the top of the stack and [frame]. *)
Fixpoint clear_frame (fuel : nat) (top frm : addr) : M unit :=
  match fuel with
  | O => out_of_fuel
  | S fuel =>
      let top := top - 4 in
      if negb (top =? frm) then store_word top 0;; clear_frame fuel top frm
      else mret tt
  end.

(** [PRIVATE void taskcontext_verify(TaskContext *const context)] of the
    context of [task] *)
Definition taskcontext_verify (task : addr) : M unit :=
  T ← load tasks task;
  assert_that (bos (context T) <=? frame (context T));;
  assert_that (frame (context T) + sizeof_StackFrame <=? tos (context T)).

(** [PRIVATE void taskcontext_init(...)] on the context of [task].  The loop
    runs over the 16 words of a frame. *)
Definition taskcontext_init (task init_pc user_data stack stack_size : Z) : M unit :=
  assert_that (stack mod 4 =? 0);;
  assert_that (stack_size mod 4 =? 0);;
  let top := stack + stack_size in
  let frm := top - sizeof_StackFrame in
  upd_task task (fun T => set_context (mkContext (frame (context T)) (bos (context T)) top) T);;
  upd_task task (fun T => set_context (mkContext (frame (context T)) stack (tos (context T))) T);;
  clear_frame 16 top frm;;
  store_word (frm + off_r0) (uwrap 32 user_data);;
  store_word (frm + off_lr) dead_end;;
  store_word (frm + off_pc) init_pc;;
  store_word (frm + off_xpsr) EPSR_T;;
  upd_task task (fun T => set_context (mkContext frm (bos (context T)) (tos (context T))) T);;
  taskcontext_verify task.
