(* ===== verification/Task.v ===== *)
(** * Tasks and signals ([src/task.c])

    The functions of [src/task.c] in the monad of [Machine.v].  [running],
    [ready] and [waiting] are the globals of [src/data.c]. *)

From S2P Require Import Prelude Heap Lists Machine Logic Context.

(** Writing the fields of [task->node] behind the links. *)
Definition upd_node (a : addr) (f : Node -> Node) : M unit := fun k =>
  match nodes (heap k) !! a with
  | Some c => Ret tt (set_heap (mkHeap (links (heap k)) (<[a := f c]> (nodes (heap k)))) k)
  | None => Fault
  end.

(** [running], dereferenced. *)
Definition load_running : M Task := r ← gets running; load tasks r.

(** [PRIVATE void task_verify(Task *const task)] *)
Definition task_verify (task : addr) : M unit :=
  disable;;
  taskcontext_verify task;;
  T ← load tasks task;
  assert_that (negb (Z.land SIGF_SINGLE (sig_alloc T) =? 0));;
  assert_that (-1 <=? t_id_nestcnt T);;
  assert_that (bool_decide (state T = TASK_INITIALIZED) ||
               bool_decide (state T = TASK_RUNNING) ||
               bool_decide (state T = TASK_READY) ||
               bool_decide (state T = TASK_WAITING));;
  enable.

(** [Task *task_find(char *const name)].  The comparison in the innermost
    branch reads [task->node.name] where [task] is [NULL]. *)
Definition task_find (nm : option string) : M addr :=
  match nm with
  | None => gets running
  | Some _ =>
      disable;;
      task ← listop (list_find ready nm);
      task ← (if NULL =? task then
                task ← listop (list_find waiting nm);
                if NULL =? task then
                  s ← listop (get_name task);
                  same ← listop (strcmp_eq nm s);
                  if (same : bool) then gets running else mret task
                else mret task
              else mret task);
      enable;;
      mret task
  end.

(** [void task_init(...)] *)
Definition task_init (task : addr) (nm : option string) (pr : Z)
    (init_pc user_data stack stack_size : Z) : M unit :=
  upd_task task (set_state TASK_INVALID);;
  f ← task_find nm;
  assert_that (NULL =? f);;
  upd_node task (fun c => mkNode nm (prio c));;
  upd_node task (fun c => mkNode (name c) pr);;
  upd_task task (set_sig_alloc SIGF_SINGLE);;
  upd_task task (set_sig_wait 0);;
  upd_task task (set_sig_recvd 0);;
  upd_task task (set_t_id_nestcnt (-1));;
  taskcontext_init task init_pc user_data stack stack_size;;
  upd_task task (set_state TASK_INITIALIZED).

(** [void task_schedule(Task *const task)] *)
Definition task_schedule (task : addr) : M unit :=
  task_verify task;;
  disable;;
  upd_task task (set_state TASK_READY);;
  listop (list_enqueue ready task);;
  enable;;
  reschedule.

(** [void task_set_prio(Task *const task, const Node_Prio prio)] *)
Definition task_set_prio (task : addr) (pr : Z) : M unit :=
  disable;;
  upd_node task (fun c => mkNode (name c) pr);;
  r ← gets running;
  b ← (if task =? r then mret true
       else
         T ← load tasks task;
         if bool_decide (TASK_READY = state T) then
           p1 ← listop (get_prio r); p2 ← listop (get_prio task); mret (p1 <? p2)
         else mret false);
  (if (b : bool) then reschedule else mret tt);;
  enable.

(** The [do ... while] loop of [signal_allocate]: the signal found, or -1,
    and the last [target]. *)
Fixpoint alloc_search (signal : nat) (alloc : Z) : Z * Z :=
  let target := uwrap 16 (Z.shiftl 1 (Z.of_nat signal)) in
  if negb (Z.land target alloc =? 0) then
    match signal with
    | O => (-1, target)
    | S signal' => alloc_search signal' alloc
    end
  else (Z.of_nat signal, target).

(** [SignalNumber signal_allocate(SignalNumber signal)] *)
Definition signal_allocate (signal : Z) : M Z :=
  assert_that ((-1 <=? signal) && (signal <? SIGNALS_WIDTH));;
  '(signal, target) ←
    (if negb (-1 =? signal) then
       let target := uwrap 16 (Z.shiftl 1 signal) in
       T ← load_running;
       if negb (Z.land target (sig_alloc T) =? 0) then mret (-1, target)
       else mret (signal, target)
     else
       T ← load_running;
       mret (alloc_search (Z.to_nat (SIGNALS_WIDTH - 1)) (sig_alloc T)));
  (if 0 <? target then
     r ← gets running;
     upd_task r (fun T => set_sig_alloc (Z.lor (sig_alloc T) target) T);;
     upd_task r (fun T => set_sig_wait (Z.land (sig_wait T) (Z.lnot target)) T);;
     disable;;
     r ← gets running;
     upd_task r (fun T => set_sig_recvd (Z.land (sig_recvd T) (Z.lnot target)) T);;
     enable
   else mret tt);;
  mret signal.

(** [void signal_free(const Signals signals)] *)
Definition signal_free (signals : Z) : M unit :=
  assert_that (Z.land signals SIGF_SINGLE =? 0);;
  T ← load_running;
  assert_that (Z.land signals (sig_alloc T) =? signals);;
  r ← gets running;
  upd_task r (fun T => set_sig_alloc (Z.land (sig_alloc T) (Z.lnot signals)) T).

(** [void signal_send(Task *const task, const Signals signals)] *)
Definition signal_send (task signals : Z) : M unit :=
  disable;;
  upd_task task (fun T => set_sig_recvd (Z.lor (sig_recvd T) signals) T);;
  T ← load tasks task;
  (if bool_decide (TASK_WAITING = state T) && negb (Z.land signals (sig_wait T) =? 0) then
     listop (list_unlink task);;
     upd_task task (set_state TASK_READY);;
     listop (list_enqueue ready task);;
     r ← gets running;
     p1 ← listop (get_prio r);
     p2 ← listop (get_prio task);
     (if p1 <? p2 then reschedule else mret tt)
   else mret tt);;
  enable.

(** The loop of [signal_wait]; [fuel] bounds the number of times the task is
    switched back in without one of its signals. *)
Fixpoint wait_loop (fuel : nat) (signals : Z) : M unit :=
  match fuel with
  | O => out_of_fuel
  | S fuel =>
      T ← load_running;
      if Z.land signals (sig_recvd T) =? 0 then
        r ← gets running;
        upd_task r (set_state TASK_WAITING);;
        listop (list_add_tail waiting r);;
        n ← gets id_nestcnt;
        let nestcnt := swrap 16 n in
        modify (set_id_nestcnt 0);;
        enable;;
        reschedule;;
        disable;;
        modify (set_id_nestcnt nestcnt);;
        wait_loop fuel signals
      else mret tt
  end.

(** [Signals signal_wait(const Signals signals)] *)
Definition signal_wait (fuel : nat) (signals : Z) : M Z :=
  disable;;
  r ← gets running;
  upd_task r (set_sig_wait signals);;
  wait_loop fuel signals;;
  T ← load_running;
  let rcvd := Z.land signals (sig_recvd T) in
  r ← gets running;
  upd_task r (fun T => set_sig_recvd (Z.land (sig_recvd T) (Z.lnot rcvd)) T);;
  enable;;
  mret rcvd.
