(* ===== verification/Platform.v ===== *)
(** * The Cortex-M4 port ([platforms/stm32f4-discovery/platform.c])

    The scheduler ([PendSV_Handler_user]), the round-robin clock
    ([SysTick_Handler]) and the tick counter.  [PendSV_Handler] of
    [pendsv_handler.s] stacks the registers of the interrupted task and passes
    the address of the frame, [old_frame], to the scheduler. *)

From S2P Require Import Prelude Heap Lists Machine Logic Context Task.

(** [static void SysTick_Handler(void)]; [elapsed] is a [uint_fast8_t], 32
    bits wide on this platform. *)
Definition SysTick_Handler : M unit :=
  e ← gets elapsed;
  modify (set_elapsed (uwrap 32 (e - 1)));;
  e ← gets elapsed;
  if 0 =? e then modify (set_pendsv true) else mret tt.

(** The [TASK_READY] and [TASK_WAITING] cases of the scheduler. *)
Definition switch_task : M unit :=
  r ← gets running;
  n ← gets id_nestcnt;
  upd_task r (set_t_id_nestcnt n);;
  r ← listop (list_rem_head ready);
  modify (set_running r);;
  upd_task r (set_state TASK_RUNNING);;
  T ← load tasks r;
  modify (set_id_nestcnt (t_id_nestcnt T));;
  modify (set_elapsed QUANTUM).

(** The scheduler between the two [task_verify]: the part that is protected
    against interrupts. *)
Definition PendSV_switch (old_frame : addr) : M unit :=
  __disable_irq;;
  r ← gets running;
  upd_task r (fun T => set_context
    (mkContext old_frame (bos (context T)) (tos (context T))) T);;
  T ← load tasks r;
  match state T with
  | TASK_RUNNING =>
      upd_task r (set_state TASK_READY);;
      listop (list_enqueue ready r);;
      switch_task
  | TASK_READY | TASK_WAITING => switch_task
  | TASK_INVALID | TASK_INITIALIZED => spin
  end;;
  n ← gets id_nestcnt;
  if n <? 0 then __enable_irq else mret tt.

(** [void *PendSV_Handler_user(StackFrame *old_frame)] *)
Definition PendSV_Handler_user (old_frame : addr) : M addr :=
  r ← gets running; task_verify r;;
  PendSV_switch old_frame;;
  r ← gets running; task_verify r;;
  T ← load_running;
  mret (frame (context T)).

(** Exception entry and exit: the body runs in handler mode, and PendSV stops
    being pending when its handler starts.  The result of [PendSV_exception] is
    the frame [PendSV_Handler] of [pendsv_handler.s] returns to. *)
Definition exception {A} (body : M A) : M A :=
  modify (set_handler true);; a ← body; modify (set_handler false);; mret a.

Definition SysTick_exception : M unit := exception SysTick_Handler.

Definition PendSV_exception (old_frame : addr) : M addr :=
  exception (modify (set_pendsv false);; PendSV_Handler_user old_frame).

(** [Ticks timer_get_clock(void)]; [timer_now] is volatile, so a tick can
    arrive before each read. *)
Definition timer_get_clock : M Z := irq_window;; gets timer_now.

(** [PRIVATE void timer_init_platform(void)], behind the set-up of TIM2. *)
Definition timer_init_platform : M unit := modify (set_timer_now 0).
