(* ===== verification/Timer.v ===== *)
(** * Timers ([src/timer.c]) *)

From S2P Require Import Prelude Heap Lists Machine Logic Context Task Platform.

(** A local variable [Timer timer;]: its address on the stack and the
    contents the stack happens to hold there. *)
Record TimerVar := mkTimerVar {
  tv_addr : addr; tv_links : MinNode; tv_node : Node; tv_fields : Timer }.

Definition enter_timer (v : TimerVar) : M unit :=
  modify (fun k => set_timer_objs (<[tv_addr v := tv_fields v]> (timer_objs k))
    (set_heap (mkHeap (<[tv_addr v := tv_links v]> (links (heap k)))
                      (<[tv_addr v := tv_node v]> (nodes (heap k)))) k)).

Definition leave_timer (v : TimerVar) : M unit :=
  modify (fun k => set_timer_objs (delete (tv_addr v) (timer_objs k))
    (set_heap (mkHeap (delete (tv_addr v) (links (heap k)))
                      (delete (tv_addr v) (nodes (heap k)))) k)).

(** [void timer_allocate(Timer *timer)] *)
Definition timer_allocate (timer : addr) : M unit :=
  r ← gets running;
  upd_timer timer (set_tm_task r);;
  signum ← signal_allocate (-1);
  assert_that (negb (-1 =? signum));;
  upd_timer timer (set_tm_signal (uwrap 16 (Z.shiftl 1 signum)));;
  upd_timer timer (set_op TIMER_NONE);;
  upd_timer timer (set_status TIMER_INITIALIZED).

(** [void timer_free(Timer *timer)] *)
Definition timer_free (timer : addr) : M unit :=
  upd_timer timer (set_tm_task NULL);;
  T ← load timer_objs timer;
  signal_free (tm_signal T);;
  upd_timer timer (set_op TIMER_NONE);;
  upd_timer timer (set_status TIMER_INVALID).

(** The loop of [timer_add]: whether the timer was inserted before a later
    one. *)
Fixpoint add_scan (fuel : nat) (timer tnode : addr) : M bool :=
  match fuel with
  | O => out_of_fuel
  | S fuel =>
      nn ← listop (get_next tnode);
      if negb (NULL =? nn) then
        T ← load timer_objs timer;
        N ← load timer_objs tnode;
        if tick T <? tick N then
          p ← listop (get_prev tnode);
          listop (list_insert timers timer p);;
          mret true
        else
          nn ← listop (get_next tnode);
          add_scan fuel timer nn
      else mret false
  end.

(** [void timer_add(Timer *timer)] *)
Definition timer_add (timer : addr) : M unit :=
  T ← load timer_objs timer;
  assert_that (bool_decide (TIMER_DELAY = op T) || bool_decide (TIMER_ALARM = op T));;
  assert_that (bool_decide (TIMER_INITIALIZED = status T) ||
               bool_decide (TIMER_DONE = status T) ||
               bool_decide (TIMER_ABORTED = status T));;
  (if bool_decide (TIMER_DELAY = op T) then
     now ← timer_get_clock;
     upd_timer timer (fun T => set_tick (uwrap 32 (now + delay T)) T)
   else mret tt);;
  T ← load timer_objs timer;
  now ← timer_get_clock;
  if tick T <=? now then upd_timer timer (set_status TIMER_ABORTED)
  else
    disable;;
    upd_timer timer (set_status TIMER_ADDED);;
    tnode ← listop (get_next timers);
    fuel ← gets (fun k => walk_bound (heap k));
    added ← add_scan fuel timer tnode;
    (if bool_decide (false = added) then listop (list_add_tail timers timer) else mret tt);;
    enable.

(** [void timer_abort(Timer *const timer)] *)
Definition timer_abort (timer : addr) : M unit :=
  disable;;
  T ← load timer_objs timer;
  (if bool_decide (TIMER_ADDED = status T) then listop (list_unlink timer) else mret tt);;
  enable.

(** [void timer_delay(Ticks ticks)]; [v] is its local variable [timer]. *)
Definition timer_delay (fuel : nat) (v : TimerVar) (ticks : Z) : M unit :=
  let timer := tv_addr v in
  enter_timer v;;
  timer_allocate timer;;
  upd_timer timer (set_op TIMER_DELAY);;
  upd_timer timer (set_delay ticks);;
  timer_add timer;;
  T ← load timer_objs timer;
  (if bool_decide (TIMER_ADDED = status T) then
     _ ← signal_wait fuel (tm_signal T); mret tt
   else mret tt);;
  timer_free timer;;
  leave_timer v.

(** The loop of [timer_poll]. *)
Fixpoint poll_loop (fuel : nat) (now : Z) (tnode : addr) : M unit :=
  match fuel with
  | O => out_of_fuel
  | S fuel =>
      nn ← listop (get_next tnode);
      if negb (NULL =? nn) then
        N ← load timer_objs tnode;
        if now <? tick N then mret tt
        else
          listop (list_unlink tnode);;
          upd_timer tnode (set_status TIMER_DONE);;
          N ← load timer_objs tnode;
          signal_send (tm_task N) (tm_signal N);;
          nn ← listop (get_next tnode);
          poll_loop fuel now nn
      else mret tt
  end.

(** [PRIVATE void timer_poll(void)] *)
Definition timer_poll : M unit :=
  now ← timer_get_clock;
  disable;;
  tnode ← listop (get_next timers);
  fuel ← gets (fun k => walk_bound (heap k));
  poll_loop fuel now tnode;;
  enable.

(** [PRIVATE void timer_init(void)] *)
Definition timer_init : M unit :=
  listop (list_init timers);;
  timer_init_platform.

(** [static void TIM2_IRQHandler(void)] of [platform.c], entered on the update
    event of TIM2. *)
Definition TIM2_IRQHandler : M unit :=
  t ← gets timer_now;
  modify (set_timer_now (uwrap 32 (t + 1)));;
  timer_poll.

Definition TIM2_exception : M unit := exception TIM2_IRQHandler.
