(* ===== verification/Semaphore.v ===== *)
(** * Counting semaphores ([src/semaphore.c]) *)

From S2P Require Import Prelude Heap Lists Machine Logic Context Task.

(** A local variable [SemaphoreRequest req;]. *)
Record ReqVar := mkReqVar {
  rv_addr : addr; rv_links : MinNode; rv_fields : SemaphoreRequest }.

Definition enter_req (v : ReqVar) : M unit :=
  modify (fun k => set_reqs (<[rv_addr v := rv_fields v]> (reqs k))
    (set_heap (mkHeap (<[rv_addr v := rv_links v]> (links (heap k)))
                      (nodes (heap k))) k)).

Definition leave_req (v : ReqVar) : M unit :=
  modify (fun k => set_reqs (delete (rv_addr v) (reqs k))
    (set_heap (mkHeap (delete (rv_addr v) (links (heap k)))
                      (nodes (heap k))) k)).

(** [sem->count] plus [d]; [SemaphoreCount] is [int_fast16_t], 32 bits wide
    on this platform. *)
Definition add_count (sem : addr) (d : Z) : M unit :=
  c ← load sems sem;
  if (- 2 ^ 31 <=? c + d) && (c + d <? 2 ^ 31)
  then modify (fun k => set_sems (<[sem := c + d]> (sems k)) k) else fault.

(** [void sem_init(Semaphore *const sem, const SemaphoreCount count)] *)
Definition sem_init (sem count : Z) : M unit :=
  _ ← load sems sem;
  modify (fun k => set_sems (<[sem := count]> (sems k)) k);;
  listop (list_init sem).

(** [bool sem_add_request(Semaphore *const sem, SemaphoreRequest *const req)] *)
Definition sem_add_request (sem req : addr) : M bool :=
  disable;;
  add_count sem (-1);;
  c ← load sems sem;
  if c <? 0 then
    listop (list_add_tail sem req);;
    enable;;
    mret true
  else
    enable;;
    mret false.

(** [void sem_wait(Semaphore *const sem)]; [v] is its local variable [req]. *)
Definition sem_wait (fuel : nat) (v : ReqVar) (sem : addr) : M unit :=
  let req := rv_addr v in
  enter_req v;;
  upd_req req (set_rq_signal SIGF_SINGLE);;
  r ← gets running;
  upd_req req (set_waiter r);;
  added ← sem_add_request sem req;
  (if (added : bool) then _ ← signal_wait fuel SIGF_SINGLE; mret tt else mret tt);;
  leave_req v.

(** [void sem_signal(Semaphore *const sem)] *)
Definition sem_signal (sem : addr) : M unit :=
  disable;;
  add_count sem 1;;
  c ← load sems sem;
  (if c <? 0 then
     req ← listop (list_rem_head sem);
     assert_that (negb (NULL =? req));;
     r ← gets running;
     X ← load reqs req;
     assert_that (negb (r =? waiter X));;
     assert_that (negb (0 =? rq_signal X));;
     signal_send (waiter X) (rq_signal X)
   else mret tt);;
  enable.

(** [void sem_verify(Semaphore *const sem)], whose body is a comment. *)
Definition sem_verify (sem : addr) : M unit := mret tt.
