(* ===== verification/MsgPort.v ===== *)
(** * Message ports ([src/msgport.c]) *)

From S2P Require Import Prelude Heap Lists Machine Logic Context Task.

(** [void msgport_init(MsgPort *const port)] *)
Definition msgport_init (port : addr) : M unit :=
  signum ← signal_allocate (-1);
  assert_that (negb (-1 =? signum));;
  upd_port port (set_mp_signal (uwrap 16 (Z.shiftl 1 signum)));;
  upd_port port (set_action MSGPORT_SIGNAL);;
  r ← gets running;
  upd_port port (set_mp_task r);;
  listop (list_init port).

(** The loop of [msgport_wait]; [wfuel] is the fuel of [signal_wait]. *)
Fixpoint msg_loop (wfuel fuel : nat) (port : addr) : M unit :=
  match fuel with
  | O => out_of_fuel
  | S fuel =>
      e ← listop (list_is_empty port);
      if (e : bool) then
        P ← load ports port;
        _ ← signal_wait wfuel (mp_signal P);
        msg_loop wfuel fuel port
      else mret tt
  end.

(** [Message *msgport_wait(MsgPort *const port)] *)
Definition msgport_wait (wfuel fuel : nat) (port : addr) : M addr :=
  disable;;
  msg_loop wfuel fuel port;;
  msg ← listop (get_next port);
  enable;;
  mret msg.

(** [Message *msgport_get(MsgPort *const port)] *)
Definition msgport_get (port : addr) : M addr :=
  disable;;
  msg ← listop (list_rem_head port);
  enable;;
  mret msg.

(** [void msgport_send(MsgPort *const port, Message *const message)] *)
Definition msgport_send (port message : addr) : M unit :=
  disable;;
  P ← load ports port;
  assert_that (bool_decide (MSGPORT_SIGNAL = action P) ||
               bool_decide (MSGPORT_IGNORE = action P));;
  listop (list_add_tail port message);;
  (if negb (NULL =? mp_task P) && bool_decide (MSGPORT_SIGNAL = action P)
   then signal_send (mp_task P) (mp_signal P) else mret tt);;
  enable.

(** [void msgport_reply(Message *const message)] *)
Definition msgport_reply (message : addr) : M unit :=
  port ← load msgs message;
  assert_that (negb (NULL =? port));;
  msgport_send port message.
