(* ===== verification/Init.v ===== *)
(** * Start-up ([src/init.c]) and the vector table ([platform.c]) *)

From S2P Require Import Prelude Heap Lists Machine Logic Context Task Platform Timer.

(** The entry points of [init_task_f] and the port, in flash. *)
Definition init_task_f_pc : addr := 134218001.

(** [TaskContext *martos_pre(void)]: returns the init task, whose [context]
    the C function returns the address of. *)
Definition martos_pre : M addr :=
  listop (list_init ready);;
  listop (list_init waiting);;
  modify (set_id_nestcnt (-1));;
  modify (set_elapsed QUANTUM);;
  task_init init_task (Some "init"%string) TASK_PRIO_EXCLUSIVE init_task_f_pc NULL
    init_task_stack INIT_TASK_STACK_SIZE;;
  task_verify init_task;;
  upd_task init_task (set_state TASK_RUNNING);;
  modify (set_running init_task);;
  mret init_task.

(** [static void init_task_f(void *user_data)]; [user_init] is the
    application's. *)
Definition init_task_f (user_init : M unit) : M unit :=
  timer_init;;
  task_set_prio init_task TASK_PRIO_MIN;;
  user_init;;
  spin.

(** ** The vector table of [platform.c] *)

(** [static void Default_Handler(void)] *)
Definition Default_Handler : M unit := spin.

(** What an entry of [vector_table] points to; [Reset_Handler] and
    [PendSV_Handler] are in assembly. *)
Inductive Vector :=
  | V_tos
  | V_zero
  | V_Reset_Handler
  | V_Default_Handler
  | V_PendSV_Handler
  | V_SysTick_Handler
  | V_TIM2_IRQHandler.

#[global] Instance Vector_eq_dec : EqDecision Vector.
Proof. solve_decision. Defined.

(** The array [vector_table], in section [.isr_vector] *)
Definition vector_table : list Vector :=
  [ V_tos;
    (* Reset *) V_Reset_Handler;
    (* NMI *) V_Default_Handler;
    (* HardFault *) V_Default_Handler;
    (* MemManage *) V_Default_Handler;
    (* BusFault *) V_Default_Handler;
    (* UsageFault *) V_Default_Handler;
    (* RESERVED *) V_zero; V_zero; V_zero; V_zero;
    (* SVC *) V_Default_Handler;
    (* DebugMon *) V_Default_Handler;
    (* RESERVED *) V_zero;
    (* PendSV *) V_PendSV_Handler;
    (* SysTick *) V_SysTick_Handler;
    (* WWDG_IRQHandler *) V_Default_Handler;
    (* PVD_IRQHandler *) V_Default_Handler;
    (* TAMP_STAMP_IRQHandler *) V_Default_Handler;
    (* RTC_WKUP_IRQHandler *) V_Default_Handler;
    (* FLASH_IRQHandler *) V_Default_Handler;
    (* RCC_IRQHandler *) V_Default_Handler;
    (* EXTI0_IRQHandler *) V_Default_Handler;
    (* EXTI1_IRQHandler *) V_Default_Handler;
    (* EXTI2_IRQHandler *) V_Default_Handler;
    (* EXTI3_IRQHandler *) V_Default_Handler;
    (* EXTI4_IRQHandler *) V_Default_Handler;
    (* DMA1_Stream0_IRQHandler *) V_Default_Handler;
    (* DMA1_Stream1_IRQHandler *) V_Default_Handler;
    (* DMA1_Stream2_IRQHandler *) V_Default_Handler;
    (* DMA1_Stream3_IRQHandler *) V_Default_Handler;
    (* DMA1_Stream4_IRQHandler *) V_Default_Handler;
    (* DMA1_Stream5_IRQHandler *) V_Default_Handler;
    (* DMA1_Stream6_IRQHandler *) V_Default_Handler;
    (* ADC_IRQHandler *) V_Default_Handler;
    (* CAN1_TX_IRQHandler *) V_Default_Handler;
    (* CAN1_RX0_IRQHandler *) V_Default_Handler;
    (* CAN1_RX1_IRQHandler *) V_Default_Handler;
    (* CAN1_SCE_IRQHandler *) V_Default_Handler;
    (* EXTI9_5_IRQHandler *) V_Default_Handler;
    (* TIM1_BRK_TIM9_IRQHandler *) V_Default_Handler;
    (* TIM1_UP_TIM10_IRQHandler *) V_Default_Handler;
    (* TIM1_TRG_COM_TIM11_IRQHandler *) V_Default_Handler;
    (* TIM1_CC_IRQHandler *) V_Default_Handler;
    (* TIM2_IRQHandler *) V_TIM2_IRQHandler ].

(** What the processor executes on exception [n] of the table; [old_frame] is the
    frame that [PendSV_Handler] stacks. *)
Definition take_exception (old_frame : addr) (n : nat) : option (M unit) :=
  match vector_table !! n with
  | Some V_Default_Handler => Some (exception Default_Handler)
  | Some V_PendSV_Handler => Some (_ ← PendSV_exception old_frame; mret tt)
  | Some V_SysTick_Handler => Some SysTick_exception
  | Some V_TIM2_IRQHandler => Some TIM2_exception
  | _ => None
  end.
