(* ===== verification/SysArch.v ===== *)
(** * The lwIP port ([lwip_martos/sys_arch.c])

    lwIP's operating system layer on MARTOS.  [mem_malloc], [mem_free],
    [SYS_ARCH_TIMEOUT], [SYS_MBOX_EMPTY] and [ERR_OK] are lwIP's and are
    parameters; the [SYS_STATS_*] counters are lwIP's and are left out. *)

From S2P Require Import Prelude Heap Lists Machine Logic Context Task Platform.
From S2P Require Import Timer Semaphore MsgPort.

(** [1 << signal_allocate(-1)], converted to [Signals]: a negative shift is
    undefined. *)
Definition shift_signal (signum : Z) : M Z :=
  if signum <? 0 then fault else mret (uwrap 16 (Z.shiftl 1 signum)).

Section sys_arch.
Context (SYS_ARCH_TIMEOUT SYS_MBOX_EMPTY ERR_OK : Z).
Context (mem_malloc : Z -> M addr) (mem_free : addr -> M unit).
Context (sizeof_sys_msg_t sizeof_Task : Z).

(** [void sys_arch_abort(const char *const str)] *)
Definition sys_arch_abort : M unit := user_halt.

(** [LWIP_PLATFORM_ASSERT], [SYS_ARCH_PROTECT] and [SYS_ARCH_UNPROTECT] of
    [include/arch/cc.h]; the arguments are not used. *)
Definition LWIP_PLATFORM_ASSERT : M unit := sys_arch_abort.
Definition SYS_ARCH_PROTECT : M unit := disable.
Definition SYS_ARCH_UNPROTECT : M unit := enable.

(** [void sys_init(void)] *)
Definition sys_init : M unit := mret tt.

(** [err_t sys_sem_new(sys_sem_t *sem, u8_t count)] *)
Definition sys_sem_new (sem count : Z) : M Z :=
  sem_init sem (uwrap 8 count);; mret ERR_OK.

(** [void sys_sem_free(sys_sem_t *sem)] *)
Definition sys_sem_free (sem : addr) : M unit := mret tt.

(** [int sys_sem_valid(sys_sem_t *sem)] *)
Definition sys_sem_valid (sem : addr) : M Z := mret 1.

(** [void sys_sem_set_invalid(sys_sem_t *sem)] *)
Definition sys_sem_set_invalid (sem : addr) : M unit := mret tt.

(** [void sys_sem_signal(sys_sem_t *sem)] *)
Definition sys_sem_signal (sem : addr) : M unit := sem_signal sem.

(** The optional timeout of the two blocking functions: the timer's signal,
    or 0 to block until arrival. *)
Definition start_timeout (timer : addr) (timeout : Z) : M Z :=
  if negb (0 =? timeout) then
    timer_allocate timer;;
    upd_timer timer (set_op TIMER_DELAY);;
    upd_timer timer (set_delay timeout);;
    T ← load timer_objs timer;
    timer_add timer;;
    mret (tm_signal T)
  else mret 0.

Definition stop_timeout (timer timer_signal : Z) : M unit :=
  if negb (0 =? timer_signal) then timer_abort timer;; timer_free timer
  else mret tt.

(** [u32_t sys_arch_sem_wait(sys_sem_t *sem, u32_t timeout)]; [rv] and [tv]
    are its local variables [req] and [timer]. *)
Definition sys_arch_sem_wait (fuel : nat) (rv : ReqVar) (tv : TimerVar)
    (sem timeout : Z) : M Z :=
  let req := rv_addr rv in
  let timer := tv_addr tv in
  start_time ← timer_get_clock;
  enter_req rv;;
  n ← signal_allocate (-1);
  s ← shift_signal n;
  upd_req req (set_rq_signal s);;
  X ← load reqs req;
  assert_that (negb (0 =? rq_signal X));;
  t ← task_find None;
  upd_req req (set_waiter t);;
  added ← sem_add_request sem req;
  if bool_decide (false = added) then
    now ← timer_get_clock;
    X ← load reqs req;
    signal_free (rq_signal X);;
    leave_req rv;;
    mret (uwrap 32 (now - start_time))
  else
    enter_timer tv;;
    timer_signal ← start_timeout timer timeout;
    X ← load reqs req;
    got_signals ← signal_wait fuel (Z.lor timer_signal (rq_signal X));
    X ← load reqs req;
    end_time ←
      (if negb (0 =? Z.land got_signals (rq_signal X)) then
         now ← timer_get_clock; mret (uwrap 32 (now - start_time))
       else if negb (0 =? Z.land got_signals timer_signal) then
         mret SYS_ARCH_TIMEOUT
       else spin);
    stop_timeout timer timer_signal;;
    X ← load reqs req;
    signal_free (rq_signal X);;
    leave_timer tv;;
    leave_req rv;;
    mret end_time.

(** [err_t sys_mbox_new(sys_mbox_t *mbox, int size)] *)
Definition sys_mbox_new (mbox : addr) : M Z :=
  listop (list_init mbox);;
  upd_port mbox (set_mp_signal 0);;
  upd_port mbox (set_action MSGPORT_IGNORE);;
  upd_port mbox (set_mp_task NULL);;
  mret ERR_OK.

(** [void sys_mbox_free(sys_mbox_t *mbox)] *)
Definition sys_mbox_free (mbox : addr) : M unit :=
  P ← load ports mbox; signal_free (mp_signal P).

(** [int sys_mbox_valid(sys_mbox_t *mbox)] *)
Definition sys_mbox_valid (mbox : addr) : M Z :=
  P ← load ports mbox;
  if bool_decide (MSGPORT_INVALID = action P) then mret 0 else mret 1.

(** [void sys_mbox_set_invalid(sys_mbox_t *mbox)] *)
Definition sys_mbox_set_invalid (mbox : addr) : M unit :=
  upd_port mbox (set_action MSGPORT_INVALID).

(** [void sys_mbox_post(sys_mbox_t *mbox, void *msg)] *)
Definition sys_mbox_post (mbox msg : addr) : M unit :=
  m ← mem_malloc sizeof_sys_msg_t;
  _ ← load sysmsgs m;
  modify (fun k => set_sysmsgs (<[m := msg]> (sysmsgs k)) k);;
  msgport_send mbox m.

(** [err_t sys_mbox_trypost(sys_mbox_t *mbox, void *msg)] *)
Definition sys_mbox_trypost (mbox msg : addr) : M Z :=
  sys_mbox_post mbox msg;; mret ERR_OK.

(** [u32_t sys_arch_mbox_fetch(sys_mbox_t *mbox, void **msg, u32_t timeout)].
    The second component is what is stored to [*msg], if anything; [want]
    says whether [msg] is not [NULL]. *)
Definition sys_arch_mbox_fetch (fuel : nat) (tv : TimerVar) (mbox : addr)
    (want : bool) (timeout : Z) : M (Z * option addr) :=
  let timer := tv_addr tv in
  start_time ← timer_get_clock;
  t ← task_find None;
  upd_port mbox (set_mp_task t);;
  P ← load ports mbox;
  (if 0 =? mp_signal P then
     n ← signal_allocate (-1);
     s ← shift_signal n;
     upd_port mbox (set_mp_signal s);;
     P ← load ports mbox;
     assert_that (negb (0 =? mp_signal P))
   else mret tt);;
  upd_port mbox (set_action MSGPORT_SIGNAL);;
  enter_timer tv;;
  timer_signal ← start_timeout timer timeout;
  P ← load ports mbox;
  got_signals ← signal_wait fuel (Z.lor timer_signal (mp_signal P));
  P ← load ports mbox;
  res ←
    (if negb (0 =? Z.land got_signals (mp_signal P)) then
       m ← msgport_get mbox;
       assert_that (negb (NULL =? m));;
       out ← (if (want : bool) then p ← load sysmsgs m; mret (Some p)
              else mret None);
       mem_free m;;
       now ← timer_get_clock;
       mret (uwrap 32 (now - start_time), out)
     else if negb (0 =? Z.land got_signals timer_signal) then
       mret (SYS_ARCH_TIMEOUT, None)
     else spin);
  stop_timeout timer timer_signal;;
  leave_timer tv;;
  mret res.

(** [u32_t sys_arch_mbox_tryfetch(sys_mbox_t *mbox, void **msg)] *)
Definition sys_arch_mbox_tryfetch (mbox : addr) (want : bool) : M (Z * option addr) :=
  assert_that want;;
  m ← msgport_get mbox;
  if NULL =? m then mret (SYS_MBOX_EMPTY, None)
  else
    p ← load sysmsgs m;
    mem_free m;;
    mret (0, Some p).

(** [sys_thread_t sys_thread_new(name, thread, arg, stacksize, prio)]; [prio]
    is converted to [Node_Prio] and [stacksize] to [uint32_t]. *)
Definition sys_thread_new (nm : option string) (thread arg stacksize pr : Z) : M addr :=
  stack ← mem_malloc stacksize;
  if negb (NULL =? stack) then
    task ← mem_malloc sizeof_Task;
    if negb (NULL =? task) then
      task_init task nm (swrap 16 pr) thread arg stack (uwrap 32 stacksize);;
      task_schedule task;;
      mret task
    else spin
  else spin.

(** [u32_t sys_now(void)] *)
Definition sys_now : M Z := timer_get_clock.
End sys_arch.
