(* ===== verification/TestPrograms.v ===== *)
(** * The test programs ([src/test_common], [src/test_list], [src/test_message])

    The functions the test programs consist of.  A [while (1)] loop is given by
    one round of it; [System] and [TestSystem] repeat it. *)

From S2P Require Import Prelude Heap Lists Machine Logic Context Task Platform Timer.

(** ** [test_common.c], [test_common.h] *)

Definition TEST_STACK_SIZE : Z := 1024.

(** [Task test_task;] and [uint8_t test_task_stack[TEST_STACK_SIZE];], placed by
    the linker, and the entry point [test_task_f] in flash. *)
Definition test_task : addr := 536891392.
Definition test_task_stack : addr := 536895488.
Definition test_task_f_pc : addr := 134221001.

(** [void test_pass(void)] *)
Definition test_pass {A} : M A := spin.

(** [void user_init(void)] *)
Definition user_init : M unit :=
  task_init test_task (Some "test"%string) 0 test_task_f_pc NULL test_task_stack TEST_STACK_SIZE;;
  task_schedule test_task.

(** ** [test_list.c] *)

(** The local variables [List l; Node n1; Node n2;] of [test_task_f]: their
    addresses on the stack and the contents the stack happens to hold there. *)
Record ListVars := mkListVars {
  lv_l : addr; lv_n1 : addr; lv_n2 : addr;
  lv_links : addr -> MinNode; lv_node : addr -> Node }.

Definition enter_list_vars (v : ListVars) : M unit :=
  modify (fun k => set_heap
    (mkHeap (<[lv_l v := lv_links v (lv_l v)]> (<[tail (lv_l v) := lv_links v (tail (lv_l v))]>
              (<[lv_n1 v := lv_links v (lv_n1 v)]> (<[lv_n2 v := lv_links v (lv_n2 v)]>
                (links (heap k))))))
            (<[lv_n1 v := lv_node v (lv_n1 v)]> (<[lv_n2 v := lv_node v (lv_n2 v)]>
              (nodes (heap k))))) k).

(** [assert(x == call);] of a list function *)
Definition assert_bool (b : bool) (f : HM bool) : M unit :=
  x ← listop f; assert_that (bool_decide (b = x)).
Definition assert_addr (a : addr) (f : HM addr) : M unit :=
  x ← listop f; assert_that (a =? x).

(** [void test_task_f(void *user_data)] of [test_list.c] *)
Definition test_list_task_f (v : ListVars) : M unit :=
  let l := lv_l v in let n1 := lv_n1 v in let n2 := lv_n2 v in
  enter_list_vars v;;
  listop (list_init l);;
  upd_node n1 (fun c => mkNode (name c) 3);;
  upd_node n1 (fun c => mkNode (Some "one"%string) (prio c));;
  upd_node n2 (fun c => mkNode (name c) 8);;
  upd_node n2 (fun c => mkNode (Some "two"%string) (prio c));;
  assert_bool true (list_is_empty l);;
  assert_addr NULL (list_get_head l);;
  listop (list_add_tail l n1);;
  assert_bool false (list_is_empty l);;
  assert_addr n1 (list_get_head l);;
  listop (list_add_tail l n2);;
  assert_addr n1 (list_get_head l);;
  assert_addr n1 (list_find l (Some "one"%string));;
  assert_addr n2 (list_find l (Some "two"%string));;
  _ ← listop (list_rem_head l);
  assert_addr n2 (list_get_head l);;
  assert_addr NULL (list_find l (Some "one"%string));;
  _ ← listop (list_rem_head l);
  listop (list_enqueue l n1);;
  assert_addr n1 (list_get_head l);;
  listop (list_enqueue l n2);;
  assert_addr n2 (list_get_head l);;
  listop (list_unlink n1);;
  assert_addr n2 (list_get_head l);;
  listop (list_enqueue l n1);;
  assert_addr n2 (list_get_head l);;
  assert_addr n2 (list_rem_head l);;
  assert_addr n1 (list_rem_head l);;
  assert_addr NULL (list_rem_head l);;
  assert_addr NULL (list_rem_head l);;
  assert_addr 3 (get_prio n1);;
  assert_addr 8 (get_prio n2);;
  assert_addr NULL (list_find l (Some "one"%string));;
  assert_addr NULL (list_find l (Some "two"%string));;
  test_pass.

(** ** [test_message.c] *)

(** [Task t2;] and [uint8_t t2_stack[TEST_STACK_SIZE];] *)
Definition t2 : addr := 536891648.
Definition t2_stack : addr := 536899584.
Definition t2_f_pc : addr := 134221101.

Section test_message.
(** The GPIO driver of the vendor's library. *)
Context (GPIO_ToggleBits : Z -> M unit) (GPIO_Pin_12 GPIO_Pin_13 : Z).

(** A round of [void t2_f(void *user_data)]; [v1] and [v2] are the local variable
    of its two calls of [timer_delay]. *)
Definition t2_f_round (fuel : nat) (v1 v2 : TimerVar) : M unit :=
  GPIO_ToggleBits GPIO_Pin_13;;
  timer_delay fuel v1 299;;
  GPIO_ToggleBits GPIO_Pin_13;;
  timer_delay fuel v2 297.

(** [void test_task_f(void *user_data)] of [test_message.c] before its loop *)
Definition test_task_f_start : M unit :=
  task_init t2 (Some "t2"%string) (-1) t2_f_pc NULL t2_stack TEST_STACK_SIZE;;
  task_schedule t2.

(** and a round of it. *)
Definition test_task_f_round (fuel : nat) (v1 v2 : TimerVar) : M unit :=
  GPIO_ToggleBits GPIO_Pin_12;;
  timer_delay fuel v1 1167;;
  GPIO_ToggleBits GPIO_Pin_12;;
  timer_delay fuel v2 1231.
End test_message.
