(* ===== verification/NetDemo.v ===== *)
(** * The network demo ([src/netproj/n.c])

    Two tasks with periodic alarms; one of them sends a datagram at each.  The
    functions of lwIP, of its echo server and of the GPIO driver are parameters.
    What follows the [while (1)] loops is never reached and is left out. *)

From S2P Require Import Prelude Heap Lists Machine Logic Context Task Platform Timer.

Definition N_STACK_SIZE : Z := 4096.

(** [Task n1; Task n2; uint8_t n1_stack[N_STACK_SIZE]; uint8_t n2_stack[N_STACK_SIZE];],
    placed by the linker, and the entry points of the tasks in flash. *)
Definition n1 : addr := 536903680.
Definition n2 : addr := 536903936.
Definition n1_stack : addr := 536907776.
Definition n2_stack : addr := 536915968.
Definition n1_f_pc : addr := 134222001.
Definition n2_f_pc : addr := 134222101.

Section netproj.
Context (GPIO_ToggleBits : Z -> M unit) (GPIO_Pin_12 GPIO_Pin_13 : Z).
Context (ERR_OK NETCONN_UDP : Z) (IP4_ADDR : Z -> Z -> Z -> Z -> Z).
Context (netconn_new : Z -> M addr) (netconn_connect : addr -> Z -> Z -> M Z).
Context (netbuf_new : M addr) (netbuf_ref : addr -> string -> Z -> M Z).
Context (netconn_send : addr -> addr -> M Z).
Context (tcpip_init : addr -> addr -> M unit) (netif_find : string -> M addr).
Context (netif_set_default : addr -> M unit) (udpecho_init : M unit).

(** The timer of both tasks: set up as an alarm at the current tick. *)
Definition alarm_start (v : TimerVar) : M unit :=
  let timer := tv_addr v in
  enter_timer v;;
  timer_allocate timer;;
  upd_timer timer (set_op TIMER_ALARM);;
  now ← timer_get_clock;
  upd_timer timer (set_tick now).

(** [timer.tick += 250;] *)
Definition alarm_next (timer : addr) : M unit :=
  upd_timer timer (fun X => set_tick (uwrap 32 (tick X + 250)) X).

(** [timer_add(&timer);] and the [if] behind it. *)
Definition alarm_wait (fuel : nat) (timer : addr) : M unit :=
  timer_add timer;;
  T ← load timer_objs timer;
  if bool_decide (TIMER_ADDED = status T) then
    _ ← signal_wait fuel (tm_signal T); mret tt
  else assert_that true.

(** [void n1_f(void)] before its loop: the connection and the buffer. *)
Definition n1_f_start (v : TimerVar) : M (addr * addr) :=
  conn ← netconn_new NETCONN_UDP;
  assert_that (negb (NULL =? conn));;
  res ← netconn_connect conn (IP4_ADDR 127 0 0 1) 7;
  assert_that (ERR_OK =? res);;
  buf ← netbuf_new;
  assert_that (negb (NULL =? buf));;
  res ← netbuf_ref buf "Internet of things"%string 19;
  assert_that (ERR_OK =? res);;
  alarm_start v;;
  mret (conn, buf).

(** A round of its loop. *)
Definition n1_f_round (fuel : nat) (v : TimerVar) (conn buf : addr) : M unit :=
  alarm_next (tv_addr v);;
  res ← netconn_send conn buf;
  assert_that (ERR_OK =? res);;
  GPIO_ToggleBits GPIO_Pin_13;;
  alarm_wait fuel (tv_addr v).

(** [void n2_f(void)] before its loop and a round of it. *)
Definition n2_f_start (v : TimerVar) : M unit := alarm_start v.

Definition n2_f_round (fuel : nat) (v : TimerVar) : M unit :=
  alarm_next (tv_addr v);;
  GPIO_ToggleBits GPIO_Pin_12;;
  alarm_wait fuel (tv_addr v).

(** [void user_init(void)] *)
Definition net_user_init : M unit :=
  tcpip_init NULL NULL;;
  loif ← netif_find "lo0"%string;
  assert_that (negb (NULL =? loif));;
  netif_set_default loif;;
  udpecho_init;;
  task_init n1 (Some "n1"%string) 0 n1_f_pc NULL n1_stack N_STACK_SIZE;;
  task_init n2 (Some "n2"%string) (-1) n2_f_pc NULL n2_stack N_STACK_SIZE;;
  task_schedule n1;;
  task_schedule n2.
End netproj.
