(* ===== verification/Invariant.v ===== *)
(** * The kernel invariant

    What the global data of the kernel means between two critical sections:
    which lists exist, which tasks they hold and in which states, and how the
    ready list, the running task and a pending PendSV are related. *)

From S2P Require Import Prelude Heap Lists ListSpec Machine Logic Context Task Platform Timer.

(** The priority of a node, as the list functions read it. *)
Definition prio_at (k : Kernel) (a : addr) : Z := prio_of (heap k) a.

(** Highest priority first. *)
Definition prio_sorted (k : Kernel) (xs : list Z) : Prop :=
  StronglySorted (fun a b => prio_at k b <= prio_at k a) xs.

Definition in_state (k : Kernel) (s : Task_State) (t : addr) : Prop :=
  exists T, tasks k !! t = Some T /\ state T = s.

(** The states of tasks the scheduler knows. *)
Definition scheduled (s : Task_State) : bool :=
  match s with
  | TASK_RUNNING | TASK_READY | TASK_WAITING => true
  | TASK_INVALID | TASK_INITIALIZED => false
  end.

Definition is_signals (s : Z) : Prop := 0 <= s < 2 ^ 16.

(** What [task_verify] checks, and the widths of the signal fields. *)
Record task_ok (T : Task) : Prop := mkTaskOk {
  tok_alloc : is_signals (sig_alloc T);
  tok_wait : is_signals (sig_wait T);
  tok_recvd : is_signals (sig_recvd T);
  tok_single : Z.land SIGF_SINGLE (sig_alloc T) <> 0;
  tok_nest : t_id_nestcnt T = -1;
  tok_frame : bos (context T) <= frame (context T) /\
    frame (context T) + sizeof_StackFrame <= tos (context T) }.

(** Where the node of a task of state [s] is, given the ready and the waiting
    list. *)
Definition placed (k : Kernel) (Q : Queues) (rs ws : list Z) (t : addr) (s : Task_State)
    : Prop :=
  match s with
  | TASK_READY => t ∈ rs
  | TASK_WAITING => t ∈ ws
  | TASK_RUNNING => t = running k /\ unowned Q t
  | TASK_INVALID | TASK_INITIALIZED => unowned Q t
  end.

(** A task in memory. *)
Record task_wf (k : Kernel) (Q : Queues) (rs ws : list Z) (t : addr) (T : Task) : Prop :=
  mkTaskWf {
  twf_node : is_Some (nodes (heap k) !! t);
  twf_link : is_Some (links (heap k) !! t);
  twf_nonnull : t <> NULL;
  twf_place : placed k Q rs ws t (state T);
  twf_ok : scheduled (state T) = true -> task_ok T }.

(** Timers are in order of their tick. *)
Definition tick_at (k : Kernel) (a : addr) : Z :=
  match timer_objs k !! a with Some T => tick T | None => 0 end.

Definition tick_sorted (k : Kernel) (ts : list Z) : Prop :=
  StronglySorted (fun a b => tick_at k a <= tick_at k b) ts.

(** A timer in the timer queue. *)
Definition timer_wf (k : Kernel) (a : addr) : Prop :=
  exists T, timer_objs k !! a = Some T /\ status T = TIMER_ADDED /\
    is_signals (tm_signal T) /\
    exists U, tasks k !! tm_task T = Some U /\ scheduled (state U) = true.

(** [kinv k Q rs ws ts]: the lists [ready], [waiting] and [timers] hold [rs],
    [ws] and [ts], and [Q] is the contents of all lists. *)
Record kinv (k : Kernel) (Q : Queues) (rs ws ts : list Z) : Prop := mkKinv {
  ki_reps : reps (links (heap k)) Q;
  ki_rs : Q !! ready = Some rs;
  ki_ws : Q !! waiting = Some ws;
  ki_ts : Q !! timers = Some ts;
  ki_ready : forall t, t ∈ rs -> in_state k TASK_READY t;
  ki_waiting : forall t, t ∈ ws -> in_state k TASK_WAITING t;
  ki_tasks : forall t T, tasks k !! t = Some T -> task_wf k Q rs ws t T;
  ki_running : exists T, tasks k !! running k = Some T /\ scheduled (state T) = true;
  ki_sorted : prio_sorted k rs;
  ki_timers : forall a, a ∈ ts -> timer_wf k a;
  ki_ticks : tick_sorted k ts }.

(** The scheduling invariant of the README: "The running task always has a
    priority at least as high as every other task ready for execution", unless
    the scheduler is about to run. *)
Definition sched_ok (k : Kernel) (rs : list Z) : Prop :=
  pendsv k = true \/ forall t, t ∈ rs -> prio_at k t <= prio_at k (running k).

(** There is always a task to run: the init task never waits. *)
Definition idle_ok (k : Kernel) : Prop :=
  exists T, tasks k !! init_task = Some T /\
    (state T = TASK_READY \/ (state T = TASK_RUNNING /\ running k = init_task)).

(** ** Reading the invariant *)

Lemma kernel_eta k : set_heap (heap k) k = k.
Proof. by destruct k. Qed.

Section kinv.
Context {k : Kernel} {Q : Queues} {rs ws ts : list Z} (HK : kinv k Q rs ws ts).

Lemma kinv_task_place t T : tasks k !! t = Some T -> placed k Q rs ws t (state T).
Proof. intros HT. apply (twf_place _ _ _ _ _ _ (ki_tasks _ _ _ _ _ HK t T HT)). Qed.

Lemma kinv_rs_nodes x : x ∈ rs -> is_Some (nodes (heap k) !! x).
Proof.
  intros (T & HT & _)%(ki_ready _ _ _ _ _ HK).
  apply (twf_node _ _ _ _ _ _ (ki_tasks _ _ _ _ _ HK x T HT)).
Qed.

Lemma kinv_nodup_rs : NoDup rs.
Proof.
  destruct (queue_nodup _ _ _ _ (ki_reps _ _ _ _ _ HK) (ki_rs _ _ _ _ _ HK))
    as [[_ Hnd]%NoDup_cons _]. done.
Qed.

Lemma kinv_nodup_ws : NoDup ws.
Proof.
  destruct (queue_nodup _ _ _ _ (ki_reps _ _ _ _ _ HK) (ki_ws _ _ _ _ _ HK))
    as [[_ Hnd]%NoDup_cons _]. done.
Qed.

(** A node is in one list only. *)
Lemma kinv_apart l1 l2 xs1 xs2 a : Q !! l1 = Some xs1 -> Q !! l2 = Some xs2 ->
  a ∈ xs1 -> a ∈ xs2 -> l1 = l2.
Proof.
  intros H1 H2 Ha1 Ha2.
  apply (reps_disj _ _ (ki_reps _ _ _ _ _ HK) l1 l2 xs1 xs2 a); set_solver.
Qed.

(** A node that is unlinked from its list is free. *)
Lemma kinv_unlinked_free m l xs n : reps m (<[l := remove_elem n xs]> Q) ->
  Q !! l = Some xs -> n ∈ xs -> is_Some (m !! n) ->
  free_node m (<[l := remove_elem n xs]> Q) n.
Proof.
  intros Hm Hl Hn Hs. pose proof (ki_reps _ _ _ _ _ HK) as Hr. split; [done|..].
  - by eapply node_nonnull.
  - intros l1 xs1 [[<- <-]|[Hne H1]]%lookup_insert_Some Hin.
    + destruct (queue_nodup _ _ _ _ Hr Hl) as [[Hl1 _]%NoDup_cons Hl2]. set_solver.
    + apply Hne, (reps_disj _ _ Hr l l1 xs xs1 n); set_solver.
Qed.
End kinv.

(** ** Preservation *)

(** The invariant reads memory and [running] only. *)
Lemma kinv_frame k k' Q rs ws ts :
  heap k' = heap k -> tasks k' = tasks k -> running k' = running k ->
  timer_objs k' = timer_objs k -> kinv k Q rs ws ts -> kinv k' Q rs ws ts.
Proof.
  destruct k, k'; simpl; intros -> -> -> -> [].
  split; try assumption. intros t T HT. by destruct (ki_tasks0 t T HT).
Qed.

(** Updating a task without moving it. *)
Lemma kinv_set_task k Q rs ws ts t T T' :
  kinv k Q rs ws ts -> tasks k !! t = Some T -> state T' = state T ->
  (task_ok T -> task_ok T') -> kinv (set_tasks (<[t := T']> (tasks k)) k) Q rs ws ts.
Proof.
  intros HK HT Hst Hok.
  assert (forall s x, in_state k s x ->
    in_state (set_tasks (<[t := T']> (tasks k)) k) s x) as Hin.
  { intros s x (X & HX & <-). unfold in_state. simpl.
    destruct (decide (t = x)) as [->|]; simplify_map_eq; eauto. }
  destruct HK. split; try assumption; eauto.
  - simpl. intros x X [[<- <-]|[Hne HX]]%lookup_insert_Some.
    + destruct (ki_tasks0 t T HT). split; simpl; try done; rewrite Hst; auto.
    + by destruct (ki_tasks0 x X HX).
  - destruct ki_running0 as (U & HU & Hs). simpl.
    destruct (decide (t = running k)) as [->|]; simplify_map_eq; [|eauto].
    exists T'. by rewrite Hst.
  - intros a (X & HX & Hs & Hw & U & HU & HsU)%ki_timers0.
    exists X. split_and!; [done..|]. simpl.
    destruct (decide (t = tm_task X)) as [->|]; simplify_map_eq; [|eauto].
    exists T'. by rewrite Hst.
Qed.

Lemma is_signals_lor a b : is_signals a -> is_signals b -> is_signals (Z.lor a b).
Proof.
  unfold is_signals. intros [Ha1 Ha2] [Hb1 Hb2].
  split; [by apply Z.lor_nonneg|].
  destruct (decide (a = 0)) as [->|]; [by rewrite Z.lor_0_l|].
  destruct (decide (b = 0)) as [->|]; [by rewrite Z.lor_0_r|].
  apply Z.log2_lt_pow2.
  - assert (0 <= Z.lor a b) by by apply Z.lor_nonneg.
    assert (Z.lor a b <> 0) by (intros E; apply Z.lor_eq_0_iff in E; lia). lia.
  - rewrite Z.log2_lor by lia. apply Z.max_lub_lt; apply Z.log2_lt_pow2; lia.
Qed.

Lemma is_signals_sub a b : is_signals a -> 0 <= b -> (forall i, Z.testbit b i = true -> Z.testbit a i = true) ->
  is_signals b.
Proof.
  unfold is_signals. intros [Ha1 Ha2] Hb Hsub. split; [done|].
  destruct (decide (b = 0)) as [->|]; [lia|].
  apply Z.log2_lt_pow2; [lia|].
  assert (Z.testbit a (Z.log2 b) = true) as Ht by (apply Hsub, Z.bit_log2; lia).
  destruct (decide (a = 0)) as [->|]; [by rewrite Z.bits_0 in Ht|].
  destruct (decide (Z.log2 a < Z.log2 b)) as [Hlt|].
  { rewrite Z.bits_above_log2 in Ht; [done|lia..]. }
  assert (Z.log2 a < 16) by (apply Z.log2_lt_pow2; lia). lia.
Qed.

Lemma is_signals_land a b : is_signals a -> is_signals (Z.land a b).
Proof.
  intros Ha. eapply is_signals_sub; [exact Ha|apply Z.land_nonneg; left; apply Ha|].
  intros i. rewrite Z.land_spec. by intros [? _]%andb_true_iff.
Qed.

(** One task [t] changes its state to that of [T'], the lists change
    accordingly, and [r'] is the running task. *)
Lemma kinv_move k Q rs ws ts t T T' r' m' Q' rs' ws' :
  kinv k Q rs ws ts -> tasks k !! t = Some T ->
  scheduled (state T') = true -> task_ok T' ->
  reps m' Q' -> dom m' = dom (links (heap k)) ->
  Q' !! ready = Some rs' -> Q' !! waiting = Some ws' -> Q' !! timers = Some ts ->
  (forall x, x <> t -> (x ∈ rs' <-> x ∈ rs) /\ (x ∈ ws' <-> x ∈ ws)) ->
  (t ∈ rs' -> state T' = TASK_READY) -> (t ∈ ws' -> state T' = TASK_WAITING) ->
  (forall x, x <> t -> unowned Q x -> unowned Q' x) ->
  prio_sorted k rs' ->
  let k' := set_running r'
    (set_heap (mkHeap m' (nodes (heap k))) (set_tasks (<[t := T']> (tasks k)) k)) in
  placed k' Q' rs' ws' t (state T') ->
  (r' = running k \/
    r' = t /\ forall x X, tasks k !! x = Some X -> x <> t -> state X <> TASK_RUNNING) ->
  kinv k' Q' rs' ws' ts.
Proof.
  intros HK HT Hsch Hok Hm Hdom Hrs' Hws' Hts' Hmem Htrs Htws Hun Hsort k' Hpl Hr.
  assert (forall x, x <> t -> tasks k' !! x = tasks k !! x) as Hoth
    by (intros x Hx; simpl; by rewrite lookup_insert_ne).
  assert (tasks k' !! t = Some T') as Ht by apply lookup_insert_eq.
  destruct HK. split; try assumption.
  - intros x Hx. destruct (decide (x = t)) as [->|Hne]; [exists T'; eauto|].
    apply Hmem, ki_ready0 in Hx as (X & ? & ?); [|done].
    exists X. by rewrite Hoth.
  - intros x Hx. destruct (decide (x = t)) as [->|Hne]; [exists T'; eauto|].
    apply Hmem, ki_waiting0 in Hx as (X & ? & ?); [|done].
    exists X. by rewrite Hoth.
  - intros x X HX.
    assert (is_Some (links (heap k) !! x) -> is_Some (m' !! x)) as Hsome.
    { intros Hl. apply elem_of_dom. rewrite Hdom. by apply elem_of_dom. }
    destruct (decide (x = t)) as [->|Hne].
    + simplify_eq. destruct (ki_tasks0 t T HT). by split; simpl; auto.
    + rewrite Hoth in HX by done. destruct (ki_tasks0 x X HX).
      split; simpl; auto. destruct (Hmem x Hne) as [Hmr Hmw].
      destruct (state X) eqn:EX; simpl in *; [by auto|by auto| |by apply Hmr|by apply Hmw].
      destruct twf_place0 as [E Hu]. split; [|by auto].
      destruct Hr as [->|[_ Hr]]; [done|]. by destruct (Hr x X HX Hne).
  - destruct Hr as [->|[-> _]]; [|by exists T'].
    destruct ki_running0 as (U & HU & Hs). change (running k') with (running k).
    destruct (decide (running k = t)) as [E|Hne]; [rewrite E; by exists T'|].
    exists U. by rewrite Hoth.
  - intros a (X & HX & Hs & Hw & U & HU & HsU)%ki_timers0.
    exists X. split_and!; [done..|].
    destruct (decide (tm_task X = t)) as [E|Hne]; [rewrite E; by exists T'|].
    exists U. by rewrite Hoth.
Qed.

(** Changing one kernel list does not affect the ownership of other nodes. *)
Lemma unowned_other Q l xs xs' t : Q !! l = Some xs ->
  (forall x, x ∈ xs' -> x = t \/ x ∈ xs) ->
  forall x, x <> t -> unowned Q x -> unowned (<[l := xs']> Q) x.
Proof.
  intros Hl Hsub x Hne Hu. eapply unowned_update; [done..|].
  intros [?|Hx]%Hsub; [done|]. apply (Hu _ _ Hl). set_solver.
Qed.

Lemma elem_of_prio_insert pr t rs x : x ∈ prio_insert pr t rs <-> x = t \/ x ∈ rs.
Proof. rewrite prio_insert_perm. apply elem_of_cons. Qed.

(** Moving a waiting task to the ready list. *)
Lemma kinv_wake k Q rs ws ts t T T' m' :
  kinv k Q rs ws ts -> tasks k !! t = Some T -> t ∈ ws ->
  state T' = TASK_READY -> task_ok T' ->
  reps m' (<[ready := prio_insert (prio_at k) t rs]> (<[waiting := remove_elem t ws]> Q)) ->
  dom m' = dom (links (heap k)) ->
  kinv (set_heap (mkHeap m' (nodes (heap k))) (set_tasks (<[t := T']> (tasks k)) k))
    (<[ready := prio_insert (prio_at k) t rs]> (<[waiting := remove_elem t ws]> Q))
    (prio_insert (prio_at k) t rs) (remove_elem t ws) ts.
Proof.
  intros HK HT Ht Hst Hok Hm Hdom.
  eapply kinv_frame; [..|eapply (kinv_move k Q rs ws ts t T T' (running k))];
    try done; try (by rewrite ?Hst); try (by destruct HK; simplify_map_eq).
  - intros x Hne. rewrite elem_of_prio_insert. set_solver.
  - set_solver.
  - intros x Hne Hu. eapply (unowned_other _ ready); [by destruct HK; simplify_map_eq|..|done|].
    + intros y. apply elem_of_prio_insert.
    + eapply (unowned_other _ waiting); [apply HK| |done..]. set_solver.
  - apply prio_insert_sorted, HK.
  - rewrite Hst. simpl. rewrite elem_of_prio_insert. by left.
  - by left.
Qed.

(** A free task enters the ready list. *)
Lemma kinv_enqueue k Q rs ws ts t T T' m' :
  kinv k Q rs ws ts -> tasks k !! t = Some T -> unowned Q t ->
  state T' = TASK_READY -> task_ok T' ->
  reps m' (<[ready := prio_insert (prio_at k) t rs]> Q) -> dom m' = dom (links (heap k)) ->
  kinv (set_heap (mkHeap m' (nodes (heap k))) (set_tasks (<[t := T']> (tasks k)) k))
    (<[ready := prio_insert (prio_at k) t rs]> Q) (prio_insert (prio_at k) t rs) ws ts.
Proof.
  intros HK HT Ht Hst Hok Hm Hdom.
  eapply kinv_frame; [..|eapply (kinv_move k Q rs ws ts t T T' (running k))];
    try done; try (by rewrite ?Hst); try (by destruct HK; simplify_map_eq).
  - intros x Hne. rewrite elem_of_prio_insert. set_solver.
  - intros Hin. exfalso. eapply (Ht waiting); [apply HK|]. set_solver.
  - intros x Hne Hu. eapply (unowned_other _ ready); [apply HK|..|done|done].
    intros y. apply elem_of_prio_insert.
  - apply prio_insert_sorted, HK.
  - rewrite Hst. simpl. rewrite elem_of_prio_insert. by left.
  - by left.
Qed.

(** The running task enters the waiting list. *)
Lemma kinv_block k Q rs ws ts T T' m' :
  let t := running k in
  kinv k Q rs ws ts -> tasks k !! t = Some T -> unowned Q t ->
  state T' = TASK_WAITING -> task_ok T' ->
  reps m' (<[waiting := ws ++ [t]]> Q) -> dom m' = dom (links (heap k)) ->
  kinv (set_heap (mkHeap m' (nodes (heap k))) (set_tasks (<[t := T']> (tasks k)) k))
    (<[waiting := ws ++ [t]]> Q) rs (ws ++ [t]) ts.
Proof.
  intros t HK HT Ht Hst Hok Hm Hdom.
  eapply kinv_frame; [..|eapply (kinv_move k Q rs ws ts t T T' (running k))];
    try done; try (by rewrite ?Hst); try (by destruct HK; simplify_map_eq).
  - intros x Hne. set_solver.
  - intros Hin. exfalso. eapply (Ht ready); [apply HK|]. set_solver.
  - intros x Hne Hu. eapply (unowned_other _ waiting); [apply HK|..|done|done].
    set_solver.
  - rewrite Hst. simpl. set_solver.
  - by left.
Qed.

(** The head of the ready list becomes the running task. *)
Lemma kinv_dispatch k Q rs ws ts t T T' m' :
  kinv k Q (t :: rs) ws ts -> tasks k !! t = Some T ->
  in_state k TASK_READY (running k) \/ in_state k TASK_WAITING (running k) ->
  state T' = TASK_RUNNING -> task_ok T' ->
  reps m' (<[ready := rs]> Q) -> dom m' = dom (links (heap k)) ->
  kinv (set_running t
      (set_heap (mkHeap m' (nodes (heap k))) (set_tasks (<[t := T']> (tasks k)) k)))
    (<[ready := rs]> Q) rs ws ts.
Proof.
  intros HK HT Hrun Hst Hok Hm Hdom.
  pose proof (kinv_nodup_rs HK) as [Htrs _]%NoDup_cons.
  eapply (kinv_move k Q (t :: rs) ws ts t T T' t);
    try done; try (by rewrite ?Hst); try (by destruct HK; simplify_map_eq).
  - intros x Hne. set_solver.
  - intros Hin. exfalso.
    pose proof (kinv_apart HK ready waiting (t :: rs) ws t) as E.
    discriminate E; [apply HK..|set_solver|done].
  - intros x Hne Hu. eapply (unowned_other _ ready); [apply HK|..|done|done].
    set_solver.
  - pose proof (ki_sorted _ _ _ _ _ HK) as Hs. by apply StronglySorted_inv in Hs as [? _].
  - rewrite Hst. split; [done|].
    intros l xs [[<- <-]|[Hne Hl]]%lookup_insert_Some Hin.
    + destruct (queue_nodup _ _ _ _ (ki_reps _ _ _ _ _ HK) (ki_rs _ _ _ _ _ HK)) as [Hnd Ht].
      apply NoDup_cons in Hnd as [Hnd _]. set_solver.
    + apply Hne. eapply (reps_disj _ _ (ki_reps _ _ _ _ _ HK) ready l (t :: rs) xs t);
        [apply HK|done|set_solver|done].
  - right. split; [done|]. intros x X HX Hne Hs.
    pose proof (kinv_task_place HK x X HX) as Hp. rewrite Hs in Hp.
    destruct Hp as [-> _]. destruct Hrun as [(Y & HY & ?)|(Y & HY & ?)]; congruence.
Qed.

(** ** Cells outside the task lists

    [keeps_free k Q ts Q' ts']: when the contents of the lists change from [Q]
    to [Q'], an object that is no task and was at most in the timer queue is
    afterwards at most in the timer queue, and no list but the kernel's changes. *)
Definition kernel_list (l : addr) : Prop := l = ready \/ l = waiting \/ l = timers.

Record keeps_free (k : Kernel) (Q : Queues) (ts : list Z) (Q' : Queues) (ts' : list Z)
    : Prop := mkKeepsFree {
  kf_cells : forall a, tasks k !! a = None -> a ∈ ts \/ unowned Q a -> a ∈ ts' \/ unowned Q' a;
  kf_lists : forall l, ~ kernel_list l -> Q' !! l = Q !! l }.

Lemma kernel_insert l xs Q l' : kernel_list l -> ~ kernel_list l' ->
  <[l := xs]> Q !! l' = (Q : Queues) !! l'.
Proof. intros Hl Hl'. apply lookup_insert_ne. by intros <-. Qed.

Lemma keeps_free_refl k Q ts : keeps_free k Q ts Q ts.
Proof. by split. Qed.

Lemma keeps_free_trans k k1 Q Q1 Q2 ts ts1 ts2 : dom (tasks k1) = dom (tasks k) ->
  keeps_free k Q ts Q1 ts1 -> keeps_free k1 Q1 ts1 Q2 ts2 -> keeps_free k Q ts Q2 ts2.
Proof.
  intros Hd [H1 L1] [H2 L2]. split.
  - intros a Ha Hq. apply H2; [|by apply H1].
    apply not_elem_of_dom. rewrite Hd. by apply not_elem_of_dom.
  - intros l Hl. by rewrite L2, L1.
Qed.

(** A list of tasks changes. *)
Lemma keeps_free_tasks k Q ts l xs xs' : Q !! l = Some xs -> l = ready \/ l = waiting ->
  (forall x, x ∈ xs' -> is_Some (tasks k !! x)) -> keeps_free k Q ts (<[l := xs']> Q) ts.
Proof.
  intros Hl Hk Hx. split.
  - intros a Ha [?|Hu]; [by left|right].
    eapply unowned_update; [done|done|]. intros Hin. destruct (Hx a Hin). congruence.
  - intros l' Hl'. apply kernel_insert; [unfold kernel_list; tauto|done].
Qed.

Lemma kinv_ready_tasks k Q rs ws ts x : kinv k Q rs ws ts -> x ∈ rs -> is_Some (tasks k !! x).
Proof. intros HK (T & HT & _)%(ki_ready _ _ _ _ _ HK). eauto. Qed.

Lemma kinv_waiting_tasks k Q rs ws ts x : kinv k Q rs ws ts -> x ∈ ws -> is_Some (tasks k !! x).
Proof. intros HK (T & HT & _)%(ki_waiting _ _ _ _ _ HK). eauto. Qed.

(** The invariant holds of a part of the lists, if the kernel's are among them. *)
Lemma kinv_forget k Q rs ws ts l : kinv k Q rs ws ts -> ~ kernel_list l ->
  kinv k (delete l Q) rs ws ts.
Proof.
  intros HK Hl. assert (forall x, kernel_list x -> delete l Q !! x = Q !! x) as Hk.
  { intros x Hx. apply lookup_delete_ne. by intros <-. }
  unfold kernel_list in Hk. destruct HK. split; try done; rewrite ?Hk by tauto; try done.
  - destruct ki_reps0 as [Hd Hj]. split.
    + intros l' xs [_ Hx]%lookup_delete_Some. by apply Hd.
    + intros l1 l2 xs1 xs2 a [_ H1]%lookup_delete_Some [_ H2]%lookup_delete_Some. by apply Hj.
  - intros t T HT. destruct (ki_tasks0 t T HT) as [? ? ? Hp ?]. split; try done.
    assert (forall a, unowned Q a -> unowned (delete l Q) a) as Hu.
    { intros a Ha l' xs [_ Hx]%lookup_delete_Some. by apply (Ha l'). }
    destruct (state T); simpl in *; intuition.
Qed.

(** Memory changes outside the kernel's lists: cells come and go, and timers that
    are not queued change. *)
Lemma kinv_objects k k' Q rs ws ts : kinv k Q rs ws ts -> tasks k' = tasks k ->
  running k' = running k -> reps (links (heap k')) Q ->
  (forall x, is_Some (tasks k !! x) ->
    nodes (heap k') !! x = nodes (heap k) !! x /\ is_Some (links (heap k') !! x)) ->
  (forall a, a ∈ ts -> timer_objs k' !! a = timer_objs k !! a) -> kinv k' Q rs ws ts.
Proof.
  intros HK Et Er Hr Hobj Htm.
  assert (forall x, is_Some (tasks k !! x) -> prio_at k' x = prio_at k x) as Hpr.
  { intros x Hx. unfold prio_at, prio_of. by rewrite (proj1 (Hobj x Hx)). }
  pose proof (fun x => kinv_ready_tasks _ _ _ _ _ x HK) as Hrs.
  destruct HK. split; try done.
  - intros x Hx. unfold in_state. rewrite Et. by apply ki_ready0.
  - intros x Hx. unfold in_state. rewrite Et. by apply ki_waiting0.
  - intros x X HX. rewrite Et in HX. destruct (Hobj x) as [Hn Hl]; [eauto|].
    destruct (ki_tasks0 x X HX). split; try done; [by rewrite Hn|].
    destruct (state X); simpl in *; try done. by rewrite Er.
  - by rewrite Et, Er.
  - clear -ki_sorted0 Hpr Hrs. unfold prio_sorted in *.
    induction ki_sorted0 as [|x xs Hs IH Hf]; constructor; [apply IH; set_solver|].
    rewrite Forall_forall in *. intros y Hy. rewrite !Hpr by (apply Hrs; set_solver). by apply Hf.
  - intros a Ha. unfold timer_wf. rewrite Htm, Et by done. by apply ki_timers0.
  - clear -ki_ticks0 Htm. unfold tick_sorted in *.
    induction ki_ticks0 as [|x xs Hs IH Hf]; constructor; [apply IH; set_solver|].
    rewrite Forall_forall in *. intros y Hy. unfold tick_at. rewrite !Htm by set_solver.
    by apply Hf.
Qed.

Lemma reps_empty m : reps m ∅.
Proof. split; intros *; by rewrite lookup_empty. Qed.

(** A queue does not notice cells outside it. *)
Lemma reps_grow m Q a c : reps m Q -> m !! a = None -> reps (<[a := c]> m) Q.
Proof.
  intros [Hd Hj] Ha. split; [|done]. intros l xs Hl. pose proof (Hd l xs Hl) as Hdl.
  eapply dll_ext; [|done]. intros b Hb. apply lookup_insert_ne. intros <-.
  destruct (seg_lookup _ _ _ _ _ (proj2 Hdl) Hb). congruence.
Qed.

Lemma reps_shrink m Q a : reps m Q -> unowned Q a -> reps (delete a m) Q.
Proof.
  intros [Hd Hj] Ha. split; [|done]. intros l xs Hl.
  eapply dll_ext; [|by apply Hd]. intros b Hb. apply lookup_delete_ne. intros <-.
  by eapply Ha.
Qed.

Lemma reps_unowned m Q a : reps m Q -> m !! a = None -> unowned Q a.
Proof.
  intros [Hd _] Ha l xs Hl Hin. destruct (seg_lookup _ _ _ _ _ (proj2 (Hd l xs Hl)) Hin).
  congruence.
Qed.
