(* ===== verification/Checker.v ===== *)
(** * Deciding the invariant on a concrete state

    Every part of the kernel invariant is decidable; the decision procedure
    evaluates it on concrete memory. *)

From S2P Require Import Prelude Heap Lists ListSpec Machine Logic Context Task.
From S2P Require Import Platform Timer Invariant.

(** ** Lists *)

#[global] Instance seg_dec m p c q : Decision (seg m p c q).
Proof.
  revert p. induction c as [|a c IH]; intros p; simpl; [by left|].
  apply and_dec; [apply _|apply IH].
Defined.

#[global] Instance dll_dec m l xs : Decision (dll m l xs).
Proof. unfold dll. apply _. Defined.

(** All cells of all lists. *)
Definition cells (Q : Queues) : list Z :=
  concat ((fun '(l, xs) => chain l xs) <$> map_to_list Q).

Definition reps_check (m : gmap Z MinNode) (Q : Queues) : Prop :=
  map_Forall (fun l xs => dll m l xs) Q /\ NoDup (cells Q).

#[global] Instance reps_check_dec m Q : Decision (reps_check m Q).
Proof. unfold reps_check. apply _. Defined.

Lemma nodup_concat_apart {A} (xss : list (list A)) i j xs ys a :
  NoDup (concat xss) -> xss !! i = Some xs -> xss !! j = Some ys ->
  a ∈ xs -> a ∈ ys -> i = j.
Proof.
  revert i j. induction xss as [|zs xss IH]; intros i j; [done|].
  simpl. intros (_ & Hd & Hnd)%NoDup_app Hi Hj Hx Hy.
  assert (forall n ws, xss !! n = Some ws -> a ∈ ws -> a ∈ concat xss) as Hin.
  { intros n ws Hn Ha. apply list_elem_of_In, in_concat. exists ws.
    rewrite <- !list_elem_of_In. split; [|done]. by eapply list_elem_of_lookup_2. }
  destruct i as [|i], j as [|j]; simplify_eq/=; [done|..].
  - exfalso. apply (Hd a); [done|]. by eapply Hin.
  - exfalso. apply (Hd a); [done|]. by eapply Hin.
  - f_equal. by eapply IH.
Qed.

Lemma reps_check_sound m Q : reps_check m Q -> reps m Q.
Proof.
  intros [Hd Hnd]. split; [by intros l xs Hl; apply Hd|].
  intros l1 l2 xs1 xs2 a H1 H2 Ha1 Ha2.
  apply elem_of_map_to_list, list_elem_of_lookup in H1 as [i Hi].
  apply elem_of_map_to_list, list_elem_of_lookup in H2 as [j Hj].
  assert (i = j) as ->.
  { eapply (nodup_concat_apart _ i j); [exact Hnd|..|exact Ha1|exact Ha2].
    - by rewrite list_lookup_fmap, Hi.
    - by rewrite list_lookup_fmap, Hj. }
  by simplify_eq.
Qed.

(** ** The invariant *)

#[global] Instance in_state_dec k s t : Decision (in_state k s t).
Proof.
  unfold in_state. destruct (tasks k !! t) as [T|]; [|by right; intros (? & ? & _)].
  destruct (decide (state T = s)); [left; eauto|right; intros (? & ? & ?); by simplify_eq].
Defined.

#[global] Instance task_ok_dec T : Decision (task_ok T).
Proof.
  destruct (decide (
    (0 <= sig_alloc T < 2 ^ 16 /\ 0 <= sig_wait T < 2 ^ 16 /\ 0 <= sig_recvd T < 2 ^ 16) /\
    (Z.land SIGF_SINGLE (sig_alloc T) <> 0 /\ t_id_nestcnt T = -1) /\
    (bos (context T) <= frame (context T) /\
     frame (context T) + sizeof_StackFrame <= tos (context T)))) as [H|H].
  - left. destruct H as ((? & ? & ?) & (? & ?) & ?). by split.
  - right. intros []. apply H. auto.
Defined.

#[global] Instance placed_dec k Q rs ws t s : Decision (placed k Q rs ws t s).
Proof. destruct s; simpl; apply _. Defined.

Definition task_check (k : Kernel) (Q : Queues) (rs ws : list Z) (t : addr) (T : Task) : Prop :=
  (is_Some (nodes (heap k) !! t) /\ is_Some (links (heap k) !! t) /\ t <> NULL) /\
  placed k Q rs ws t (state T) /\
  (scheduled (state T) = true -> task_ok T).

Definition timer_check (k : Kernel) (a : addr) : Prop :=
  match timer_objs k !! a with
  | Some T => status T = TIMER_ADDED /\ (0 <= tm_signal T < 2 ^ 16) /\
      match tasks k !! tm_task T with Some U => scheduled (state U) = true | None => False end
  | None => False
  end.

#[global] Instance timer_check_dec k a : Decision (timer_check k a).
Proof.
  unfold timer_check. destruct (timer_objs k !! a) as [T|]; [|apply _].
  destruct (tasks k !! tm_task T); apply _.
Defined.

Lemma timer_check_sound k a : timer_check k a -> timer_wf k a.
Proof.
  unfold timer_check, timer_wf. destruct (timer_objs k !! a) as [T|]; [|done].
  intros (? & ? & ?). exists T. split_and!; [done..|].
  destruct (tasks k !! tm_task T); [eauto|done].
Qed.

Definition kinv_check (k : Kernel) (Q : Queues) (rs ws ts : list Z) : Prop :=
  reps_check (links (heap k)) Q /\
  (Q !! ready = Some rs /\ Q !! waiting = Some ws /\ Q !! timers = Some ts) /\
  (Forall (in_state k TASK_READY) rs /\ Forall (in_state k TASK_WAITING) ws) /\
  map_Forall (task_check k Q rs ws) (tasks k) /\
  match tasks k !! running k with Some T => scheduled (state T) = true | None => False end /\
  prio_sorted k rs /\ Forall (timer_check k) ts /\ tick_sorted k ts.

#[global] Instance sorted_dec {A} (R : A -> A -> Prop) `{forall a b, Decision (R a b)} xs :
  Decision (StronglySorted R xs).
Proof.
  induction xs as [|x xs IH]; [left; constructor|].
  destruct IH as [Hs|Hs]; [|right; intros Hn; by apply StronglySorted_inv in Hn as [? _]].
  destruct (decide (Forall (R x) xs)) as [Hf|Hf].
  - left. by constructor.
  - right. intros Hn. by apply StronglySorted_inv in Hn as [_ ?].
Defined.

#[global] Instance kinv_check_dec k Q rs ws ts : Decision (kinv_check k Q rs ws ts).
Proof.
  unfold kinv_check, task_check, prio_sorted, tick_sorted.
  destruct (tasks k !! running k); apply _.
Defined.

Lemma kinv_check_sound k Q rs ws ts : kinv_check k Q rs ws ts -> kinv k Q rs ws ts.
Proof.
  intros (Hr & (H1 & H2 & H3) & (Hrs & Hws) & Ht & Hrun & Hs & Htm & Htk).
  rewrite Forall_forall in Hrs, Hws, Htm.
  split; try done.
  - by apply reps_check_sound.
  - intros t T HT. destruct (Ht t T HT) as [(? & ? & ?) [? ?]]. by split.
  - destruct (tasks k !! running k) as [T|]; [eauto|done].
  - intros a Ha. by apply timer_check_sound, Htm.
Qed.

(** Evaluates the invariant of a concrete state. *)
Ltac check_kinv := apply kinv_check_sound, (bool_decide_unpack _); vm_compute; exact I.
