(* ===== verification/Demo.v ===== *)
(** * A concrete system

    A memory with two application tasks, a message port, a semaphore and two
    timers, and the states the kernel functions take it to: the inputs at which
    the properties are instantiated. *)

From S2P Require Import Prelude Heap Lists ListSpec Machine Logic Context Task.
From S2P Require Import Platform Timer Semaphore MsgPort Init Invariant Checker.

Definition demo_a : addr := 536879104.
Definition demo_b : addr := 536879360.
Definition demo_stack_a : addr := 536883200.
Definition demo_stack_b : addr := 536887296.
Definition demo_port : addr := 536879616.
Definition demo_sem : addr := 536879648.
Definition demo_t1 : addr := 536879680.
Definition demo_t2 : addr := 536879712.
Definition demo_m1 : addr := 536879744.
Definition demo_m2 : addr := 536879776.
Definition demo_req : addr := 536879808.
Definition demo_mbox : addr := 536879840.

Definition blank_min : MinNode := mkMin 0 0.
Definition blank_node : Node := mkNode None 0.
Definition blank_task : Task := mkTask (mkContext 0 0 0) 0 0 0 0 TASK_INVALID.
Definition blank_timer : Timer := mkTimer 0 0 0 0 TIMER_NONE TIMER_INVALID.

(** The 16 words of the first frame on a stack. *)
Definition frame_words (stack size : Z) : list (Z * Z) :=
  (fun i => (stack + size - 64 + 4 * Z.of_nat i, 0)) <$> seq 0 16.

(** Memory behind reset.  Address zero is an alias of the flash memory, where
    the vector table is. *)
Definition demo_mem : Kernel :=
  mkKernel false false false 0 0 NULL 0
    (mkHeap
      (list_to_map ((fun a => (a, blank_min)) <$>
        [ready; tail ready; waiting; tail waiting; timers; tail timers; init_task;
         demo_a; demo_b; demo_port; tail demo_port; demo_sem; tail demo_sem;
         demo_t1; demo_t2; demo_m1; demo_m2; demo_req; demo_mbox; tail demo_mbox]))
      (<[NULL := mkNode (Some "vector_table"%string) 0]>
        (list_to_map ((fun a => (a, blank_node)) <$>
          [init_task; demo_a; demo_b; demo_t1; demo_t2; demo_m1; demo_m2]))))
    (list_to_map ((fun a => (a, blank_task)) <$> [init_task; demo_a; demo_b]))
    (list_to_map ((fun a => (a, blank_timer)) <$> [demo_t1; demo_t2]))
    (list_to_map [(demo_sem, 0)])
    (list_to_map [(demo_req, mkReq NULL 0)])
    (list_to_map ((fun a => (a, mkPort NULL 0 MSGPORT_INVALID)) <$> [demo_port; demo_mbox]))
    (list_to_map [(demo_m1, demo_port); (demo_m2, NULL)])
    ∅
    (list_to_map (frame_words init_task_stack INIT_TASK_STACK_SIZE ++
      frame_words demo_stack_a 1024 ++ frame_words demo_stack_b 1024)) 0.

(** What [user_init] of the demo application does: two tasks of priority [pa]
    and [pb]. *)
Definition demo_init (pa pb : Z) : M unit :=
  task_init demo_a (Some "a"%string) pa 134220001 NULL demo_stack_a 1024;;
  task_init demo_b (Some "b"%string) pb 134220101 NULL demo_stack_b 1024;;
  sem_init demo_sem 0;;
  msgport_init demo_port;;
  task_schedule demo_a;;
  task_schedule demo_b.

Definition demo_boot (pa pb : Z) : M unit :=
  _ ← martos_pre; timer_init;; task_set_prio init_task TASK_PRIO_MIN;; demo_init pa pb.

Definition state_after {A} (m : M A) (k : Kernel) : Kernel :=
  match quiet_run m k with Some (_, k') => k' | None => k end.

(** The state behind [user_init]: the init task runs, both tasks are ready,
    and PendSV is pending. *)
Definition demo_ready : Kernel := Eval vm_compute in state_after (demo_boot 1 2) demo_mem.

(** The state behind the scheduler: [b] runs. *)
Definition demo_running : Kernel := Eval vm_compute in
  state_after (PendSV_exception (init_task_stack + 1000)) demo_ready.

(** Two tasks of equal priority, the first of which runs. *)
Definition demo_equal : Kernel := Eval vm_compute in
  state_after (PendSV_exception (init_task_stack + 1000))
    (state_after (demo_boot 1 1) demo_mem).

Definition demo_Q (rs ws : list Z) : Queues :=
  {[ready := rs; waiting := ws; timers := []; demo_port := []; demo_sem := []]}.

Lemma demo_ready_kinv :
  kinv demo_ready (demo_Q [demo_b; demo_a] []) [demo_b; demo_a] [] [].
Proof. check_kinv. Qed.

Lemma demo_running_kinv :
  kinv demo_running (demo_Q [demo_a; init_task] []) [demo_a; init_task] [] [].
Proof. check_kinv. Qed.

Lemma demo_equal_kinv :
  kinv demo_equal (demo_Q [demo_b; init_task] []) [demo_b; init_task] [] [].
Proof. check_kinv. Qed.

(** The frames at which the tasks of the demo are interrupted. *)
Definition demo_frames (t : addr) : addr :=
  if t =? init_task then init_task_stack + 1000
  else if t =? demo_a then demo_stack_a + 512 else demo_stack_b + 512.

(** The first state in which a context switch is pending. *)
Fixpoint first_switch {A} (r : Res A) : option Kernel :=
  match r with
  | Preempt k f => if pendsv k then Some k else first_switch (f k)
  | _ => None
  end.

(** Task [b] has blocked on the signal 8 and [a] runs. *)
Definition demo_blocked : Kernel := Eval vm_compute in
  match first_switch (signal_wait 2 8 demo_running) with
  | Some k => state_after (PendSV_exception (demo_stack_b + 512)) k
  | None => demo_running
  end.

Lemma demo_blocked_kinv :
  kinv demo_blocked (demo_Q [init_task] [demo_b]) [init_task] [demo_b] [].
Proof. check_kinv. Qed.

(** The same state inside [disable]. *)
Definition demo_calm (k : Kernel) : Kernel := lock k.

Lemma demo_calm_kinv k Q rs ws ts : kinv k Q rs ws ts -> kinv (demo_calm k) Q rs ws ts.
Proof. intros HK. by eapply kinv_frame; [..|exact HK]. Qed.

Lemma demo_calm_ok k : irq_ok k -> id_nestcnt k < 31999 -> calm (demo_calm k).
Proof. apply lock_calm. Qed.

Lemma demo_blocked_calm : calm (demo_calm demo_blocked).
Proof.
  apply lock_calm; [|reflexivity]. split; [reflexivity|].
  split; [vm_compute; discriminate|reflexivity].
Qed.

Lemma demo_blocked_idle : idle_ok (demo_calm demo_blocked).
Proof. eexists. split; [vm_compute; reflexivity|]. left. reflexivity. Qed.

(** The tasks of [demo_blocked]. *)
Definition demo_task (k : Kernel) (t : addr) : Task := default blank_task (tasks k !! t).

(** Two delays, initialised: [b] is signalled after 5 ticks, [a] after 9. *)
Definition demo_timers : Kernel := Eval vm_compute in
  set_timer_objs (list_to_map
    [(demo_t1, mkTimer demo_b 8 5 0 TIMER_DELAY TIMER_INITIALIZED);
     (demo_t2, mkTimer demo_a 16 9 0 TIMER_DELAY TIMER_INITIALIZED)]) demo_blocked.

(** Both are in the timer queue, and four ticks have passed. *)
Definition demo_timed : Kernel := Eval vm_compute in
  set_timer_now 4 (state_after (timer_add demo_t2;; timer_add demo_t1) demo_timers).

Definition demo_Qt (rs ws ts : list Z) : Queues :=
  {[ready := rs; waiting := ws; timers := ts; demo_port := []; demo_sem := []]}.

Lemma demo_timers_kinv :
  kinv demo_timers (demo_Qt [init_task] [demo_b] []) [init_task] [demo_b] [].
Proof. check_kinv. Qed.

Lemma demo_timed_kinv :
  kinv demo_timed (demo_Qt [init_task] [demo_b] [demo_t1; demo_t2])
    [init_task] [demo_b] [demo_t1; demo_t2].
Proof. check_kinv. Qed.

(** One and two requests in the queue of the semaphore. *)
Definition demo_reqs : Kernel :=
  set_reqs (list_to_map [(demo_req, mkReq demo_b 8); (demo_m1, mkReq demo_b 8)]) demo_blocked.
Definition demo_sem_one : Kernel := Eval vm_compute in
  state_after (sem_add_request demo_sem demo_req) demo_reqs.
Definition demo_sem_two : Kernel := Eval vm_compute in
  state_after (sem_add_request demo_sem demo_m1) demo_sem_one.

Definition demo_Qs (rq : list Z) : Queues :=
  {[ready := [init_task]; waiting := [demo_b]; timers := []; demo_port := []; demo_sem := rq]}.

Lemma demo_sem_one_kinv :
  kinv demo_sem_one (demo_Qs [demo_req]) [init_task] [demo_b] [].
Proof. check_kinv. Qed.

Lemma demo_sem_two_kinv :
  kinv demo_sem_two (demo_Qs [demo_req; demo_m1]) [init_task] [demo_b] [].
Proof. check_kinv. Qed.

(** Behind [task_init] of [a] and before its [task_schedule]. *)
Definition demo_initialized : Kernel := Eval vm_compute in
  state_after (_ ← martos_pre; timer_init;;
    task_init demo_a (Some "a"%string) 1 134220001 NULL demo_stack_a 1024;;
    sem_init demo_sem 0;; msgport_init demo_port) demo_mem.

Lemma demo_initialized_kinv : kinv demo_initialized (demo_Q [] []) [] [] [].
Proof. check_kinv. Qed.
