(* ===== verification/TestListSpec.v ===== *)
(** * The test of the list functions passes ([src/test_list/test_list.c]) *)

From S2P Require Import Prelude Heap Lists ListSpec Machine Logic Context Task TestPrograms.
From S2P Require Import Platform Timer Invariant Checker Demo.

(** [spins m k Q]: started in [k], [m] is never preempted and ends in a
    [while (1);] loop in a state that satisfies [Q]. *)
Definition spins {A} (m : M A) (k : Kernel) (Q : Kernel -> Prop) : Prop :=
  exists k', m k = Spin k' /\ Q k'.

Lemma spins_bind {A B} (m : M A) (f : A -> M B) k Q :
  wp (fun _ => False) (fun _ _ => False) m k (fun a k' => spins (f a) k' Q) -> spins (m ≫= f) k Q.
Proof.
  rewrite wp_run. intros (a & k1 & E & k' & E' & HQ). exists k'. split; [|done].
  by rewrite (run_bind _ _ _ _ _ E).
Qed.

Lemma spins_spin {A} k (Q : Kernel -> Prop) : Q k -> spins (@test_pass A) k Q.
Proof. intros HQ. by exists k. Qed.

Section test.
Context (v : ListVars) (k0 : Kernel).
#[local] Abbreviation l := (lv_l v).
#[local] Abbreviation n1 := (lv_n1 v).
#[local] Abbreviation n2 := (lv_n2 v).
Context (Hnd : NoDup [NULL; l; tail l; n1; n2]).

(** The state of the test: the list [l] holds [xs]; nothing but the three
    variables differs from the state [k0] at the start. *)
Record vars (xs : list Z) (k : Kernel) : Prop := mkVars {
  vr_state : k = set_heap (heap k) k0;
  vr_reps : reps (links (heap k)) {[l := xs]};
  vr_mem : is_Some (links (heap k) !! n1) /\ is_Some (links (heap k) !! n2);
  vr_nodes : nodes (heap k) !! n1 = Some (mkNode (Some "one"%string) 3) /\
    nodes (heap k) !! n2 = Some (mkNode (Some "two"%string) 8);
  vr_links_same : forall a, a ∉ [l; tail l; n1; n2] -> links (heap k) !! a = links (heap k0) !! a;
  vr_nodes_same : forall a, a ∉ [n1; n2] -> nodes (heap k) !! a = nodes (heap k0) !! a }.

Lemma vars_step {A B} (f : HM A) (g : A -> M B) xs xs' r S k Q : vars xs k ->
  list_step (heap k) S (<[l := xs']> {[l := xs]}) r (f (heap k)) -> S ⊆ [l; tail l; n1; n2] ->
  (forall k', vars xs' k' -> spins (g r) k' Q) -> spins (listop f ≫= g) k Q.
Proof.
  intros [Hk Hr [H1 H2] Hn Hl Hns] Hs Hsub HQ. eapply spins_bind, wp_list_step; [exact Hs|].
  intros m Hm [Hd He]. apply HQ. rewrite insert_singleton_eq in Hm.
  split; simpl; try done.
  - rewrite Hk. by apply kernel_ext.
  - split; apply elem_of_dom; rewrite Hd; by apply elem_of_dom.
  - intros a Ha. rewrite He by set_solver. by apply Hl.
Qed.

Lemma vars_read {A B} (f : HM A) (g : A -> M B) xs r k Q : vars xs k ->
  f (heap k) = Some (r, heap k) -> spins (g r) k Q -> spins (listop f ≫= g) k Q.
Proof. intros _ E HQ. by eapply spins_bind, wp_list_read. Qed.

Lemma vars_assert {B} b (g : unit -> M B) k Q : b = true -> spins (g tt) k Q ->
  spins (assert_that b ≫= g) k Q.
Proof. intros Hb HQ. by apply spins_bind, wp_assert. Qed.

(** An assertion on what a function that only reads returns. *)
Lemma vars_check {B} a (f : HM addr) (g : unit -> M B) xs k Q : vars xs k ->
  f (heap k) = Some (a, heap k) -> spins (g tt) k Q -> spins (assert_addr a f ≫= g) k Q.
Proof.
  intros _ E HQ. unfold assert_addr. eapply spins_bind, wp_bind, wp_list_read; [exact E|].
  by apply wp_assert; [apply Z.eqb_refl|].
Qed.

Lemma vars_lookup (xs : list Z) : ({[l := xs]} : Queues) !! l = Some xs.
Proof. apply lookup_singleton_eq. Qed.

Lemma vars_free xs k n : vars xs k -> n = n1 \/ n = n2 -> n ∉ xs ->
  free_node (links (heap k)) {[l := xs]} n.
Proof.
  intros [_ _ [H1 H2] _ _ _] Hn Hx. rewrite !NoDup_cons in Hnd.
  split; [by destruct Hn as [->| ->]|set_solver|].
  intros l' xs' [<- <-]%lookup_singleton_Some. set_solver.
Qed.

Lemma vars_named xs k : vars xs k -> xs ⊆ [n1; n2] ->
  forall x, x ∈ xs -> exists c nm, nodes (heap k) !! x = Some c /\ name c = Some nm.
Proof.
  intros [_ _ _ [H1 H2] _ _] Hsub x Hx. specialize (Hsub x Hx).
  assert (x = n1 \/ x = n2) as [->| ->] by set_solver; eauto.
Qed.

Lemma vars_add {B} n (g : unit -> M B) xs k Q : vars xs k -> n = n1 \/ n = n2 -> n ∉ xs ->
  xs ⊆ [n1; n2] -> (forall k', vars (xs ++ [n]) k' -> spins (g tt) k' Q) ->
  spins (listop (list_add_tail l n) ≫= g) k Q.
Proof.
  intros Hv Hn Hx Hsub HQ. eapply (vars_step _ _ xs); [done| | |exact HQ].
  - apply add_tail_step; [apply Hv|apply vars_lookup|by apply vars_free].
  - destruct Hn as [->| ->]; set_solver.
Qed.

Lemma vars_enqueue {B} n (g : unit -> M B) xs xs' k Q : vars xs k -> n = n1 \/ n = n2 -> n ∉ xs ->
  xs ⊆ [n1; n2] -> prio_insert (prio_of (heap k)) n xs = xs' ->
  (forall k', vars xs' k' -> spins (g tt) k' Q) -> spins (listop (list_enqueue l n) ≫= g) k Q.
Proof.
  intros Hv Hn Hx Hsub <- HQ. eapply (vars_step _ _ xs); [done| | |exact HQ].
  - apply enqueue_step; [apply Hv|apply vars_lookup|by apply vars_free|..].
    + destruct Hv as [_ _ _ [E1 E2] _ _]. destruct Hn as [->| ->]; eauto.
    + intros x Hin. destruct (vars_named xs k Hv Hsub x Hin) as (c & _ & ? & _). eauto.
  - destruct Hn as [->| ->]; set_solver.
Qed.

Lemma vars_rem {B} (g : Z -> M B) x xs k Q : vars (x :: xs) k -> xs ⊆ [n1; n2] ->
  (forall k', vars xs k' -> spins (g x) k' Q) -> spins (listop (list_rem_head l) ≫= g) k Q.
Proof.
  intros Hv Hsub HQ. eapply (vars_step _ _ (x :: xs)); [done| | |exact HQ].
  - eapply rem_head_step; [apply Hv|apply vars_lookup].
  - set_solver.
Qed.

Lemma vars_check_rem {B} (g : unit -> M B) x xs k Q : vars (x :: xs) k -> xs ⊆ [n1; n2] ->
  (forall k', vars xs k' -> spins (g tt) k' Q) ->
  spins (assert_addr x (list_rem_head l) ≫= g) k Q.
Proof.
  intros Hv Hsub HQ. assert (spins (x' ← listop (list_rem_head l); assert_that (x =? x') ≫= g) k Q) as (k' & E & Hk').
  { eapply vars_rem; [done|done|]. intros k' Hv'. apply vars_assert; [apply Z.eqb_refl|auto]. }
  exists k'. split; [|done]. rewrite <- E. unfold assert_addr, mbind, M_bind.
  unfold listop. destruct (list_rem_head l (heap k)) as [[a h]|]; done.
Qed.

Lemma vars_prio xs k : vars xs k -> prio_of (heap k) n1 = 3 /\ prio_of (heap k) n2 = 8.
Proof. intros [_ _ _ [E1 E2] _ _]. unfold prio_of. by rewrite E1, E2. Qed.

Lemma vars_names xs k : vars xs k ->
  has_name (heap k) "one" n1 = true /\ has_name (heap k) "two" n1 = false /\
  has_name (heap k) "one" n2 = false /\ has_name (heap k) "two" n2 = true.
Proof. intros [_ _ _ [E1 E2] _ _]. unfold has_name. by rewrite E1, E2. Qed.

(** The variables come into being, the list is initialised, the nodes named. *)
Lemma vars_enter {B} (g : unit -> M B) Q : (forall k, vars [] k -> spins (g tt) k Q) ->
  spins (enter_list_vars v;;
    listop (list_init l);;
    upd_node n1 (fun c => mkNode (name c) 3);;
    upd_node n1 (fun c => mkNode (Some "one"%string) (prio c));;
    upd_node n2 (fun c => mkNode (name c) 8);;
    x ← upd_node n2 (fun c => mkNode (Some "two"%string) (prio c)); g x) k0 Q.
Proof.
  intros HQ. rewrite !NoDup_cons in Hnd. destruct Hnd as (Hz & Hl & Ht & Hn & _).
  apply spins_bind, wp_modify. set (k1 := set_heap _ k0).
  assert (l <> tail l /\ l <> n1 /\ l <> n2 /\ tail l <> n1 /\ tail l <> n2 /\ n1 <> n2 /\
    l <> NULL /\ tail l <> NULL) as (D1 & D2 & D3 & D4 & D5 & D6 & D7 & D8) by set_solver.
  eapply spins_bind, wp_list_step.
  { eapply (init_step (heap k1) ∅ (reps_empty _) l); simpl.
    - apply lookup_insert_eq.
    - by rewrite lookup_insert_ne, lookup_insert_eq.
    - done.
    - done.
    - by intros ? ?; rewrite delete_empty.
    - by intros ? ?; rewrite delete_empty. }
  intros m Hm [Hd He]. set (k2 := set_heap _ k1).
  apply spins_bind. unfold upd_node at 1, wp. simpl.
  rewrite lookup_insert_eq. simpl. apply spins_bind. unfold upd_node at 1, wp. simpl.
  rewrite lookup_insert_eq. simpl. apply spins_bind. unfold upd_node at 1, wp. simpl.
  rewrite !lookup_insert_ne, lookup_insert_eq by done. simpl.
  apply spins_bind. unfold upd_node at 1, wp. simpl.
  rewrite lookup_insert_eq. simpl. apply HQ. split; simpl.
  - by apply kernel_ext.
  - exact Hm.
  - split; apply elem_of_dom; rewrite Hd; simpl; apply elem_of_dom;
      rewrite !lookup_insert_is_Some'; auto.
  - rewrite lookup_insert_eq, !lookup_insert_ne, lookup_insert_eq by done. done.
  - intros a Ha. rewrite He by set_solver. simpl. rewrite !lookup_insert_ne by set_solver. done.
  - intros a Ha. rewrite !lookup_insert_ne by set_solver. done.
Qed.

(** What the assertions look at. *)
Lemma vars_empty {B} b (g : unit -> M B) xs k Q : vars xs k -> b = bool_decide (xs = []) ->
  spins (g tt) k Q -> spins (assert_bool b (list_is_empty l) ≫= g) k Q.
Proof.
  intros Hv -> HQ. unfold assert_bool. eapply spins_bind, wp_bind, wp_list_read.
  { eapply is_empty_run; [apply Hv|apply vars_lookup]. }
  apply wp_assert; [|done]. by apply bool_decide_eq_true.
Qed.

Lemma vars_head {B} a (g : unit -> M B) xs k Q : vars xs k -> a = first NULL xs ->
  spins (g tt) k Q -> spins (assert_addr a (list_get_head l) ≫= g) k Q.
Proof.
  intros Hv ->. eapply vars_check; [exact Hv|]. eapply get_head_run; [apply Hv|apply vars_lookup].
Qed.

Lemma vars_rem_nil {B} (g : unit -> M B) k Q : vars [] k ->
  spins (g tt) k Q -> spins (assert_addr NULL (list_rem_head l) ≫= g) k Q.
Proof.
  intros Hv. eapply vars_check; [exact Hv|]. eapply rem_head_nil; [apply Hv|apply vars_lookup].
Qed.

(** The names of the two nodes, as [list_find] sees them. *)
Definition named (s : string) (n : addr) : bool :=
  if n =? n1 then bool_decide (s = "one"%string) else bool_decide (s = "two"%string).

Lemma vars_find {B} a s (g : unit -> M B) xs k Q : vars xs k -> xs ⊆ [n1; n2] ->
  a = default NULL (head (List.filter (named s) xs)) ->
  spins (g tt) k Q -> spins (assert_addr a (list_find l (Some s)) ≫= g) k Q.
Proof.
  intros Hv Hsub ->. eapply vars_check; [exact Hv|].
  rewrite (find_run _ _ (vr_reps _ _ Hv) l s xs (vars_lookup xs) (vars_named xs k Hv Hsub)).
  do 2 f_equal. rewrite !NoDup_cons in Hnd. destruct Hv as [_ _ _ [E1 E2] _ _].
  induction xs as [|x xs IH]; [done|]. simpl.
  assert (has_name (heap k) s x = named s x) as E.
  { assert (x = n1 \/ x = n2) as [->| ->] by set_solver; unfold has_name, named.
    - rewrite E1, Z.eqb_refl. simpl. apply bool_decide_ext. split; congruence.
    - rewrite E2. rewrite (proj2 (Z.eqb_neq n2 n1)) by set_solver. simpl.
      apply bool_decide_ext. split; congruence. }
  rewrite E. destruct (named s x); [done|]. apply IH. set_solver.
Qed.

Lemma vars_get_prio {B} p n (g : unit -> M B) xs k Q : vars xs k ->
  n = n1 /\ p = 3 \/ n = n2 /\ p = 8 ->
  spins (g tt) k Q -> spins (assert_addr p (get_prio n) ≫= g) k Q.
Proof.
  intros Hv Hn. eapply vars_check; [exact Hv|]. destruct Hv as [_ _ _ [E1 E2] _ _].
  unfold get_prio. destruct Hn as [[-> ->]|[-> ->]]; [by rewrite E1|by rewrite E2].
Qed.

Lemma vars_unlink {B} x xs (g : unit -> M B) k Q : vars (xs ++ [x]) k -> xs ++ [x] ⊆ [n1; n2] ->
  (forall k', vars xs k' -> spins (g tt) k' Q) -> spins (listop (list_unlink x) ≫= g) k Q.
Proof.
  intros Hv Hsub HQ. eapply (vars_step _ _ (xs ++ [x]) xs); [done| | |exact HQ].
  - pose proof (unlink_step (heap k) _ (vr_reps _ _ Hv) l xs [] x (vars_lookup _)) as H.
    rewrite app_nil_r in H. exact H.
  - set_solver.
Qed.
End test.

(** Runs the assertion in front, which only looks at the list, and the next call
    that changes it. *)
Ltac test_look :=
  lazymatch goal with H : vars ?v ?k0 ?xs ?k |- _ =>
    first
    [ eapply (vars_empty v k0 _ _ xs k); [exact H|done|]
    | eapply (vars_head v k0 _ _ xs k); [exact H|done|]
    | eapply (vars_find v k0 ltac:(eassumption) _ _ _ xs k); [exact H|set_solver|
        simpl; repeat match goal with E : named _ _ _ = _ |- _ => rewrite E end; reflexivity|]
    | eapply (vars_get_prio v k0 _ _ _ xs k); [exact H|by auto|] ]
  end.

(** The call in front, which changes the list, by its lemma [lem]. *)
Tactic Notation "test_call" open_constr(lem) :=
  lazymatch goal with H : vars ?v ?k0 ?xs ?k |- _ =>
    eapply lem;
      [lazymatch goal with
       | |- prio_insert _ _ _ = _ => simpl;
           rewrite ?(proj1 (vars_prio _ _ _ _ H)), ?(proj2 (vars_prio _ _ _ _ H)); reflexivity
       | |- _ => solve [exact H|eassumption|by auto|set_solver|reflexivity] end..|];
    clear H; let k2 := fresh "k" in intros k2 H; simpl in H; clear k; rename k2 into k
  end.

(** C34. The list test of the repository passes: [test_task_f] of [test_list.c],
    started with its variables anywhere on the stack, whatever that memory held,
    reaches the loop of [test_pass] with interrupts as they were (a failing
    assertion would have masked them and counted [id_nestcnt] up); it never
    reaches a point where it can be preempted, and changes no memory but its
    variables. *)
Theorem test_list_passes v k : NoDup [NULL; lv_l v; tail (lv_l v); lv_n1 v; lv_n2 v] ->
  exists k', test_list_task_f v k = Spin k' /\ k' = set_heap (heap k') k /\
    (forall a, a ∉ [lv_l v; tail (lv_l v); lv_n1 v; lv_n2 v] ->
      links (heap k') !! a = links (heap k) !! a /\ nodes (heap k') !! a = nodes (heap k) !! a).
Proof.
  intros Hnd.
  assert (lv_n1 v <> lv_n2 v /\ lv_n2 v <> lv_n1 v) as [D1 D2].
  { rewrite !NoDup_cons in Hnd. set_solver. }
  assert (spins (test_list_task_f v) k (fun k' => vars v k [] k')) as (k' & E & Hv).
  2: { exists k'. destruct Hv as [Hk _ _ _ Hl Hn]. split_and!; [done..|]. intros a Ha.
       split; [by apply Hl|apply Hn; set_solver]. }
  unfold test_list_task_f. cbv zeta. apply vars_enter; [done|]. intros k1 H1.
  assert (named v "one" (lv_n1 v) = true /\ named v "two" (lv_n1 v) = false /\
    named v "one" (lv_n2 v) = false /\ named v "two" (lv_n2 v) = true) as (F1 & F2 & F3 & F4).
  { unfold named. rewrite Z.eqb_refl, (proj2 (Z.eqb_neq _ _) D2). done. }
  do 2 test_look. test_call (vars_add v k).
  do 2 test_look. test_call (vars_add v k).
  do 3 test_look. test_call (vars_rem v k).
  do 2 test_look. test_call (vars_rem v k).
  test_call (vars_enqueue v k). test_look.
  test_call (vars_enqueue v k). test_look.
  test_call (vars_unlink v k Hnd (lv_n1 v) [lv_n2 v]). test_look.
  test_call (vars_enqueue v k). test_look.
  do 2 test_call (vars_check_rem v k).
  do 2 (eapply (vars_rem_nil v k); [eassumption|]).
  do 4 test_look. by apply spins_spin.
Qed.

(** Variables on the stack of the test task, which holds garbage. *)
Definition demo_list_vars : ListVars :=
  mkListVars (test_task_stack + 512) (test_task_stack + 528) (test_task_stack + 544)
    (fun a => mkMin a a) (fun a => mkNode None a).

Lemma test_list_passes_witness :
  exists k', test_list_task_f demo_list_vars demo_ready = Spin k' /\ k' = set_heap (heap k') demo_ready /\
    (forall a, a ∉ [lv_l demo_list_vars; tail (lv_l demo_list_vars); lv_n1 demo_list_vars;
        lv_n2 demo_list_vars] ->
      links (heap k') !! a = links (heap demo_ready) !! a /\
      nodes (heap k') !! a = nodes (heap demo_ready) !! a).
Proof. apply test_list_passes. apply (bool_decide_unpack _). vm_compute. exact I. Defined.
