(* ===== verification/TaskSpec.v ===== *)
(** * What the functions of [src/task.c] do *)

From S2P Require Import Prelude Heap Lists ListSpec Machine Logic Context Task.
From S2P Require Import Platform Timer Invariant.

(** ** Lists functions of the kernel lists *)

Definition wakes (T : Task) (s : Z) : bool :=
  bool_decide (TASK_WAITING = state T) && negb (Z.land s (sig_wait T) =? 0).

Definition add_recvd (s : Z) (T : Task) : Task := set_sig_recvd (Z.lor (sig_recvd T) s) T.

(** The lists behind a wake-up of [t]. *)
Definition wake_queues (k : Kernel) (Q : Queues) (rs ws : list Z) (t : addr) : Queues :=
  <[ready := prio_insert (prio_at k) t rs]> (<[waiting := remove_elem t ws]> Q).

(** The outcome of [signal_send]. *)
Definition sent (k : Kernel) (Q : Queues) (rs ws : list Z) (t : addr) (T : Task) (s : Z)
    (k' : Kernel) : Prop :=
  if wakes T s then
    exists m', k' = set_pendsv (pendsv k || (prio_at k (running k) <? prio_at k t))
        (set_tasks (<[t := set_state TASK_READY (add_recvd s T)]> (tasks k))
          (set_heap (mkHeap m' (nodes (heap k))) k)) /\
      reps m' (wake_queues k Q rs ws t) /\
      same_except (chain waiting ws ++ chain ready rs) (links (heap k)) m'
  else k' = set_tasks (<[t := add_recvd s T]> (tasks k)) k.

Section send.
Context (I : Kernel -> Prop) (R : Kernel -> Kernel -> Prop).

Lemma wp_reschedule_calm k (P : unit -> Kernel -> Prop) :
  interruptible k = false -> P tt (set_pendsv true k) -> wp I R reschedule k P.
Proof. intros Hi HP. eapply wp_bind, wp_modify. by apply wp_window_calm. Qed.

Lemma wp_get_prio k a (P : Z -> Kernel -> Prop) : is_Some (nodes (heap k) !! a) ->
  P (prio_at k a) k -> wp I R (listop (get_prio a)) k P.
Proof.
  intros [c Hc] HP. eapply wp_list_read; [|exact HP].
  unfold get_prio, prio_at, prio_of. by rewrite Hc.
Qed.

(** Moving a waiting task to the ready list. *)
Lemma wp_wake {A} k Q rs ws ts t T (P : A -> Kernel -> Prop) f (rest : M A) :
  kinv k Q rs ws ts -> t ∈ ws -> tasks k !! t = Some T ->
  (forall m', reps m' (wake_queues k Q rs ws t) ->
    same_except (chain waiting ws ++ chain ready rs) (links (heap k)) m' ->
    wp I R rest (set_heap (mkHeap m' (nodes (heap k)))
                  (set_tasks (<[t := f T]> (tasks k)) k)) P) ->
  wp I R (listop (list_unlink t);; upd_task t f;; listop (list_enqueue ready t);; rest) k P.
Proof.
  intros HK Ht HT HP. pose proof (ki_reps _ _ _ _ _ HK) as Hr.
  pose proof (ki_ws _ _ _ _ _ HK) as Hws. pose proof (ki_rs _ _ _ _ _ HK) as Hrs.
  pose proof (kinv_nodup_ws HK) as Hnd.
  pose proof (ki_tasks _ _ _ _ _ HK t T HT) as Hwf.
  assert (list_step (heap k) (chain waiting (remove_elem t ws))
    (<[waiting := remove_elem t ws]> Q) tt (list_unlink t (heap k))) as Hu.
  { apply list_elem_of_split in Ht as (w1 & w2 & ->).
    apply NoDup_app in Hnd as (_ & Hd & [Hd2 _]%NoDup_cons).
    rewrite remove_elem_middle; [|intros ?; by eapply Hd; [|left]|done].
    by apply unlink_step. }
  eapply wp_bind, wp_list_step; [exact Hu|]. intros m1 Hr1 [Hdom1 Hs1].
  eapply wp_bind, wp_upd_task; [exact HT|]. simpl.
  assert (is_Some (m1 !! t)) as Hm1.
  { apply elem_of_dom. rewrite Hdom1. apply elem_of_dom, Hwf. }
  eapply wp_bind, wp_list_step.
  - simpl. apply enqueue_step; simpl; [exact Hr1|..].
    + rewrite lookup_insert_ne by done. exact Hrs.
    + by eapply (kinv_unlinked_free HK).
    + apply Hwf.
    + intros x. by apply (kinv_rs_nodes HK).
  - simpl. intros m' Hr' [Hdom Hs].
    apply HP; [exact Hr'|]. split; [congruence|]. intros a Ha.
    assert ((a ∉ chain waiting ws) /\ (a ∉ chain ready rs)) as [Ha1 Ha2] by set_solver.
    rewrite Hs, Hs1; [done|set_solver..].
Qed.

Lemma task_ok_recvd s T : is_signals s -> task_ok T -> task_ok (add_recvd s T).
Proof. intros Hs []. split; try done. by apply is_signals_lor. Qed.

(** [signal_send] between [disable] and [enable]. *)
Definition send_body (task signals : Z) : M unit :=
  upd_task task (fun T => set_sig_recvd (Z.lor (sig_recvd T) signals) T);;
  T ← load tasks task;
  if bool_decide (TASK_WAITING = state T) && negb (Z.land signals (sig_wait T) =? 0) then
    listop (list_unlink task);;
    upd_task task (set_state TASK_READY);;
    listop (list_enqueue ready task);;
    r ← gets running;
    p1 ← listop (get_prio r);
    p2 ← listop (get_prio task);
    (if p1 <? p2 then reschedule else mret tt)
  else mret tt.

Lemma wp_send_body k Q rs ws ts t T s (P : unit -> Kernel -> Prop) :
  calm k -> kinv k Q rs ws ts -> tasks k !! t = Some T ->
  is_signals s -> (forall k', sent k Q rs ws t T s k' -> P tt k') ->
  wp I R (send_body t s) k P.
Proof.
  intros [_ Hc] HK HT Hsig HP. unfold send_body, sent in *.
  eapply wp_bind, wp_upd_task; [exact HT|]. fold (add_recvd s T).
  eapply wp_bind, wp_load; [simpl; apply lookup_insert_eq|]. simpl.
  change (bool_decide (TASK_WAITING = state T) && negb (Z.land s (sig_wait T) =? 0))
    with (wakes T s).
  destruct (wakes T s) eqn:Hw; [|by apply wp_ret, HP].
  assert (t ∈ ws) as Ht.
  { apply andb_true_iff in Hw as [E%bool_decide_eq_true _].
    pose proof (kinv_task_place HK t T HT) as Hp. by rewrite <- E in Hp. }
  eapply (wp_wake _ Q rs ws ts t (add_recvd s T)).
  - apply (kinv_set_task k Q rs ws ts t T); [done|done|done|]. by apply task_ok_recvd.
  - done.
  - simpl. apply lookup_insert_eq.
  - simpl. intros m' Hm' Hs. eapply wp_bind, wp_gets. simpl.
    destruct (ki_running _ _ _ _ _ HK) as (U & HU & _).
    pose proof (twf_node _ _ _ _ _ _ (ki_tasks _ _ _ _ _ HK _ _ HU)) as Hnr.
    pose proof (twf_node _ _ _ _ _ _ (ki_tasks _ _ _ _ _ HK _ _ HT)) as Hnt.
    eapply wp_bind, wp_get_prio; [exact Hnr|].
    eapply wp_bind, wp_get_prio; [exact Hnt|].
    rewrite insert_insert_eq. simpl.
    match goal with |- wp _ _ (if ?b then _ else _) _ _ =>
      change b with (prio_at k (running k) <? prio_at k t) end.
    destruct (prio_at k (running k) <? prio_at k t) eqn:Ep.
    + eapply wp_reschedule_calm; [done|]. apply HP. exists m'. split_and!; [|done..].
      rewrite orb_true_r. apply kernel_ext; reflexivity.
    + apply wp_ret, HP. exists m'. split_and!; [|done..].
      rewrite orb_false_r. apply kernel_ext; reflexivity.
Qed.

Lemma sent_back k Q rs ws t T s k' : sent (lock k) Q rs ws t T s k' ->
  sent k Q rs ws t T s (set_id_nestcnt (id_nestcnt k) (set_primask (primask k) k')) /\
  id_nestcnt k' = id_nestcnt k + 1 /\ primask k' = true /\ handler k' = handler k.
Proof.
  unfold sent. destruct (wakes T s).
  - intros (m' & -> & Hm & Hs). split; [|done]. exists m'.
    split; [apply kernel_ext; reflexivity|done].
  - intros ->. split; [|done]. apply kernel_ext; reflexivity.
Qed.

(** The complete behaviour of [signal_send] in a calm state. *)
Lemma wp_signal_send k Q rs ws ts t T s (P : unit -> Kernel -> Prop) :
  calm k -> id_nestcnt k < 31999 -> kinv k Q rs ws ts -> tasks k !! t = Some T ->
  is_signals s -> (forall k', sent k Q rs ws t T s k' -> P tt k') ->
  wp I R (signal_send t s) k P.
Proof.
  intros Hc Hn HK HT Hsig HP. unfold signal_send.
  assert (wp I R (send_body t s) (lock k) (fun _ k' => sent (lock k) Q rs ws t T s k')) as H.
  { eapply wp_send_body; [|by eapply kinv_frame; [..|exact HK]|exact HT|done|done].
    by apply lock_calm; [apply Hc|]. }
  eapply wp_bind, wp_disable_calm; [done|]. do 2 peel H.
  eapply wp_bind, wp_mono; [exact H|]. simpl. intros [] k3 Hk'.
  destruct (sent_back _ _ _ _ _ _ _ _ Hk') as (Hs & E1 & E2 & E3).
  eapply wp_enable_back; [exact Hc|done..|]. by apply HP.
Qed.

(** [signal_send] preserves the kernel invariant. *)
Lemma sent_kinv k Q rs ws ts t T s k' : kinv k Q rs ws ts -> tasks k !! t = Some T ->
  is_signals s -> sent k Q rs ws t T s k' ->
  kinv k' (if wakes T s then wake_queues k Q rs ws t else Q)
    (if wakes T s then prio_insert (prio_at k) t rs else rs)
    (if wakes T s then remove_elem t ws else ws) ts.
Proof.
  intros HK HT Hsig Hsent. unfold sent in Hsent. destruct (wakes T s) eqn:Hw.
  - destruct Hsent as (m' & -> & Hm & [Hdom _]).
    apply andb_true_iff in Hw as [E%bool_decide_eq_true _].
    pose proof (kinv_task_place HK t T HT) as Hp. rewrite <- E in Hp. simpl in Hp.
    eapply kinv_frame; [..|eapply (kinv_wake k Q rs ws ts t T
      (set_state TASK_READY (add_recvd s T)) m')]; try done.
    destruct (twf_ok _ _ _ _ _ _ (ki_tasks _ _ _ _ _ HK t T HT));
      [by rewrite <- E|]. split; try done. by apply is_signals_lor.
  - subst k'. eapply kinv_set_task; [done|exact HT|done|]. by apply task_ok_recvd.
Qed.
End send.
