(* ===== verification/SchedSpec.v ===== *)
(** * What the scheduler does ([PendSV_Handler_user] of [platform.c])

    The context switch preserves the kernel invariant, establishes the
    scheduling invariant, and hands the processor to the first of the ready
    tasks of highest priority, the previous task queued behind its equals. *)

From S2P Require Import Prelude Heap Lists ListSpec Machine Logic Context Task.
From S2P Require Import Platform Timer Invariant TaskSpec.

Section verify.
Context (I : Kernel -> Prop) (R : Kernel -> Kernel -> Prop).

(** [task_verify] between [disable] and [enable]. *)
Definition verify_body (task : addr) : M unit :=
  taskcontext_verify task;;
  T ← load tasks task;
  assert_that (negb (Z.land SIGF_SINGLE (sig_alloc T) =? 0));;
  assert_that (-1 <=? t_id_nestcnt T);;
  assert_that (bool_decide (state T = TASK_INITIALIZED) ||
               bool_decide (state T = TASK_RUNNING) ||
               bool_decide (state T = TASK_READY) ||
               bool_decide (state T = TASK_WAITING)).

Lemma wp_verify_body k t T (P : unit -> Kernel -> Prop) : tasks k !! t = Some T -> task_ok T ->
  state T <> TASK_INVALID -> P tt k -> wp I R (verify_body t) k P.
Proof.
  intros HT [_ _ _ Hs Hnest [Hf1 Hf2]] Hst HP. unfold verify_body, taskcontext_verify.
  eapply wp_bind, wp_bind, wp_load; [exact HT|].
  eapply wp_bind, wp_assert; [by apply Z.leb_le|].
  eapply wp_assert; [by apply Z.leb_le|].
  eapply wp_bind, wp_load; [exact HT|].
  eapply wp_bind, wp_assert; [by apply negb_true_iff, Z.eqb_neq|].
  eapply wp_bind, wp_assert; [apply Z.leb_le; lia|].
  eapply wp_assert; [by destruct (state T)|done].
Qed.

(** [task_verify] of a well-formed task changes nothing. *)
Lemma wp_task_verify k t T (P : unit -> Kernel -> Prop) :
  calm k -> id_nestcnt k < 31999 -> tasks k !! t = Some T -> task_ok T ->
  state T <> TASK_INVALID -> P tt k -> wp I R (task_verify t) k P.
Proof.
  intros Hc Hn HT Hok Hst HP. unfold task_verify.
  eapply wp_bind, wp_disable_calm; [done|].
  assert (wp I R (verify_body t) (lock k) (fun _ k' => k' = lock k)) as H by by eapply wp_verify_body.
  do 4 peel H. eapply wp_bind, wp_mono; [exact H|]. intros [] ? ->.
  eapply wp_enable_back; [exact Hc|done..|].
  replace (set_id_nestcnt _ _) with k; [done|]. by apply kernel_ext.
Qed.
End verify.

(** The tasks that compete for the processor. *)
Definition candidates (k : Kernel) (rs : list Z) (T : Task) : list Z :=
  if bool_decide (state T = TASK_RUNNING) then prio_insert (prio_at k) (running k) rs
  else rs.

(** The task that is switched out, as the scheduler leaves it. *)
Definition switched_out (old_frame : addr) (T : Task) : Task :=
  set_t_id_nestcnt (-1)
    (set_state (if bool_decide (state T = TASK_RUNNING) then TASK_READY else state T)
      (set_context (mkContext old_frame (bos (context T)) (tos (context T))) T)).

Section pendsv.
Context (I : Kernel -> Prop) (R : Kernel -> Kernel -> Prop).

(** The common part of the scheduler: dispatch the head of the ready list. *)
Lemma wp_switch_task k Q rs ws ts r (P : unit -> Kernel -> Prop) :
  kinv k Q (r :: rs) ws ts ->
  in_state k TASK_READY (running k) \/ in_state k TASK_WAITING (running k) ->
  id_nestcnt k = -1 ->
  (forall m' T X,
    let tasks1 := <[running k := set_t_id_nestcnt (-1) T]> (tasks k) in
    let k' := set_running r (set_heap (mkHeap m' (nodes (heap k)))
      (set_tasks (<[r := set_state TASK_RUNNING X]> tasks1) k)) in
    tasks k !! running k = Some T -> tasks1 !! r = Some X -> state X = TASK_READY ->
    kinv k' (<[ready := rs]> Q) rs ws ts ->
    same_except (chain ready rs) (links (heap k)) m' ->
    P tt (set_elapsed QUANTUM (set_id_nestcnt (-1) k'))) ->
  wp I R switch_task k P.
Proof.
  intros HK Hrun Hn HP. unfold switch_task.
  destruct (ki_running _ _ _ _ _ HK) as (T & HT & Hs).
  eapply wp_bind, wp_gets, wp_bind, wp_gets, wp_bind, wp_upd_task; [exact HT|].
  rewrite Hn. set (T1 := set_t_id_nestcnt (-1) T).
  assert (kinv (set_tasks (<[running k := T1]> (tasks k)) k) Q (r :: rs) ws ts) as HK1.
  { eapply kinv_set_task; [done|exact HT|done|]. by intros []. }
  set (k1 := set_tasks _ k) in *.
  eapply wp_bind, wp_list_step.
  { by apply (rem_head_step (heap k1) Q (ki_reps _ _ _ _ _ HK1) ready r rs), HK1. }
  intros m' Hm' Hm.
  destruct (ki_ready _ _ _ _ _ HK1 r ltac:(set_solver)) as (X & HX & HXs).
  pose proof (twf_ok _ _ _ _ _ _ (ki_tasks _ _ _ _ _ HK1 r X HX)) as Hok.
  rewrite HXs in Hok. specialize (Hok eq_refl).
  eapply wp_bind, wp_modify, wp_bind, wp_upd_task; [exact HX|].
  eapply wp_bind, wp_load; [simpl; apply lookup_insert_eq|]. simpl.
  rewrite (tok_nest _ Hok).
  eapply wp_bind, wp_modify, wp_modify.
  apply (HP m' T X HT HX HXs); [|done].
  apply (kinv_dispatch k1 Q rs ws ts r X); try done; [|by destruct Hok|apply Hm].
  destruct Hrun as [(Y & HY & HYs)|(Y & HY & HYs)]; [left|right];
    exists T1; (split; [apply lookup_insert_eq|]); by simplify_eq.
Qed.

(** The outcome of the context switch, in terms of the candidates. *)
Definition dispatched (k : Kernel) (f : addr) (Q : Queues) (rs ws ts : list Z) (T : Task)
    (k' : Kernel) : Prop :=
  exists r rs' m' X,
    candidates k rs T = r :: rs' /\
    let tasks1 := <[running k := switched_out f T]> (tasks k) in
    tasks1 !! r = Some X /\ state X = TASK_READY /\
    k' = set_elapsed QUANTUM (set_running r (set_heap (mkHeap m' (nodes (heap k)))
           (set_tasks (<[r := set_state TASK_RUNNING X]> tasks1) k))) /\
    kinv k' (<[ready := rs']> Q) rs' ws ts /\
    (forall t, t ∈ rs' -> prio_at k' t <= prio_at k' r) /\
    same_except (running k :: chain ready rs) (links (heap k)) m'.

Definition frame_ok (f : addr) (T : Task) : Prop :=
  bos (context T) <= f /\ f + sizeof_StackFrame <= tos (context T).

Lemma task_ok_frame f T : frame_ok f T -> task_ok T ->
  task_ok (set_context (mkContext f (bos (context T)) (tos (context T))) T).
Proof. intros [? ?] []. by split. Qed.

Lemma head_highest k r rs : prio_sorted k (r :: rs) ->
  forall t, t ∈ rs -> prio_at k t <= prio_at k r.
Proof.
  intros Hs t Ht. apply StronglySorted_inv in Hs as [_ Hs].
  rewrite Forall_forall in Hs. by apply Hs.
Qed.

(** The end of the critical section: interrupts are unmasked. *)
Lemma wp_unmask k (P : unit -> Kernel -> Prop) : handler k = true -> id_nestcnt k = -1 ->
  P tt (set_primask false k) ->
  wp I R (n ← gets id_nestcnt; if n <? 0 then __enable_irq else mret tt) k P.
Proof.
  intros Hh Hn HP. eapply wp_bind, wp_gets. rewrite Hn.
  eapply wp_bind, wp_modify, wp_window_calm; [|done].
  unfold interruptible. simpl. by rewrite Hh.
Qed.

(** The end of the handler: the task switched in is verified. *)
Lemma wp_pendsv_result k X (P : addr -> Kernel -> Prop) :
  calm k -> id_nestcnt k < 31999 ->
  tasks k !! running k = Some X -> task_ok X -> state X = TASK_RUNNING ->
  P (frame (context X)) k ->
  wp I R (r ← gets running; task_verify r;; T ← load_running; mret (frame (context T))) k P.
Proof.
  intros Hc Hn HX Hok Hs HP.
  eapply wp_bind, wp_gets, wp_bind, wp_task_verify; [done|done|exact HX|done|congruence|].
  eapply wp_bind, wp_bind, wp_gets, wp_load; [exact HX|]. by apply wp_ret.
Qed.

(** The handler from the point where the old task is not [TASK_RUNNING]. *)
Lemma wp_pendsv_tail k Q r rs ws ts T (P : unit -> Kernel -> Prop) :
  let tasks1 := <[running k := set_t_id_nestcnt (-1) T]> (tasks k) in
  kinv k Q (r :: rs) ws ts ->
  tasks k !! running k = Some T -> state T = TASK_READY \/ state T = TASK_WAITING ->
  handler k = true -> id_nestcnt k = -1 ->
  (forall m' X, let k' := set_running r (set_heap (mkHeap m' (nodes (heap k)))
      (set_tasks (<[r := set_state TASK_RUNNING X]> tasks1) k)) in
    tasks1 !! r = Some X -> state X = TASK_READY ->
    kinv k' (<[ready := rs]> Q) rs ws ts ->
    same_except (chain ready rs) (links (heap k)) m' ->
    P tt (set_primask false (set_elapsed QUANTUM (set_id_nestcnt (-1) k')))) ->
  wp I R (switch_task;;
    n ← gets id_nestcnt; if n <? 0 then __enable_irq else mret tt) k P.
Proof.
  intros tasks1 HK HT Hs Hh Hn HP.
  eapply wp_bind, wp_switch_task; [exact HK| |exact Hn|].
  { destruct Hs; [left|right]; by exists T. }
  intros m' T0 X tk k' HT0 HX HXs HK' Hm. simplify_eq.
  eapply wp_unmask; [done|done|]. by apply (HP m' X).
Qed.

Lemma dispatched_intro k f Q rs ws ts T r rs' m' X k2 k3 :
  let tasks1 := <[running k := switched_out f T]> (tasks k) in
  candidates k rs T = r :: rs' -> prio_sorted k (r :: rs') ->
  tasks1 !! r = Some X -> state X = TASK_READY ->
  kinv k2 (<[ready := rs']> Q) rs' ws ts ->
  heap k2 = mkHeap m' (nodes (heap k)) -> tasks k2 = <[r := set_state TASK_RUNNING X]> tasks1 ->
  running k2 = r -> timer_objs k2 = timer_objs k ->
  same_except (running k :: chain ready rs) (links (heap k)) m' ->
  k3 = set_elapsed QUANTUM (set_running r (set_heap (mkHeap m' (nodes (heap k)))
         (set_tasks (<[r := set_state TASK_RUNNING X]> tasks1) k))) ->
  dispatched k f Q rs ws ts T k3.
Proof.
  intros tasks1 Hc Hs HX HXs HK Eh Et Er Eo Hse ->.
  exists r, rs', m', X. split; [done|]. split; [done|]. split; [done|].
  split; [done|]. split; [by eapply kinv_frame; [..|exact HK]|].
  split; [by apply head_highest|done].
Qed.

(** The tasks behind the two or three updates of the task switched out. *)
Lemma switched_out_running f T (tk : gmap Z Task) r :
  state T = TASK_RUNNING ->
  let T1 := set_context (mkContext f (bos (context T)) (tos (context T))) T in
  <[r := set_t_id_nestcnt (-1) (set_state TASK_READY T1)]>
    (<[r := set_state TASK_READY T1]> (<[r := T1]> tk)) = <[r := switched_out f T]> tk.
Proof.
  intros Hs T1. rewrite !insert_insert_eq. unfold switched_out.
  by rewrite bool_decide_true.
Qed.

Lemma switched_out_other f T (tk : gmap Z Task) r :
  state T <> TASK_RUNNING ->
  let T1 := set_context (mkContext f (bos (context T)) (tos (context T))) T in
  <[r := set_t_id_nestcnt (-1) T1]> (<[r := T1]> tk) = <[r := switched_out f T]> tk.
Proof.
  intros Hs T1. rewrite !insert_insert_eq. unfold switched_out.
  by rewrite bool_decide_false.
Qed.

(** The handler once the frame is saved and interrupts are disabled. *)
Section saved.
Context (k : Kernel) (Q : Queues) (rs ws ts : list Z) (T : Task) (f : addr).
Context (P : unit -> Kernel -> Prop).
Let T1 : Task := set_context (mkContext f (bos (context T)) (tos (context T))) T.
Let k1 : Kernel := set_tasks (<[running k := T1]> (tasks k)) (set_primask true k).
Context (HK : kinv k Q rs ws ts) (HT : tasks k !! running k = Some T).
Context (Hok : task_ok T) (Hf : frame_ok f T).
Context (Hp : primask k = false) (Hh : handler k = true) (Hn : id_nestcnt k = -1).
Context (HP : forall k', dispatched k f Q rs ws ts T k' -> P tt k').

Lemma saved_kinv : kinv k1 Q rs ws ts.
Proof.
  eapply (kinv_set_task (set_primask true k)); [|exact HT|done|by intros; apply task_ok_frame].
  by eapply kinv_frame; [..|exact HK].
Qed.

Lemma candidates_sorted : prio_sorted k (candidates k rs T).
Proof. unfold candidates. case_bool; [apply prio_insert_sorted, HK|apply HK]. Qed.

Lemma requeued_apart r rs' m1 m' : state T = TASK_RUNNING -> candidates k rs T = r :: rs' ->
  same_except (running k :: chain ready rs) (links (heap k)) m1 ->
  same_except (chain ready rs') m1 m' ->
  same_except (running k :: chain ready rs) (links (heap k)) m'.
Proof.
  intros Hs Hc [Hd1 H1] [Hd H]. split; [by rewrite Hd|]. intros x Hx.
  assert (forall y, y ∈ r :: rs' -> y = running k \/ y ∈ rs).
  { intros y. rewrite <- Hc. unfold candidates. rewrite bool_decide_true by done.
    apply elem_of_prio_insert. }
  rewrite H; [by apply H1|]. set_solver.
Qed.

Lemma wp_pendsv_running r rs' : state T = TASK_RUNNING -> candidates k rs T = r :: rs' ->
  wp I R ((upd_task (running k) (set_state TASK_READY);;
    listop (list_enqueue ready (running k));; switch_task);;
    n ← gets id_nestcnt; if n <? 0 then __enable_irq else mret tt) k1 P.
Proof.
  intros Hs Hcs. pose proof candidates_sorted as Hsort. rewrite Hcs in Hsort.
  pose proof saved_kinv as HK1. assert (task_ok T1) as Hok1 by by apply task_ok_frame.
  assert (prio_insert (prio_of (heap k)) (running k) rs = r :: rs') as Hcs'
    by (rewrite <- Hcs; unfold candidates; by rewrite bool_decide_true).
  pose proof (kinv_task_place HK _ _ HT) as Hpl. rewrite Hs in Hpl. destruct Hpl as [_ Hun].
  pose proof (ki_tasks _ _ _ _ _ HK _ _ HT) as Hwf.
  eapply wp_bind, wp_bind, wp_upd_task; [apply lookup_insert_eq|].
  eapply wp_bind, wp_list_step.
  { apply (enqueue_step (heap k1) Q (ki_reps _ _ _ _ _ HK1) ready rs (running k));
      [apply HK|split; [apply Hwf|apply Hwf|done]|apply Hwf|intros x; apply (kinv_rs_nodes HK)]. }
  intros m1 Hm1 Hse1. apply wp_unbind.
  eapply (wp_pendsv_tail _ (<[ready := r :: rs']> Q) r rs' ws ts (set_state TASK_READY T1));
    [|apply lookup_insert_eq|by left|done|done|].
  { rewrite <- Hcs'.
    eapply (kinv_enqueue k1 Q rs ws ts (running k) T1); try done;
      [apply lookup_insert_eq|by destruct Hok1|apply Hse1]. }
  intros m' X k' HX HXs HK' Hse. apply HP.
  pose proof (switched_out_running f T (tasks k) (running k) Hs) as Etk. simpl in Etk.
  eapply (dispatched_intro k f Q rs ws ts T r rs' m' X k'); try done.
  - rewrite <- Etk. exact HX.
  - by rewrite insert_insert_eq in HK'.
  - by rewrite <- Etk.
  - by eapply requeued_apart.
  - apply kernel_ext; try done. simpl. by rewrite <- Etk.
Qed.

Lemma wp_pendsv_other r rs' : state T = TASK_READY \/ state T = TASK_WAITING ->
  candidates k rs T = r :: rs' ->
  wp I R (switch_task;;
    n ← gets id_nestcnt; if n <? 0 then __enable_irq else mret tt) k1 P.
Proof.
  intros Hs Hcs. pose proof candidates_sorted as Hsort. rewrite Hcs in Hsort.
  assert (state T <> TASK_RUNNING) as Hs' by (intros E; rewrite E in Hs; naive_solver).
  assert (rs = r :: rs') as Ers
    by (rewrite <- Hcs; unfold candidates; by rewrite bool_decide_false).
  pose proof saved_kinv as HK1. rewrite Ers in HK1.
  eapply (wp_pendsv_tail k1 Q r rs' ws ts T1); [done|apply lookup_insert_eq|done..|].
  intros m' X k' HX HXs HK' Hse. apply HP.
  pose proof (switched_out_other f T (tasks k) (running k) Hs') as Etk. simpl in Etk.
  eapply (dispatched_intro k f Q rs ws ts T r rs' m' X k'); try done.
  - rewrite <- Etk. exact HX.
  - by rewrite <- Etk.
  - rewrite Ers. eapply same_except_mono; [exact Hse|]. set_solver.
  - apply kernel_ext; try done. simpl. by rewrite <- Etk.
Qed.
End saved.

Lemma wp_pendsv_switch k Q rs ws ts T f (P : unit -> Kernel -> Prop) :
  kinv k Q rs ws ts -> tasks k !! running k = Some T -> frame_ok f T ->
  candidates k rs T <> [] -> handler k = true -> id_nestcnt k = -1 -> primask k = false ->
  (forall k', dispatched k f Q rs ws ts T k' -> P tt k') ->
  wp I R (PendSV_switch f) k P.
Proof.
  intros HK HT Hf Hcand Hh Hn Hp HP. unfold PendSV_switch.
  destruct (ki_running _ _ _ _ _ HK) as (T0 & HT0 & Hsch). simplify_eq.
  pose proof (twf_ok _ _ _ _ _ _ (ki_tasks _ _ _ _ _ HK _ _ HT) Hsch) as Hok.
  eapply wp_bind, wp_modify, wp_bind, wp_gets, wp_bind, wp_upd_task; [exact HT|].
  eapply wp_bind, wp_load; [simpl; apply lookup_insert_eq|].
  destruct (candidates k rs T) as [|r rs'] eqn:Hcs; [done|].
  change (state (set_context _ T)) with (state T).
  change (running (set_primask true k)) with (running k).
  change (tasks (set_primask true k)) with (tasks k).
  destruct (state T) eqn:Hs; try done;
    [eapply (wp_pendsv_running k Q rs ws ts T f P)|eapply (wp_pendsv_other k Q rs ws ts T f P)..];
    eauto.
Qed.

(** The task that is switched in. *)
Lemma dispatched_task k f Q rs ws ts T k' : dispatched k f Q rs ws ts T k' ->
  exists X, tasks k' !! running k' = Some X /\ task_ok X /\ state X = TASK_RUNNING.
Proof.
  intros (r & rs' & m' & X & _ & _ & _ & -> & HK & _). exists (set_state TASK_RUNNING X).
  assert (tasks (set_elapsed QUANTUM (set_running r (set_heap (mkHeap m' (nodes (heap k)))
    (set_tasks (<[r := set_state TASK_RUNNING X]> (<[running k := switched_out f T]> (tasks k))) k))))
    !! r = Some (set_state TASK_RUNNING X)) as HX by apply lookup_insert_eq.
  split_and!; [exact HX| |done]. exact (twf_ok _ _ _ _ _ _ (ki_tasks _ _ _ _ _ HK _ _ HX) eq_refl).
Qed.

Lemma handler_calm k : handler k = true -> primask k = false -> id_nestcnt k = -1 -> calm k.
Proof.
  intros Hh Hp Hn. split; [split; [by rewrite Hn, Hp|lia]|]. unfold interruptible. by rewrite Hp, Hh.
Qed.

Lemma wp_pendsv_user k Q rs ws ts T f (P : addr -> Kernel -> Prop) :
  kinv k Q rs ws ts -> tasks k !! running k = Some T -> frame_ok f T ->
  candidates k rs T <> [] ->
  primask k = false -> handler k = true -> id_nestcnt k = -1 ->
  (forall k' T', dispatched k f Q rs ws ts T k' -> tasks k' !! running k' = Some T' ->
    P (frame (context T')) k') ->
  wp I R (PendSV_Handler_user f) k P.
Proof.
  intros HK HT Hf Hcand Hp Hh Hn HP. unfold PendSV_Handler_user.
  destruct (ki_running _ _ _ _ _ HK) as (T0 & HT0 & Hsch). simplify_eq.
  pose proof (twf_ok _ _ _ _ _ _ (ki_tasks _ _ _ _ _ HK _ _ HT) Hsch) as Hok.
  eapply wp_bind, wp_gets, wp_bind, wp_task_verify;
    [by apply handler_calm|lia|done|done|by destruct (state T)|].
  eapply wp_bind, (wp_pendsv_switch k Q rs ws ts T f); [done..|]. intros k' Hd.
  destruct (dispatched_task _ _ _ _ _ _ _ _ Hd) as (X & HX & HXok & HXs).
  assert (handler k' = true /\ primask k' = false /\ id_nestcnt k' = -1) as (E1 & E2 & E3)
    by by destruct Hd as (r & rs' & m' & Y & _ & _ & _ & -> & _).
  eapply (wp_pendsv_result k' X); [by apply handler_calm|lia|done..|]. by eapply HP.
Qed.
End pendsv.

(** ** The PendSV exception *)

(** From [k], where the task [T] runs with its frame at [f], the scheduler goes
    to [k']: the head of the candidates runs, the others are ready. *)
Record switched (k : Kernel) (f : addr) (Q : Queues) (rs ws ts : list Z) (T : Task)
    (k' : Kernel) : Prop := mkSwitched {
  sw_cand : exists rs', candidates k rs T = running k' :: rs' /\
    kinv k' (<[ready := rs']> Q) rs' ws ts /\
    forall t, t ∈ rs' -> prio_at k' t <= prio_at k' (running k');
  sw_tasks : exists X, <[running k := switched_out f T]> (tasks k) !! running k' = Some X /\
    state X = TASK_READY /\
    tasks k' = <[running k' := set_state TASK_RUNNING X]>
      (<[running k := switched_out f T]> (tasks k));
  sw_irq : primask k' = false /\ handler k' = false /\ id_nestcnt k' = -1;
  sw_pendsv : pendsv k' = false;
  sw_elapsed : elapsed k' = QUANTUM;
  sw_nodes : nodes (heap k') = nodes (heap k);
  sw_rest : timer_now k' = timer_now k /\ timer_objs k' = timer_objs k /\
    sems k' = sems k /\ reqs k' = reqs k /\ ports k' = ports k /\ msgs k' = msgs k /\
    words k' = words k;
  sw_links : dom (links (heap k')) = dom (links (heap k)) }.

Lemma candidates_nonempty k Q rs ws ts T : kinv k Q rs ws ts -> idle_ok k ->
  tasks k !! running k = Some T -> candidates k rs T <> [].
Proof.
  intros HK (U & HU & Hs) HT. unfold candidates. case_bool_decide.
  - intros E. assert (running k ∈ prio_insert (prio_at k) (running k) rs) as Hin
      by (apply elem_of_prio_insert; by left).
    rewrite E in Hin. by apply elem_of_nil in Hin.
  - destruct Hs as [Hs|[Hs Hr]].
    + pose proof (kinv_task_place HK _ _ HU) as Hp. rewrite Hs in Hp. simpl in Hp.
      by destruct rs; [apply elem_of_nil in Hp|].
    + rewrite Hr in HT. by simplify_eq.
Qed.

Lemma idle_switch k f T X k' : tasks k !! running k = Some T -> idle_ok k ->
  tasks k' = <[running k' := set_state TASK_RUNNING X]>
    (<[running k := switched_out f T]> (tasks k)) -> idle_ok k'.
Proof.
  intros HT (U & HU & Hs) Etk. unfold idle_ok. rewrite Etk.
  destruct (decide (init_task = running k')) as [E|Hne].
  - rewrite E. exists (set_state TASK_RUNNING X). rewrite lookup_insert_eq. auto.
  - rewrite lookup_insert_ne by done.
    destruct (decide (init_task = running k)) as [E|Hne2].
    + rewrite E. exists (switched_out f T). rewrite lookup_insert_eq. split; [done|left].
      rewrite E in HU. simplify_eq. simpl. case_bool_decide; [done|].
      by destruct Hs as [?|[? _]].
    + rewrite lookup_insert_ne by done. exists U. split; [done|left].
      destruct Hs as [?|[_ ?]]; [done|]. congruence.
Qed.

Lemma switched_idle k f Q rs ws ts T k' :
  tasks k !! running k = Some T -> idle_ok k -> switched k f Q rs ws ts T k' -> idle_ok k'.
Proof. intros HT Hi [_ (X & _ & _ & Etk) _ _ _ _ _]. by eapply idle_switch. Qed.

Section exception.
Context (I : Kernel -> Prop) (R : Kernel -> Kernel -> Prop).

Lemma wp_pendsv k Q rs ws ts T f (P : addr -> Kernel -> Prop) :
  kinv k Q rs ws ts -> idle_ok k -> tasks k !! running k = Some T -> frame_ok f T ->
  primask k = false -> id_nestcnt k = -1 ->
  (forall k' T', switched k f Q rs ws ts T k' -> tasks k' !! running k' = Some T' ->
    P (frame (context T')) k') ->
  wp I R (PendSV_exception f) k P.
Proof.
  intros HK Hidle HT Hf Hp Hn HP. unfold PendSV_exception, exception.
  eapply wp_bind, wp_modify, wp_bind, wp_bind, wp_modify.
  set (k1 := set_pendsv false (set_handler true k)).
  eapply (wp_pendsv_user _ _ k1 Q rs ws ts T); try done.
  - by eapply kinv_frame; [..|exact HK].
  - exact (candidates_nonempty k Q rs ws ts T HK Hidle HT).
  - intros k' T' (r & rs' & m' & X & Hc & HX & HXs & -> & HK' & Hh & Hse) HT'.
    eapply wp_bind, wp_modify, wp_ret, HP; [|exact HT'].
    split; simpl; try done.
    + exists rs'. split; [done|]. split; [by eapply kinv_frame; [..|exact HK']|done].
    + by exists X.
    + apply Hse.
Qed.
End exception.
