(* ===== verification/Scheduler.v ===== *)
(** * The scheduler's contract: priority preemption and round robin

    What the PendSV and SysTick exceptions deliver together: the processor
    goes to the first of the tasks of highest priority, tasks of equal priority
    take turns, and a turn lasts [QUANTUM] ticks. *)

From S2P Require Import Prelude Heap Lists ListSpec Machine Logic Context Task.
From S2P Require Import Platform Timer Invariant Checker Demo TaskSpec SchedSpec.

(** C10. The PendSV exception, taken in any state that satisfies the kernel
    invariant, runs to its end without a failing assertion; it saves the frame
    of the interrupted task, puts the task back into the ready list behind its
    equals if it was still running, makes the first ready task of highest
    priority the running task, resets its quantum, re-establishes the
    invariant and the README's "the running task always has a priority at least
    as high as every other task ready for execution", and returns the frame
    that task was interrupted at. *)
Theorem pendsv_schedules k Q rs ws ts T f :
  kinv k Q rs ws ts -> idle_ok k -> tasks k !! running k = Some T -> frame_ok f T ->
  primask k = false -> id_nestcnt k = -1 ->
  exists k' T', PendSV_exception f k = Ret (frame (context T')) k' /\
    tasks k' !! running k' = Some T' /\ state T' = TASK_RUNNING /\
    switched k f Q rs ws ts T k' /\ idle_ok k'.
Proof.
  intros HK Hidle HT Hf Hp Hn.
  assert (run (PendSV_exception f) k (fun a k' => exists T', a = frame (context T') /\
    tasks k' !! running k' = Some T' /\ switched k f Q rs ws ts T k'))
    as (a & k' & E & T' & -> & HT' & Hsw).
  { apply wp_run. eapply wp_pendsv; [done..|]. eauto. }
  exists k', T'. split_and!; [done|done| |done|exact (switched_idle _ _ _ _ _ _ _ _ HT Hidle Hsw)].
  destruct Hsw as [_ (X & _ & _ & Etk) _ _ _ _ _].
  rewrite Etk, lookup_insert_eq in HT'. by simplify_eq.
Qed.

Lemma pendsv_schedules_witness : exists k' T',
  PendSV_exception (init_task_stack + 1000) demo_ready = Ret (frame (context T')) k' /\
  tasks k' !! running k' = Some T' /\ running k' = demo_b.
Proof.
  destruct (tasks demo_ready !! init_task) as [T|] eqn:HT; [|vm_compute in HT; discriminate HT].
  destruct (pendsv_schedules demo_ready _ _ _ _ T (init_task_stack + 1000) demo_ready_kinv)
    as (k' & T' & E & HT' & _ & Hsw & _).
  - eexists. split; [vm_compute; reflexivity|]. right. split; vm_compute; reflexivity.
  - exact HT.
  - vm_compute in HT. injection HT as <-. split; vm_compute; discriminate.
  - reflexivity.
  - reflexivity.
  - exists k', T'. split; [exact E|split; [exact HT'|]].
    destruct Hsw as [(rs' & Hc & _) _ _ _ _ _ _].
    vm_compute in HT. injection HT as <-. vm_compute in Hc.
    injection Hc as Hc _. symmetry. exact Hc.
Defined.

(** ** Round robin *)

(** [n] context switches in a row; [fs] gives the frame each task is
    interrupted at.  The result is the sequence of the tasks that run. *)
Fixpoint turns (fs : addr -> addr) (n : nat) : M (list addr) :=
  match n with
  | O => mret []
  | S n =>
      r ← gets running;
      _ ← PendSV_exception (fs r);
      r' ← gets running;
      rest ← turns fs n;
      mret (r' :: rest)
  end.

Definition frames_ok (fs : addr -> addr) (k : Kernel) : Prop :=
  forall t T, tasks k !! t = Some T -> frame_ok (fs t) T.

(** The tasks of the highest priority in the order of their turns, the
    running task last; the tasks of lower priority behind them. *)
Record ring (k : Kernel) (c low : list Z) (ws ts : list Z) : Prop := mkRing {
  rg_inv : exists Q front, c = front ++ [running k] /\ kinv k Q (front ++ low) ws ts;
  rg_idle : idle_ok k;
  rg_state : in_state k TASK_RUNNING (running k);
  rg_irq : primask k = false /\ id_nestcnt k = -1;
  rg_equal : forall t, t ∈ c -> prio_at k t = prio_at k (running k);
  rg_low : forall t, t ∈ low -> prio_at k t < prio_at k (running k) }.

Lemma prio_insert_ring pr r xs ys : (forall t, t ∈ xs -> pr t = pr r) ->
  (forall t, t ∈ ys -> pr t < pr r) -> prio_insert pr r (xs ++ ys) = xs ++ r :: ys.
Proof.
  intros Hx Hy. induction xs as [|x xs IH]; simpl.
  - destruct ys as [|y ys]; simpl; [done|].
    pose proof (Hy y ltac:(set_solver)). case_bool; norm_bool; [done|lia].
  - pose proof (Hx x ltac:(set_solver)). case_bool; norm_bool; [lia|].
    rewrite IH; [done|set_solver].
Qed.

(** One context switch turns the ring by one. *)
Lemma ring_turn k x c low ws ts fs : ring k (x :: c) low ws ts -> frames_ok fs k ->
  run (PendSV_exception (fs (running k))) k (fun _ k' =>
    running k' = x /\ ring k' (c ++ [x]) low ws ts /\ frames_ok fs k' /\
    handler k' = false /\ pendsv k' = false /\ elapsed k' = QUANTUM).
Proof.
  intros [(Q & front & Ec & HK) Hidle (T & HT & Hs) [Hp Hn] Heq Hlow] Hfs.
  apply wp_run. eapply wp_pendsv; [done..|by apply Hfs|done|done|].
  intros k' T' Hsw _. pose proof (switched_idle _ _ _ _ _ _ _ _ HT Hidle Hsw) as Hidle'.
  destruct Hsw as [(rs' & Hc & HK' & _) (X & HX & HXs & Etk) (Hp' & Hh' & Hn') Hpd' He' Hnd _].
  assert (candidates k (front ++ low) T = x :: c ++ low) as Hcand.
  { unfold candidates. rewrite bool_decide_true by done.
    rewrite prio_insert_ring; [|intros t Ht; apply Heq; rewrite Ec; set_solver|done].
    by rewrite cons_middle, app_assoc, <- Ec. }
  rewrite Hcand in Hc. injection Hc as Hx <-.
  assert (forall t, prio_at k' t = prio_at k t) as Hpr
    by (intros t; unfold prio_at, prio_of; by rewrite Hnd).
  assert (prio_at k x = prio_at k (running k)) as Hpx by (apply Heq; set_solver).
  split; [done|]. split; [|split; [|done]].
  - split; [|done|..].
    + eexists _, c. rewrite <- Hx. split; [done|exact HK'].
    + exists (set_state TASK_RUNNING X). by rewrite Etk, lookup_insert_eq.
    + done.
    + intros t Ht. rewrite !Hpr, <- Hx, Hpx. apply Heq. set_solver.
    + intros t Ht. rewrite !Hpr, <- Hx, Hpx. by apply Hlow.
  - intros t U HU. rewrite Etk in HU.
    assert (forall t U, <[running k := switched_out (fs (running k)) T]> (tasks k) !! t = Some U ->
      frame_ok (fs t) U) as Hfs1.
    { intros t1 U1 [[<- <-]|[_ H1]]%lookup_insert_Some; [|by apply Hfs].
      by apply (Hfs (running k) T HT). }
    apply lookup_insert_Some in HU as [[<- <-]|[_ HU]]; [|by apply Hfs1].
    by apply (Hfs1 _ _ HX).
Qed.

Lemma ring_turns k c1 c2 low ws ts fs : ring k (c1 ++ c2) low ws ts -> frames_ok fs k ->
  run (turns fs (length c1)) k (fun xs k' => xs = c1 /\ ring k' (c2 ++ c1) low ws ts).
Proof.
  revert k c2. induction c1 as [|x c1 IH]; intros k c2 Hr Hfs; simpl.
  - exists [], k. rewrite app_nil_r. done.
  - apply wp_run. eapply wp_bind, wp_gets, wp_bind.
    eapply wp_mono; [by apply wp_run, (ring_turn k x (c1 ++ c2) low ws ts fs)|].
    intros _ k' (Hx & Hr' & Hfs' & _). rewrite <- app_assoc in Hr'.
    eapply wp_bind, wp_gets, wp_bind, wp_mono; [by apply wp_run, IH|].
    intros xs k2 [-> Hr2]. apply wp_ret. rewrite Hx. split; [done|].
    by rewrite <- app_assoc in Hr2.
Qed.

(** Round robin: while the set of ready tasks does not change, context
    switches run the tasks of the highest priority one after the other, in the
    order of the ready list, each of them exactly once before the task that ran
    first runs again; and the ready list is then what it was. *)
Theorem round_robin k c low ws ts fs : ring k c low ws ts -> frames_ok fs k ->
  exists k', turns fs (length c) k = Ret c k' /\ running k' = running k /\
    ring k' c low ws ts.
Proof.
  intros Hr Hfs. pose proof Hr as [(Q & front & Ec & HK) _ _ _ _ _].
  destruct (ring_turns k c [] low ws ts fs) as (xs & k' & E & -> & Hr');
    [by rewrite app_nil_r|done|].
  exists k'. split_and!; [done| |done].
  destruct Hr' as [(Q' & front' & Ec' & _) _ _ _ _ _]. simpl in Ec'.
  rewrite Ec' in Ec. by apply app_inj_tail in Ec as [_ ?].
Qed.

#[global] Instance frame_ok_dec f T : Decision (frame_ok f T).
Proof. unfold frame_ok. apply _. Defined.

Lemma round_robin_witness : exists k',
  turns demo_frames 2 demo_equal = Ret [demo_b; demo_a] k' /\ running k' = demo_a.
Proof.
  destruct (round_robin demo_equal [demo_b; demo_a] [init_task] [] [] demo_frames)
    as (k' & E & Hr & _).
  - split.
    + exists (demo_Q [demo_b; init_task] []), [demo_b]. split; [reflexivity|].
      exact demo_equal_kinv.
    + eexists. split; [vm_compute; reflexivity|]. left. vm_compute. reflexivity.
    + eexists. split; vm_compute; reflexivity.
    + split; vm_compute; reflexivity.
    + apply Forall_forall, (bool_decide_unpack _). vm_compute. exact I.
    + apply Forall_forall, (bool_decide_unpack _). vm_compute. exact I.
  - change (map_Forall (fun t T => frame_ok (demo_frames t) T) (tasks demo_equal)).
    apply (bool_decide_unpack _). vm_compute. exact I.
  - exists k'. split; [exact E|]. rewrite Hr. vm_compute. reflexivity.
Defined.

(** ** The quantum *)

Fixpoint ticks (n : nat) : M unit :=
  match n with O => mret tt | S n => SysTick_exception;; ticks n end.

Lemma systick_run k : handler k = false -> 0 < elapsed k < 2 ^ 32 ->
  SysTick_exception k = Ret tt (set_elapsed (elapsed k - 1)
    (set_pendsv (pendsv k || bool_decide (elapsed k = 1)) k)).
Proof.
  intros Hh He. unfold SysTick_exception, exception, SysTick_Handler.
  unfold mbind, M_bind, modify, gets, mret, M_ret. cbn -[uwrap].
  rewrite uwrap_small by lia. case_bool_decide as E.
  - rewrite E. change (0 =? 1 - 1) with true. cbn. f_equal.
    apply kernel_ext; try reflexivity; [symmetry; exact Hh|]. cbn. by rewrite orb_true_r.
  - rewrite (proj2 (Z.eqb_neq 0 (elapsed k - 1))) by lia. cbn. f_equal.
    apply kernel_ext; try reflexivity; [symmetry; exact Hh|]. cbn. by rewrite orb_false_r.
Qed.

(** The quantum: of the SysTick exceptions behind a context switch, exactly
    the one that uses up the rest of the quantum requests the next context
    switch, and none changes anything else. *)
Theorem quantum_expires n k :
  handler k = false -> pendsv k = false -> 0 < elapsed k < 2 ^ 32 ->
  Z.of_nat n <= elapsed k ->
  ticks n k = Ret tt (set_elapsed (elapsed k - Z.of_nat n)
    (set_pendsv (bool_decide (Z.of_nat n = elapsed k)) k)).
Proof.
  revert k. induction n as [|n IH]; intros k Hh Hp He Hn.
  - cbn. f_equal. rewrite bool_decide_false by lia.
    apply kernel_ext; try reflexivity; [by rewrite Hp|simpl; lia].
  - cbn [ticks]. unfold mbind, M_bind.
    rewrite systick_run by done.
    rewrite Hp. cbn [bindR orb]. case_bool_decide as E.
    + assert (n = O) as -> by lia. cbn. f_equal. rewrite bool_decide_true by lia.
      apply kernel_ext; try reflexivity.
    + rewrite IH by (simpl; lia || done). f_equal.
      apply kernel_ext; try reflexivity; simpl; [|lia].
      apply bool_decide_ext. lia.
Qed.

Lemma quantum_expires_witness : elapsed demo_running = QUANTUM /\
  ticks 4 demo_running = Ret tt (set_elapsed 0 (set_pendsv true demo_running)).
Proof.
  split; [reflexivity|].
  rewrite (quantum_expires 4 demo_running); [|reflexivity|reflexivity| |];
    [reflexivity|split; reflexivity|vm_compute; discriminate].
Defined.
