(* ===== verification/ContextSpec.v ===== *)
(** * The first frame of a task ([taskcontext_init] of [platform.c]) *)

From S2P Require Import Prelude Heap Lists ListSpec Machine Logic Context Task.
From S2P Require Import Platform Timer Invariant Checker Demo.

(** The words at offsets 4 to [4 * n] from [frm] are cleared. *)
Fixpoint cleared (n : nat) (frm : Z) (W : gmap Z Z) : gmap Z Z :=
  match n with
  | O => W
  | S n' => cleared n' frm (<[frm + 4 * Z.of_nat n := 0]> W)
  end.

Lemma cleared_out n frm W a : (forall i, 1 <= i <= Z.of_nat n -> a <> frm + 4 * i) ->
  cleared n frm W !! a = W !! a.
Proof.
  revert W. induction n as [|n IH]; intros W Ha; cbn [cleared]; [done|].
  rewrite IH by (intros i Hi; apply Ha; lia).
  apply lookup_insert_ne. intros E. apply (Ha (Z.of_nat (S n))); lia.
Qed.

Lemma cleared_in n frm W i : 1 <= i <= Z.of_nat n ->
  cleared n frm W !! (frm + 4 * i) = Some 0.
Proof.
  revert W. induction n as [|n IH]; intros W Hi; cbn [cleared]; [lia|].
  destruct (decide (i = Z.of_nat (S n))) as [->|Hne]; [|apply IH; lia].
  rewrite cleared_out by lia. apply lookup_insert_eq.
Qed.

Lemma cleared_is_Some n frm W a : is_Some (W !! a) -> is_Some (cleared n frm W !! a).
Proof.
  revert W. induction n as [|n IH]; intros W Ha; cbn [cleared]; [done|].
  apply IH, lookup_insert_is_Some'. by right.
Qed.

(** The memory behind [taskcontext_init]. *)
Definition first_frame (W : gmap Z Z) (frm init_pc user_data : Z) : gmap Z Z :=
  <[frm + off_xpsr := EPSR_T]> (<[frm + off_pc := init_pc]> (<[frm + off_lr := dead_end]>
    (<[frm + off_r0 := uwrap 32 user_data]> (cleared 15 frm W)))).

(** The 16 words of a frame are in memory. *)
Definition frame_mapped (W : gmap Z Z) (frm : Z) : Prop :=
  forall i, 0 <= i < 16 -> is_Some (W !! (frm + 4 * i)).

Section context.
Context (I : Kernel -> Prop) (R : Kernel -> Kernel -> Prop).

Lemma wp_store_word k a v (P : unit -> Kernel -> Prop) : is_Some (words k !! a) ->
  P tt (set_words (<[a := v]> (words k)) k) -> wp I R (store_word a v) k P.
Proof. intros [w Hw] HP. unfold store_word. by eapply wp_bind, wp_load, wp_modify. Qed.

Lemma wp_clear_frame frm n : forall fuel top k (P : unit -> Kernel -> Prop),
  (n < fuel)%nat -> top = frm + 4 * Z.of_nat (S n) -> (forall i, 1 <= i <= Z.of_nat n -> is_Some (words k !! (frm + 4 * i))) ->
  P tt (set_words (cleared n frm (words k)) k) ->
  wp I R (clear_frame fuel top frm) k P.
Proof.
  induction n as [|n IH]; intros fuel top k P Hf -> Hw HP; (destruct fuel as [|fuel]; [lia|]);
    cbn [clear_frame].
  - rewrite (proj2 (Z.eqb_eq _ _)) by lia. apply wp_ret. by destruct k.
  - rewrite (proj2 (Z.eqb_neq _ _)) by lia.
    replace (frm + 4 * Z.of_nat (S (S n)) - 4) with (frm + 4 * Z.of_nat (S n)) by lia.
    eapply wp_bind, wp_store_word; [apply Hw; lia|]. apply IH; [lia|done| |exact HP].
    intros i Hi. simpl. apply lookup_insert_is_Some'. right. apply Hw. lia.
Qed.

Lemma wp_taskcontext_init k task T init_pc user_data stack stack_size (P : unit -> Kernel -> Prop) :
  tasks k !! task = Some T -> stack mod 4 = 0 -> stack_size mod 4 = 0 ->
  sizeof_StackFrame <= stack_size ->
  let top := stack + stack_size in
  let frm := top - sizeof_StackFrame in
  frame_mapped (words k) frm ->
  P tt (set_words (first_frame (words k) frm init_pc user_data)
    (set_tasks (<[task := set_context (mkContext frm stack top) T]> (tasks k)) k)) ->
  wp I R (taskcontext_init task init_pc user_data stack stack_size) k P.
Proof.
  intros HT H1 H2 Hsz top frm Hw HP. unfold taskcontext_init. cbv zeta. fold top. fold frm.
  eapply wp_bind, wp_assert; [by apply Z.eqb_eq|].
  eapply wp_bind, wp_assert; [by apply Z.eqb_eq|].
  eapply wp_bind, wp_upd_task; [exact HT|].
  eapply wp_bind, wp_upd_task; [apply lookup_insert_eq|].
  simpl tasks. rewrite insert_insert_eq. simpl context.
  eapply wp_bind, (wp_clear_frame frm 15);
    [lia|unfold frm, sizeof_StackFrame; lia|intros i Hi; apply Hw; lia|].
  assert (forall a i, a = frm + 4 * i -> 0 <= i < 16 ->
    is_Some (cleared 15 frm (words k) !! a)) as Hc2.
  { intros a i -> Hi. by apply cleared_is_Some, Hw. }
  eapply wp_bind, wp_store_word; [eapply (Hc2 _ 8); [unfold off_r0; lia|lia]|].
  eapply wp_bind, wp_store_word.
  { apply lookup_insert_is_Some'. right. eapply (Hc2 _ 13); [unfold off_lr; lia|lia]. }
  eapply wp_bind, wp_store_word.
  { do 2 (apply lookup_insert_is_Some'; right). eapply (Hc2 _ 14); [unfold off_pc; lia|lia]. }
  eapply wp_bind, wp_store_word.
  { do 3 (apply lookup_insert_is_Some'; right). eapply (Hc2 _ 15); [unfold off_xpsr; lia|lia]. }
  eapply wp_bind, wp_upd_task; [apply lookup_insert_eq|].
  simpl tasks. rewrite insert_insert_eq. simpl context. unfold taskcontext_verify.
  eapply wp_bind, wp_load; [apply lookup_insert_eq|]. simpl context. simpl.
  eapply wp_bind, wp_assert; [apply Z.leb_le; unfold frm, top; lia|].
  eapply wp_assert; [apply Z.leb_le; unfold frm; lia|].
  exact HP.
Qed.
End context.

(** C29. [taskcontext_init] on an aligned stack of at least one frame: the
    context covers the whole stack, with the first frame at its top; in the frame
    [r0] is the user data, [lr] the function [dead_end], [pc] the entry point and
    [xpsr] has only the Thumb bit set; every other word of the frame but the first
    is zero; the first word of the frame ([r4]) and all other memory is
    unchanged, and no other task changes. *)
Theorem taskcontext_init_frame k task T init_pc user_data stack stack_size :
  tasks k !! task = Some T -> stack mod 4 = 0 -> stack_size mod 4 = 0 ->
  sizeof_StackFrame <= stack_size ->
  let top := stack + stack_size in
  let frm := top - 64 in
  frame_mapped (words k) frm ->
  exists k', taskcontext_init task init_pc user_data stack stack_size k = Ret tt k' /\
    tasks k' = <[task := set_context (mkContext frm stack top) T]> (tasks k) /\
    heap k' = heap k /\
    words k' !! (frm + 32) = Some (user_data mod 2 ^ 32) /\
    words k' !! (frm + 52) = Some dead_end /\
    words k' !! (frm + 56) = Some init_pc /\
    words k' !! (frm + 60) = Some (2 ^ 24) /\
    (forall i, 1 <= i < 13 -> i <> 8 -> words k' !! (frm + 4 * i) = Some 0) /\
    (forall a, (forall i, 1 <= i < 16 -> a <> frm + 4 * i) -> words k' !! a = words k !! a).
Proof.
  intros HT H1 H2 Hsz top frm Hw.
  assert (run (taskcontext_init task init_pc user_data stack stack_size) k (fun _ k' =>
    k' = set_words (first_frame (words k) frm init_pc user_data)
      (set_tasks (<[task := set_context (mkContext frm stack top) T]> (tasks k)) k)))
    as ([] & k' & E & ->).
  { apply wp_run. by eapply wp_taskcontext_init. }
  eexists. split; [done|]. split; [done|]. split; [done|]. simpl words.
  unfold first_frame, off_xpsr, off_pc, off_lr, off_r0. split_and!.
  - by rewrite !lookup_insert_ne, lookup_insert_eq by lia.
  - by rewrite !lookup_insert_ne, lookup_insert_eq by lia.
  - by rewrite lookup_insert_ne, lookup_insert_eq by lia.
  - by rewrite lookup_insert_eq.
  - intros i Hi Hne. rewrite !lookup_insert_ne by lia. apply cleared_in. lia.
  - intros a Ha.
    pose proof (Ha 8 ltac:(lia)). pose proof (Ha 13 ltac:(lia)).
    pose proof (Ha 14 ltac:(lia)). pose proof (Ha 15 ltac:(lia)).
    rewrite !lookup_insert_ne by lia. apply cleared_out. intros i Hi. apply Ha. lia.
Qed.

Lemma dom_insert_mapped (W : gmap Z Z) a v : is_Some (W !! a) -> dom (<[a := v]> W) = dom W.
Proof. intros [w Hw]. by apply dom_insert_lookup_L. Qed.

(** [taskcontext_init] maps no memory. *)
Lemma first_frame_dom W frm pc ud : frame_mapped W frm -> dom (first_frame W frm pc ud) = dom W.
Proof.
  intros Hm. assert (forall n V, (n <= 15)%nat -> dom V = dom W -> dom (cleared n frm V) = dom W) as Hc.
  { induction n as [|n IH]; intros V Hn HV; cbn [cleared]; [done|]. apply IH; [lia|].
    rewrite dom_insert_mapped; [done|]. apply elem_of_dom. rewrite HV. apply elem_of_dom, Hm. lia. }
  assert (forall (V : gmap Z Z) i v, dom V = dom W -> 0 <= i < 16 -> dom (<[frm + 4 * i := v]> V) = dom W) as Hi.
  { intros V i v HV Hb. rewrite dom_insert_mapped; [done|]. apply elem_of_dom. rewrite HV.
    by apply elem_of_dom, Hm. }
  unfold first_frame. apply (Hi _ 15); [|lia]. apply (Hi _ 14); [|lia]. apply (Hi _ 13); [|lia].
  apply (Hi _ 8); [|lia]. by apply Hc.
Qed.

Lemma frame_mapped_dom W W' frm : dom W' = dom W -> frame_mapped W frm -> frame_mapped W' frm.
Proof. intros Hd Hm i Hi. apply elem_of_dom. rewrite Hd. by apply elem_of_dom, Hm. Qed.

Lemma frame_mapped_check W frm :
  Forall (fun n => is_Some (W !! (frm + 4 * Z.of_nat n))) (seq 0 16) -> frame_mapped W frm.
Proof.
  intros H i Hi. rewrite Forall_forall in H.
  rewrite <- (Z2Nat.id i) by lia. apply H, elem_of_seq. lia.
Qed.

Lemma demo_frame_mapped : frame_mapped (words demo_mem) (init_task_stack + 2048 - 64).
Proof. apply frame_mapped_check, (bool_decide_unpack _). vm_compute. exact I. Qed.

Lemma taskcontext_init_frame_witness : exists k',
  taskcontext_init init_task 7 9 init_task_stack 2048 demo_mem = Ret tt k' /\
  words k' !! (init_task_stack + 2048 - 64 + 32) = Some 9.
Proof.
  destruct (taskcontext_init_frame demo_mem init_task blank_task 7 9 init_task_stack 2048)
    as (k' & E & _ & _ & H & _).
  - vm_compute. reflexivity.
  - reflexivity.
  - reflexivity.
  - vm_compute. discriminate.
  - exact demo_frame_mapped.
  - exists k'. split; [exact E|exact H].
Defined.
