(* ===== verification/BootSpec.v ===== *)
(** * Start-up ([martos_pre] of [src/init.c])

    From memory as the loader leaves it to a kernel in which the init task runs
    and the invariants hold.  No interrupt source is enabled yet. *)

From S2P Require Import Prelude Heap Lists ListSpec Machine Logic Context Task.
From S2P Require Import Platform Timer Init Invariant Checker Demo SchedSpec ContextSpec.

(** Memory at reset: the static objects are in memory, all other tasks are
    [TASK_INVALID], and address 0, which [task_find] reads a name from, is
    readable and holds none of the name "init". *)
Record reset_state (k : Kernel) : Prop := mkReset {
  rt_cells : forall a, a ∈ [ready; tail ready; waiting; tail waiting; timers; tail timers;
    init_task] -> is_Some (links (heap k) !! a);
  rt_node : is_Some (nodes (heap k) !! init_task);
  rt_task : is_Some (tasks k !! init_task);
  rt_null : exists c s, nodes (heap k) !! NULL = Some c /\ name c = Some s /\ s <> "init"%string;
  rt_stack : frame_mapped (words k) (init_task_stack + INIT_TASK_STACK_SIZE - sizeof_StackFrame);
  rt_irq : primask k = false /\ handler k = false;
  rt_others : forall t T, tasks k !! t = Some T -> t <> init_task ->
    state T = TASK_INVALID /\ is_Some (nodes (heap k) !! t) /\ is_Some (links (heap k) !! t) /\
    t ∉ [NULL; ready; tail ready; waiting; tail waiting; timers; tail timers] }.

(** The init task as [task_init] leaves it. *)
Definition booted_task : Task :=
  mkTask (mkContext (init_task_stack + INIT_TASK_STACK_SIZE - sizeof_StackFrame)
      init_task_stack (init_task_stack + INIT_TASK_STACK_SIZE))
    SIGF_SINGLE 0 0 (-1) TASK_INITIALIZED.

Lemma quietly_list_step {A} (f : HM A) k S Q' (r : A) (P : A -> Kernel -> Prop) :
  list_step (heap k) S Q' r (f (heap k)) ->
  (forall m', reps m' Q' -> same_except S (links (heap k)) m' ->
    P r (set_heap (mkHeap m' (nodes (heap k))) k)) ->
  quietly (listop f) k P.
Proof. intros Hs HP. apply quietly_wp. by eapply wp_list_step. Qed.

(** [task_find] on empty lists, when the name at address 0 is another one. *)
Lemma quietly_find_none k Q s c n (P : addr -> Kernel -> Prop) :
  irq_ok k -> reps (links (heap k)) Q -> Q !! ready = Some [] -> Q !! waiting = Some [] ->
  nodes (heap k) !! NULL = Some c -> name c = Some n -> n <> s ->
  P NULL k -> quietly (task_find (Some s)) k P.
Proof.
  intros Hi Hr Hrd Hw Hc Hn Hne HP. unfold task_find.
  apply quietly_bind, quietly_disable; [done|].
  apply quietly_bind, quietly_wp, (wp_list_read _ _ _ _ NULL).
  { apply (find_run _ _ Hr ready s []); [done|]. intros x []%elem_of_nil. }
  change (NULL =? NULL) with true. cbv iota.
  apply quietly_bind, quietly_bind, quietly_wp, (wp_list_read _ _ _ _ NULL).
  { apply (find_run _ _ Hr waiting s []); [done|]. intros x []%elem_of_nil. }
  change (NULL =? NULL) with true. cbv iota.
  apply quietly_bind, quietly_wp, (wp_list_read _ _ _ _ (Some n)).
  { unfold get_name. simpl. by rewrite Hc, <- Hn. }
  apply quietly_bind, quietly_wp, (wp_list_read _ _ _ _ false).
  { unfold strcmp_eq. by rewrite bool_decide_false by congruence. }
  apply quietly_wp, wp_ret. destruct Hi as [Hm Hb].
  apply quietly_bind, quietly_enable; [simpl; lia|].
  apply quietly_wp, wp_ret. rewrite (unlock_restore k) by done.
  replace (set_id_nestcnt _ _) with k; [done|]. by apply kernel_ext.
Qed.

Lemma wp_upd_node I R k a f c (P : unit -> Kernel -> Prop) : nodes (heap k) !! a = Some c ->
  P tt (set_heap (mkHeap (links (heap k)) (<[a := f c]> (nodes (heap k)))) k) ->
  wp I R (upd_node a f) k P.
Proof. intros Hc HP. unfold wp, upd_node. by rewrite Hc. Qed.

(** [task_init] behind the search for the name. *)
Lemma wp_init_tail I R k task nm T N pr pc ud stack size (P : unit -> Kernel -> Prop) :
  tasks k !! task = Some T -> nodes (heap k) !! task = Some N ->
  stack mod 4 = 0 -> size mod 4 = 0 -> sizeof_StackFrame <= size ->
  let top := stack + size in let frm := top - sizeof_StackFrame in
  frame_mapped (words k) frm ->
  P tt (set_words (first_frame (words k) frm pc ud)
    (set_tasks (<[task := mkTask (mkContext frm stack top) SIGF_SINGLE 0 0 (-1)
        TASK_INITIALIZED]> (tasks k))
      (set_heap (mkHeap (links (heap k)) (<[task := mkNode nm pr]> (nodes (heap k)))) k))) ->
  wp I R (upd_node task (fun c => mkNode nm (prio c));;
    upd_node task (fun c => mkNode (name c) pr);;
    upd_task task (set_sig_alloc SIGF_SINGLE);;
    upd_task task (set_sig_wait 0);;
    upd_task task (set_sig_recvd 0);;
    upd_task task (set_t_id_nestcnt (-1));;
    taskcontext_init task pc ud stack size;;
    upd_task task (set_state TASK_INITIALIZED)) k P.
Proof.
  intros HT HN H1 H2 H3 top frm Hmap HP.
  eapply wp_bind, wp_upd_node; [exact HN|].
  eapply wp_bind, wp_upd_node; [apply lookup_insert_eq|]. simpl.
  rewrite insert_insert_eq.
  eapply wp_bind, wp_upd_task; [exact HT|]; simpl tasks.
  do 3 (eapply wp_bind, wp_upd_task; [apply lookup_insert_eq|]; simpl tasks;
    rewrite insert_insert_eq).
  eapply wp_bind, wp_taskcontext_init; [apply lookup_insert_eq|done|done|done|exact Hmap|].
  eapply wp_upd_task; [apply lookup_insert_eq|]. simpl tasks. rewrite !insert_insert_eq.
  exact HP.
Qed.

(** [task_init] on empty lists. *)
Lemma quietly_task_init k Q task nm s c n T N pr pc ud stack size (P : unit -> Kernel -> Prop) :
  irq_ok k -> reps (links (heap k)) Q -> Q !! ready = Some [] -> Q !! waiting = Some [] ->
  nodes (heap k) !! NULL = Some c -> name c = Some n -> n <> s -> nm = Some s ->
  tasks k !! task = Some T -> nodes (heap k) !! task = Some N ->
  stack mod 4 = 0 -> size mod 4 = 0 -> sizeof_StackFrame <= size ->
  let top := stack + size in let frm := top - sizeof_StackFrame in
  frame_mapped (words k) frm ->
  P tt (set_words (first_frame (words k) frm pc ud)
    (set_tasks (<[task := mkTask (mkContext frm stack top) SIGF_SINGLE 0 0 (-1)
        TASK_INITIALIZED]> (tasks k))
      (set_heap (mkHeap (links (heap k)) (<[task := mkNode nm pr]> (nodes (heap k)))) k))) ->
  quietly (task_init task nm pr pc ud stack size) k P.
Proof.
  intros Hi Hr Hrd Hw Hc Hn Hne -> HT HN H1 H2 H3 top frm Hmap HP. unfold task_init.
  apply quietly_bind, quietly_wp, (wp_upd_task _ _ _ _ _ T); [done|].
  apply quietly_bind, (quietly_find_none _ Q s c n); try done.
  { destruct Hi. by split. }
  apply quietly_wp. eapply wp_bind, wp_assert; [done|].
  eapply wp_init_tail; [apply lookup_insert_eq|exact HN|done|done|done|exact Hmap|].
  simpl tasks. by rewrite insert_insert_eq.
Qed.

(** [task_verify] in thread mode. *)
Lemma quietly_task_verify k t T (P : unit -> Kernel -> Prop) :
  irq_ok k -> tasks k !! t = Some T -> task_ok T -> state T <> TASK_INVALID ->
  P tt k -> quietly (task_verify t) k P.
Proof.
  intros Hi HT Hok Hst HP. unfold task_verify.
  apply quietly_bind, quietly_disable; [done|].
  assert (wp (fun _ => False) (fun _ _ => False) (verify_body t) (lock k) (fun _ k' => k' = lock k))
    as H by by eapply wp_verify_body.
  do 4 peel_quietly H. eapply quietly_bind, quietly_wp, wp_mono; [exact H|]. intros [] ? ->.
  pose proof Hi as [Hm Hb]. apply quietly_enable; [simpl; lia|].
  rewrite (unlock_restore k) by done.
  replace (set_id_nestcnt _ _) with k; [done|]. by apply kernel_ext.
Qed.

Definition boot_queues : Queues := {[ready := []; waiting := []; timers := []]}.

(** The list heads are initialised one after the other. *)
Lemma quietly_list_init k Q l (P : unit -> Kernel -> Prop) :
  reps (links (heap k)) Q -> is_Some (links (heap k) !! l) -> is_Some (links (heap k) !! tail l) ->
  bool_decide (l <> NULL /\ tail l <> NULL /\ unowned (delete l Q) l /\
    unowned (delete l Q) (tail l)) = true ->
  (forall m, reps m (<[l := []]> Q) -> dom m = dom (links (heap k)) ->
    P tt (set_heap (mkHeap m (nodes (heap k))) k)) -> quietly (listop (list_init l)) k P.
Proof.
  intros Hr [c1 H1] [c2 H2] (Hz1 & Hz2 & Hu1 & Hu2)%bool_decide_eq_true HP.
  eapply quietly_list_step; [by eapply (init_step _ Q Hr l)|]. intros m Hm [Hd _]. by apply HP.
Qed.

(** The state start-up leaves. *)
Inductive booted (k : Kernel) : Kernel -> Prop :=
| booted_intro m N W : reps m boot_queues -> dom m = dom (links (heap k)) ->
    N = <[init_task := mkNode (Some "init"%string) TASK_PRIO_EXCLUSIVE]> (nodes (heap k)) ->
    dom W = dom (words k) ->
    W = first_frame (words k) (init_task_stack + INIT_TASK_STACK_SIZE - sizeof_StackFrame)
      init_task_f_pc NULL ->
    booted k (set_timer_now 0 (set_running init_task (set_elapsed QUANTUM
      (set_id_nestcnt (-1) (set_words W (set_tasks
        (<[init_task := set_state TASK_RUNNING booted_task]> (tasks k))
          (set_heap (mkHeap m N) k))))))).

Lemma boot_run k : reset_state k ->
  exists k', quiet_run (t ← martos_pre; timer_init;; mret t) k = Some (init_task, k') /\ booted k k'.
Proof.
  intros Hrt. pose proof Hrt as [Hcells [N HN] [T HT] (c & s & Hc & Hs & Hne) Hstk [Hp Hh] _].
  assert (quietly (t ← martos_pre; timer_init;; mret t) k (fun a k' => a = init_task /\ booted k k'))
    as (a & k' & E & -> & Hb); [|by exists k'].
  apply quietly_bind. unfold martos_pre.
  apply quietly_bind. eapply quietly_list_init; [apply reps_empty|apply Hcells; set_solver..|
    vm_compute; reflexivity|].
  intros m1 Hm1 Hd1. set (k1 := set_heap _ k).
  assert (forall a, is_Some (links (heap k) !! a) -> is_Some (m1 !! a)) as L1.
  { intros a. rewrite <- !elem_of_dom, Hd1. done. }
  apply quietly_bind. eapply (quietly_list_init k1); [exact Hm1|apply L1, Hcells; set_solver..|
    vm_compute; reflexivity|].
  intros m2 Hm2 Hd2. simpl in Hd2.
  apply quietly_bind, quietly_wp, wp_modify, quietly_bind, quietly_wp, wp_modify.
  set (k3 := set_elapsed _ _). apply quietly_bind.
  eapply (quietly_task_init k3 (<[waiting := []]> (<[ready := []]> ∅)) init_task _ "init"%string c s T N);
    [split; simpl; [done|lia]|exact Hm2|reflexivity|reflexivity|exact Hc|exact Hs|done|done|exact HT|
     exact HN|done|done|vm_compute; discriminate|exact Hstk|].
  set (k4 := set_words _ _).
  assert (tasks k4 !! init_task = Some booted_task) as HT4 by apply lookup_insert_eq.
  apply quietly_bind, (quietly_task_verify k4 init_task booted_task); [split; simpl; [done|lia]|
    exact HT4| |done|].
  { split; try done; vm_compute; split; discriminate. }
  apply quietly_bind, quietly_wp. eapply wp_upd_task; [exact HT4|].
  apply quietly_bind, quietly_wp, wp_modify, quietly_wp, wp_ret.
  simpl tasks. rewrite insert_insert_eq.
  apply quietly_bind. unfold timer_init. apply quietly_bind.
  assert (forall a, is_Some (links (heap k) !! a) -> is_Some (m2 !! a)) as L2.
  { intros a. rewrite <- !elem_of_dom, Hd2, Hd1. done. }
  eapply quietly_list_init; [exact Hm2|apply L2, Hcells; set_solver..|vm_compute; reflexivity|].
  intros m3 Hm3 Hd3. simpl in Hd3.
  apply quietly_wp, wp_modify, quietly_wp, wp_ret. split; [done|].
  match goal with |- booted k ?s => assert (s = set_timer_now 0 (set_running init_task
    (set_elapsed QUANTUM (set_id_nestcnt (-1) (set_words (words k4) (set_tasks
      (<[init_task := set_state TASK_RUNNING booted_task]> (tasks k))
        (set_heap (mkHeap m3 (<[init_task := mkNode (Some "init"%string) TASK_PRIO_EXCLUSIVE]>
          (nodes (heap k)))) k))))))) as -> by (by apply kernel_ext) end.
  constructor; [|congruence|done|by apply first_frame_dom|done].
  assert (boot_queues = <[timers := []]> (<[waiting := []]> (<[ready := []]> ∅))) as ->; [|exact Hm3].
  apply map_eq. intros i. vm_compute. done.
Qed.

Lemma boot_unowned t : t ∉ [NULL; ready; tail ready; waiting; tail waiting; timers; tail timers] ->
  unowned boot_queues t.
Proof.
  intros Ht l xs Hl Hin. unfold boot_queues in Hl.
  apply lookup_insert_Some in Hl as [[<- <-]|[_ Hl]]; [|apply lookup_insert_Some in Hl
    as [[<- <-]|[_ Hl]]; [|apply lookup_singleton_Some in Hl as [<- <-]]]; set_solver.
Qed.

(** The invariant of the booted system. *)
Lemma booted_kinv k k' : reset_state k -> booted k k' -> kinv k' boot_queues [] [] [].
Proof.
  intros Hrt [m N W Hm Hd EN _ _].
  assert (forall a, is_Some (links (heap k) !! a) -> is_Some (m !! a)) as Hlk.
  { intros a Ha. apply elem_of_dom. rewrite Hd. by apply elem_of_dom. }
  assert (forall a, is_Some (nodes (heap k) !! a) -> is_Some (N !! a)) as HN.
  { intros a Ha. rewrite EN. apply lookup_insert_is_Some'. by right. }
  split; try done.
  - intros t []%elem_of_nil.
  - intros t []%elem_of_nil.
  - intros t T HT. simpl in HT. destruct (decide (t = init_task)) as [->|Hne].
    + rewrite lookup_insert_eq in HT. simplify_eq. split.
      * apply HN, Hrt.
      * apply Hlk, (rt_cells _ Hrt). set_solver.
      * done.
      * split; [done|]. apply boot_unowned, (bool_decide_unpack _). vm_compute. exact I.
      * intros _. split; try done; simpl; unfold init_task_stack, INIT_TASK_STACK_SIZE,
          sizeof_StackFrame; lia.
    + rewrite lookup_insert_ne in HT by done.
      destruct (rt_others _ Hrt t T HT Hne) as (Hs & Hn & Hl & Ht).
      split; [by apply HN|by apply Hlk|set_solver|rewrite Hs; by apply boot_unowned|by rewrite Hs].
  - eexists. split; [apply lookup_insert_eq|done].
  - constructor.
  - intros a []%elem_of_nil.
  - constructor.
Qed.

(** Start-up: [martos_pre] followed by [timer_init], run from reset with no
    interrupt source enabled, returns without a failing assertion, and leaves a
    system that satisfies the kernel invariant and the scheduling invariant, with
    empty ready, waiting and timer lists, interrupts enabled, and the init task
    running at [TASK_PRIO_EXCLUSIVE] with a full quantum. *)
Theorem boot_correct k : reset_state k ->
  exists k', quiet_run (t ← martos_pre; timer_init;; mret t) k = Some (init_task, k') /\
    kinv k' boot_queues [] [] [] /\ sched_ok k' [] /\ idle_ok k' /\
    interruptible k' = true /\ id_nestcnt k' = -1 /\ running k' = init_task /\
    in_state k' TASK_RUNNING init_task /\ prio_at k' init_task = TASK_PRIO_EXCLUSIVE /\
    elapsed k' = QUANTUM /\ timer_now k' = 0.
Proof.
  intros Hrt. destruct (boot_run k Hrt) as (k' & E & Hb). exists k'. split; [exact E|].
  split; [by eapply booted_kinv|]. destruct Hb as [m N W _ _ -> _].
  split; [right; intros t []%elem_of_nil|]. split.
  { eexists. split; [apply lookup_insert_eq|]. by right. }
  split; [unfold interruptible; simpl; destruct (rt_irq _ Hrt) as [-> ->]; done|]. split_and!; try done.
  - eexists. split; [apply lookup_insert_eq|done].
  - unfold prio_at, prio_of. simpl. by rewrite lookup_insert_eq.
Qed.

Lemma demo_reset : reset_state demo_mem.
Proof.
  split.
  - apply Forall_forall, (bool_decide_unpack _). vm_compute. exact I.
  - eexists. vm_compute. reflexivity.
  - eexists. vm_compute. reflexivity.
  - eexists _, _. split; [vm_compute; reflexivity|]. split; [reflexivity|discriminate].
  - exact demo_frame_mapped.
  - done.
  - change (map_Forall (fun t T => t <> init_task ->
      state T = TASK_INVALID /\ is_Some (nodes (heap demo_mem) !! t) /\
      is_Some (links (heap demo_mem) !! t) /\
      t ∉ [NULL; ready; tail ready; waiting; tail waiting; timers; tail timers]) (tasks demo_mem)).
    apply (bool_decide_unpack _). vm_compute. exact I.
Qed.

Lemma boot_correct_witness : exists k',
  quiet_run (t ← martos_pre; timer_init;; mret t) demo_mem = Some (init_task, k') /\
  kinv k' boot_queues [] [] [].
Proof.
  destruct (boot_correct demo_mem demo_reset) as (k' & E & HK & _).
  exists k'. split; [exact E|exact HK].
Defined.

(** ** The vector table *)

(** The exception numbers of the ARMv7-M architecture, and the interrupt number of
    TIM2 on this device ([TIM2_IRQn] of the vendor's header); interrupt [n] is
    exception [16 + n]. *)
Definition exc_PendSV : nat := 14.
Definition exc_SysTick : nat := 15.
Definition TIM2_IRQn : nat := 28.

(** C35. The vector table serves the right exceptions: PendSV enters the scheduler,
    SysTick the round-robin clock and the interrupt of TIM2 the timer service; every
    other exception that has a handler ends in an endless loop with no change to the
    kernel, and no interrupt above TIM2 has an entry. *)
Theorem vector_table_serves old_frame n :
  take_exception old_frame exc_PendSV = Some (_ ← PendSV_exception old_frame; mret tt) /\
  take_exception old_frame exc_SysTick = Some SysTick_exception /\
  take_exception old_frame (16 + TIM2_IRQn) = Some TIM2_exception /\
  (n <> exc_PendSV -> n <> exc_SysTick -> n <> (16 + TIM2_IRQn)%nat ->
    match take_exception old_frame n with
    | Some h => forall k, h k = Spin (set_handler true k)
    | None => (n < 2)%nat \/ n ∈ [7; 8; 9; 10; 13]%nat \/ (16 + TIM2_IRQn < n)%nat
    end).
Proof.
  split_and!; try reflexivity. intros H1 H2 H3. unfold exc_PendSV, exc_SysTick, TIM2_IRQn in *.
  destruct (decide (n < 45)%nat) as [Hn|Hn].
  - do 45 (destruct n as [|n]; [try done; unfold take_exception; simpl; first
      [by intros k|by left; lia|right; left; set_solver]|]). lia.
  - unfold take_exception. rewrite lookup_ge_None_2 by (simpl; lia). right. right. lia.
Qed.

(** A HardFault, and an interrupt that is not there. *)
Lemma vector_table_serves_witness :
  (exists h, take_exception 0 3 = Some h /\ h demo_mem = Spin (set_handler true demo_mem)) /\
  take_exception 0 99 = None.
Proof.
  split; [|reflexivity]. destruct (vector_table_serves 0 3) as (_ & _ & _ & H).
  exists (exception Default_Handler). split; [reflexivity|]. exact (H ltac:(discriminate) ltac:(discriminate) ltac:(discriminate) demo_mem).
Defined.
