(* ===== verification/Device.v ===== *)
(** * Device set-up ([platforms/stm32f4-discovery/platform.c])

    The LEDs, the interrupt priorities, the round-robin clock and the tick timer.
    The functions of the vendor's peripheral library are one parameter, which is
    given each call with its arguments; a structure that is passed to such a
    function is the record of the fields that the code assigns. *)

From S2P Require Import Prelude Heap Lists ListSpec Machine Logic Context Task.
From S2P Require Import Platform Timer Init Invariant Checker Demo SchedSpec ContextSpec BootSpec.

(** Names of the vendor's headers that the code uses. *)
Inductive IRQn_Type := PendSV_IRQn | SysTick_IRQn | TIM2_IRQn.

Inductive Vendor_Constant :=
  | RCC_AHB1Periph_GPIOD | RCC_APB1Periph_TIM2 | GPIO_Mode_OUT | GPIO_Speed_50MHz
  | GPIOD | Bit_RESET | TIM2_base | TIM_CounterMode_Up | TIM_CKD_DIV1 | TIM_IT_Update.

Inductive GPIO_Pins := GPIO_Pin_12 | GPIO_Pin_13.

Record GPIO_InitTypeDef := mkGPIO_Init {
  GPIO_Pin : list GPIO_Pins; GPIO_Mode : Vendor_Constant; GPIO_Speed : Vendor_Constant }.

Record TIM_TimeBaseInitTypeDef := mkTIM_TimeBaseInit {
  TIM_Prescaler : Z; TIM_CounterMode : Vendor_Constant; TIM_Period : Z;
  TIM_ClockDivision : Vendor_Constant; TIM_RepetitionCounter : Z }.

Record NVIC_InitTypeDef := mkNVIC_Init {
  NVIC_IRQChannel : IRQn_Type; NVIC_IRQChannelPreemptionPriority : Z;
  NVIC_IRQChannelSubPriority : Z; NVIC_IRQChannelCmd : bool }.

(** A call of a library function; [true] is [ENABLE]. *)
Inductive Vendor_Call :=
  | RCC_AHB1PeriphClockCmd (periph : Vendor_Constant) (state : bool)
  | RCC_APB1PeriphClockCmd (periph : Vendor_Constant) (state : bool)
  | GPIO_Init (port : Vendor_Constant) (init : GPIO_InitTypeDef)
  | GPIO_WriteBit (port : Vendor_Constant) (pins : list GPIO_Pins) (value : Vendor_Constant)
  | NVIC_SetPriority (irq : IRQn_Type) (priority : Z)
  | SysTick_Config (ticks : Z)
  | TIM_TimeBaseInit (tim : Vendor_Constant) (init : TIM_TimeBaseInitTypeDef)
  | TIM_Cmd (tim : Vendor_Constant) (state : bool)
  | TIM_ITConfig (tim : Vendor_Constant) (it : Vendor_Constant) (state : bool)
  | NVIC_Init (init : NVIC_InitTypeDef).

(** [__set_PSP], the process stack pointer. *)
Definition __set_PSP (top : Z) : M unit := modify (set_psp top).

Section device.
Context (vendor : Vendor_Call -> M unit).

(** [SysTick->CALIB] and [SysTick_CALIB_TENMS_Msk]: the ticks in 10 ms. *)
Context (SysTick_CALIB SysTick_CALIB_TENMS_Msk : Z).

(** [void led_init(void)] *)
Definition led_init : M unit :=
  vendor (RCC_AHB1PeriphClockCmd RCC_AHB1Periph_GPIOD true);;
  let gpioStructure := {| GPIO_Pin := [GPIO_Pin_12; GPIO_Pin_13];
    GPIO_Mode := GPIO_Mode_OUT; GPIO_Speed := GPIO_Speed_50MHz |} in
  vendor (GPIO_Init GPIOD gpioStructure);;
  vendor (GPIO_WriteBit GPIOD [GPIO_Pin_12; GPIO_Pin_13] Bit_RESET).

(** [StackFrame *platform_pre(void)]; [martos_pre] returns the init task, whose
    [context] the C function returns the address of. *)
Definition platform_pre : M addr :=
  task ← martos_pre;
  vendor (NVIC_SetPriority PendSV_IRQn 255);;
  vendor (SysTick_Config (Z.land SysTick_CALIB SysTick_CALIB_TENMS_Msk));;
  vendor (NVIC_SetPriority SysTick_IRQn 0);;
  led_init;;
  T ← load tasks task;
  __set_PSP (frame (context T));;
  T ← load tasks task;
  mret (frame (context T)).

(** The set-up of TIM2 in [PRIVATE void timer_init_platform(void)] *)
Definition tim2_init : M unit :=
  vendor (RCC_APB1PeriphClockCmd RCC_APB1Periph_TIM2 true);;
  let timerInitStructure := {| TIM_Prescaler := 28 - 1; TIM_CounterMode := TIM_CounterMode_Up;
    TIM_Period := 1000 - 1; TIM_ClockDivision := TIM_CKD_DIV1; TIM_RepetitionCounter := 0 |} in
  vendor (TIM_TimeBaseInit TIM2_base timerInitStructure);;
  vendor (TIM_Cmd TIM2_base true);;
  vendor (TIM_ITConfig TIM2_base TIM_IT_Update true);;
  let nvicStructure := {| NVIC_IRQChannel := TIM2_IRQn; NVIC_IRQChannelPreemptionPriority := 0;
    NVIC_IRQChannelSubPriority := 1; NVIC_IRQChannelCmd := true |} in
  vendor (NVIC_Init nvicStructure).

(** From reset to the point where the init task has set up the timer service:
    [platform_pre], called by [Reset_Handler], and [timer_init], called by
    [init_task_f]. *)
Definition device_boot : M addr :=
  f ← platform_pre;
  timer_init;;
  tim2_init;;
  mret f.

(** A vendor function returns, and leaves the kernel's memory alone; what SysTick
    interrupts do meanwhile is to use up a part of the quantum. *)
Definition vendor_quiet : Prop := forall c k, 0 < elapsed k ->
  exists e, 0 < e <= elapsed k /\ vendor c k = Ret tt (set_elapsed e k).

(** The calls between [martos_pre] and [timer_init], and behind it. *)
Lemma quietly_vendor c k (P : unit -> Kernel -> Prop) : vendor_quiet -> 0 < elapsed k ->
  (forall e, 0 < e <= elapsed k -> P tt (set_elapsed e k)) -> quietly (vendor c) k P.
Proof.
  intros Hv Hk HP. destruct (Hv c k Hk) as (e & He & E). exists tt, (set_elapsed e k).
  unfold quiet_run. rewrite E. split; [done|by apply HP].
Qed.

(** A call, from a state in which some quantum is left. *)
Lemma quietly_call c e n k (P : unit -> Kernel -> Prop) : vendor_quiet -> 0 < e <= n ->
  (forall e', 0 < e' <= n -> P tt (set_elapsed e' k)) -> quietly (vendor c) (set_elapsed e k) P.
Proof.
  intros Hv He HP. apply quietly_vendor; [done|simpl; lia|].
  intros e' He'. apply (HP e'). simpl in He'. lia.
Qed.

Lemma quietly_led_init e n k (P : unit -> Kernel -> Prop) : vendor_quiet -> 0 < e <= n ->
  (forall e', 0 < e' <= n -> P tt (set_elapsed e' k)) -> quietly led_init (set_elapsed e k) P.
Proof.
  intros Hv He HP. unfold led_init. do 2 (eapply quietly_bind, quietly_call; [done..|]; clear e He; intros e He).
  by eapply quietly_call.
Qed.

Lemma quietly_tim2_init e n k (P : unit -> Kernel -> Prop) : vendor_quiet -> 0 < e <= n ->
  (forall e', 0 < e' <= n -> P tt (set_elapsed e' k)) -> quietly tim2_init (set_elapsed e k) P.
Proof.
  intros Hv He HP. unfold tim2_init.
  do 4 (eapply quietly_bind, quietly_call; [done..|]; clear e He; intros e He).
  by eapply quietly_call.
Qed.

(** The part of [platform_pre] behind [martos_pre]. *)
Lemma quietly_platform_pre k1 k T n (P : addr -> Kernel -> Prop) : vendor_quiet -> 0 < n ->
  quiet_run martos_pre k = Some (init_task, set_elapsed n k1) -> tasks k1 !! init_task = Some T ->
  (forall e, 0 < e <= n ->
    P (frame (context T)) (set_elapsed e (set_psp (frame (context T)) k1))) ->
  quietly platform_pre k P.
Proof.
  intros Hv Hn E HT HP. unfold platform_pre. apply quietly_bind.
  exists init_task, (set_elapsed n k1). split; [exact E|].
  assert (exists e, 0 < e <= n /\ set_elapsed n k1 = set_elapsed e k1) as (e & He & ->)
    by (exists n; split; [lia|done]).
  do 3 (eapply quietly_bind, (quietly_call _ _ n); [done..|]; clear e He; intros e He).
  eapply quietly_bind, (quietly_led_init _ n); [done..|]. clear e He. intros e He.
  eapply quietly_bind, quietly_wp, wp_load; [exact HT|].
  eapply quietly_bind, quietly_wp, wp_modify.
  eapply quietly_bind, quietly_wp, wp_load; [exact HT|]. by apply quietly_wp, wp_ret, HP.
Qed.
End device.

(** ** Start-up with the devices *)

Lemma quiet_bind_inv {A B} (m : M A) (f : A -> M B) k b k' :
  quiet_run (m ≫= f) k = Some (b, k') ->
  exists a k1, quiet_run m k = Some (a, k1) /\ quiet_run (f a) k1 = Some (b, k').
Proof.
  unfold quiet_run, mbind, M_bind. rewrite quiet_bindR.
  destruct (quiet (m k)) as [[a k1]|]; [|done]. simpl. eauto.
Qed.

(** [timer_init] neither reads nor writes the quantum, the stacks or a task. *)
Lemma timer_init_frame k k' e p : quiet_run timer_init k = Some (tt, k') ->
  quiet_run timer_init (set_elapsed e (set_psp p k)) = Some (tt, set_elapsed e (set_psp p k')) /\
  tasks k' = tasks k /\ elapsed k' = elapsed k /\ words k' = words k /\ handler k' = handler k.
Proof.
  unfold quiet_run, timer_init, timer_init_platform, modify, mbind, M_bind, listop. simpl.
  destruct (list_init timers (heap k)) as [[[] h]|]; simpl; [|done]. by intros [= <-].
Qed.

(** Start-up up to the first task, and the timer service. *)
Lemma martos_pre_run k : reset_state k -> exists k1 k',
  quiet_run martos_pre k = Some (init_task, set_elapsed QUANTUM k1) /\
  quiet_run timer_init k1 = Some (tt, k') /\ booted k k' /\
  quiet_run (t ← martos_pre; timer_init;; mret t) k = Some (init_task, k') /\
  tasks k1 !! init_task = Some (set_state TASK_RUNNING booted_task) /\
  words k1 = words k' /\ handler k1 = handler k'.
Proof.
  intros Hrt. destruct (boot_run k Hrt) as (k' & E & Hb). pose proof E as E0.
  apply quiet_bind_inv in E as (t & k1 & E1 & E2).
  apply quiet_bind_inv in E2 as ([] & k2 & E2 & [= -> ->]).
  destruct (timer_init_frame k1 k' 0 0 E2) as (_ & Et & Ee & Ew & Eh). exists k1, k'.
  replace (set_elapsed QUANTUM k1) with k1; [split_and!; try done; rewrite <- Et; destruct Hb; apply lookup_insert_eq|].
  assert (elapsed k1 = QUANTUM) as Hq by (rewrite <- Ee; by destruct Hb).
  rewrite <- Hq. by apply kernel_ext.
Qed.

(** C20. Start-up with the devices: [platform_pre] and [timer_init], run from reset,
    with vendor functions that leave the kernel's memory alone and return before
    the first quantum is used up, while SysTick may interrupt them.  No
    assertion fails; the frame that is returned and installed as the process stack
    is the first frame of the init task; and the state is otherwise the one that
    [martos_pre] and [timer_init] alone leave, but for the rest of the quantum. *)
Theorem device_boot_correct vendor calib msk k : reset_state k -> vendor_quiet vendor ->
  let f := init_task_stack + INIT_TASK_STACK_SIZE - sizeof_StackFrame in
  exists e k', 0 < e <= QUANTUM /\
    quiet_run (device_boot vendor calib msk) k = Some (f, set_elapsed e (set_psp f k')) /\
    quiet_run (t ← martos_pre; timer_init;; mret t) k = Some (init_task, k') /\
    kinv (set_elapsed e (set_psp f k')) boot_queues [] [] [] /\ sched_ok k' [] /\ idle_ok k' /\
    pendsv k' = pendsv k.
Proof.
  intros Hrt Hv f. destruct (martos_pre_run k Hrt) as (k1 & k' & E1 & E2 & Hb & E & HT & _).
  assert (quietly (device_boot vendor calib msk) k (fun a k2 => exists e, 0 < e <= QUANTUM /\
    a = f /\ k2 = set_elapsed e (set_psp f k'))) as (a & k2 & E3 & e & He & -> & ->).
  2: { exists e, k'. split_and!; try done; try apply He.
    - eapply kinv_frame; [..|by eapply booted_kinv]; done.
    - right. intros t []%elem_of_nil.
    - destruct Hb. eexists. split; [apply lookup_insert_eq|]. by right.
    - by destruct Hb. }
  unfold device_boot.
  eapply quietly_bind, (quietly_platform_pre vendor calib msk k1 k _ QUANTUM); [done|done|exact E1|exact HT|].
  intros e He. apply quietly_bind. exists tt, (set_elapsed e (set_psp f k')).
  split; [by apply (timer_init_frame k1 k' e f)|].
  eapply quietly_bind, (quietly_tim2_init vendor e QUANTUM); [done..|]. intros e' He'.
  apply quietly_wp, wp_ret. by exists e'.
Qed.

(** Every call lets a tick pass, as long as the quantum lasts. *)
Definition slow_vendor (c : Vendor_Call) : M unit :=
  modify (fun k => if 1 <? elapsed k then set_elapsed (elapsed k - 1) k else k).

Lemma slow_vendor_quiet : vendor_quiet slow_vendor.
Proof.
  intros c k Hk. unfold slow_vendor, modify. destruct (1 <? elapsed k) eqn:E; norm_bool.
  - exists (elapsed k - 1). split; [lia|done].
  - exists (elapsed k). split; [lia|]. f_equal. by apply kernel_ext.
Qed.

Lemma device_boot_correct_witness :
  let f := init_task_stack + INIT_TASK_STACK_SIZE - sizeof_StackFrame in
  exists e k', 0 < e <= QUANTUM /\
  quiet_run (device_boot slow_vendor 10500 16777215) demo_mem =
    Some (f, set_elapsed e (set_psp f k')).
Proof.
  intros f.
  destruct (device_boot_correct slow_vendor 10500 16777215 demo_mem demo_reset slow_vendor_quiet)
    as (e & k' & He & E & _).
  exists e, k'. split; [exact He|exact E].
Defined.
