(* ===== verification/Assembly.v ===== *)
(** * The assembly code ([pendsv_handler.s], [reset_handler.s])

    The instructions that the two handlers use, the stacking of registers by the
    hardware at an exception, and the handlers.  The compiled C functions follow
    the procedure call standard: they preserve [r4]..[r11] and the stack pointer,
    and leave anything in the other registers. *)

From S2P Require Import Prelude Heap Lists ListSpec Machine Logic Context Task.
From S2P Require Import Platform Timer Init Device.

(** ** Registers *)

Inductive reg := R (n : Z) | SP | LR | PC.

(** The registers of the core, but for the process stack pointer, which is in
    [Kernel]; [spsel] is the bit of [CONTROL] that selects it in thread mode. *)
Record Cpu := mkCpu {
  gpr : Z -> Z; lr : Z; pc : Z; xpsr : Z; msp : Z; spsel : bool }.

Definition set_gpr (n v : Z) (c : Cpu) : Cpu :=
  mkCpu (fun m => if m =? n then v else gpr c m) (lr c) (pc c) (xpsr c) (msp c) (spsel c).
Definition set_lr (v : Z) (c : Cpu) : Cpu :=
  mkCpu (gpr c) v (pc c) (xpsr c) (msp c) (spsel c).
Definition set_pc (v : Z) (c : Cpu) : Cpu :=
  mkCpu (gpr c) (lr c) v (xpsr c) (msp c) (spsel c).
Definition set_xpsr (v : Z) (c : Cpu) : Cpu :=
  mkCpu (gpr c) (lr c) (pc c) v (msp c) (spsel c).
Definition set_msp (v : Z) (c : Cpu) : Cpu :=
  mkCpu (gpr c) (lr c) (pc c) (xpsr c) v (spsel c).
Definition set_spsel (v : bool) (c : Cpu) : Cpu :=
  mkCpu (gpr c) (lr c) (pc c) (xpsr c) (msp c) v.

(** [SP] is the main stack pointer in a handler, and in thread mode when [spsel]
    is not set. *)
Definition read_reg (r : reg) (c : Cpu) : M Z :=
  match r with
  | R n => mret (gpr c n)
  | SP => h ← gets handler; if h || negb (spsel c) then mret (msp c) else gets psp
  | LR => mret (lr c)
  | PC => mret (pc c)
  end.

Definition write_reg (r : reg) (v : Z) (c : Cpu) : M Cpu :=
  match r with
  | R n => mret (set_gpr n v c)
  | SP => h ← gets handler;
      if h || negb (spsel c) then mret (set_msp v c) else modify (set_psp v);; mret c
  | LR => mret (set_lr v c)
  | PC => mret (set_pc v c)
  end.

(** Registers to and from memory, from the lowest address up. *)
Fixpoint store_regs (a : addr) (rs : list reg) (c : Cpu) : M unit :=
  match rs with
  | [] => mret tt
  | r :: rs => v ← read_reg r c; store_word a v;; store_regs (a + 4) rs c
  end.

Fixpoint load_regs (a : addr) (rs : list reg) (c : Cpu) : M Cpu :=
  match rs with
  | [] => mret c
  | r :: rs => v ← load words a; c ← write_reg r v c; load_regs (a + 4) rs c
  end.

(** ** Exceptions *)

(** [EXC_RETURN]: to thread mode, with the process or the main stack. *)
Definition EXC_RETURN_PSP : Z := 4294967293.
Definition EXC_RETURN_MSP : Z := 4294967289.

(** The registers that the hardware stacks, but for [xpsr]. *)
Definition stacked_regs : list reg := [R 0; R 1; R 2; R 3; R 12; LR; PC].

(** The stacked [xpsr]; bit 9, which is reserved in the register, says whether a
    word was skipped to align the stack to 8 bytes. *)
Definition stacked_xpsr (pad : bool) (x : Z) : Z :=
  if pad then Z.setbit x 9 else Z.clearbit x 9.

Definition pad_size (pad : bool) : Z := if pad then 4 else 0.

(** Exception entry from thread mode. *)
Definition exception_entry (c : Cpu) : M Cpu :=
  sp ← read_reg SP c;
  let pad := Z.testbit sp 2 in
  let f := sp - pad_size pad - 32 in
  store_regs f stacked_regs c;;
  store_word (f + 28) (stacked_xpsr pad (xpsr c));;
  c ← write_reg SP f c;
  modify (set_handler true);;
  mret (set_lr (if spsel c then EXC_RETURN_PSP else EXC_RETURN_MSP) c).

(** Exception return, by a branch to an [EXC_RETURN]; only tasks, which use the
    process stack, are returned to.  A frame that skips a word is aligned to 8
    bytes. *)
Definition exception_return (c : Cpu) : M Cpu :=
  if pc c =? EXC_RETURN_PSP then
    modify (set_handler false);;
    let c := set_spsel true c in
    f ← gets psp;
    c ← load_regs f stacked_regs c;
    x ← load words (f + 28);
    modify (set_psp (f + 32 + pad_size (Z.testbit x 9)));;
    mret (set_xpsr (Z.clearbit x 9) c)
  else fault.

(** ** Instructions *)

(** [LDM] and [STMDB] are the variants that write the base register back. *)
Inductive instr :=
  | MRS_PSP (rd : reg) | MSR_PSP (rs : reg) | MSR_CONTROL (rs : reg) | ISB
  | STMDB (rn : reg) (rs : list reg) | LDM (rn : reg) (rs : list reg)
  | LDR (rt rn : reg) (off : Z) | LDR_CONST (rt : reg) (v : Z) | MOV (rd : reg) (v : Z)
  | BL (f : Z -> Z -> Z -> M Z)
  | B_SELF.

Definition PUSH (rs : list reg) : instr := STMDB SP rs.
Definition POP (rs : list reg) : instr := LDM SP rs.

(** Whether an instruction ends the straight line of the code. *)
Definition is_pc (r : reg) : bool := match r with PC => true | _ => false end.
Definition branches (i : instr) : bool :=
  match i with
  | LDM _ rs => existsb is_pc rs
  | LDR rt _ _ => is_pc rt
  | _ => false
  end.

Section assembly.
(** What the C functions leave in the registers that they need not preserve; 14 is
    [lr]. *)
Context (scratch : Kernel -> Z -> Z).

Definition clobber (s : Z -> Z) (c : Cpu) : Cpu :=
  set_lr (s 14) (set_gpr 12 (s 12) (set_gpr 3 (s 3) (set_gpr 2 (s 2) (set_gpr 1 (s 1) c)))).

Definition exec_instr (i : instr) (c : Cpu) : M Cpu :=
  match i with
  | MRS_PSP rd => v ← gets psp; write_reg rd v c
  | MSR_PSP rs => v ← read_reg rs c; modify (set_psp v);; mret c
  | MSR_CONTROL rs => v ← read_reg rs c; mret (set_spsel (Z.testbit v 1) c)
  | ISB => mret c
  | STMDB rn rs =>
      a ← read_reg rn c;
      let a := a - 4 * Z.of_nat (length rs) in
      store_regs a rs c;;
      write_reg rn a c
  | LDM rn rs =>
      a ← read_reg rn c;
      c ← load_regs a rs c;
      write_reg rn (a + 4 * Z.of_nat (length rs)) c
  | LDR rt rn off => a ← read_reg rn c; v ← load words (a + off); write_reg rt v c
  | LDR_CONST rt v => write_reg rt v c
  | MOV rd v => write_reg rd v c
  | BL f =>
      a ← f (gpr c 0) (gpr c 1) (gpr c 2);
      s ← gets scratch;
      mret (set_gpr 0 a (clobber s c))
  | B_SELF => spin
  end.

Fixpoint exec (p : list instr) (c : Cpu) : M Cpu :=
  match p with
  | [] => mret c
  | i :: p => c ← exec_instr i c; if branches i then mret c else exec p c
  end.

(** ** [PendSV_Handler] *)

Definition r4_r11 : list reg := [R 4; R 5; R 6; R 7; R 8; R 9; R 10; R 11].

Definition PendSV_Handler : list instr := [
  MRS_PSP (R 0);
  STMDB (R 0) r4_r11;
  PUSH [LR];
  BL (fun old_frame _ _ => PendSV_Handler_user old_frame);
  LDM (R 0) r4_r11;
  MSR_PSP (R 0);
  POP [PC]].

(** The whole exception, from the interrupted task to the one it returns to. *)
Definition PendSV_interrupt (c : Cpu) : M Cpu :=
  c ← exception_entry c;
  modify (set_pendsv false);;
  c ← exec PendSV_Handler c;
  exception_return c.

(** The exception of a handler that is a C function. *)
Definition SysTick_interrupt (c : Cpu) : M Cpu :=
  c ← exception_entry c;
  SysTick_Handler;;
  s ← gets scratch;
  exception_return (set_pc (lr c) (set_gpr 0 (s 0) (clobber s c))).

(** ** [Reset_Handler] *)

(** The C library, the set-up of the clocks, and the vendor's functions; the
    symbols of the linker script. *)
Context (memcpy memset : Z -> Z -> Z -> M Z) (SystemInit : M unit).
Context (vendor : Vendor_Call -> M unit) (SysTick_CALIB SysTick_CALIB_TENMS_Msk : Z).
Context (_sdata _sidata _data_size _sbss _bss_size : Z).

(** Data and devices, and the frame of the init task on the process stack. *)
Definition Reset_setup : list instr := [
  LDR_CONST (R 0) _sdata;
  LDR_CONST (R 1) _sidata;
  LDR_CONST (R 2) _data_size;
  BL memcpy;
  LDR_CONST (R 0) _sbss;
  MOV (R 1) 0;
  LDR_CONST (R 2) _bss_size;
  BL memset;
  BL (fun r0 _ _ => SystemInit;; mret r0);
  BL (fun _ _ _ => platform_pre vendor SysTick_CALIB SysTick_CALIB_TENMS_Msk);
  MOV (R 0) 2;
  MSR_CONTROL (R 0);
  ISB].

(** The frame is taken off the stack. *)
Definition Reset_unwind : list instr := [
  LDM SP r4_r11;
  POP [R 0; R 1; R 2; R 3; R 12; LR];
  POP [R 0];
  POP [R 0]].

(** The parameter and the entry point are read below the stack pointer. *)
Definition Reset_jump : list instr := [
  LDR (R 0) SP (- 4 * 8);
  LDR PC SP (- 4 * 2);
  B_SELF].

Definition Reset_Handler : list instr := Reset_setup ++ Reset_unwind ++ Reset_jump.
End assembly.
