(* ===== verification/AssemblySpec.v ===== *)
(** * Context switches preserve the registers of a task

    What [PendSV_Handler] does on the stacks and to the registers, around the
    scheduler. *)

From S2P Require Import Prelude Heap Lists ListSpec Machine Logic Context Task.
From S2P Require Import Platform Timer Init Invariant Checker Demo TaskSpec SchedSpec ContextSpec.
From S2P Require Import BootSpec Device Assembly.

(** ** Words in memory *)

(** The words [vs] are in memory from [a] up. *)
Definition holds (W : gmap Z Z) (a : Z) (vs : list Z) : Prop :=
  forall i v, vs !! i = Some v -> W !! (a + 4 * Z.of_nat i) = Some v.

Fixpoint put_words (a : Z) (vs : list Z) (W : gmap Z Z) : gmap Z Z :=
  match vs with [] => W | v :: vs => put_words (a + 4) vs (<[a := v]> W) end.

(** [n] words are mapped from [a] up. *)
Definition mapped (W : gmap Z Z) (a : Z) (n : nat) : Prop :=
  forall i, (i < n)%nat -> is_Some (W !! (a + 4 * Z.of_nat i)).

Lemma put_words_out vs : forall a W x,
  (forall i, (i < length vs)%nat -> x <> a + 4 * Z.of_nat i) -> put_words a vs W !! x = W !! x.
Proof.
  induction vs as [|v vs IH]; intros a W x Hx; simpl in *; [done|].
  rewrite IH.
  - apply lookup_insert_ne. intros ->. apply (Hx 0%nat); lia.
  - intros i Hi ->. apply (Hx (S i)); lia.
Qed.

Lemma put_words_holds vs : forall a W, holds (put_words a vs W) a vs.
Proof.
  induction vs as [|v vs IH]; intros a W [|i] w Hi; simplify_eq/=.
  - rewrite put_words_out by (intros i Hi; lia). rewrite <- (lookup_insert_eq W a w). f_equal. lia.
  - replace (a + 4 * Z.of_nat (S i)) with (a + 4 + 4 * Z.of_nat i) by lia. by apply IH.
Qed.

Lemma put_words_app vs ws : forall a W,
  put_words a (vs ++ ws) W = put_words (a + 4 * Z.of_nat (length vs)) ws (put_words a vs W).
Proof.
  induction vs as [|v vs IH]; intros a W; simpl; [f_equal; lia|]. rewrite IH. f_equal. lia.
Qed.

Lemma put_words_dom vs : forall a W, mapped W a (length vs) -> dom (put_words a vs W) = dom W.
Proof.
  induction vs as [|v vs IH]; intros a W Hm; simpl in *; [done|].
  rewrite IH.
  - apply dom_insert_mapped. specialize (Hm 0%nat). rewrite Z.add_0_r in Hm. apply Hm. lia.
  - intros i Hi. apply lookup_insert_is_Some'. right.
    replace (a + 4 + 4 * Z.of_nat i) with (a + 4 * Z.of_nat (S i)) by lia. apply Hm. lia.
Qed.

Lemma put_words_is_Some vs : forall a W x, is_Some (W !! x) -> is_Some (put_words a vs W !! x).
Proof.
  induction vs as [|v vs IH]; intros a W x Hx; simpl; [done|].
  apply IH, lookup_insert_is_Some'. by right.
Qed.

Lemma mapped_at W a n x (i : nat) : mapped W a n -> (i < n)%nat -> x = a + 4 * Z.of_nat i ->
  is_Some (W !! x).
Proof. intros Hm Hi ->. by apply Hm. Qed.

Lemma holds_frame W W' a vs : holds W a vs ->
  (forall i, (i < length vs)%nat -> W' !! (a + 4 * Z.of_nat i) = W !! (a + 4 * Z.of_nat i)) ->
  holds W' a vs.
Proof. intros H E i v Hi. rewrite E; [by apply H|]. by eapply lookup_lt_Some. Qed.

Lemma holds_app W a vs ws : holds W a (vs ++ ws) <->
  holds W a vs /\ holds W (a + 4 * Z.of_nat (length vs)) ws.
Proof.
  split.
  - intros H. split; intros i v Hi; [apply H; by apply lookup_app_l_Some|].
    rewrite <- Z.add_assoc, <- Z.mul_add_distr_l, <- Nat2Z.inj_add. apply H.
    by rewrite lookup_app_r, Nat.add_comm, Nat.add_sub by lia.
  - intros [H1 H2] i v [Hi|[Hl Hi]]%lookup_app_Some; [by apply H1|].
    specialize (H2 _ _ Hi). rewrite <- H2. f_equal. lia.
Qed.

Lemma holds_inj W a vs ws : length vs = length ws -> holds W a vs -> holds W a ws -> vs = ws.
Proof.
  intros Hl H1 H2. apply list_eq_same_length with (length vs); [done|done|].
  intros i v w _ Hv Hw. specialize (H1 _ _ Hv). specialize (H2 _ _ Hw). congruence.
Qed.

Lemma mapped_dom W W' a n : dom W' = dom W -> mapped W a n -> mapped W' a n.
Proof. intros E H i Hi. apply elem_of_dom. rewrite E. apply elem_of_dom. by apply H. Qed.

(** Whatever a mapped frame holds. *)
Lemma mapped_holds W a n : mapped W a n -> exists vs, length vs = n /\ holds W a vs.
Proof.
  revert a. induction n as [|n IH]; intros a Hm.
  - exists []. split; [done|]. intros i v Hi. by rewrite lookup_nil in Hi.
  - destruct (Hm 0%nat ltac:(lia)) as [v Hv]. destruct (IH (a + 4)) as (vs & El & Hvs).
    { intros i Hi. replace (a + 4 + 4 * Z.of_nat i) with (a + 4 * Z.of_nat (S i)) by lia. apply Hm. lia. }
    exists (v :: vs). split; [simpl; lia|]. apply (holds_app W a [v] vs). split; [|exact Hvs].
    intros [|i] w Hi; simplify_eq/=; done.
Qed.

(** ** The stacked [xpsr] *)

Lemma stacked_pad pad x : Z.testbit (stacked_xpsr pad x) 9 = pad.
Proof. unfold stacked_xpsr. destruct pad; [apply Z.setbit_eq|apply Z.clearbit_eq]; lia. Qed.

Lemma stacked_restored pad x : Z.testbit x 9 = false -> Z.clearbit (stacked_xpsr pad x) 9 = x.
Proof.
  intros Hx. apply Z.bits_inj'. intros n Hn. rewrite Z.clearbit_eqb by lia. unfold stacked_xpsr.
  destruct pad; rewrite ?Z.setbit_eqb, ?Z.clearbit_eqb by lia;
    destruct (Z.eqb_spec 9 n) as [<-|]; cbn [negb orb]; rewrite ?andb_true_r, ?andb_false_r; done.
Qed.

Lemma restored_stacked x : stacked_xpsr (Z.testbit x 9) (Z.clearbit x 9) = x.
Proof.
  apply Z.bits_inj'. intros n Hn. unfold stacked_xpsr. destruct (Z.testbit x 9) eqn:E;
    rewrite ?Z.setbit_eqb, ?Z.clearbit_eqb by lia;
    destruct (Z.eqb_spec 9 n) as [<-|]; cbn [negb orb]; rewrite ?andb_true_r, ?andb_false_r; done.
Qed.

(** ** Registers to and from memory *)

Definition reg_val (c : Cpu) (r : reg) : Z :=
  match r with R n => gpr c n | SP => 0 | LR => lr c | PC => pc c end.

Definition put_reg (r : reg) (v : Z) (c : Cpu) : Cpu :=
  match r with R n => set_gpr n v c | SP => c | LR => set_lr v c | PC => set_pc v c end.

Fixpoint put_regs (rs : list reg) (vs : list Z) (c : Cpu) : Cpu :=
  match rs, vs with r :: rs, v :: vs => put_regs rs vs (put_reg r v c) | _, _ => c end.

Definition not_sp (r : reg) : bool := match r with SP => false | _ => true end.

Section registers.
Context (I : Kernel -> Prop) (Rl : Kernel -> Kernel -> Prop).

Lemma wp_read_reg r c k (P : Z -> Kernel -> Prop) : not_sp r = true ->
  P (reg_val c r) k -> wp I Rl (read_reg r c) k P.
Proof. by destruct r. Qed.

Lemma wp_write_reg r v c k (P : Cpu -> Kernel -> Prop) : not_sp r = true ->
  P (put_reg r v c) k -> wp I Rl (write_reg r v c) k P.
Proof. by destruct r. Qed.

Lemma wp_read_sp c k (P : Z -> Kernel -> Prop) :
  P (if handler k || negb (spsel c) then msp c else psp k) k -> wp I Rl (read_reg SP c) k P.
Proof. intros HP. eapply wp_bind, wp_gets. by destruct (handler k || negb (spsel c)). Qed.

Lemma wp_write_msp v c k (P : Cpu -> Kernel -> Prop) : handler k = true ->
  P (set_msp v c) k -> wp I Rl (write_reg SP v c) k P.
Proof. intros Hh HP. eapply wp_bind, wp_gets. by rewrite Hh. Qed.

Lemma wp_write_psp v c k (P : Cpu -> Kernel -> Prop) : handler k = false -> spsel c = true ->
  P c (set_psp v k) -> wp I Rl (write_reg SP v c) k P.
Proof. intros Hh Hs HP. eapply wp_bind, wp_gets. rewrite Hh, Hs. by eapply wp_bind, wp_modify. Qed.

Lemma wp_store_regs rs c : forall a k (P : unit -> Kernel -> Prop),
  forallb not_sp rs = true -> mapped (words k) a (length rs) ->
  P tt (set_words (put_words a (reg_val c <$> rs) (words k)) k) ->
  wp I Rl (store_regs a rs c) k P.
Proof.
  induction rs as [|r rs IH]; intros a k P Hr Hm HP; simpl in *; [apply wp_ret; by destruct k|].
  apply andb_true_iff in Hr as [Hr Hrs].
  eapply wp_bind, wp_read_reg; [done|]. eapply wp_bind, wp_store_word.
  { specialize (Hm 0%nat ltac:(lia)). by rewrite Z.add_0_r in Hm. }
  apply IH; [done| |exact HP]. intros i Hi. simpl. apply lookup_insert_is_Some'. right.
  replace (a + 4 + 4 * Z.of_nat i) with (a + 4 * Z.of_nat (S i)) by lia. apply Hm. lia.
Qed.

Lemma wp_load_regs rs : forall a c vs k (P : Cpu -> Kernel -> Prop),
  forallb not_sp rs = true -> holds (words k) a vs -> length vs = length rs ->
  P (put_regs rs vs c) k -> wp I Rl (load_regs a rs c) k P.
Proof.
  induction rs as [|r rs IH]; intros a c vs k P Hr Hh Hl HP; simpl in *; [by apply wp_ret|].
  destruct vs as [|v vs]; [done|]. apply andb_true_iff in Hr as [Hr Hrs].
  eapply wp_bind, wp_load; [specialize (Hh 0%nat v eq_refl); by rewrite Z.add_0_r in Hh|].
  eapply wp_bind, wp_write_reg; [done|]. apply (IH (a + 4) _ vs); [done| |by simplify_eq/=|exact HP].
  intros i w Hi. replace (a + 4 + 4 * Z.of_nat i) with (a + 4 * Z.of_nat (S i)) by lia. by apply Hh.
Qed.
End registers.

(** ** The frame of a task *)

(** The 16 words of a [StackFrame] with the registers of [c]. *)
Definition frame_regs : list reg := r4_r11 ++ stacked_regs.
Definition frame_of (c : Cpu) (pad : bool) : list Z :=
  (reg_val c <$> frame_regs) ++ [stacked_xpsr pad (xpsr c)].

(** The registers of [c], with the stack pointer [p], are in the frame at [f]. *)
Definition saved (W : gmap Z Z) (f : addr) (c : Cpu) (p : addr) : Prop :=
  Z.testbit (xpsr c) 9 = false /\
  exists pad, holds W f (frame_of c pad) /\ p = f + sizeof_StackFrame + pad_size pad.

(** The registers that a task can see. *)
Record same_registers (c c' : Cpu) : Prop := mkSameRegisters {
  sg_gpr : forall n, 0 <= n <= 12 -> gpr c' n = gpr c n;
  sg_lr : lr c' = lr c;
  sg_pc : pc c' = pc c;
  sg_xpsr : xpsr c' = xpsr c }.

(** A frame determines the registers. *)
Lemma saved_inj W f c c' p p' : saved W f c p -> saved W f c' p' -> same_registers c c' /\ p' = p.
Proof.
  intros [Hx (pad & Hh & ->)] [Hx' (pad' & Hh' & ->)].
  pose proof (holds_inj W f (frame_of c pad) (frame_of c' pad') eq_refl Hh Hh') as E. unfold frame_of in E.
  apply app_inj_2 in E as [E [= Ex]]; [|done].
  assert (pad' = pad) as -> by by rewrite <- (stacked_pad pad (xpsr c)), Ex, stacked_pad.
  split; [|done]. cbn in E. injection E as E4 E5 E6 E7 E8 E9 E10 E11 E0 E1 E2 E3 E12 El Ep.
  split; [|done|done|].
  - intros n Hn. rewrite <- (Z2Nat.id n) by lia. assert (Z.to_nat n < 13)%nat as Hi by lia.
    generalize dependent (Z.to_nat n). intros i Hi.
    do 13 (destruct i as [|i]; [done|]). lia.
  - by rewrite <- (stacked_restored pad (xpsr c')), <- Ex, stacked_restored.
Qed.

Lemma saved_frame W W' f c p : saved W f c p ->
  (forall i, (i < 16)%nat -> W' !! (f + 4 * Z.of_nat i) = W !! (f + 4 * Z.of_nat i)) ->
  saved W' f c p.
Proof. intros [Hx (pad & Hh & E)] HW. split; [done|]. exists pad. split; [|done]. by eapply holds_frame. Qed.

#[global] Arguments put_words : simpl never.

(** ** The exception *)

(** Where the registers of the running task go. *)
Definition frame_addr (k : Kernel) : addr :=
  psp k - pad_size (Z.testbit (psp k) 2) - sizeof_StackFrame.

(** The words that the hardware stacks. *)
Definition stacked (c : Cpu) (k : Kernel) : gmap Z Z :=
  put_words (frame_addr k + 32)
    ((reg_val c <$> stacked_regs) ++ [stacked_xpsr (Z.testbit (psp k) 2) (xpsr c)]) (words k).

(** The state in which [PendSV_Handler] calls the scheduler, but for the handler
    mode and the pending bit. *)
Definition saved_words (c : Cpu) (k : Kernel) : gmap Z Z :=
  <[msp c - 4 := EXC_RETURN_PSP]> (put_words (frame_addr k) (reg_val c <$> r4_r11) (stacked c k)).
Definition saved_state (c : Cpu) (k : Kernel) : Kernel :=
  set_psp (frame_addr k + 32) (set_words (saved_words c k) k).

Lemma mapped_split W a n m : mapped W a (n + m) ->
  mapped W a n /\ mapped W (a + 4 * Z.of_nat n) m.
Proof.
  intros H. split; intros i Hi; [apply H; lia|].
  replace (a + 4 * Z.of_nat n + 4 * Z.of_nat i) with (a + 4 * Z.of_nat (n + i)) by lia. apply H. lia.
Qed.

Section exception.
Context (I : Kernel -> Prop) (Rl : Kernel -> Kernel -> Prop) (scratch : Kernel -> Z -> Z).

Lemma wp_exception_entry c k (P : Cpu -> Kernel -> Prop) :
  handler k = false -> spsel c = true -> mapped (words k) (frame_addr k + 32) 8 ->
  P (set_lr EXC_RETURN_PSP c)
    (set_handler true (set_psp (frame_addr k + 32) (set_words (stacked c k) k))) ->
  wp I Rl (exception_entry c) k P.
Proof.
  intros Hh Hs Hm HP. unfold exception_entry.
  eapply wp_bind, wp_read_sp. rewrite Hh, Hs. cbn [orb negb]. cbv zeta.
  replace (psp k - pad_size (Z.testbit (psp k) 2) - 32) with (frame_addr k + 32)
    by (unfold frame_addr, sizeof_StackFrame; lia).
  apply (mapped_split _ _ 7 1) in Hm as [Hm7 Hm1].
  eapply wp_bind, wp_store_regs; [done|exact Hm7|].
  eapply wp_bind, wp_store_word.
  { apply put_words_is_Some. apply (mapped_at _ _ _ _ 0 Hm1); lia. }
  eapply wp_bind, wp_write_psp; [done|done|]. eapply wp_bind, wp_modify, wp_ret.
  rewrite Hs. unfold stacked in HP. rewrite put_words_app in HP. exact HP.
Qed.

(** The first three instructions. *)
Lemma wp_save_context p c k (P : Cpu -> Kernel -> Prop) :
  handler k = true -> mapped (words k) (psp k - 32) 8 -> is_Some (words k !! (msp c - 4)) ->
  wp I Rl (exec scratch p (set_msp (msp c - 4) (set_gpr 0 (psp k - 32) (set_gpr 0 (psp k) c))))
    (set_words (<[msp c - 4 := lr c]> (put_words (psp k - 32) (reg_val c <$> r4_r11) (words k))) k) P ->
  wp I Rl (exec scratch (MRS_PSP (R 0) :: STMDB (R 0) r4_r11 :: PUSH [LR] :: p) c) k P.
Proof.
  intros Hh Hm Hm2 HP. cbn [exec branches exec_instr PUSH].
  eapply wp_bind, wp_bind, wp_gets, wp_write_reg; [done|].
  eapply wp_bind, wp_bind, wp_read_reg; [done|]. cbn [put_reg reg_val gpr set_gpr Z.eqb].
  change (psp k - 4 * Z.of_nat (length r4_r11)) with (psp k - 32). cbv zeta.
  eapply wp_bind, wp_store_regs; [done|exact Hm|].
  eapply wp_write_reg; [done|].
  eapply wp_bind, wp_bind, wp_read_sp. simpl handler. rewrite Hh. cbn [orb]. cbv zeta.
  eapply wp_bind, wp_store_regs; [done| |].
  { intros [|i] Hi; [|simpl in Hi; lia]. rewrite Z.add_0_r. apply put_words_is_Some. exact Hm2. }
  eapply wp_write_msp; [done|]. exact HP.
Qed.

(** The last three instructions and the return. *)
Lemma wp_restore_context c k m ws hs x (P : Cpu -> Kernel -> Prop) :
  let a := gpr c 0 in
  handler k = true -> length ws = 8%nat -> length hs = 7%nat -> msp c = m - 4 ->
  holds (words k) a (ws ++ hs ++ [x]) -> words k !! (m - 4) = Some EXC_RETURN_PSP ->
  (forall c', let p := a + sizeof_StackFrame + pad_size (Z.testbit x 9) in
    saved (words k) a c' p -> msp c' = m -> spsel c' = true ->
    P c' (set_psp p (set_handler false k))) ->
  wp I Rl (c ← exec scratch [LDM (R 0) r4_r11; MSR_PSP (R 0); POP [PC]] c; exception_return c) k P.
Proof.
  intros a Hh Hw Hhs Em Hall Hret HP.
  pose proof Hall as [H1 [H2 H3]%holds_app]%holds_app.
  rewrite Hw in H2, H3. rewrite Hhs in H3.
  cbn [exec branches exec_instr POP existsb is_pc orb].
  eapply wp_bind, wp_bind, wp_bind, wp_read_reg; [done|]. fold a.
  eapply wp_bind, wp_load_regs; [done|exact H1|done|]. eapply wp_write_reg; [done|].
  do 8 (destruct ws as [|? ws]; [done|]). destruct ws; [|done].
  do 7 (destruct hs as [|? hs]; [done|]). destruct hs; [|done].
  eapply wp_bind, wp_bind, wp_read_reg; [done|]. eapply wp_bind, wp_modify, wp_ret.
  eapply wp_bind, wp_bind, wp_read_sp. simpl handler. rewrite Hh. cbn [orb].
  cbn [put_reg put_regs reg_val set_gpr gpr Z.eqb Pos.eqb msp r4_r11]. fold a. rewrite Em.
  eapply wp_bind, (wp_load_regs _ _ _ _ _ [EXC_RETURN_PSP]); [done| |done|].
  { intros [|i] v Hi; simplify_eq/=. by rewrite Z.add_0_r. }
  eapply wp_write_msp; [done|]. cbn [put_regs put_reg]. apply wp_ret.
  unfold exception_return. cbn [set_msp set_pc pc]. rewrite Z.eqb_refl.
  eapply wp_bind, wp_modify, wp_bind, wp_gets, wp_bind, wp_load_regs; [done|exact H2|done|].
  eapply wp_bind, wp_load.
  { specialize (H3 0%nat x eq_refl). simpl in H3 |- *. rewrite <- H3. f_equal. lia. }
  eapply wp_bind, wp_modify, wp_ret.
  replace (_ + 32 + pad_size (Z.testbit x 9)) with (a + sizeof_StackFrame + pad_size (Z.testbit x 9))
    by (unfold sizeof_StackFrame; simpl; lia).
  apply HP; [|simpl; lia|done]. split.
  - cbn [set_xpsr xpsr]. rewrite Z.clearbit_eqb by lia. by rewrite andb_false_r.
  - exists (Z.testbit x 9). split; [|done]. unfold frame_of. cbn [set_xpsr xpsr].
    rewrite restored_stacked. exact Hall.
Qed.
End exception.

(** ** Stacks *)

(** The stacks of the tasks are in memory, apart from one another and from the top
    word of the main stack, whose pointer is [m]. *)
Record stacks_ok (k : Kernel) (m : addr) : Prop := mkStacks {
  st_aligned : forall t T, tasks k !! t = Some T -> scheduled (state T) = true ->
    frame (context T) mod 4 = 0;
  st_mapped : forall t T a, tasks k !! t = Some T -> scheduled (state T) = true -> a mod 4 = 0 ->
    bos (context T) <= a -> a + 4 <= tos (context T) -> is_Some (words k !! a);
  st_main : is_Some (words k !! (m - 4)) /\
    forall t T, tasks k !! t = Some T -> scheduled (state T) = true ->
      m <= bos (context T) \/ tos (context T) <= m - 4;
  st_apart : forall t u T U, t <> u -> tasks k !! t = Some T -> scheduled (state T) = true ->
    tasks k !! u = Some U -> scheduled (state U) = true ->
    tos (context T) <= bos (context U) \/ tos (context U) <= bos (context T) }.

(** The exception can be taken: the running task, which has enough stack left, has
    interrupts enabled. *)
Record switchable (c : Cpu) (k : Kernel) : Prop := mkSwitchable {
  sb_inv : exists Q rs ws ts, kinv k Q rs ws ts;
  sb_idle : idle_ok k;
  sb_irq : primask k = false /\ handler k = false /\ id_nestcnt k = -1;
  sb_cpu : spsel c = true /\ Z.testbit (xpsr c) 9 = false /\ psp k mod 4 = 0;
  sb_stack : exists T, tasks k !! running k = Some T /\
    bos (context T) <= frame_addr k /\ psp k <= tos (context T);
  sb_stacks : stacks_ok k (msp c) }.

(** A frame in the stack of a task. *)
Lemma stack_frame_mapped k m t T f : stacks_ok k m -> tasks k !! t = Some T ->
  scheduled (state T) = true -> f mod 4 = 0 -> frame_ok f T -> mapped (words k) f 16.
Proof.
  intros Hs HT Hsc Hf [H1 H2] i Hi. unfold sizeof_StackFrame in H2.
  eapply (st_mapped k m Hs t T); [done|done| |lia..].
  by rewrite (Z.mul_comm 4), Z_mod_plus_full.
Qed.

Lemma frame_addr_top k : frame_addr k + sizeof_StackFrame + pad_size (Z.testbit (psp k) 2) = psp k.
Proof. unfold frame_addr. lia. Qed.

Lemma frame_addr_aligned k : psp k mod 4 = 0 -> frame_addr k mod 4 = 0.
Proof.
  intros H. unfold frame_addr, sizeof_StackFrame, pad_size.
  destruct (Z.testbit (psp k) 2); apply Z.mod_divide; try done;
    apply Z.mod_divide in H as [q Hq]; try done; [exists (q - 17)|exists (q - 16)]; lia.
Qed.

Lemma switchable_frame c k T : switchable c k -> tasks k !! running k = Some T ->
  frame_ok (frame_addr k) T.
Proof.
  intros [_ _ _ _ (T' & HT & H1 & H2) _] HT'. simplify_eq. split; [done|].
  pose proof (frame_addr_top k). unfold pad_size in *. destruct (Z.testbit (psp k) 2); lia.
Qed.

(** The words that are written when [c] is switched out. *)
Lemma saved_words_out c k a : a <> msp c - 4 ->
  (forall i, (i < 16)%nat -> a <> frame_addr k + 4 * Z.of_nat i) ->
  saved_words c k !! a = words k !! a.
Proof.
  intros Hm Hf. unfold saved_words, stacked. rewrite lookup_insert_ne by done.
  rewrite put_words_out by (intros i Hi; simpl in Hi; apply Hf; lia).
  apply put_words_out. intros i Hi. simpl in Hi.
  replace (frame_addr k + 32 + 4 * Z.of_nat i) with (frame_addr k + 4 * Z.of_nat (8 + i)) by lia.
  apply Hf. lia.
Qed.

Lemma saved_words_frame c k : Z.testbit (xpsr c) 9 = false ->
  (forall i, (i < 16)%nat -> msp c - 4 <> frame_addr k + 4 * Z.of_nat i) ->
  saved (saved_words c k) (frame_addr k) c (psp k).
Proof.
  intros Hx Hm. split; [done|]. exists (Z.testbit (psp k) 2). split; [|by rewrite frame_addr_top].
  assert (holds (put_words (frame_addr k) (reg_val c <$> r4_r11) (stacked c k)) (frame_addr k)
    (frame_of c (Z.testbit (psp k) 2))) as Hh.
  { unfold frame_of, frame_regs. rewrite fmap_app, <- app_assoc. apply holds_app.
    split; [apply put_words_holds|].
    eapply holds_frame; [apply put_words_holds|]. intros i Hi. apply put_words_out.
    intros j Hj. simpl in Hj |- *. lia. }
  eapply holds_frame; [exact Hh|]. intros i Hi. apply lookup_insert_ne. apply Hm. exact Hi.
Qed.

Lemma saved_words_dom c k : mapped (words k) (frame_addr k) 16 -> is_Some (words k !! (msp c - 4)) ->
  dom (saved_words c k) = dom (words k).
Proof.
  intros Hm Hs. apply (mapped_split _ _ 8 8) in Hm as [H1 H2].
  unfold saved_words, stacked. rewrite dom_insert_mapped by (by do 2 apply put_words_is_Some).
  assert (dom (stacked c k) = dom (words k)) as E by by apply put_words_dom.
  unfold stacked in E. rewrite put_words_dom; [exact E|]. eapply mapped_dom; [exact E|exact H1].
Qed.

(** The stack of the interrupted task and the main stack do not overlap. *)
Lemma main_apart k m t T f : stacks_ok k m -> tasks k !! t = Some T -> scheduled (state T) = true ->
  frame_ok f T -> forall i, (i < 16)%nat -> m - 4 <> f + 4 * Z.of_nat i.
Proof.
  intros Hs HT Hsc [H1 H2] i Hi. destruct (st_main k m Hs) as [_ Hap].
  destruct (Hap t T HT Hsc); unfold sizeof_StackFrame in *; lia.
Qed.
