(* ===== verification/ContextSwitch.v ===== *)
(** * Context switches, from the registers of one task to those of another

    [PendSV_Handler] implements the PendSV exception of the model, and a task
    that is switched out and later in again finds its registers as they were. *)

From S2P Require Import Prelude Heap Lists ListSpec Machine Logic Context Task.
From S2P Require Import Platform Timer Init Invariant Checker Demo TaskSpec SchedSpec ContextSpec.
From S2P Require Import BootSpec Device Assembly AssemblySpec.

(** ** The scheduler inside the handler *)

(** The state in which the scheduler is called. *)
Definition called (c : Cpu) (k : Kernel) : Kernel :=
  set_pendsv false (set_handler true (saved_state c k)).

(** What the scheduler does to the contexts of the tasks. *)
Lemma dispatched_contexts k f Q rs ws ts T k' t U : dispatched k f Q rs ws ts T k' ->
  tasks k !! running k = Some T -> scheduled (state T) = true -> tasks k !! t = Some U ->
  exists U', tasks k' !! t = Some U' /\ scheduled (state U') = scheduled (state U) /\
    context U' = if decide (t = running k) then mkContext f (bos (context U)) (tos (context U))
                 else context U.
Proof.
  intros (r & rs' & m' & X & _ & HX & HXs & -> & _) HT Hs HU. simpl.
  destruct (decide (t = running k)) as [->|Hne].
  - simplify_eq. destruct (decide (running k = r)) as [<-|Hr].
    + rewrite lookup_insert_eq in HX |- *. simplify_eq. eexists. split; [done|]. done.
    + rewrite lookup_insert_ne, lookup_insert_eq by done. eexists. split; [done|]. simpl.
      split; [|done]. case_bool_decide as E; [by rewrite E|done].
  - destruct (decide (t = r)) as [->|Hr].
    + rewrite lookup_insert_ne in HX by done. rewrite lookup_insert_eq. simplify_eq.
      eexists. split; [done|]. simpl. by rewrite HXs.
    + rewrite !lookup_insert_ne by done. by exists U.
Qed.

Lemma dispatched_words k f Q rs ws ts T k' : dispatched k f Q rs ws ts T k' ->
  words k' = words k /\ handler k' = handler k.
Proof. by intros (r & rs' & m' & X & _ & _ & _ & -> & _). Qed.

(** The scheduler returns, and so does the exception of the model. *)
Lemma called_run c k T : switchable c k -> tasks k !! running k = Some T ->
  exists Q rs ws ts kU T', PendSV_Handler_user (frame_addr k) (called c k) = Ret (frame (context T')) kU /\
    dispatched (called c k) (frame_addr k) Q rs ws ts T kU /\ tasks kU !! running kU = Some T' /\
    PendSV_exception (frame_addr k) (saved_state c k) =
      Ret (frame (context T')) (set_handler false kU).
Proof.
  intros Hsw HT. pose proof (switchable_frame _ _ _ Hsw HT) as Hf.
  destruct Hsw as [(Q & rs & ws & ts & HK) Hidle (Hp & Hh & Hn) _ _ _]. exists Q, rs, ws, ts.
  assert (run (PendSV_Handler_user (frame_addr k)) (called c k) (fun a kU => exists T',
    a = frame (context T') /\ dispatched (called c k) (frame_addr k) Q rs ws ts T kU /\
    tasks kU !! running kU = Some T')) as (a & kU & E & T' & -> & Hd & HT').
  { apply wp_run. eapply wp_pendsv_user; [by eapply kinv_frame; [..|exact HK]|done|done| |done..|].
    - exact (candidates_nonempty k Q rs ws ts T HK Hidle HT).
    - eauto. }
  exists kU, T'. split_and!; [exact E|done|done|].
  unfold PendSV_exception, exception. rewrite (run_bind _ _ _ tt (set_handler true (saved_state c k))) by done.
  rewrite (run_bind _ _ _ (frame (context T')) kU); [done|].
  by rewrite (run_bind _ _ _ tt (called c k)).
Qed.

(** The frame that is switched in. *)
Lemma next_frame_mapped c k T Q rs ws ts kU T' : switchable c k -> tasks k !! running k = Some T ->
  dispatched (called c k) (frame_addr k) Q rs ws ts T kU -> tasks kU !! running kU = Some T' ->
  mapped (words k) (frame (context T')) 16 /\
  forall i, (i < 16)%nat -> msp c - 4 <> frame (context T') + 4 * Z.of_nat i.
Proof.
  intros Hsw HT Hd HT'. pose proof (switchable_frame _ _ _ Hsw HT) as Hf.
  destruct Hsw as [(Q0 & rs0 & ws0 & ts0 & HK) _ _ (_ & _ & Hpm) _ Hst].
  destruct (ki_running _ _ _ _ _ HK) as (T0 & HT0 & Hs). simplify_eq.
  destruct (dispatched_task _ _ _ _ _ _ _ _ Hd) as (X & HX & HXok & HXs). simplify_eq.
  assert (is_Some (tasks k !! running kU)) as [U HU].
  { destruct Hd as (r & rs' & m' & X & _ & HX & _ & -> & _). simpl.
    destruct (decide (running k = r)) as [<-|Hne]; [by eauto|].
    simpl in HX. rewrite lookup_insert_ne in HX by done. eauto. }
  destruct (dispatched_contexts _ _ _ _ _ _ _ _ _ _ Hd HT Hs HU) as (U' & HU' & Hsc & Hctx). simplify_eq.
  rewrite HXs in Hsc. symmetry in Hsc. change (running (called c k)) with (running k) in Hctx.
  assert (frame (context T') mod 4 = 0 /\ frame_ok (frame (context T')) U) as [Ha Hfo].
  { rewrite Hctx. destruct (decide (running kU = running k)) as [E|Hne].
    - rewrite E in HU. simplify_eq. split; [by apply frame_addr_aligned|done].
    - split; [exact (st_aligned _ _ Hst _ _ HU Hsc)|].
      exact (tok_frame _ (twf_ok _ _ _ _ _ _ (ki_tasks _ _ _ _ _ HK _ _ HU) Hsc)). }
  split; [exact (stack_frame_mapped _ _ _ _ _ Hst HU Hsc Ha Hfo)|].
  exact (main_apart _ _ _ _ _ Hst HU Hsc Hfo).
Qed.

(** The handler, when the scheduler returns [a] in the state [kU] and leaves the
    stacks alone. *)
Lemma wp_pendsv_interrupt I Rl scratch c k a kU (P : Cpu -> Kernel -> Prop) :
  handler k = false -> spsel c = true ->
  mapped (words k) (frame_addr k) 16 -> is_Some (words k !! (msp c - 4)) ->
  PendSV_Handler_user (frame_addr k) (called c k) = Ret a kU ->
  handler kU = true -> words kU = saved_words c k -> mapped (words kU) a 16 ->
  (forall c' p, saved (words kU) a c' p -> msp c' = msp c -> spsel c' = true ->
    P c' (set_psp p (set_handler false kU))) ->
  wp I Rl (PendSV_interrupt scratch c) k P.
Proof.
  intros Hh Hsp Hm Hmain E Hhu Ewu Hma HP. unfold PendSV_interrupt.
  destruct (mapped_split _ _ 8 8 Hm) as [Hm8 Hm8'].
  destruct (mapped_holds _ _ _ Hma) as (vs & Hl & Hvs).
  eapply wp_bind, wp_exception_entry; [done..|]. eapply wp_bind, wp_modify, wp_bind.
  eapply wp_save_context; [done| |by apply put_words_is_Some|].
  { eapply mapped_dom; [|replace (psp _ - 32) with (frame_addr k) by (simpl; lia); exact Hm8].
    by apply put_words_dom. }
  cbn [exec branches exec_instr gpr set_gpr set_msp set_lr Z.eqb].
  eapply wp_bind, wp_bind. unfold wp at 1.
  match goal with |- wpR _ _ (PendSV_Handler_user ?f ?s) _ =>
    replace (PendSV_Handler_user f s) with (PendSV_Handler_user (frame_addr k) (called c k)) end.
  2: { f_equal; [simpl; lia|]. unfold called, saved_state, saved_words. apply kernel_ext; try done.
       simpl. do 3 f_equal. lia. }
  rewrite E. cbn [wpR]. eapply wp_bind, wp_gets, wp_ret.
  assert (vs = take 8 vs ++ take 7 (drop 8 vs) ++ [vs !!! 15%nat]) as Evs.
  { do 16 (destruct vs as [|? vs]; [done|]). by destruct vs. }
  rewrite Evs in Hvs.
  eapply wp_unbind, wp_restore_context; [done| | |reflexivity|exact Hvs| |].
  - rewrite length_take. lia.
  - rewrite length_take, length_drop. lia.
  - rewrite Ewu. apply lookup_insert_eq.
  - intros c'. apply HP.
Qed.

(** What the exception does. *)
Record switches (scratch : Kernel -> Z -> Z) (c : Cpu) (k : Kernel) (c' : Cpu) (k' : Kernel) (p : addr)
    (T' : Task) : Prop := mkSwitches {
  ss_model : PendSV_exception (frame_addr k) (saved_state c k) = Ret (frame (context T')) k';
  ss_run : PendSV_interrupt scratch c k = Ret c' (set_psp p k');
  ss_task : tasks k' !! running k' = Some T';
  ss_words : words k' = saved_words c k;
  ss_saved : saved (words k') (frame_addr k) c (psp k);
  ss_loaded : saved (words k') (frame (context T')) c' p;
  ss_cpu : msp c' = msp c /\ spsel c' = true;
  ss_contexts : forall t U, tasks k !! t = Some U ->
    exists U', tasks k' !! t = Some U' /\ scheduled (state U') = scheduled (state U) /\
      context U' = if decide (t = running k)
        then mkContext (frame_addr k) (bos (context U)) (tos (context U)) else context U }.

Lemma pendsv_switches scratch c k : switchable c k ->
  exists c' k' p T', switches scratch c k c' k' p T'.
Proof.
  intros Hsw. destruct (sb_stack _ _ Hsw) as (T & HT & _).
  pose proof (switchable_frame _ _ _ Hsw HT) as Hf.
  destruct (called_run c k T Hsw HT) as (Q & rs & ws & ts & kU & T' & E & Hd & HT' & Eex).
  destruct (dispatched_words _ _ _ _ _ _ _ _ Hd) as [Ew Eh].
  destruct (next_frame_mapped _ _ _ _ _ _ _ _ _ Hsw HT Hd HT') as [Hm' Hmain'].
  destruct Hsw as [(Q0 & rs0 & ws0 & ts0 & HK) _ (_ & Hh & _) (Hsp & Hx & Hpm) _ Hst].
  destruct (ki_running _ _ _ _ _ HK) as (T0 & HT0 & Hs). simplify_eq.
  pose proof (stack_frame_mapped _ _ _ _ _ Hst HT Hs (frame_addr_aligned _ Hpm) Hf) as Hm.
  pose proof (main_apart _ _ _ _ _ Hst HT Hs Hf) as Hmain. destruct (st_main _ _ Hst) as [Hst1 _].
  assert (run (PendSV_interrupt scratch c) k (fun c' k' => exists p, k' = set_psp p (set_handler false kU) /\
    saved (words kU) (frame (context T')) c' p /\ msp c' = msp c /\ spsel c' = true))
    as (c' & k' & Er & p & -> & Hsv & Em & Es).
  { apply wp_run. eapply wp_pendsv_interrupt; [done..|exact E|by rewrite Eh|done| |by eauto].
    rewrite Ew. eapply mapped_dom; [by apply saved_words_dom|done]. }
  exists c', (set_handler false kU), p, T'. split; try done.
  - simpl. rewrite Ew. by apply saved_words_frame.
  - intros t U. by apply (dispatched_contexts _ _ _ _ _ _ _ _ t U Hd).
Qed.

(** C9. The assembly handler implements the exception that the rest of the library
    is about.  Taken while a task runs with its registers [c], the exception puts
    all registers into a frame on the task's stack, calls the scheduler with the
    address of this frame, and continues with the registers and the stack pointer
    of the frame that the scheduler returns; the kernel is then in the state that
    [PendSV_exception] leaves, and nothing but the frame and the top of the main
    stack has been written.  This holds whatever the compiled scheduler leaves in
    the registers that it need not preserve. *)
Theorem pendsv_handler_refines scratch c k : switchable c k -> exists c' k' T' p,
  PendSV_exception (frame_addr k) (saved_state c k) = Ret (frame (context T')) k' /\
  PendSV_interrupt scratch c k = Ret c' (set_psp p k') /\
  tasks k' !! running k' = Some T' /\ words k' = saved_words c k /\
  saved (words k') (frame_addr k) c (psp k) /\
  saved (words k') (frame (context T')) c' p /\ msp c' = msp c /\ spsel c' = true.
Proof.
  intros Hsw. destruct (pendsv_switches scratch c k Hsw) as (c' & k' & p & T' & []).
  exists c', k', T', p. tauto.
Qed.

(** ** A task that comes back *)

(** The registers [c] and the stack pointer [p] of the task [t], which does not run,
    are in its stack. *)
Definition suspended (t : addr) (c : Cpu) (p : addr) (k : Kernel) : Prop :=
  exists T, tasks k !! t = Some T /\ scheduled (state T) = true /\
    frame_ok (frame (context T)) T /\ saved (words k) (frame (context T)) c p.

(** Other code leaves the context and the stack of [t] alone. *)
Definition stack_kept (t : addr) (k k' : Kernel) : Prop :=
  exists T T', tasks k !! t = Some T /\ tasks k' !! t = Some T' /\ context T' = context T /\
    scheduled (state T') = scheduled (state T) /\
    forall a, bos (context T) <= a < tos (context T) -> words k' !! a = words k !! a.

Lemma stack_kept_suspended t c p k k' : stack_kept t k k' -> suspended t c p k -> suspended t c p k'.
Proof.
  intros (T & T' & HT & HT' & Ec & Es & Hw) (U & HU & Hs & Hf & Hsv). simplify_eq.
  exists T'. rewrite Es, Ec. split_and!; [done..| |].
  - unfold frame_ok in *. by rewrite Ec.
  - eapply saved_frame; [exact Hsv|]. intros i Hi. destruct Hf. unfold sizeof_StackFrame in *.
    apply Hw. lia.
Qed.

(** A switch away from another task. *)
Lemma switch_suspended scratch c k c' k' p' T' t c0 p0 : switchable c k -> running k <> t ->
  switches scratch c k c' k' p' T' -> suspended t c0 p0 k -> suspended t c0 p0 (set_psp p' k').
Proof.
  intros Hsw Hr Hss Hsu. eapply stack_kept_suspended; [|exact Hsu].
  destruct Hsu as (T & HT & Hs & Hf & _). pose proof (sb_stacks _ _ Hsw) as Hst.
  destruct (ss_contexts _ _ _ _ _ _ _ Hss t T HT) as (U & HU & Es & Ec).
  rewrite decide_False in Ec by congruence.
  exists T, U. split_and!; [done..|]. intros a Ha. simpl. rewrite (ss_words _ _ _ _ _ _ _ Hss).
  destruct (sb_stack _ _ Hsw) as (R & HR & _). pose proof (switchable_frame _ _ _ Hsw HR) as [Hf1 Hf2].
  destruct (sb_inv _ _ Hsw) as (Q & rs & ws & ts & HK).
  destruct (ki_running _ _ _ _ _ HK) as (R' & HR' & HsR). simplify_eq.
  apply saved_words_out.
  - destruct (st_main _ _ Hst) as [_ Hap]. destruct (Hap t T HT Hs); lia.
  - intros i Hi. unfold sizeof_StackFrame in *.
    destruct (st_apart _ _ Hst _ _ _ _ Hr HR HsR HT Hs); lia.
Qed.

(** The switch away from the task itself. *)
Lemma switch_suspends scratch c k c' k' p' T' : switchable c k -> switches scratch c k c' k' p' T' ->
  suspended (running k) c (psp k) (set_psp p' k').
Proof.
  intros Hsw Hss. destruct (sb_stack _ _ Hsw) as (R & HR & _).
  pose proof (switchable_frame _ _ _ Hsw HR) as Hf.
  destruct (sb_inv _ _ Hsw) as (Q & rs & ws & ts & HK).
  destruct (ki_running _ _ _ _ _ HK) as (R' & HR' & HsR). simplify_eq.
  destruct (ss_contexts _ _ _ _ _ _ _ Hss _ _ HR) as (U & HU & Es & Ec). rewrite decide_True in Ec by done.
  exists U. rewrite Es, Ec. split_and!; [done..| |exact (ss_saved _ _ _ _ _ _ _ Hss)].
  unfold frame_ok in *. by rewrite Ec.
Qed.

(** The switch back to the task. *)
Lemma switch_resumes scratch c k c' k' p' T' t c0 p0 : switches scratch c k c' k' p' T' -> running k' = t ->
  suspended t c0 p0 (set_psp p' k') -> same_registers c0 c' /\ p' = p0.
Proof.
  intros Hss <- (T & HT & _ & _ & Hsv). pose proof (ss_task _ _ _ _ _ _ _ Hss) as HT'. simpl in *. simplify_eq.
  exact (saved_inj _ _ _ _ _ _ Hsv (ss_loaded _ _ _ _ _ _ _ Hss)).
Qed.

Section away.
Context (scratch : Kernel -> Z -> Z) (t : addr).

(** The task [t] is interrupted in [c0] and [k0].  As long as it does not run,
    anything that leaves its context and its stack alone may happen, interrupts and
    code of other tasks in particular, and any number of context switches. *)
Inductive turns (c0 : Cpu) (k0 : Kernel) : Cpu -> Kernel -> Prop :=
  | turns_first c k : PendSV_interrupt scratch c0 k0 = Ret c k -> turns c0 k0 c k
  | turns_other c k c' k' c'' k'' : turns c0 k0 c k -> running k <> t -> stack_kept t k k' ->
      running k' <> t -> switchable c' k' -> PendSV_interrupt scratch c' k' = Ret c'' k'' ->
      turns c0 k0 c'' k''.

Lemma turns_suspended c0 k0 c k : switchable c0 k0 -> running k0 = t -> turns c0 k0 c k ->
  suspended t c0 (psp k0) k /\ (running k = t -> same_registers c0 c /\ psp k = psp k0).
Proof.
  intros Hsw Ht0. induction 1 as [c k E|c k c' k' c'' k'' _ [IH _] Hr Hkept Hr' Hsw' E].
  - destruct (pendsv_switches scratch c0 k0 Hsw) as (c1 & k1 & p & T & Hss).
    pose proof (ss_run _ _ _ _ _ _ _ Hss) as E'. rewrite E in E'. injection E' as -> ->.
    pose proof (switch_suspends _ _ _ _ _ _ _ Hsw Hss) as Hsu. rewrite Ht0 in Hsu. split; [done|].
    intros Ht. eapply switch_resumes; [exact Hss|exact Ht|exact Hsu].
  - destruct (pendsv_switches scratch c' k' Hsw') as (c1 & k1 & p & T & Hss).
    pose proof (ss_run _ _ _ _ _ _ _ Hss) as E'. rewrite E in E'. injection E' as -> ->.
    assert (suspended t c0 (psp k0) (set_psp p k1)) as Hsu.
    { eapply switch_suspended; [exact Hsw'|exact Hr'|exact Hss|]. by eapply stack_kept_suspended. }
    split; [done|]. intros Ht. eapply switch_resumes; [exact Hss|exact Ht|exact Hsu].
Qed.
End away.

(** C8. A task does not notice that it was switched out: when it runs again, behind
    any number of context switches between other tasks and any code that leaves its
    stack and its context alone, all its registers, its stack pointer and its program
    counter are those that it was interrupted with. *)
Theorem registers_preserved scratch c0 k0 c k : switchable c0 k0 ->
  turns scratch (running k0) c0 k0 c k -> running k = running k0 ->
  same_registers c0 c /\ psp k = psp k0.
Proof.
  intros Hsw Ht. by apply (turns_suspended scratch (running k0) c0 k0 c k Hsw eq_refl Ht).
Qed.
