(* ===== verification/SwitchDemo.v ===== *)
(** * Two context switches, evaluated

    The task [demo_a] is interrupted, [demo_b] runs and is interrupted, and
    [demo_a] runs again. *)

From S2P Require Import Prelude Heap Lists ListSpec Machine Logic Context Task.
From S2P Require Import Platform Timer Init Invariant Checker Demo TaskSpec SchedSpec ContextSpec.
From S2P Require Import BootSpec Device Assembly AssemblySpec ContextSwitch.

(** ** Deciding what a switch needs *)

Definition stack_check (k : Kernel) (m : addr) (t : addr) (T : Task) : Prop :=
  (frame (context T) mod 4 = 0 /\ bos (context T) mod 4 = 0) /\
  Forall (fun n => is_Some (words k !! (bos (context T) + 4 * Z.of_nat n)))
    (seq 0 (Z.to_nat ((tos (context T) - bos (context T)) / 4))) /\
  (m <= bos (context T) \/ tos (context T) <= m - 4) /\
  map_Forall (fun u U => t <> u -> scheduled (state U) = true ->
    tos (context T) <= bos (context U) \/ tos (context U) <= bos (context T)) (tasks k).

#[local] Instance stack_check_dec k m t T : Decision (stack_check k m t T).
Proof. unfold stack_check. apply _. Defined.

Definition stacks_check (k : Kernel) (m : addr) : Prop :=
  is_Some (words k !! (m - 4)) /\
  map_Forall (fun t T => scheduled (state T) = true -> stack_check k m t T) (tasks k).

#[local] Instance stacks_check_dec k m : Decision (stacks_check k m).
Proof. unfold stacks_check. apply _. Defined.

Lemma stacks_check_sound k m : stacks_check k m -> stacks_ok k m.
Proof.
  intros [Hm Hall]. split.
  - intros t T HT Hs. apply (Hall t T HT Hs).
  - intros t T a HT Hs Ha H1 H2. destruct (Hall t T HT Hs) as ([_ Hb] & Hw & _).
    rewrite Forall_forall in Hw.
    apply Z.mod_divide in Ha as [x Hx]; [|done]. apply Z.mod_divide in Hb as [y Hy]; [|done].
    replace a with (bos (context T) + 4 * Z.of_nat (Z.to_nat (x - y))) by lia.
    apply Hw, elem_of_seq. split; [lia|]. apply Z2Nat.inj_lt; [lia|apply Z.div_pos; lia|].
    pose proof (Z.div_le_mono ((x - y + 1) * 4) (tos (context T) - bos (context T)) 4).
    rewrite Z.div_mul in * by done. lia.
  - split; [done|]. intros t T HT Hs. apply (Hall t T HT Hs).
  - intros t u T U Hne HT HsT HU HsU. destruct (Hall t T HT HsT) as (_ & _ & _ & Hap).
    exact (Hap u U HU Hne HsU).
Qed.

(** ** The demo *)

Definition stack_words (stack size : Z) : list (Z * Z) :=
  (fun n => (stack + 4 * Z.of_nat n, 0)) <$> seq 0 (Z.to_nat (size / 4)).

(** [demo_a] runs; [demo_b] has not run yet. *)
Definition demo_full : Kernel :=
  set_psp (demo_stack_a + 804) (set_words (words demo_equal ∪
    list_to_map ((537001980, 0) :: stack_words init_task_stack INIT_TASK_STACK_SIZE ++
      stack_words demo_stack_a 1024 ++ stack_words demo_stack_b 1024)) demo_equal).

Definition demo_cpu (v : Z) : Cpu :=
  mkCpu (fun n => v + n) (v + 14) (134220000 + v) EPSR_T 537001984 true.

Definition demo_scratch (k : Kernel) (n : Z) : Z := 1000 + n.

Definition cpu_after (r : Res Cpu) : Cpu := match r with Ret c _ => c | _ => demo_cpu 0 end.
Definition kernel_after (r : Res Cpu) : Kernel := match r with Ret _ k => k | _ => demo_full end.

Lemma ran (r : Res Cpu) : match r with Ret _ _ => true | _ => false end = true ->
  r = Ret (cpu_after r) (kernel_after r).
Proof. by destruct r. Qed.

Definition first_turn : Res Cpu := PendSV_interrupt demo_scratch (demo_cpu 100) demo_full.

(** [demo_b] has run for a while. *)
Definition demo_full_b : Kernel := set_psp (demo_stack_b + 600) (kernel_after first_turn).
Definition second_turn : Res Cpu := PendSV_interrupt demo_scratch (demo_cpu 200) demo_full_b.

(** The parts of [switchable] for a state of the demo. *)
Lemma demo_switchable v k rs : kinv k (demo_Q rs []) rs [] [] ->
  bool_decide (stacks_check k 537001984) = true ->
  (primask k, handler k, id_nestcnt k, psp k mod 4) = (false, false, -1, 0) ->
  (state <$> tasks k !! init_task) = Some TASK_READY ->
  (match tasks k !! running k with
   | Some T => (bos (context T) <=? frame_addr k) && (psp k <=? tos (context T))
   | None => false end) = true ->
  switchable (demo_cpu v) k.
Proof.
  intros HK Hst [= Hp Hh Hn Hm] Hi Hs. split.
  - eauto.
  - destruct (tasks k !! init_task) as [T|] eqn:E; simplify_eq/=. exists T. auto.
  - done.
  - split; [done|split; [by vm_compute|done]].
  - destruct (tasks k !! running k) as [T|]; [|done]. norm_bool. exists T. split; [done|lia].
  - apply stacks_check_sound. by apply bool_decide_eq_true in Hst.
Qed.

Lemma first_switchable : switchable (demo_cpu 100) demo_full.
Proof.
  apply (demo_switchable _ _ [demo_b; init_task]); [|vm_compute; reflexivity..].
  eapply kinv_frame; [..|exact demo_equal_kinv]; reflexivity.
Qed.

Lemma second_kinv : kinv demo_full_b (demo_Q [demo_a; init_task] []) [demo_a; init_task] [] [].
Proof. check_kinv. Qed.

Lemma second_switchable : switchable (demo_cpu 200) demo_full_b.
Proof. apply (demo_switchable _ _ [demo_a; init_task]); [exact second_kinv|vm_compute; reflexivity..]. Qed.

(** ** The theorems on the demo *)

Lemma pendsv_handler_refines_witness : exists c' k' T' p,
  PendSV_exception (frame_addr demo_full) (saved_state (demo_cpu 100) demo_full) =
    Ret (frame (context T')) k' /\
  PendSV_interrupt demo_scratch (demo_cpu 100) demo_full = Ret c' (set_psp p k').
Proof.
  destruct (pendsv_handler_refines demo_scratch (demo_cpu 100) demo_full first_switchable)
    as (c' & k' & T' & p & E1 & E2 & _).
  exists c', k', T', p. split; [exact E1|exact E2].
Defined.

Lemma stack_kept_psp t k p : is_Some (tasks k !! t) -> stack_kept t k (set_psp p k).
Proof. intros [T HT]. by exists T, T. Qed.

(** [demo_b] leaves the stack of [demo_a] alone. *)
Lemma demo_stack_kept : stack_kept demo_a (kernel_after first_turn) demo_full_b.
Proof.
  apply stack_kept_psp. destruct (tasks (kernel_after first_turn) !! demo_a) as [T|] eqn:HT.
  - exists T. reflexivity.
  - vm_compute in HT. discriminate HT.
Qed.

Lemma registers_preserved_witness :
  running (kernel_after first_turn) = demo_b /\
  same_registers (demo_cpu 100) (cpu_after second_turn) /\
  psp (kernel_after second_turn) = psp demo_full.
Proof.
  split; [vm_compute; reflexivity|].
  apply (registers_preserved demo_scratch (demo_cpu 100) demo_full (cpu_after second_turn)
    (kernel_after second_turn) first_switchable).
  - apply (turns_other demo_scratch (running demo_full) (demo_cpu 100) demo_full
      (cpu_after first_turn) (kernel_after first_turn) (demo_cpu 200) demo_full_b).
    + apply turns_first. apply (ran first_turn). vm_compute. reflexivity.
    + vm_compute. discriminate.
    + exact demo_stack_kept.
    + vm_compute. discriminate.
    + exact second_switchable.
    + apply (ran second_turn). vm_compute. reflexivity.
  - vm_compute. reflexivity.
Defined.

(** The same by evaluation. *)
Example second_turn_registers :
  let c := cpu_after second_turn in
  ((fun n => gpr c (Z.of_nat n)) <$> seq 0 13, lr c, pc c, xpsr c, running (kernel_after second_turn)) =
  ([100; 101; 102; 103; 104; 105; 106; 107; 108; 109; 110; 111; 112], 114, 134220100, EPSR_T, demo_a).
Proof. vm_compute. reflexivity. Qed.
