(* ===== verification/ResetSpec.v ===== *)
(** * From reset to the first task ([reset_handler.s])

    [Reset_Handler] sets up memory and devices, installs the stack of the init task
    and jumps to its function; and what happens when SysTick interrupts the jump. *)

From S2P Require Import Prelude Heap Lists ListSpec Machine Logic Context Task.
From S2P Require Import Platform Timer Init Invariant Checker Demo SchedSpec ContextSpec.
From S2P Require Import BootSpec Device Assembly AssemblySpec.

Section reset.
Context (I : Kernel -> Prop) (Rl : Kernel -> Kernel -> Prop) (scratch : Kernel -> Z -> Z).

(** A load with write-back from the process stack. *)
Lemma wp_pop rs p c k vs (P : Cpu -> Kernel -> Prop) : handler k = false -> spsel c = true ->
  forallb not_sp rs = true -> existsb is_pc rs = false -> holds (words k) (psp k) vs ->
  length vs = length rs -> spsel (put_regs rs vs c) = true ->
  wp I Rl (exec scratch p (put_regs rs vs c)) (set_psp (psp k + 4 * Z.of_nat (length rs)) k) P ->
  wp I Rl (exec scratch (LDM SP rs :: p) c) k P.
Proof.
  intros Hh Hs Hr Hpc Hv Hl Hs' HP. cbn [exec branches exec_instr]. rewrite Hpc.
  eapply wp_bind, wp_bind, wp_read_sp. rewrite Hh, Hs. cbn [orb negb].
  eapply wp_bind, wp_load_regs; [done|exact Hv|done|]. by eapply wp_write_psp.
Qed.

(** The end of the handler: the words below the stack pointer are the parameter and
    the entry point. *)
Lemma wp_reset_jump c k r0 entry (P : Cpu -> Kernel -> Prop) : handler k = false -> spsel c = true ->
  words k !! (psp k - 32) = Some r0 -> words k !! (psp k - 8) = Some entry ->
  P (set_pc entry (set_gpr 0 r0 c)) k -> wp I Rl (exec scratch Reset_jump c) k P.
Proof.
  intros Hh Hs H0 He HP. unfold Reset_jump. cbn [exec branches exec_instr is_pc].
  eapply wp_bind, wp_bind, wp_read_sp. rewrite Hh, Hs. cbn [orb negb].
  eapply wp_bind, wp_load; [exact H0|]. eapply wp_write_reg; [done|].
  eapply wp_bind, wp_bind, wp_read_sp. cbn [put_reg set_gpr spsel]. rewrite Hh, Hs. cbn [orb negb].
  eapply wp_bind, wp_load; [exact He|]. eapply wp_write_reg; [done|]. by apply wp_ret.
Qed.

(** From the frame of the first task on. *)
Lemma wp_reset_unwind c k ws r0 r1 r2 r3 r12 l entry x (P : Cpu -> Kernel -> Prop) :
  handler k = false -> spsel c = true -> length ws = 8%nat ->
  holds (words k) (psp k) (ws ++ [r0; r1; r2; r3; r12; l] ++ [entry] ++ [x]) ->
  (forall c', gpr c' 0 = r0 -> lr c' = l -> pc c' = entry -> spsel c' = true ->
    P c' (set_psp (psp k + sizeof_StackFrame) k)) ->
  wp I Rl (exec scratch (Reset_unwind ++ Reset_jump) c) k P.
Proof.
  intros Hh Hs Hl Hall HP. pose proof Hall as [H1 [H2 [H3 H4]%holds_app]%holds_app]%holds_app.
  rewrite Hl in H2, H3, H4.
  do 8 (destruct ws as [|? ws]; [done|]). destruct ws; [|done].
  cbn [app Reset_unwind POP].
  eapply wp_pop; [exact Hh|exact Hs|done|done|exact H1|done|exact Hs|].
  eapply wp_pop; [exact Hh|exact Hs|done|done|exact H2|done|exact Hs|].
  eapply (wp_pop _ _ _ _ [entry]); [exact Hh|exact Hs|done|done| |done|exact Hs|].
  { simpl psp. intros i v Hi. rewrite <- (H3 i v Hi). simpl. f_equal; lia. }
  eapply (wp_pop _ _ _ _ [x]); [exact Hh|exact Hs|done|done| |done|exact Hs|].
  { simpl psp. intros i v Hi. rewrite <- (H4 i v Hi). simpl. f_equal; lia. }
  eapply wp_reset_jump; [exact Hh|exact Hs| | |].
  - rewrite <- (H2 0%nat r0 eq_refl). simpl. f_equal; lia.
  - rewrite <- (H3 0%nat entry eq_refl). simpl. f_equal; lia.
  - cbn [put_regs put_reg]. replace (set_psp _ _) with (set_psp (psp k + sizeof_StackFrame) k); [by apply HP|].
    apply kernel_ext; try done. simpl. unfold sizeof_StackFrame. lia.
Qed.
End reset.

(** The first frame of a task. *)
Lemma first_frame_holds W f entry ud : frame_mapped W f -> exists ws r1 r2 r3 r12, length ws = 8%nat /\
  holds (first_frame W f entry ud) f
    (ws ++ [uwrap 32 ud; r1; r2; r3; r12; dead_end] ++ [entry] ++ [EPSR_T]).
Proof.
  intros Hm. set (V := first_frame W f entry ud).
  destruct (mapped_holds V f 16) as (vs & Hl & Hv).
  { intros i Hi. apply elem_of_dom. unfold V. rewrite first_frame_dom by done.
    apply elem_of_dom, Hm. lia. }
  do 16 (destruct vs as [|? vs]; [done|]). destruct vs; [|done].
  pose proof (Hv 8%nat _ eq_refl) as E8. pose proof (Hv 13%nat _ eq_refl) as E13.
  pose proof (Hv 14%nat _ eq_refl) as E14. pose proof (Hv 15%nat _ eq_refl) as E15.
  unfold V, first_frame, off_xpsr, off_pc, off_lr, off_r0 in E8, E13, E14, E15. simpl in E8, E13, E14, E15.
  rewrite !lookup_insert_ne, lookup_insert_eq in E8 by lia.
  rewrite !lookup_insert_ne, lookup_insert_eq in E13 by lia.
  rewrite lookup_insert_ne, lookup_insert_eq in E14 by lia. rewrite lookup_insert_eq in E15.
  simplify_eq. eexists [_; _; _; _; _; _; _; _], _, _, _, _. split; [done|]. exact Hv.
Qed.

Section start.
Context (scratch : Kernel -> Z -> Z) (memcpy memset : Z -> Z -> Z -> M Z) (SystemInit : M unit).
Context (vendor : Vendor_Call -> M unit) (SysTick_CALIB SysTick_CALIB_TENMS_Msk : Z).
Context (_sdata _sidata _data_size _sbss _bss_size : Z).

Lemma quietly_reg i r v p c k (P : Cpu -> Kernel -> Prop) : i = LDR_CONST r v \/ i = MOV r v ->
  not_sp r = true -> quietly (exec scratch p (put_reg r v c)) k P ->
  quietly (exec scratch (i :: p) c) k P.
Proof.
  intros Hi Hr HP. cbn [exec]. eapply quietly_bind, quietly_wp.
  destruct Hi as [-> | ->]; cbn [exec_instr branches]; by apply wp_write_reg.
Qed.

(** A call leaves the choice of the stack as it is. *)
Lemma quietly_bl f p c k (P : Cpu -> Kernel -> Prop) :
  quietly (f (gpr c 0) (gpr c 1) (gpr c 2)) k (fun _ k' => forall c', spsel c' = spsel c ->
    quietly (exec scratch p c') k' P) ->
  quietly (exec scratch (BL f :: p) c) k P.
Proof.
  intros H. cbn [exec exec_instr branches]. eapply quietly_bind, quietly_bind, quietly_mono; [exact H|].
  intros a k' Hk'. eapply quietly_bind, quietly_wp, wp_gets, quietly_wp, wp_ret. by apply Hk'.
Qed.

(** The stack of tasks is selected. *)
Lemma quietly_control p c k (P : Cpu -> Kernel -> Prop) :
  (forall c', spsel c' = true -> quietly (exec scratch p c') k P) ->
  quietly (exec scratch (MOV (R 0) 2 :: MSR_CONTROL (R 0) :: ISB :: p) c) k P.
Proof.
  intros HP. eapply quietly_reg; [by right|done|]. cbn [exec exec_instr branches].
  eapply quietly_bind, quietly_wp, wp_bind, wp_read_reg, wp_ret; [done|].
  eapply quietly_bind, quietly_wp, wp_ret. by apply HP.
Qed.

(** C21. From reset to the first task.  When the C library and [SystemInit] bring
    memory into its initial state, and the vendor's functions leave the kernel's memory
    alone and return within the first quantum, [Reset_Handler] runs without a failing
    assertion up to the first instruction of [init_task_f]: on the process stack, which
    is the empty stack of the init task, with a null pointer as the parameter and
    [dead_end] as the return address; the kernel is in the state that [martos_pre]
    leaves, but for the rest of the quantum. *)
Theorem reset_starts_init_task c k : vendor_quiet vendor ->
  quietly (memcpy _sdata _sidata _data_size) k (fun _ k1 =>
    quietly (memset _sbss 0 _bss_size) k1 (fun _ k2 =>
      quietly SystemInit k2 (fun _ k3 => reset_state k3))) ->
  exists c' k3 k1 e,
    let p := init_task_stack + INIT_TASK_STACK_SIZE in
    quiet_run (exec scratch (Reset_Handler memcpy memset SystemInit vendor SysTick_CALIB
      SysTick_CALIB_TENMS_Msk _sdata _sidata _data_size _sbss _bss_size) c) k =
      Some (c', set_elapsed e (set_psp p k1)) /\ 0 < e <= QUANTUM /\
    gpr c' 0 = NULL /\ lr c' = dead_end /\ pc c' = init_task_f_pc /\ spsel c' = true /\
    reset_state k3 /\ quiet_run martos_pre k3 = Some (init_task, set_elapsed QUANTUM k1).
Proof.
  intros Hv Hinit. set (p := init_task_stack + INIT_TASK_STACK_SIZE).
  assert (quietly (exec scratch (Reset_Handler memcpy memset SystemInit vendor SysTick_CALIB
    SysTick_CALIB_TENMS_Msk _sdata _sidata _data_size _sbss _bss_size) c) k (fun c' k' =>
      exists k3 k1 e, k' = set_elapsed e (set_psp p k1) /\ 0 < e <= QUANTUM /\
    gpr c' 0 = NULL /\ lr c' = dead_end /\ pc c' = init_task_f_pc /\ spsel c' = true /\
    reset_state k3 /\ quiet_run martos_pre k3 = Some (init_task, set_elapsed QUANTUM k1)))
    as (c' & k' & E & k3 & k1 & e & -> & H); [|by exists c', k3, k1, e].
  unfold Reset_Handler, Reset_setup. cbn [app].
  do 3 (eapply quietly_reg; [by left|done|]). eapply quietly_bl, quietly_mono; [exact Hinit|].
  clear k Hinit. cbn beta. intros _ k Hinit c1 _.
  eapply quietly_reg; [by left|done|]. eapply quietly_reg; [by right|done|].
  eapply quietly_reg; [by left|done|]. eapply quietly_bl, quietly_mono; [exact Hinit|].
  clear k Hinit. cbn beta. intros _ k Hinit c2 _.
  eapply quietly_bl, quietly_bind, quietly_mono; [exact Hinit|].
  clear k Hinit. cbn beta. intros _ k Hrt. eapply quietly_wp, wp_ret. intros c3 _.
  destruct (martos_pre_run k Hrt) as (k1 & k' & E1 & _ & Hb & _ & HT & Ew & Eh).
  eapply quietly_bl, (quietly_platform_pre _ _ _ k1 k _ QUANTUM); [done|done|exact E1|exact HT|].
  intros e He c4 _. eapply quietly_control. intros c5 Hs. eapply quietly_wp.
  assert (handler k1 = false /\ words k1 = first_frame (words k) (p - sizeof_StackFrame) init_task_f_pc NULL)
    as [Eh1 Ew1].
  { rewrite Ew, Eh. destruct Hb as [m N W _ _ _ _ EW]. split; [apply Hrt|exact EW]. }
  destruct (first_frame_holds (words k) (p - sizeof_StackFrame) init_task_f_pc NULL (rt_stack k Hrt))
    as (ws & r1 & r2 & r3 & r12 & Hl & Hh).
  eapply wp_reset_unwind; [exact Eh1|exact Hs|exact Hl|simpl words; rewrite Ew1; exact Hh|].
  intros c' H0 H13 H14 Hsp. exists k, k1, e. split; [|split; [exact He|by split_and!]].
  by apply kernel_ext.
Qed.
End start.

(** The C library and [SystemInit] find memory as it has to be. *)
Lemma reset_starts_init_task_witness : exists c' k1 e,
  let p := init_task_stack + INIT_TASK_STACK_SIZE in
  quiet_run (exec (fun _ n => n) (Reset_Handler (fun d _ _ => mret d) (fun d _ _ => mret d) (mret tt)
    slow_vendor 10500 16777215 0 0 0 0 0)
    (mkCpu (fun _ => 0) 0 0 0 537001984 false)) demo_mem =
    Some (c', set_elapsed e (set_psp p k1)) /\
  pc c' = init_task_f_pc /\ lr c' = dead_end /\ gpr c' 0 = NULL.
Proof.
  destruct (reset_starts_init_task (fun _ n => n) (fun d _ _ => mret d) (fun d _ _ => mret d) (mret tt)
    slow_vendor 10500 16777215 0 0 0 0 0 (mkCpu (fun _ => 0) 0 0 0 537001984 false) demo_mem
    slow_vendor_quiet) as (c' & k3 & k1 & e & E & _ & H0 & Hl & Hp & _).
  - exists 0, demo_mem. split; [reflexivity|]. exists 0, demo_mem. split; [reflexivity|].
    exists tt, demo_mem. split; [reflexivity|exact demo_reset].
  - exists c', k1, e. split; [exact E|]. split; [exact Hp|]. split; [exact Hl|exact H0].
Defined.

(** ** An interrupt at the wrong moment *)

(** A SysTick interrupt of code on an aligned process stack: what the hardware stacks
    stays in memory below the stack pointer. *)
Lemma wp_systick_interrupt I Rl scratch c k (P : Cpu -> Kernel -> Prop) :
  handler k = false -> spsel c = true -> mapped (words k) (psp k - 32) 8 ->
  Z.testbit (psp k) 2 = false ->
  (forall c' k', handler k' = false -> spsel c' = true -> psp k' = psp k ->
    holds (words k') (psp k - 32) (reg_val c <$> stacked_regs) -> P c' k') ->
  wp I Rl (SysTick_interrupt scratch c) k P.
Proof.
  intros Hh Hs Hm Hp HP. unfold SysTick_interrupt.
  assert (frame_addr k + 32 = psp k - 32) as Ef
    by (unfold frame_addr, sizeof_StackFrame; rewrite Hp; simpl; lia).
  eapply wp_bind, wp_exception_entry; [done|done|by rewrite Ef|].
  set (k1 := set_handler true _).
  assert (exists k2, SysTick_Handler k1 = Ret tt k2 /\ words k2 = stacked c k /\ psp k2 = psp k - 32)
    as (k2 & E & Ew & Ep).
  { unfold SysTick_Handler, modify, gets, mbind, M_bind. cbn [bindR].
    destruct (0 =? _); eexists; split_and!; try reflexivity; exact Ef. }
  eapply wp_bind. unfold wp at 1. rewrite E. cbn [wpR]. eapply wp_bind, wp_gets.
  unfold exception_return. cbn [pc set_pc lr set_lr]. rewrite Z.eqb_refl.
  assert (holds (words k2) (psp k - 32) ((reg_val c <$> stacked_regs) ++ [stacked_xpsr false (xpsr c)])) as Hh2.
  { rewrite Ew. unfold stacked. rewrite Ef, Hp. apply put_words_holds. }
  pose proof Hh2 as [H1 H2]%holds_app.
  eapply wp_bind, wp_modify, wp_bind, wp_gets, wp_bind, wp_load_regs; [done|simpl psp; rewrite Ep; exact H1|done|].
  eapply wp_bind, wp_load.
  { simpl. rewrite Ep. rewrite <- (H2 0%nat _ eq_refl). simpl. f_equal; lia. }
  eapply wp_bind, wp_modify, wp_ret. simpl psp. rewrite Ep, stacked_pad.
  apply HP; [done|done|simpl; lia|exact H1].
Qed.

(** C39. The last instructions of [Reset_Handler] are not safe against interrupts, which
    are enabled by then.  They read the parameter and the entry point of the first
    task below the stack pointer.  If SysTick is taken in front of them, the hardware
    stacks registers in the same place: the jump then goes to the address of the
    interrupted instruction, and the parameter is what the register held.  The state
    is any in which the frame of the task has been taken off an aligned stack. *)
Theorem reset_jump_race scratch c k r0 entry : handler k = false -> spsel c = true ->
  mapped (words k) (psp k - 32) 8 -> Z.testbit (psp k) 2 = false ->
  words k !! (psp k - 32) = Some r0 -> words k !! (psp k - 8) = Some entry ->
  (exists c', exec scratch Reset_jump c k = Ret c' k /\ pc c' = entry /\ gpr c' 0 = r0) /\
  (exists c' k', (c ← SysTick_interrupt scratch c; exec scratch Reset_jump c) k = Ret c' k' /\
    pc c' = pc c /\ gpr c' 0 = gpr c 0 /\ psp k' = psp k).
Proof.
  intros Hh Hs Hm Hp H0 He. split.
  - assert (run (exec scratch Reset_jump c) k (fun c' k' => k' = k /\ pc c' = entry /\ gpr c' 0 = r0))
      as (c' & k' & E & -> & H); [|by exists c'].
    apply wp_run. by eapply wp_reset_jump.
  - assert (run (c ← SysTick_interrupt scratch c; exec scratch Reset_jump c) k (fun c' k' =>
      pc c' = pc c /\ gpr c' 0 = gpr c 0 /\ psp k' = psp k)) as (c' & k' & E & H); [|by exists c', k'].
    apply wp_run. apply wp_bind, wp_systick_interrupt; [done..|]. intros c1 k1 Hh1 Hs1 Ep Hr.
    eapply (wp_reset_jump _ _ _ _ _ (gpr c 0) (pc c)); [done|done| | |done].
    + rewrite Ep. etransitivity; [|exact (Hr 0%nat _ eq_refl)]. f_equal. lia.
    + rewrite Ep. etransitivity; [|exact (Hr 6%nat _ eq_refl)]. f_equal. lia.
Qed.

(** The frame of the init task has been taken off its stack; the instruction at
    134217800 is interrupted. *)
Definition demo_unwound : Kernel := set_psp (init_task_stack + INIT_TASK_STACK_SIZE) demo_ready.

Lemma reset_jump_race_witness :
  let c := mkCpu (fun n => n) dead_end 134217800 EPSR_T 537001984 true in
  (exists c', exec (fun _ n => n) Reset_jump c demo_unwound = Ret c' demo_unwound /\
    pc c' = init_task_f_pc) /\
  (exists c' k', (c ← SysTick_interrupt (fun _ n => n) c; exec (fun _ n => n) Reset_jump c) demo_unwound =
    Ret c' k' /\ pc c' = 134217800).
Proof.
  intros c. destruct (reset_jump_race (fun _ n => n) c demo_unwound NULL init_task_f_pc)
    as [(c1 & E1 & H1 & _) (c2 & k2 & E2 & H2 & _)].
  - reflexivity.
  - reflexivity.
  - intros i Hi. do 8 (destruct i as [|i]; [eexists; vm_compute; reflexivity|]). lia.
  - reflexivity.
  - vm_compute. reflexivity.
  - vm_compute. reflexivity.
  - split; [exists c1; split; [exact E1|exact H1]|exists c2, k2; split; [exact E2|exact H2]].
Defined.
