(* ===== verification/Signals.v ===== *)
(** * Signals ([signal_allocate], [signal_free], [signal_send] of [src/task.c]) *)

From S2P Require Import Prelude Heap Lists ListSpec Machine Logic Context Task.
From S2P Require Import Platform Timer Invariant Checker Demo TaskSpec.

(** ** Allocation *)

(** The result of [signal_allocate] and the mask it works on. *)
Definition alloc_choice (signal alloc : Z) : Z * Z :=
  if negb (-1 =? signal) then
    let target := uwrap 16 (Z.shiftl 1 signal) in
    (if negb (Z.land target alloc =? 0) then -1 else signal, target)
  else alloc_search (Z.to_nat (SIGNALS_WIDTH - 1)) alloc.

(** What it does to the running task. *)
Definition allocated (target : Z) (T : Task) : Task :=
  set_sig_recvd (Z.land (sig_recvd T) (Z.lnot target))
    (set_sig_wait (Z.land (sig_wait T) (Z.lnot target))
      (set_sig_alloc (Z.lor (sig_alloc T) target) T)).

Lemma target_pow2 n : 0 <= n < 16 -> uwrap 16 (Z.shiftl 1 n) = 2 ^ n.
Proof.
  intros Hn. rewrite Z.shiftl_1_l. apply uwrap_small. split; [lia|].
  apply Z.pow_lt_mono_r; lia.
Qed.

Lemma alloc_test n alloc : 0 <= n ->
  negb (Z.land (2 ^ n) alloc =? 0) = Z.testbit alloc n.
Proof.
  intros Hn. rewrite land_pow2 by done. assert (0 < 2 ^ n) by lia.
  destruct (Z.testbit alloc n); [|done]. by destruct (Z.eqb_spec (2 ^ n) 0); [lia|].
Qed.

Lemma alloc_search_spec n alloc : (n < 16)%nat -> exists m,
  0 <= m <= Z.of_nat n /\ (forall i, m < i <= Z.of_nat n -> Z.testbit alloc i = true) /\
  alloc_search n alloc = (if Z.testbit alloc m then -1 else m, 2 ^ m) /\
  (Z.testbit alloc m = true -> m = 0).
Proof.
  induction n as [|n IH]; intros Hn; cbn [alloc_search];
    rewrite target_pow2, alloc_test by lia.
  - exists 0. split_and!; [lia|lia|intros; lia| |done].
    change (Z.of_nat 0) with 0. by destruct (Z.testbit alloc 0).
  - destruct (Z.testbit alloc (Z.of_nat (S n))) eqn:E.
    + destruct IH as (m & Hm & Hall & Es & H0); [lia|]. exists m.
      split_and!; [lia|lia| |done|done]. intros i Hi.
      destruct (decide (i = Z.of_nat (S n))) as [->|]; [done|]. apply Hall. lia.
    + exists (Z.of_nat (S n)). rewrite E. split_and!; [lia|lia|intros; lia|done|done].
Qed.

(** The mask is always one signal; the result is that signal if it was free,
    and the search prefers higher signals. *)
Lemma alloc_choice_spec signal alloc : -1 <= signal < 16 -> exists m,
  0 <= m < 16 /\
  alloc_choice signal alloc = (if Z.testbit alloc m then -1 else m, 2 ^ m) /\
  (signal <> -1 -> m = signal) /\
  (signal = -1 -> (forall i, m < i < 16 -> Z.testbit alloc i = true) /\
    (Z.testbit alloc m = true -> m = 0)).
Proof.
  intros Hs. unfold alloc_choice. destruct (Z.eqb_spec (-1) signal) as [<-|Hne]; simpl.
  - destruct (alloc_search_spec 15 alloc) as (m & Hm & Hall & E & H0); [lia|].
    exists m. split_and!; [lia..|exact E|done|]. intros _. split; [|done].
    intros i Hi. apply Hall. lia.
  - exists signal. rewrite target_pow2, alloc_test by lia. split_and!; [lia..|done|done|].
    intros ->. done.
Qed.

Lemma sig_bound s n : 0 <= n < 16 -> is_signals s -> is_signals (Z.lor s (2 ^ n)).
Proof.
  intros Hn Hs. apply is_signals_lor; [done|]. split; [lia|]. apply Z.pow_lt_mono_r; lia.
Qed.

Lemma allocated_ok n T : 0 <= n < 16 -> task_ok T -> task_ok (allocated (2 ^ n) T).
Proof.
  intros Hn []. split; simpl; [by apply sig_bound|by apply is_signals_land..| |done|done].
  intros E. apply tok_single.
  assert (0 <= SIGF_SINGLE) by done.
  apply Z.bits_inj'. intros i Hi. rewrite Z.bits_0.
  pose proof (f_equal (fun x => Z.testbit x i) E) as Eb. simpl in Eb.
  rewrite Z.land_spec, Z.lor_spec, Z.bits_0 in Eb. rewrite Z.land_spec.
  by destruct (Z.testbit SIGF_SINGLE i), (Z.testbit (sig_alloc T) i).
Qed.

Section allocate.
Context (I : Kernel -> Prop) (R : Kernel -> Kernel -> Prop).

Lemma wp_load_running k T (P : Task -> Kernel -> Prop) :
  tasks k !! running k = Some T -> P T k -> wp I R load_running k P.
Proof. intros HT HP. by eapply wp_bind, wp_gets, wp_load. Qed.

(** The choice of the signal. *)
Lemma wp_alloc_choice k T signal (P : Z * Z -> Kernel -> Prop) :
  tasks k !! running k = Some T -> P (alloc_choice signal (sig_alloc T)) k ->
  wp I R (if negb (-1 =? signal) then
     let target := uwrap 16 (Z.shiftl 1 signal) in
     T ← load_running;
     if negb (Z.land target (sig_alloc T) =? 0) then mret (-1, target)
     else mret (signal, target)
   else
     T ← load_running;
     mret (alloc_search (Z.to_nat (SIGNALS_WIDTH - 1)) (sig_alloc T))) k P.
Proof.
  intros HT HP. unfold alloc_choice in HP. destruct (negb (-1 =? signal)).
  - eapply wp_bind, wp_load_running; [exact HT|]. by case_bool; apply wp_ret.
  - by eapply wp_bind, wp_load_running, wp_ret.
Qed.

Lemma wp_signal_allocate k T signal (P : Z -> Kernel -> Prop) :
  calm k -> tasks k !! running k = Some T -> -1 <= signal < SIGNALS_WIDTH ->
  (let '(n, target) := alloc_choice signal (sig_alloc T) in
   P n (set_tasks (<[running k := allocated target T]> (tasks k)) k)) ->
  wp I R (signal_allocate signal) k P.
Proof.
  intros Hc HT Hs HP. unfold SIGNALS_WIDTH in Hs.
  destruct (alloc_choice_spec signal (sig_alloc T) Hs) as (m & Hm & E & _).
  unfold signal_allocate. eapply wp_bind, wp_assert.
  { unfold SIGNALS_WIDTH. apply andb_true_iff; split; [apply Z.leb_le|apply Z.ltb_lt]; lia. }
  eapply wp_bind, wp_alloc_choice; [exact HT|]. rewrite E in *.
  rewrite (proj2 (Z.ltb_lt 0 (2 ^ m))) by lia.
  eapply wp_bind, wp_bind, wp_gets, wp_bind, wp_upd_task; [exact HT|].
  eapply wp_bind, wp_upd_task; [apply lookup_insert_eq|]. simpl.
  eapply wp_bind, wp_disable_calm; [by eapply calm_frame; [..|exact Hc]|].
  eapply wp_bind, wp_gets, wp_bind, wp_upd_task; [simpl; apply lookup_insert_eq|].
  simpl. eapply (wp_enable_back _ _ k); [exact Hc|done..|].
  apply wp_ret. rewrite !insert_insert_eq.
  replace (set_id_nestcnt _ _) with (set_tasks (<[running k := allocated (2 ^ m) T]> (tasks k)) k);
    [done|]. apply kernel_ext; reflexivity.
Qed.
End allocate.

(** C25. [signal_allocate], called where no interrupt can arrive: it returns
    the requested signal, or the highest free one, if it was free; the signal is
    then allocated and neither awaited nor pending, and nothing else changes. It
    returns -1 exactly if the requested signal, or every signal, is allocated
    already, and allocates nothing then. *)
Theorem signal_allocate_correct k Q rs ws ts T signal :
  calm k -> kinv k Q rs ws ts -> tasks k !! running k = Some T ->
  -1 <= signal < SIGNALS_WIDTH ->
  exists n T', let k' := set_tasks (<[running k := T']> (tasks k)) k in
    signal_allocate signal k = Ret n k' /\ kinv k' Q rs ws ts /\
    ((n = -1 /\ sig_alloc T' = sig_alloc T /\
      forall i, (signal = -1 /\ 0 <= i < 16 \/ 0 <= i /\ i = signal) -> Z.testbit (sig_alloc T) i = true) \/
     (0 <= n < 16 /\ Z.testbit (sig_alloc T) n = false /\
      (signal = n \/ signal = -1 /\ forall i, n < i < 16 -> Z.testbit (sig_alloc T) i = true) /\
      forall i, 0 <= i ->
        Z.testbit (sig_alloc T') i = bool_decide (i = n) || Z.testbit (sig_alloc T) i /\
        Z.testbit (sig_recvd T') i = negb (bool_decide (i = n)) && Z.testbit (sig_recvd T) i /\
        Z.testbit (sig_wait T') i = negb (bool_decide (i = n)) && Z.testbit (sig_wait T) i)).
Proof.
  intros Hc HK HT Hs.
  assert (run (signal_allocate signal) k (fun n k' =>
    let '(n', target) := alloc_choice signal (sig_alloc T) in
    n = n' /\ k' = set_tasks (<[running k := allocated target T]> (tasks k)) k)) as Hrun.
  { apply wp_run. eapply wp_signal_allocate; [done..|]. by destruct (alloc_choice _ _). }
  destruct (alloc_choice_spec signal (sig_alloc T) Hs) as (m & Hm & E & Hreq & Hany).
  rewrite E in Hrun. destruct Hrun as (n & k' & Er & -> & ->).
  eexists _, (allocated (2 ^ m) T). split; [exact Er|]. split.
  { eapply kinv_set_task; [done|exact HT|done|]. by apply allocated_ok. }
  destruct (Z.testbit (sig_alloc T) m) eqn:Eb; [left|right].
  - split; [done|]. split; simpl.
    + apply Z.bits_inj'. intros i Hi. rewrite lor_pow2_bits by lia.
      case_bool_decide; [by subst|done].
    + intros i [[-> Hi]|[Hi ->]].
      * destruct (Hany eq_refl) as [Hall H0]. specialize (H0 eq_refl) as ->.
        destruct (decide (i = 0)) as [->|]; [done|]. apply Hall. lia.
      * rewrite <- Hreq by lia. done.
  - split; [lia|]. split; [done|]. split.
    + destruct (decide (signal = -1)) as [->|Hne]; [right|left; by rewrite Hreq].
      split; [done|]. by apply Hany.
    + intros i Hi. simpl. rewrite lor_pow2_bits, !land_lnot_pow2_bits by lia. done.
Qed.

(** A failing [assert] halts the system with interrupts masked, from any state,
    and changes nothing but the interrupt state. *)
Lemma assert_fails {A} (m : M A) b k : b = false -> -1 <= id_nestcnt k < 32000 ->
  (assert_that b;; m) k = Spin (lock k).
Proof.
  intros -> Hn. unfold assert_that, __assert_func, abort, user_halt, disable, __disable_irq,
    irq_window, add_nestcnt, mbind, M_bind, modify, gets. simpl.
  rewrite (proj2 (Z.leb_le _ _)) by lia. rewrite (proj2 (Z.ltb_lt _ _)) by lia. done.
Qed.

(** ** Deallocation *)

Definition freed (s : Z) (T : Task) : Task :=
  set_sig_alloc (Z.land (sig_alloc T) (Z.lnot s)) T.

Lemma freed_ok s T : Z.land s SIGF_SINGLE = 0 -> task_ok T -> task_ok (freed s T).
Proof.
  intros H1 []. split; simpl; try done; [by apply is_signals_land|].
  intros E. apply tok_single. rewrite <- E. apply Z.bits_inj'. intros i Hi.
  pose proof (f_equal (fun x => Z.testbit x i) H1) as Eb. simpl in Eb.
  rewrite Z.land_spec, Z.bits_0 in Eb. rewrite !Z.land_spec, Z.lnot_spec by done.
  by destruct (Z.testbit SIGF_SINGLE i), (Z.testbit s i), (Z.testbit (sig_alloc T) i).
Qed.

Lemma wp_signal_free I R k T s (P : unit -> Kernel -> Prop) :
  tasks k !! running k = Some T -> Z.land s SIGF_SINGLE = 0 -> Z.land s (sig_alloc T) = s ->
  P tt (set_tasks (<[running k := freed s T]> (tasks k)) k) -> wp I R (signal_free s) k P.
Proof.
  intros HT H1 H2 HP. unfold signal_free. eapply wp_bind, wp_assert; [by apply Z.eqb_eq|].
  eapply wp_bind, wp_load_running; [exact HT|]. eapply wp_bind, wp_assert; [by apply Z.eqb_eq|].
  by eapply wp_bind, wp_gets, wp_upd_task.
Qed.

(** C26. [signal_free] accepts exactly the sets of signals that are allocated
    and do not contain [SIGF_SINGLE]; it then makes them free again and changes
    nothing else, and the invariant holds.  Anything else stops the system with
    interrupts masked before it changes a task. *)
Theorem signal_free_correct k Q rs ws ts T s :
  kinv k Q rs ws ts -> tasks k !! running k = Some T -> -1 <= id_nestcnt k < 32000 ->
  let k' := set_tasks (<[running k := freed s T]> (tasks k)) k in
  if bool_decide (Z.land s SIGF_SINGLE = 0 /\ Z.land s (sig_alloc T) = s)
  then signal_free s k = Ret tt k' /\ kinv k' Q rs ws ts
  else signal_free s k = Spin (lock k).
Proof.
  intros HK HT Hn k'. unfold signal_free.
  case_bool_decide as Hs.
  - destruct Hs as [H1 H2]. split.
    + assert (run (signal_free s) k (fun _ k1 => k1 = k')) as ([] & ? & E & ->); [|exact E].
      apply wp_run. by eapply wp_signal_free.
    + eapply kinv_set_task; [done|exact HT|done|]. by apply freed_ok.
  - destruct (decide (Z.land s SIGF_SINGLE = 0)) as [H1|H1].
    + unfold assert_that at 1. rewrite (proj2 (Z.eqb_eq _ _) H1).
      unfold mbind at 1, M_bind at 1, mret, M_ret. simpl.
      unfold load_running, gets, load, mbind, M_bind. simpl. rewrite HT. simpl.
      apply (assert_fails _ _ k); [|done]. apply Z.eqb_neq. intros E. by apply Hs.
    + apply (assert_fails _ _ k); [|done]. by apply Z.eqb_neq.
Qed.

(** ** Sending *)

Lemma sent_sched_ok k Q rs ws t T s k' : sched_ok k rs -> sent k Q rs ws t T s k' ->
  sched_ok k' (if wakes T s then prio_insert (prio_at k) t rs else rs).
Proof.
  unfold sent. destruct (wakes T s); [|by intros ? ->].
  intros Hs (m' & -> & _ & _). unfold sched_ok. simpl.
  destruct (pendsv k) eqn:Ep; [by left|].
  destruct Hs as [?|Hs]; [congruence|].
  destruct (prio_at k (running k) <? prio_at k t) eqn:E; norm_bool; [by left|right].
  intros x [->|Hx]%elem_of_prio_insert; [done|]. by apply Hs.
Qed.

Lemma sent_idle_ok k Q rs ws t T s k' : tasks k !! t = Some T -> idle_ok k ->
  sent k Q rs ws t T s k' -> idle_ok k'.
Proof.
  intros HT (U & HU & Hs). unfold sent, idle_ok.
  destruct (decide (init_task = t)) as [E|Hne].
  - rewrite <- E in *. simplify_eq. destruct (wakes T s) eqn:Hw.
    + apply andb_true_iff in Hw as [Hw%bool_decide_eq_true _].
      exfalso. destruct Hs as [?|[? _]]; congruence.
    + intros ->. exists (add_recvd s T). simpl. by rewrite lookup_insert_eq.
  - destruct (wakes T s); [intros (m' & -> & _ & _)|intros ->]; exists U; simpl;
      by rewrite lookup_insert_ne.
Qed.

(** C11. [signal_send], called where no interrupt can arrive, in any state that
    satisfies the invariants: it marks the signals as received by the task and,
    if the task waits for one of them, moves it from the waiting to the ready
    list, behind the tasks of its priority, and requests a context switch exactly
    if its priority is higher than that of the running task; it changes nothing
    else, and both invariants still hold. *)
Theorem signal_send_correct k Q rs ws ts t T s :
  calm k -> id_nestcnt k < 31999 -> kinv k Q rs ws ts -> sched_ok k rs -> idle_ok k ->
  tasks k !! t = Some T -> is_signals s ->
  exists k', signal_send t s k = Ret tt k' /\
    let woken := bool_decide (state T = TASK_WAITING) && negb (Z.land s (sig_wait T) =? 0) in
    let rs' := if woken then prio_insert (prio_at k) t rs else rs in
    tasks k' = <[t := set_sig_recvd (Z.lor (sig_recvd T) s)
      (set_state (if woken then TASK_READY else state T) T)]> (tasks k) /\
    pendsv k' = pendsv k || woken && (prio_at k (running k) <? prio_at k t) /\
    (exists m Q', k' = set_pendsv (pendsv k') (set_tasks (tasks k')
      (set_heap (mkHeap m (nodes (heap k))) k)) /\
      kinv k' Q' rs' (if woken then remove_elem t ws else ws) ts) /\
    sched_ok k' rs' /\ idle_ok k'.
Proof.
  intros Hc Hn HK Hs Hi HT Hsig.
  assert (run (signal_send t s) k (fun _ k' => sent k Q rs ws t T s k')) as ([] & k' & E & Hsent).
  { apply wp_run. by eapply wp_signal_send. }
  exists k'. split; [done|].
  assert (bool_decide (state T = TASK_WAITING) && negb (Z.land s (sig_wait T) =? 0) = wakes T s)
    as -> by (unfold wakes; f_equal; by apply bool_decide_ext).
  pose proof (sent_kinv k Q rs ws ts t T s k' HK HT Hsig Hsent) as HK'.
  pose proof (sent_sched_ok k Q rs ws t T s k' Hs Hsent) as Hs'.
  pose proof (sent_idle_ok k Q rs ws t T s k' HT Hi Hsent) as Hi'.
  cbv zeta. unfold sent in Hsent. destruct (wakes T s) eqn:Hw; simpl.
  - destruct Hsent as (m' & -> & _). split; [done|]. split; [done|].
    split; [|done]. exists m', (wake_queues k Q rs ws t). split; [|done].
    apply kernel_ext; reflexivity.
  - subst k'. split; [simpl; f_equal; by destruct T|]. split; [simpl; by rewrite orb_false_r|].
    split; [|done]. exists (links (heap k)), Q. split; [|done].
    apply kernel_ext; try reflexivity. simpl. by destruct (heap k).
Qed.

(** ** The properties at concrete states *)

Lemma signal_send_correct_witness : exists k',
  signal_send demo_b 8 (demo_calm demo_blocked) = Ret tt k' /\ pendsv k' = true /\
  in_state k' TASK_READY demo_b.
Proof.
  destruct (signal_send_correct (demo_calm demo_blocked) _ _ _ _ demo_b
    (demo_task demo_blocked demo_b) 8 demo_blocked_calm eq_refl
    (demo_calm_kinv _ _ _ _ _ demo_blocked_kinv)) as (k' & E & Ht & Hp & _).
  - right. apply Forall_forall, (bool_decide_unpack _). vm_compute. exact I.
  - exact demo_blocked_idle.
  - vm_compute. reflexivity.
  - split; [vm_compute; discriminate|reflexivity].
  - exists k'. split; [exact E|]. split.
    + rewrite Hp. vm_compute. reflexivity.
    + unfold in_state. rewrite Ht, lookup_insert_eq. eexists. split; [reflexivity|].
      vm_compute. reflexivity.
Defined.

Lemma signal_allocate_correct_witness : exists n k',
  signal_allocate (-1) (demo_calm demo_blocked) = Ret n k'.
Proof.
  destruct (signal_allocate_correct (demo_calm demo_blocked) _ _ _ _
    (demo_task demo_blocked demo_a) (-1) demo_blocked_calm
    (demo_calm_kinv _ _ _ _ _ demo_blocked_kinv)) as (n & T' & E & _).
  - vm_compute. reflexivity.
  - split; [vm_compute; discriminate|reflexivity].
  - eexists n, _. exact E.
Defined.

Lemma signal_free_correct_witness :
  signal_free 1 demo_blocked = Spin (lock demo_blocked).
Proof.
  pose proof (signal_free_correct demo_blocked _ _ _ _ (demo_task demo_blocked demo_a) 1
    demo_blocked_kinv) as H. cbv zeta in H.
  rewrite bool_decide_false in H by (intros [Hs _]; vm_compute in Hs; discriminate Hs).
  apply H.
  - vm_compute. reflexivity.
  - split; [vm_compute; discriminate|reflexivity].
Defined.

(** What a failing [signal_allocate] does: asked for a signal that is
    allocated already, it returns -1, but removes the signal from the received and
    from the awaited signals of the running task: a signal that was pending is
    lost. *)
Theorem signal_allocate_failure_discards k T n :
  calm k -> tasks k !! running k = Some T -> 0 <= n < SIGNALS_WIDTH ->
  Z.testbit (sig_alloc T) n = true ->
  exists k' T', signal_allocate n k = Ret (-1) k' /\ tasks k' !! running k = Some T' /\
    sig_alloc T' = sig_alloc T /\
    Z.testbit (sig_recvd T') n = false /\ Z.testbit (sig_wait T') n = false.
Proof.
  intros Hc HT Hn Hb. unfold SIGNALS_WIDTH in Hn.
  assert (run (signal_allocate n) k (fun r k' => r = -1 /\
    k' = set_tasks (<[running k := allocated (2 ^ n) T]> (tasks k)) k)) as (r & k' & E & -> & ->).
  { apply wp_run. eapply wp_signal_allocate; [done|done|unfold SIGNALS_WIDTH; lia|].
    unfold alloc_choice. rewrite (proj2 (Z.eqb_neq (-1) n)) by lia. simpl negb. cbv iota zeta.
    rewrite target_pow2, alloc_test, Hb by lia. done. }
  eexists _, _. split; [done|]. split; [apply lookup_insert_eq|]. simpl. split_and!.
  - apply Z.bits_inj'. intros i Hi. rewrite lor_pow2_bits by lia.
    case_bool_decide; [by subst|done].
  - rewrite land_lnot_pow2_bits, bool_decide_true by lia. done.
  - rewrite land_lnot_pow2_bits, bool_decide_true by lia. done.
Qed.

Lemma signal_allocate_failure_discards_witness : exists k',
  signal_allocate 0 (demo_calm demo_blocked) = Ret (-1) k'.
Proof.
  destruct (signal_allocate_failure_discards (demo_calm demo_blocked)
    (demo_task demo_blocked demo_a) 0 demo_blocked_calm) as (k' & T' & E & _).
  - vm_compute. reflexivity.
  - split; [vm_compute; discriminate|reflexivity].
  - reflexivity.
  - exists k'. exact E.
Defined.
