(* ===== verification/TimerSpec.v ===== *)
(** * What the timer functions do ([src/timer.c])

    The timer queue stays sorted; [timer_poll] takes exactly the expired timers
    off it, in order, and delivers their signals; [timer_add] puts a timer
    behind those that expire no later. *)

From S2P Require Import Prelude Heap Lists ListSpec Machine Logic Context Task.
From S2P Require Import Platform Timer Invariant Checker Demo TaskSpec SchedSpec.
From S2P Require Import Signals.

(** ** The invariant and lists of other objects *)

(** A list that holds no tasks changes, or is new. *)
Lemma kinv_list k Q rs ws ts l xs' ts' m' :
  kinv k Q rs ws ts -> l <> ready -> l <> waiting ->
  reps m' (<[l := xs']> Q) -> dom m' = dom (links (heap k)) ->
  (forall t T, tasks k !! t = Some T -> unowned Q t -> unowned (<[l := xs']> Q) t) ->
  (<[l := xs']> Q) !! timers = Some ts' -> (forall a, a ∈ ts' -> timer_wf k a) ->
  tick_sorted k ts' ->
  kinv (set_heap (mkHeap m' (nodes (heap k))) k) (<[l := xs']> Q) rs ws ts'.
Proof.
  intros HK Hl1 Hl2 Hm Hdom Hu Hts Hwf Hsort. destruct HK.
  split; try done.
  - by rewrite lookup_insert_ne.
  - by rewrite lookup_insert_ne.
  - intros t T HT. destruct (ki_tasks t T HT) as [Hn Hk Hz Hp Hok].
    split; try done.
    + simpl. apply elem_of_dom. rewrite Hdom. by apply elem_of_dom.
    + specialize (Hu t T HT). destruct (state T); simpl in *; auto. destruct Hp; auto.
Qed.

Lemma kinv_queue k Q rs ws ts l xs xs' ts' m' :
  kinv k Q rs ws ts -> l <> ready -> l <> waiting -> Q !! l = Some xs ->
  reps m' (<[l := xs']> Q) -> dom m' = dom (links (heap k)) ->
  (forall t T, tasks k !! t = Some T -> t ∈ xs' -> t ∈ xs) ->
  (<[l := xs']> Q) !! timers = Some ts' -> (forall a, a ∈ ts' -> timer_wf k a) ->
  tick_sorted k ts' ->
  kinv (set_heap (mkHeap m' (nodes (heap k))) k) (<[l := xs']> Q) rs ws ts'.
Proof.
  intros HK Hl1 Hl2 Hl Hm Hdom Hnew. apply (kinv_list _ _ _ _ ts); try done.
  intros t T HT Hu. eapply unowned_update; [done..|]. intros Hin.
  apply (Hu _ _ Hl). specialize (Hnew t T HT Hin). set_solver.
Qed.

(** A timer outside the queue changes. *)
Lemma kinv_set_timer k Q rs ws ts a T : kinv k Q rs ws ts -> a ∉ ts ->
  kinv (set_timer_objs (<[a := T]> (timer_objs k)) k) Q rs ws ts.
Proof.
  intros HK Ha. destruct HK.
  assert (forall b, b ∈ ts -> <[a := T]> (timer_objs k) !! b = timer_objs k !! b) as Hb
    by (intros b Hb; apply lookup_insert_ne; set_solver).
  split; try done.
  - intros t U HU. by destruct (ki_tasks t U HU).
  - intros b Hin. destruct (ki_timers b Hin) as (X & HX & ?).
    exists X. simpl. by rewrite Hb.
  - clear ki_timers ki_ts. unfold tick_sorted, tick_at in *. simpl.
    induction ki_ticks as [|b ts Hs IH Hf]; constructor.
    + apply IH; [set_solver|]. intros c Hc. apply Hb. set_solver.
    + rewrite Forall_forall in *. intros c Hc. rewrite !Hb by set_solver. by apply Hf.
Qed.

(** ** Delivering the signals of expired timers *)

(** The effect of [signal_send] on the tasks. *)
Definition deliver (t s : Z) (U : gmap Z Task) : gmap Z Task :=
  alter (fun T => set_sig_recvd (Z.lor (sig_recvd T) s)
    (if wakes T s then set_state TASK_READY T else T)) t U.

Lemma sent_tasks k Q rs ws t T s k' : tasks k !! t = Some T -> sent k Q rs ws t T s k' ->
  tasks k' = deliver t s (tasks k).
Proof.
  intros HT Hs. unfold deliver. apply map_eq. intros x. unfold sent in Hs.
  destruct (decide (x = t)) as [->|Hne].
  - rewrite lookup_alter_eq, HT. simpl.
    destruct (wakes T s); [destruct Hs as (m' & -> & _)|subst k']; simpl;
      by rewrite lookup_insert_eq.
  - rewrite lookup_alter_ne by done.
    destruct (wakes T s); [destruct Hs as (m' & -> & _)|subst k']; simpl;
      by rewrite lookup_insert_ne.
Qed.

(** What [signal_send] leaves alone. *)
Record same_machine (k k' : Kernel) : Prop := mkSame {
  sm_irq : primask k' = primask k /\ handler k' = handler k /\ id_nestcnt k' = id_nestcnt k;
  sm_running : running k' = running k;
  sm_nodes : nodes (heap k') = nodes (heap k);
  sm_clock : timer_now k' = timer_now k /\ elapsed k' = elapsed k;
  sm_words : words k' = words k;
  sm_pendsv : pendsv k = true -> pendsv k' = true;
  sm_objects : sems k' = sems k /\ reqs k' = reqs k /\ ports k' = ports k /\
    msgs k' = msgs k /\ sysmsgs k' = sysmsgs k }.

Lemma same_machine_refl k : same_machine k k.
Proof. by split. Qed.

Lemma same_machine_trans k1 k2 k3 :
  same_machine k1 k2 -> same_machine k2 k3 -> same_machine k1 k3.
Proof.
  intros [(? & ? & ?) ? ? (? & ?) ? ? (? & ? & ? & ? & ?)]
    [(? & ? & ?) ? ? (? & ?) ? ? (? & ? & ? & ? & ?)].
  split; [split_and!; congruence|congruence|congruence|split; congruence|congruence|auto|].
  split_and!; congruence.
Qed.

Lemma sent_same k Q rs ws t T s k' : sent k Q rs ws t T s k' -> same_machine k k'.
Proof.
  unfold sent. destruct (wakes T s); [intros (m' & -> & _)|intros ->]; [|done].
  split; simpl; try done. by intros ->.
Qed.

Lemma same_machine_calm k k' : same_machine k k' -> calm k -> calm k'.
Proof. intros [(? & ? & ?) _ _ _ _ _]. by apply calm_frame. Qed.

(** What [signal_send] does to the lists. *)
Lemma sent_free k Q rs ws ts t T s k' : kinv k Q rs ws ts -> tasks k !! t = Some T ->
  sent k Q rs ws t T s k' ->
  keeps_free k Q ts (if wakes T s then wake_queues k Q rs ws t else Q) ts /\
  dom (links (heap k')) = dom (links (heap k)) /\ dom (tasks k') = dom (tasks k) /\
  timer_objs k' = timer_objs k.
Proof.
  intros HK HT Hs.
  assert (dom (tasks k') = dom (tasks k)) as Hd.
  { rewrite (sent_tasks _ _ _ _ _ _ _ _ HT Hs). apply dom_alter_L. }
  unfold sent in Hs. destruct (wakes T s).
  - destruct Hs as (m' & -> & _ & [Hdom _]). split_and!; [|done..].
    eapply (keeps_free_trans k k _ (<[waiting := remove_elem t ws]> Q) _ _ ts); [done|..].
    + eapply (keeps_free_tasks _ _ _ waiting ws); [apply HK|by right|].
      intros x Hx. eapply kinv_waiting_tasks; [exact HK|set_solver].
    + eapply (keeps_free_tasks _ _ _ ready rs); [destruct HK; by simplify_map_eq|by left|].
      intros x [->|Hx]%elem_of_prio_insert; [eauto|by eapply kinv_ready_tasks].
  - subst k'. split_and!; [apply keeps_free_refl|done..].
Qed.

(** ** Polling *)

(** The timers of [ts] that have expired at [now], and the others. *)
Definition expired (k : Kernel) (now : Z) (ts : list Z) : list Z :=
  filter (fun a => tick_at k a <= now) ts.
Definition unexpired (k : Kernel) (now : Z) (ts : list Z) : list Z :=
  filter (fun a => now < tick_at k a) ts.

(** The signals of the timers [es] are delivered in order. *)
Definition deliver_all (objs : gmap Z Timer) (es : list Z) (U : gmap Z Task) : gmap Z Task :=
  foldl (fun U N => deliver (tm_task N) (tm_signal N) U) U (omap (fun a => objs !! a) es).

Definition all_done (es : list Z) (objs : gmap Z Timer) : gmap Z Timer :=
  foldl (fun m a => alter (set_status TIMER_DONE) a m) objs es.

Lemma deliver_all_dom objs es U : dom (deliver_all objs es U) = dom U.
Proof.
  unfold deliver_all. generalize (omap (fun a => objs !! a) es). intros Ns. revert U.
  induction Ns as [|N Ns IH]; intros U; simpl; [done|]. rewrite IH. apply dom_alter_L.
Qed.

Record polled (k : Kernel) (Q : Queues) (rs : list Z) (now : Z) (ts : list Z) (k' : Kernel) : Prop :=
  mkPolled {
  pl_inv : exists Q' rs' ws', kinv k' Q' rs' ws' (unexpired k now ts) /\
    (sched_ok k rs -> sched_ok k' rs') /\ keeps_free k Q ts Q' (unexpired k now ts);
  pl_idle : idle_ok k';
  pl_tasks : tasks k' = deliver_all (timer_objs k) (expired k now ts) (tasks k);
  pl_timers : timer_objs k' = all_done (expired k now ts) (timer_objs k);
  pl_links : dom (links (heap k')) = dom (links (heap k));
  pl_same : same_machine k k' }.

Lemma sorted_unexpired k now a ts : tick_sorted k (a :: ts) -> now < tick_at k a ->
  expired k now (a :: ts) = [] /\ unexpired k now (a :: ts) = a :: ts.
Proof.
  intros [_ Hf]%StronglySorted_inv Ha.
  assert (forall b, b ∈ a :: ts -> now < tick_at k b) as Hall.
  { rewrite Forall_forall in Hf. intros b [->|Hb]%elem_of_cons; [done|].
    specialize (Hf b Hb). simpl in Hf. lia. }
  unfold expired, unexpired. split.
  - apply filter_none, Forall_forall. intros b Hb. specialize (Hall b Hb). lia.
  - clear Hf Ha. induction (a :: ts) as [|b xs IH]; [done|].
    rewrite filter_cons_True by (apply Hall; set_solver). f_equal.
    apply IH. intros c Hc. apply Hall. set_solver.
Qed.

Lemma expired_cons k now a ts : tick_at k a <= now ->
  expired k now (a :: ts) = a :: expired k now ts /\
  unexpired k now (a :: ts) = unexpired k now ts.
Proof.
  intros Ha. unfold expired, unexpired.
  by rewrite filter_cons_True, filter_cons_False by lia.
Qed.

Lemma tick_at_done k k' a : timer_objs k' = alter (set_status TIMER_DONE) a (timer_objs k) ->
  forall b, tick_at k' b = tick_at k b.
Proof.
  intros E b. unfold tick_at. rewrite E. destruct (decide (a = b)) as [->|Hne].
  - rewrite lookup_alter_eq. by destruct (timer_objs k !! b).
  - by rewrite lookup_alter_ne.
Qed.

Lemma filter_ticks_ext k k' now ts : (forall b, tick_at k' b = tick_at k b) ->
  expired k' now ts = expired k now ts /\ unexpired k' now ts = unexpired k now ts.
Proof.
  intros E. unfold expired, unexpired.
  split; (induction ts as [|b ts IH]; [done|]; rewrite !filter_cons, E, IH; done).
Qed.

(** The composition of the first expired timer with the rest. *)
Lemma polled_cons k Q Q1 rs rs1 now a ts N k1 k' :
  a ∉ ts -> timer_objs k !! a = Some N -> tick_at k a <= now ->
  tasks k1 = deliver (tm_task N) (tm_signal N) (tasks k) ->
  timer_objs k1 = alter (set_status TIMER_DONE) a (timer_objs k) ->
  same_machine k k1 -> keeps_free k Q (a :: ts) Q1 ts -> (sched_ok k rs -> sched_ok k1 rs1) ->
  dom (links (heap k1)) = dom (links (heap k)) -> polled k1 Q1 rs1 now ts k' ->
  polled k Q rs now (a :: ts) k'.
Proof.
  intros Ha HN Hexp Htk Htm Hsm Hfree Hsc Hdom
    [(Q' & rs' & ws & HK & Hs & Hfree') Hidle Htk' Htm' Hdom' Hsm'].
  pose proof (tick_at_done _ _ _ Htm) as Hticks.
  destruct (filter_ticks_ext k k1 now ts Hticks) as [E1 E2].
  rewrite E1 in *. rewrite E2 in *. destruct (expired_cons k now a ts Hexp) as [F1 F2].
  split; rewrite ?F1, ?F2; try done.
  - exists Q', rs', ws. split_and!; [done|auto|].
    eapply (keeps_free_trans k k1); [by rewrite Htk; apply dom_alter_L|done|done].
  - rewrite Htk', Htk, Htm. unfold deliver_all. simpl. rewrite HN. simpl.
    assert (a ∉ expired k now ts) as Hne.
    { intros Hin%list_elem_of_filter. by destruct Hin. }
    f_equal. clear -Hne. induction (expired k now ts) as [|b es IH]; [done|]. simpl.
    rewrite lookup_alter_ne by set_solver. specialize (IH ltac:(set_solver)).
    destruct (timer_objs k !! b); simpl; [by f_equal|done].
  - by rewrite Htm', Htm.
  - congruence.
  - by eapply same_machine_trans.
Qed.

Lemma insert_alter_same {V} (m : gmap Z V) a v f : m !! a = Some v ->
  <[a := f v]> m = alter f a m.
Proof.
  intros E. apply map_eq. intros i. destruct (decide (i = a)) as [->|Hne].
  - by rewrite lookup_insert_eq, lookup_alter_eq, E.
  - by rewrite lookup_insert_ne, lookup_alter_ne.
Qed.

(** The links of a node outside the task lists survive a [signal_send]. *)
Lemma sent_links k Q rs ws t T s k' a : sent k Q rs ws t T s k' ->
  a ∉ chain ready rs -> a ∉ chain waiting ws -> links (heap k') !! a = links (heap k) !! a.
Proof.
  unfold sent. destruct (wakes T s); [|by intros ->].
  intros (m' & -> & _ & _ & Hs) H1 H2. simpl. apply Hs. set_solver.
Qed.

Lemma timers_apart k Q rs ws ts a : kinv k Q rs ws ts -> a ∈ chain timers ts ->
  (a ∉ chain ready rs) /\ (a ∉ chain waiting ws).
Proof.
  intros HK Ha. split; intros Hin.
  - pose proof (reps_disj _ _ (ki_reps _ _ _ _ _ HK) timers ready ts rs a
      (ki_ts _ _ _ _ _ HK) (ki_rs _ _ _ _ _ HK) Ha Hin). done.
  - pose proof (reps_disj _ _ (ki_reps _ _ _ _ _ HK) timers waiting ts ws a
      (ki_ts _ _ _ _ _ HK) (ki_ws _ _ _ _ _ HK) Ha Hin). done.
Qed.

Section poll.
Context (I : Kernel -> Prop) (R : Kernel -> Kernel -> Prop).

Lemma wp_get_next k a c (P : addr -> Kernel -> Prop) : links (heap k) !! a = Some c ->
  P (next c) k -> wp I R (listop (get_next a)) k P.
Proof. intros Hc HP. eapply wp_list_read; [|exact HP]. unfold get_next. by rewrite Hc. Qed.

(** The first timer leaves the queue. *)
Lemma kinv_dequeue k Q rs ws a ts m1 : kinv k Q rs ws (a :: ts) ->
  reps m1 (<[timers := ts]> Q) -> dom m1 = dom (links (heap k)) ->
  kinv (set_heap (mkHeap m1 (nodes (heap k))) k) (<[timers := ts]> Q) rs ws ts.
Proof.
  intros HK Hm1 Hd. pose proof (ki_ticks _ _ _ _ _ HK) as Hso.
  eapply (kinv_queue k Q rs ws (a :: ts) timers (a :: ts)); try done.
  - apply HK.
  - intros; set_solver.
  - by rewrite lookup_insert_eq.
  - intros b Hb. apply (ki_timers _ _ _ _ _ HK). set_solver.
  - by apply StronglySorted_inv in Hso as [? _].
Qed.

Lemma dequeued_free k Q rs ws a ts m1 : kinv k Q rs ws (a :: ts) ->
  reps m1 (<[timers := ts]> Q) -> dom m1 = dom (links (heap k)) -> a ∉ ts ->
  keeps_free k Q (a :: ts) (<[timers := ts]> Q) ts.
Proof.
  intros HK Hm1 Hd Ha. pose proof (ki_ts _ _ _ _ _ HK) as Hts.
  split; [intros b Hb|intros l Hl; apply kernel_insert; [by do 2 right|done]].
  assert (remove_elem a (a :: ts) = ts) as Erm
    by (apply (remove_elem_middle a []); [set_solver|done]).
  intros [[->|Hin]%elem_of_cons|Hu]; [right|by left|right].
  - rewrite <- Erm. eapply free_unowned, (kinv_unlinked_free HK m1); [by rewrite Erm|done|set_solver|].
    apply elem_of_dom. rewrite Hd. apply elem_of_dom.
    destruct (node_cell _ _ (ki_reps _ _ _ _ _ HK) timers [] a ts Hts) as [Hc _]. eauto.
  - eapply unowned_update; [exact Hts|done|]. intros Hin. apply (Hu _ _ Hts). set_solver.
Qed.

(** One round of the loop: the first timer of the queue has expired. *)
Lemma wp_poll_round {A} (rest : addr -> M A) now k Q rs ws a ts N (P : A -> Kernel -> Prop) :
  calm k -> id_nestcnt k < 31999 -> kinv k Q rs ws (a :: ts) -> idle_ok k ->
  timer_objs k !! a = Some N -> tick N <= now ->
  (forall k3 Q3 rs3 ws3, calm k3 -> id_nestcnt k3 < 31999 -> kinv k3 Q3 rs3 ws3 ts -> idle_ok k3 ->
    (forall k', polled k3 Q3 rs3 now ts k' -> polled k Q rs now (a :: ts) k') ->
    wp I R (rest (first (tail timers) ts)) k3 P) ->
  wp I R (listop (list_unlink a);; upd_timer a (set_status TIMER_DONE);;
    N ← load timer_objs a; signal_send (tm_task N) (tm_signal N);;
    nn ← listop (get_next a); rest nn) k P.
Proof.
  intros Hc Hn HK Hi HN E HP.
  pose proof (ki_reps _ _ _ _ _ HK) as Hr. pose proof (ki_ts _ _ _ _ _ HK) as Hts.
  destruct (node_cell (heap k) Q Hr timers [] a ts Hts) as [Hcell Hnz].
  destruct (ki_timers _ _ _ _ _ HK a ltac:(set_solver)) as (N' & HN' & _ & Hsig & U & HU & HUs).
  rewrite HN in HN'. injection HN' as <-.
  assert (tick_at k a <= now) as Hexp by (unfold tick_at; by rewrite HN).
  destruct (queue_nodup _ _ _ _ Hr Hts) as [Hnd Htl].
  apply NoDup_cons in Hnd as [Hnl [Ha _]%NoDup_cons].
  eapply wp_bind, wp_list_step; [by apply (unlink_step (heap k) Q Hr timers [] ts a)|].
  intros m1 Hm1 [Hd1 Hs1]. pose proof (kinv_dequeue _ _ _ _ _ _ m1 HK Hm1 Hd1) as HK1.
  set (k1 := set_heap _ k) in *.
  eapply wp_bind, wp_upd_timer; [exact HN|].
  pose proof (kinv_set_timer k1 _ rs ws ts a (set_status TIMER_DONE N) HK1 Ha) as HK2.
  set (k2 := set_timer_objs _ _) in *.
  eapply wp_bind, wp_load; [apply lookup_insert_eq|]. simpl.
  eapply wp_bind, (wp_signal_send _ _ k2 _ rs ws ts _ U); [..|done| |];
    [by eapply calm_frame; [..|exact Hc]|done|done|done|].
  intros k3 Hk3.
  destruct (timers_apart k Q rs ws (a :: ts) a HK ltac:(set_solver)) as [Hc1 Hc2].
  eapply wp_bind, wp_get_next.
  { rewrite (sent_links _ _ _ _ _ _ _ _ _ Hk3 Hc1 Hc2). simpl.
    rewrite Hs1; [exact Hcell|]. set_solver. }
  simpl next. assert (same_machine k k3) as Hsm3
    by (eapply same_machine_trans; [|eapply sent_same, Hk3]; done).
  destruct (sent_free k2 _ _ _ _ _ _ _ _ HK2 HU Hk3) as (Hfree & Hd3 & _ & Htm3).
  eapply HP; [by eapply same_machine_calm| |by eapply sent_kinv|
    exact (sent_idle_ok k2 _ _ _ _ _ _ _ HU Hi Hk3)|].
  { destruct Hsm3 as [(_ & _ & ->) _ _ _ _ _]. done. }
  intros k' Hk'. eapply (polled_cons k Q _ rs _ now a ts N k3); [done..| | |done| | | |exact Hk'].
  - exact (sent_tasks k2 _ _ _ _ _ _ _ HU Hk3).
  - rewrite <- (insert_alter_same _ _ _ _ HN). exact Htm3.
  - eapply (keeps_free_trans k k2); [done|by eapply dequeued_free|exact Hfree].
  - intros Hs. exact (sent_sched_ok k2 _ _ _ _ _ _ _ Hs Hk3).
  - by rewrite Hd3.
Qed.

Lemma wp_poll_loop now ts : forall fuel k Q rs ws (P : unit -> Kernel -> Prop),
  calm k -> id_nestcnt k < 31999 -> kinv k Q rs ws ts -> idle_ok k ->
  (length ts < fuel)%nat -> (forall k', polled k Q rs now ts k' -> P tt k') ->
  wp I R (poll_loop fuel now (first (tail timers) ts)) k P.
Proof.
  induction ts as [|a ts IH]; intros fuel k Q rs ws P Hc Hn HK Hi Hf HP;
    (destruct fuel as [|fuel]; simpl in Hf; [lia|]); cbn [poll_loop first];
    pose proof (ki_reps _ _ _ _ _ HK) as Hr; pose proof (ki_ts _ _ _ _ _ HK) as Hts.
  - destruct (tail_cell (heap k) Q Hr timers [] Hts) as [Ht _].
    eapply wp_bind, wp_get_next; [exact Ht|]. apply wp_ret, HP.
    split; try done. exists Q, rs, ws. split_and!; [done..|apply keeps_free_refl].
  - destruct (node_cell (heap k) Q Hr timers [] a ts Hts) as [Hcell Hnz].
    destruct (ki_timers _ _ _ _ _ HK a ltac:(set_solver)) as (N & HN & _).
    assert (tick_at k a = tick N) as Etick by (unfold tick_at; by rewrite HN).
    eapply wp_bind, wp_get_next; [exact Hcell|]. simpl next.
    replace (negb (NULL =? first (tail timers) ts)) with true
      by (symmetry; apply negb_true_iff, Z.eqb_neq; congruence).
    eapply wp_bind, wp_load; [exact HN|]. destruct (now <? tick N) eqn:E; norm_bool.
    + apply wp_ret, HP.
      destruct (sorted_unexpired k now a ts (ki_ticks _ _ _ _ _ HK) ltac:(lia)) as [E1 E2].
      split; rewrite ?E1, ?E2; try done.
      exists Q, rs, ws. split_and!; [done..|apply keeps_free_refl].
    + eapply wp_poll_round; [done..|]. intros k3 Q3 rs3 ws3 ? ? ? ? Hpoll.
      eapply IH; [done..|lia|]. auto.
Qed.

Lemma polled_frame k1 k2 Q rs now ts k' k'' :
  polled k1 Q rs now ts k' -> running k1 = running k2 -> (pendsv k1 = pendsv k2) -> tasks k1 = tasks k2 -> timer_objs k1 = timer_objs k2 ->
  heap k1 = heap k2 -> heap k'' = heap k' -> tasks k'' = tasks k' ->
  running k'' = running k' -> timer_objs k'' = timer_objs k' -> pendsv k'' = pendsv k' ->
  same_machine k2 k'' -> polled k2 Q rs now ts k''.
Proof.
  intros [(Q' & rs' & ws & HK & Hs & Hfree) Hi Ht Htm Hd Hsm] D1 D2 E1 E2 E3 F1 F2 F3 F4 F5 Hsm2.
  assert (forall a, tick_at k2 a = tick_at k1 a) as Et by (intros a; unfold tick_at; by rewrite E2).
  destruct (filter_ticks_ext k1 k2 now ts Et) as [G1 G2].
  split; rewrite ?G1, ?G2; try congruence.
  - exists Q', rs', ws. split; [by eapply kinv_frame; [..|exact HK]|].
    split; [unfold sched_ok, prio_at in *; by rewrite F5, F1, F3, <- D1, <- D2, <- E3|].
    destruct Hfree as [Hf1 Hf2]. split; [intros a; rewrite <- E1; apply Hf1|done].
  - destruct Hi as (U & HU & ?). exists U. by rewrite F2, F3.
Qed.

Lemma wp_timer_poll k Q rs ws ts (P : unit -> Kernel -> Prop) :
  calm k -> id_nestcnt k < 31998 -> kinv k Q rs ws ts -> idle_ok k ->
  (forall k', polled k Q rs (timer_now k) ts k' -> P tt k') -> wp I R timer_poll k P.
Proof.
  intros Hc Hn HK Hi HP. unfold timer_poll, timer_get_clock.
  eapply wp_bind, wp_bind, wp_window_calm; [apply Hc|]. apply wp_gets.
  eapply wp_bind, wp_disable_calm; [done|].
  assert (kinv (lock k) Q rs ws ts) as HK1 by by eapply kinv_frame; [..|exact HK].
  eapply wp_bind, wp_get_next;
    [exact (head_cell _ Q (ki_reps _ _ _ _ _ HK1) timers ts (ki_ts _ _ _ _ _ HK1))|].
  simpl next. eapply wp_bind, wp_gets, wp_bind.
  eapply (wp_poll_loop (timer_now k) ts _ (lock k) Q rs ws); [|simpl; lia|done..| |].
  - apply lock_calm; [apply Hc|lia].
  - exact (walk_bound_ok _ Q (ki_reps _ _ _ _ _ HK1) timers ts (ki_ts _ _ _ _ _ HK1)).
  - intros k' Hk'. pose proof (pl_same _ _ _ _ _ _ Hk') as [(H1 & H2 & H3) ? ? ? ? ?].
    eapply wp_enable_back; [exact Hc|done..|]. apply HP.
    by eapply polled_frame; [exact Hk'|done..|].
Qed.

(** The tick interrupt, taken in thread mode. *)
Lemma wp_TIM2_exception k Q rs ws ts (P : unit -> Kernel -> Prop) :
  primask k = false -> handler k = false -> id_nestcnt k = -1 ->
  kinv k Q rs ws ts -> idle_ok k ->
  (forall k', polled (set_timer_now (uwrap 32 (timer_now k + 1)) k) Q rs
    (uwrap 32 (timer_now k + 1)) ts k' -> P tt k') -> wp I R TIM2_exception k P.
Proof.
  intros Hp Hh Hn HK Hi HP. unfold TIM2_exception, exception, TIM2_IRQHandler.
  eapply wp_bind, wp_modify, wp_bind, wp_bind, wp_gets, wp_bind, wp_modify.
  set (k1 := set_timer_now _ _).
  eapply (wp_timer_poll k1 Q rs ws ts); [|simpl; lia|by eapply kinv_frame; [..|exact HK]|done|].
  - split; [split; simpl; rewrite Hn; [done|lia]|]. unfold interruptible. simpl.
    by rewrite andb_false_r.
  - intros k' Hk'. eapply wp_bind, wp_modify, wp_ret, HP.
    pose proof (pl_same _ _ _ _ _ _ Hk') as [(H1 & H2 & H3) ? ? ? ? ?].
    eapply polled_frame; [exact Hk'|done..|]. by split.
Qed.
End poll.

(** ** Adding a timer *)

(** Insertion before the first timer that expires later. *)
Definition tick_insert (tk : Z -> Z) (n : Z) (ts : list Z) : list Z :=
  prio_insert (fun a => - tk a) n ts.

Lemma tick_insert_sorted tk n ts : StronglySorted (fun a b => tk a <= tk b) ts ->
  StronglySorted (fun a b => tk a <= tk b) (tick_insert tk n ts).
Proof.
  intros Hs.
  assert (forall xs, StronglySorted (fun a b => - tk b <= - tk a) xs <->
    StronglySorted (fun a b => tk a <= tk b) xs) as Eq.
  { intros xs. split; intros H; induction H as [|x xs H IH Hf]; constructor; try done;
      (eapply Forall_impl; [exact Hf|simpl; intros; lia]). }
  apply Eq, prio_insert_sorted, Eq, Hs.
Qed.

(** The insertion point: behind what expires no later, before the rest. *)
Lemma tick_insert_split tk n ts : StronglySorted (fun a b => tk a <= tk b) ts ->
  exists t1 t2, ts = t1 ++ t2 /\ tick_insert tk n ts = t1 ++ n :: t2 /\
    (forall a, a ∈ t1 -> tk a <= tk n) /\ (forall a, a ∈ t2 -> tk n < tk a).
Proof.
  unfold tick_insert. induction 1 as [|x ts Hs IH Hf]; simpl.
  - exists [], []. set_solver.
  - case_bool; norm_bool.
    + exists [], (x :: ts). split_and!; [done..|set_solver|].
      rewrite Forall_forall in Hf.
      intros a [->|Ha]%elem_of_cons; [lia|]. specialize (Hf a Ha). lia.
    + destruct IH as (t1 & t2 & -> & -> & H1 & H2). exists (x :: t1), t2.
      split_and!; [done..| |done]. intros a [->|Ha]%elem_of_cons; [lia|auto].
Qed.

Lemma tick_insert_ext tk tk' n ts : (forall a, a = n \/ a ∈ ts -> tk' a = tk a) ->
  tick_insert tk' n ts = tick_insert tk n ts.
Proof.
  unfold tick_insert. intros E. induction ts as [|x ts IH]; simpl; [done|].
  rewrite !E by set_solver. case_bool; [done|]. f_equal. apply IH. set_solver.
Qed.

Lemma elem_of_tick_insert tk n ts a : a ∈ tick_insert tk n ts <-> a = n \/ a ∈ ts.
Proof. apply elem_of_prio_insert. Qed.

Section add.
Context (I : Kernel -> Prop) (R : Kernel -> Kernel -> Prop).

Lemma wp_get_prev k a c (P : addr -> Kernel -> Prop) : links (heap k) !! a = Some c ->
  P (prev c) k -> wp I R (listop (get_prev a)) k P.
Proof. intros Hc HP. eapply wp_list_read; [|exact HP]. unfold get_prev. by rewrite Hc. Qed.

(** The scan inserts the timer, or finds that it belongs to the end. *)
Lemma wp_add_scan k Q n T x2 : forall x1 fuel (P : bool -> Kernel -> Prop),
  reps (links (heap k)) Q -> Q !! timers = Some (x1 ++ x2) ->
  free_node (links (heap k)) Q n -> timer_objs k !! n = Some T ->
  (forall a, a ∈ x2 -> is_Some (timer_objs k !! a)) -> (length x2 < fuel)%nat ->
  (forall m', reps m' (<[timers := x1 ++ tick_insert (tick_at k) n x2]> Q) ->
    dom m' = dom (links (heap k)) ->
    P true (set_heap (mkHeap m' (nodes (heap k))) k)) ->
  (tick_insert (tick_at k) n x2 = x2 ++ [n] -> P false k) ->
  wp I R (add_scan fuel n (first (tail timers) x2)) k P.
Proof.
  induction x2 as [|x x2 IH]; intros x1 fuel P Hr Hts Hfree HT Hobj Hf Ht Hfa;
    (destruct fuel as [|fuel]; simpl in Hf; [lia|]); cbn [add_scan first].
  - rewrite app_nil_r in Hts. destruct (tail_cell _ _ Hr _ _ Hts) as [Hc _].
    eapply wp_bind, wp_get_next; [exact Hc|]. by apply wp_ret, Hfa.
  - destruct (node_cell _ _ Hr _ _ _ _ Hts) as [Hc Hnz].
    destruct (Hobj x ltac:(set_solver)) as [N HN].
    assert (tick_at k n = tick T /\ tick_at k x = tick N) as [En Ex]
      by (unfold tick_at; by rewrite HT, HN).
    eapply wp_bind, wp_get_next; [exact Hc|]. simpl next.
    replace (negb (NULL =? first (tail timers) x2)) with true
      by (symmetry; apply negb_true_iff, Z.eqb_neq; congruence).
    eapply wp_bind, wp_load; [exact HT|]. eapply wp_bind, wp_load; [exact HN|].
    unfold tick_insert in *. simpl in Ht, Hfa. rewrite En, Ex in *.
    destruct (tick T <? tick N) eqn:E; norm_bool.
    + rewrite (proj2 (Z.ltb_lt (- tick N) (- tick T))) in Ht by lia.
      eapply wp_bind, wp_get_prev; [exact Hc|]. simpl prev.
      eapply wp_bind, wp_list_step; [by eapply (insert_step _ _ Hr timers x1 (x :: x2))|].
      intros m' Hm' [Hd _]. by apply wp_ret, Ht.
    + rewrite (proj2 (Z.ltb_ge (- tick N) (- tick T))) in Ht, Hfa by lia.
      eapply wp_bind, wp_get_next; [exact Hc|]. simpl next.
      eapply (IH (x1 ++ [x])); try done.
      * by rewrite <- app_assoc.
      * intros a Ha. apply Hobj. set_solver.
      * lia.
      * intros m' Hm' Hd. apply Ht; [|done]. by rewrite <- app_assoc in Hm'.
      * intros Ei. apply Hfa. by rewrite Ei.
Qed.

(** The timer as [timer_add] tests it: a delay becomes an absolute tick. *)
Definition armed (now : Z) (T : Timer) : Timer :=
  if bool_decide (TIMER_DELAY = op T) then set_tick (uwrap 32 (now + delay T)) T else T.

Definition addable (T : Timer) : bool :=
  (bool_decide (TIMER_DELAY = op T) || bool_decide (TIMER_ALARM = op T)) &&
  (bool_decide (TIMER_INITIALIZED = status T) || bool_decide (TIMER_DONE = status T) ||
   bool_decide (TIMER_ABORTED = status T)).

(** The timer [n] can enter the queue. *)
Record timer_free_node (k : Kernel) (Q : Queues) (n : addr) (T : Timer) : Prop := mkFreeTimer {
  tf_free : free_node (links (heap k)) Q n;
  tf_obj : timer_objs k !! n = Some T;
  tf_not_task : tasks k !! n = None;
  tf_signal : is_signals (tm_signal T);
  tf_task : exists U, tasks k !! tm_task T = Some U /\ scheduled (state U) = true }.

(** The outcome of [timer_add]. *)
Definition added (k : Kernel) (Q : Queues) (rs ws ts : list Z) (n : addr) (T : Timer)
    (k' : Kernel) : Prop :=
  let T' := armed (timer_now k) T in
  if tick T' <=? timer_now k then
    k' = set_timer_objs (<[n := set_status TIMER_ABORTED T']> (timer_objs k)) k /\
    kinv k' Q rs ws ts
  else exists m,
    k' = set_timer_objs (<[n := set_status TIMER_ADDED T']> (timer_objs k))
      (set_heap (mkHeap m (nodes (heap k))) k) /\
    let ts' := tick_insert (tick_at k') n ts in
    kinv k' (<[timers := ts']> Q) rs ws ts'.

Lemma armed_fields now T : tm_task (armed now T) = tm_task T /\
  tm_signal (armed now T) = tm_signal T /\ op (armed now T) = op T.
Proof. unfold armed. by case_bool_decide. Qed.

(** The timer is set up and enters the queue [ts']. *)
Lemma added_kinv k Q rs ws ts n T T' m :
  kinv k Q rs ws ts -> timer_free_node k Q n T ->
  tm_task T' = tm_task T -> tm_signal T' = tm_signal T -> status T' = TIMER_ADDED ->
  let k2 := set_timer_objs (<[n := T']> (timer_objs k)) k in
  let ts' := tick_insert (tick_at k2) n ts in
  reps m (<[timers := ts']> Q) -> dom m = dom (links (heap k)) ->
  kinv (set_heap (mkHeap m (nodes (heap k))) k2) (<[timers := ts']> Q) rs ws ts'.
Proof.
  intros HK [Hfree Hobj Hnt Hsig Htask] E1 E2 E3 k2 ts' Hm Hd.
  pose proof (ki_ts _ _ _ _ _ HK) as Hts.
  assert (n ∉ ts) as Hn.
  { intros Hin. apply (free_unowned _ _ _ Hfree _ _ Hts). set_solver. }
  pose proof (kinv_set_timer k Q rs ws ts n T' HK Hn) as HK2. fold k2 in HK2.
  eapply (kinv_queue k2 Q rs ws ts timers ts); try done.
  - intros t U HU [->|Hin]%elem_of_tick_insert; [|done]. simpl in HU. congruence.
  - by rewrite lookup_insert_eq.
  - intros a [->|Ha]%elem_of_tick_insert; [|by apply (ki_timers _ _ _ _ _ HK2)].
    exists T'. simpl. rewrite lookup_insert_eq, E1, E2. done.
  - apply tick_insert_sorted. apply (ki_ticks _ _ _ _ _ HK2).
Qed.

(** [timer_add] between [disable] and [enable]. *)
Definition add_body (timer : addr) : M unit :=
  upd_timer timer (set_status TIMER_ADDED);;
  tnode ← listop (get_next timers);
  fuel ← gets (fun k => walk_bound (heap k));
  added ← add_scan fuel timer tnode;
  if bool_decide (false = added) then listop (list_add_tail timers timer) else mret tt.

(** The timer [T] at [n] has entered the queue. *)
Definition queued (k : Kernel) (Q : Queues) (rs ws ts : list Z) (n : addr) (T : Timer)
    (k' : Kernel) : Prop :=
  exists m, k' = set_timer_objs (<[n := set_status TIMER_ADDED T]> (timer_objs k))
      (set_heap (mkHeap m (nodes (heap k))) k) /\
    dom m = dom (links (heap k)) /\
    let ts' := tick_insert (tick_at k') n ts in kinv k' (<[timers := ts']> Q) rs ws ts'.

Lemma wp_add_body k Q rs ws ts n T (P : unit -> Kernel -> Prop) :
  kinv k Q rs ws ts -> timer_free_node k Q n T ->
  (forall k', queued k Q rs ws ts n T k' -> P tt k') -> wp I R (add_body n) k P.
Proof.
  intros HK Hf HP. pose proof (ki_reps _ _ _ _ _ HK) as Hr.
  pose proof (ki_ts _ _ _ _ _ HK) as Hts. unfold add_body.
  eapply wp_bind, wp_upd_timer; [apply Hf|]. set (T2 := set_status TIMER_ADDED T).
  set (k2 := set_timer_objs _ _).
  eapply wp_bind, wp_get_next; [exact (head_cell _ _ Hr _ _ Hts)|]. simpl next.
  eapply wp_bind, wp_gets, wp_bind.
  assert (forall m, reps m (<[timers := tick_insert (tick_at k2) n ts]> Q) ->
    dom m = dom (links (heap k)) -> P tt (set_heap (mkHeap m (nodes (heap k2))) k2)) as Hend.
  { intros m Hm Hd. apply HP. exists m. split; [by apply kernel_ext|]. split; [done|].
    exact (added_kinv k Q rs ws ts n T T2 m HK Hf eq_refl eq_refl eq_refl Hm Hd). }
  eapply (wp_add_scan k2 Q n T2 ts []); try done.
  - apply Hf.
  - apply lookup_insert_eq.
  - intros a Ha. destruct (ki_timers _ _ _ _ _ HK a Ha) as (N & HN & _). simpl.
    destruct (decide (n = a)) as [->|]; [rewrite lookup_insert_eq; eauto|].
    rewrite lookup_insert_ne by done. eauto.
  - exact (walk_bound_ok _ _ Hr _ _ Hts).
  - intros Etail.
    eapply wp_list_step; [by apply (add_tail_step _ _ Hr timers ts n), Hf|].
    intros m Hm [Hd _]. rewrite <- Etail in Hm. by apply Hend.
Qed.

Lemma wp_timer_add k Q rs ws ts n T (P : unit -> Kernel -> Prop) :
  calm k -> id_nestcnt k < 31999 -> kinv k Q rs ws ts -> timer_free_node k Q n T ->
  addable T = true -> (forall k', added k Q rs ws ts n T k' -> P tt k') ->
  wp I R (timer_add n) k P.
Proof.
  intros Hc Hnest HK Hf Had HP. pose proof (tf_obj _ _ _ _ Hf) as HT.
  apply andb_true_iff in Had as [Ha1 Ha2]. unfold timer_add, timer_get_clock.
  assert (interruptible k = false) as Hi by apply Hc.
  eapply wp_bind, wp_load; [exact HT|]. eapply wp_bind, wp_assert; [done|].
  eapply wp_bind, wp_assert; [done|]. unfold added in HP. cbv zeta in HP.
  set (T' := armed (timer_now k) T) in *.
  set (k1 := set_timer_objs (<[n := T']> (timer_objs k)) k).
  eapply wp_bind. eapply (wp_mono _ _ _ k (fun _ k' => k' = k1)).
  { unfold k1, T', armed. destruct (bool_decide (TIMER_DELAY = op T)).
    - eapply wp_bind, wp_bind, wp_window_calm; [done|].
      by eapply wp_gets, wp_upd_timer.
    - apply wp_ret. rewrite insert_id by done. by apply kernel_ext. }
  intros [] ? ->.
  eapply wp_bind, wp_load; [apply lookup_insert_eq|].
  eapply wp_bind, wp_bind, wp_window_calm; [done|]. apply wp_gets.
  change (timer_now k1) with (timer_now k).
  assert (n ∉ ts) as Hni.
  { intros Hin. apply (free_unowned _ _ _ (tf_free _ _ _ _ Hf) _ _ (ki_ts _ _ _ _ _ HK)).
    set_solver. }
  destruct (tick T' <=? timer_now k).
  { eapply wp_upd_timer; [apply lookup_insert_eq|]. simpl. rewrite insert_insert_eq.
    change (P tt (set_timer_objs (<[n := set_status TIMER_ABORTED T']> (timer_objs k)) k)).
    apply HP. split; [done|]. by apply kinv_set_timer. }
  destruct (armed_fields (timer_now k) T) as (F1 & F2 & _). fold T' in F1, F2.
  assert (kinv (lock k1) Q rs ws ts) as HK1.
  { eapply kinv_frame; [..|exact (kinv_set_timer k Q rs ws ts n T' HK Hni)]; done. }
  assert (timer_free_node (lock k1) Q n T') as Hf1.
  { destruct Hf. split; try done; [apply lookup_insert_eq|by rewrite F2|by rewrite F1]. }
  assert (wp I R (add_body n) (lock k1) (fun _ k' => queued (lock k1) Q rs ws ts n T' k')) as H
    by by eapply wp_add_body.
  eapply wp_bind, wp_disable_calm; [by eapply calm_frame; [..|exact Hc]|].
  do 4 peel H. eapply wp_bind, wp_mono; [exact H|]. simpl. intros [] k3 (m & -> & Hd & HK3).
  eapply wp_enable_back; [exact Hc|done..|]. apply HP. exists m.
  simpl in *. rewrite insert_insert_eq in *.
  split; [by apply kernel_ext|]. eapply kinv_frame; [..|exact HK3]; try done.
Qed.
End add.

(** C12. The tick interrupt of TIM2, taken while a task executes: it advances the
    clock modulo 2^32, removes exactly the timers that have expired by the new
    time from the timer queue, marks them done, and sends the signal of each to
    its task, in the order of expiry; the others stay queued in order, no other
    timer or task changes, and the kernel invariant and the scheduling invariant
    hold again. *)
Theorem timer_interrupt_correct k Q rs ws ts :
  primask k = false -> handler k = false -> id_nestcnt k = -1 ->
  kinv k Q rs ws ts -> sched_ok k rs -> idle_ok k ->
  let now := (timer_now k + 1) mod 2 ^ 32 in
  exists k', TIM2_exception k = Ret tt k' /\ timer_now k' = now /\
    (exists Q' rs' ws', kinv k' Q' rs' ws' (filter (fun a => now < tick_at k a) ts) /\
      sched_ok k' rs') /\ idle_ok k' /\
    let due := filter (fun a => tick_at k a <= now) ts in
    timer_objs k' = foldl (fun m a => alter (set_status TIMER_DONE) a m) (timer_objs k) due /\
    tasks k' = foldl (fun U N => deliver (tm_task N) (tm_signal N) U) (tasks k)
      (omap (fun a => timer_objs k !! a) due) /\
    running k' = running k /\ interruptible k' = true.
Proof.
  intros Hp Hh Hn HK Hs Hi now.
  assert (run TIM2_exception k (fun _ k' => polled (set_timer_now now k) Q rs now ts k'))
    as ([] & k' & E & [(Q' & rs' & ws' & HK' & Hs' & _) Hidle Ht Htm _
      [(H1 & H2 & H3) Hr _ [Hc _] _ _]]).
  { apply wp_run. by eapply wp_TIM2_exception. }
  exists k'. split_and!; try done; [exists Q', rs', ws'; split_and!; auto|].
  unfold interruptible. rewrite H1, H2. simpl. by rewrite Hp, Hh.
Qed.

Lemma timer_interrupt_correct_witness : exists k',
  TIM2_exception demo_timed = Ret tt k' /\ timer_now k' = 5 /\
  in_state k' TASK_READY demo_b.
Proof.
  destruct (timer_interrupt_correct demo_timed _ _ _ _ eq_refl eq_refl eq_refl demo_timed_kinv)
    as (k' & E & Hnow & _ & _ & _ & Ht & _).
  - right. apply Forall_forall, (bool_decide_unpack _). vm_compute. exact I.
  - eexists. split; [vm_compute; reflexivity|]. left. reflexivity.
  - exists k'. split; [exact E|]. split; [rewrite Hnow; vm_compute; reflexivity|].
    unfold in_state. rewrite Ht. eexists. split; [vm_compute; reflexivity|]. reflexivity.
Defined.

(** C19. [timer_add], called where no interrupt can arrive, on a timer that is set
    up and in no list: a delay is converted to an absolute tick modulo 2^32; a
    timer that has expired already is marked [TIMER_ABORTED] and not queued;
    otherwise it is marked [TIMER_ADDED] and enters the timer queue behind all
    timers that expire no later and before all that expire later; nothing else
    changes and the kernel invariant, with the queue sorted, holds again. *)
Theorem timer_add_correct k Q rs ws ts n T :
  calm k -> id_nestcnt k < 31999 -> kinv k Q rs ws ts -> timer_free_node k Q n T ->
  addable T = true ->
  let t := if bool_decide (op T = TIMER_DELAY) then (timer_now k + delay T) mod 2 ^ 32
    else tick T in
  exists k', timer_add n k = Ret tt k' /\
    if t <=? timer_now k then
      k' = set_timer_objs (<[n := set_status TIMER_ABORTED (set_tick t T)]> (timer_objs k)) k /\
      kinv k' Q rs ws ts
    else exists m t1 t2,
      k' = set_timer_objs (<[n := set_status TIMER_ADDED (set_tick t T)]> (timer_objs k))
        (set_heap (mkHeap m (nodes (heap k))) k) /\
      ts = t1 ++ t2 /\ kinv k' (<[timers := t1 ++ n :: t2]> Q) rs ws (t1 ++ n :: t2) /\
      (forall a, a ∈ t1 -> tick_at k a <= t) /\ (forall a, a ∈ t2 -> t < tick_at k a).
Proof.
  intros Hc Hn HK Hf Had t.
  assert (run (timer_add n) k (fun _ k' => added k Q rs ws ts n T k')) as ([] & k' & E & Ha).
  { apply wp_run. by eapply wp_timer_add. }
  exists k'. split; [done|]. unfold added in Ha. cbv zeta in Ha.
  assert (armed (timer_now k) T = set_tick t T) as Earm.
  { unfold armed, t. rewrite (bool_decide_ext (TIMER_DELAY = op T) (op T = TIMER_DELAY)) by done.
    case_bool_decide; [done|]. by destruct T. }
  rewrite Earm in Ha. simpl tick in Ha. destruct (t <=? timer_now k); [done|].
  destruct Ha as (m & Ek & HK'). set (ts' := tick_insert (tick_at k') n ts) in *.
  assert (tick_at k' n = t /\ forall a, a <> n -> tick_at k' a = tick_at k a) as [Etn Eta].
  { rewrite Ek. unfold tick_at. simpl. rewrite lookup_insert_eq. split; [done|].
    intros a Hne. by rewrite lookup_insert_ne. }
  assert (n ∉ ts) as Hni.
  { intros Hin. apply (free_unowned _ _ _ (tf_free _ _ _ _ Hf) _ _ (ki_ts _ _ _ _ _ HK)).
    set_solver. }
  assert (forall a, a ∈ ts -> tick_at k' a = tick_at k a) as Ets
    by (intros a Ha'; apply Eta; set_solver).
  destruct (tick_insert_split (tick_at k') n ts) as (t1 & t2 & Esp & Ets' & H1 & H2).
  { pose proof (ki_ticks _ _ _ _ _ HK) as Hs. clear -Hs Ets. unfold tick_sorted in Hs.
    induction Hs as [|x xs Hs IH Hf]; constructor; [apply IH; set_solver|].
    rewrite Forall_forall in *. intros y Hy. rewrite !Ets by set_solver. by apply Hf. }
  exists m, t1, t2. rewrite <- Ets'. split_and!; [done|done|done|..]; rewrite Etn in *.
  - intros a Ha'. rewrite <- Ets by set_solver. by apply H1.
  - intros a Ha'. rewrite <- Ets by set_solver. by apply H2.
Qed.

#[global] Instance free_node_dec m Q n : Decision (free_node m Q n).
Proof.
  destruct (decide (is_Some (m !! n) /\ n <> NULL /\ unowned Q n)) as [(? & ? & ?)|H].
  - left. by split.
  - right. intros []. by apply H.
Defined.

Lemma timer_add_correct_witness : exists k' Q' rs ws t1 t2,
  timer_add demo_t1 (demo_calm demo_timers) = Ret tt k' /\ t1 = [] /\ t2 = [] /\
  kinv k' Q' rs ws (t1 ++ demo_t1 :: t2).
Proof.
  destruct (timer_add_correct (demo_calm demo_timers) (demo_Qt [init_task] [demo_b] [])
    [init_task] [demo_b] [] demo_t1
    (mkTimer demo_b 8 5 0 TIMER_DELAY TIMER_INITIALIZED)) with
    (3 := demo_calm_kinv _ _ _ _ _ demo_timers_kinv) as (k' & E & H).
  - apply lock_calm; [|reflexivity]. split; [reflexivity|].
    split; [vm_compute; discriminate|reflexivity].
  - reflexivity.
  - split.
    + apply (bool_decide_unpack _). vm_compute. exact I.
    + vm_compute. reflexivity.
    + vm_compute. reflexivity.
    + split; [vm_compute; discriminate|reflexivity].
    + eexists. split; vm_compute; reflexivity.
  - reflexivity.
  - destruct H as (m & t1 & t2 & _ & Ets & HK & _).
    symmetry in Ets. apply app_nil in Ets as [-> ->].
    eexists k', _, _, _, [], []. split; [exact E|]. split; [reflexivity|].
    split; [reflexivity|exact HK].
Defined.

(** ** Aborting a timer *)

Section abort.
Context (I : Kernel -> Prop) (R : Kernel -> Kernel -> Prop).

Lemma wp_timer_abort k Q rs ws ts n T (P : unit -> Kernel -> Prop) :
  calm k -> kinv k Q rs ws ts -> n ∈ ts -> timer_objs k !! n = Some T ->
  (forall m k', k' = set_heap (mkHeap m (nodes (heap k))) k ->
    kinv k' (<[timers := remove_elem n ts]> Q) rs ws (remove_elem n ts) -> P tt k') ->
  wp I R (timer_abort n) k P.
Proof.
  intros Hc HK Hn HT HP. unfold timer_abort.
  pose proof (ki_reps _ _ _ _ _ HK) as Hr. pose proof (ki_ts _ _ _ _ _ HK) as Hts.
  destruct (ki_timers _ _ _ _ _ HK n Hn) as (T0 & HT0 & Hst & _). simplify_eq.
  eapply wp_bind, wp_disable_calm; [done|]. eapply wp_bind, wp_load; [exact HT|].
  rewrite bool_decide_true by done.
  destruct (queue_nodup _ _ _ _ Hr Hts) as [[_ Hnd]%NoDup_cons _].
  apply list_elem_of_split in Hn as (t1 & t2 & ->).
  assert (remove_elem n (t1 ++ n :: t2) = t1 ++ t2) as Erm.
  { apply NoDup_app in Hnd as (_ & Hd & [Hd2 _]%NoDup_cons).
    apply remove_elem_middle; [|done]. intros ?. eapply Hd; [done|by left]. }
  eapply wp_bind, wp_list_step; [by apply (unlink_step _ _ Hr timers t1 t2 n)|].
  intros m Hm [Hd _]. eapply wp_enable_back; [exact Hc|done..|].
  eapply (HP m); [apply kernel_ext; reflexivity|]. rewrite Erm.
  assert (kinv (set_heap (mkHeap m (nodes (heap k))) k) (<[timers := t1 ++ t2]> Q)
    rs ws (t1 ++ t2)) as HK'.
  { eapply (kinv_queue k Q rs ws (t1 ++ n :: t2) timers (t1 ++ n :: t2)); try done.
    - intros; set_solver.
    - by rewrite lookup_insert_eq.
    - intros a Ha. apply (ki_timers _ _ _ _ _ HK). set_solver.
    - pose proof (ki_ticks _ _ _ _ _ HK) as Hs. clear -Hs. unfold tick_sorted in *.
      induction t1 as [|x t1 IH]; simpl in *; [by apply StronglySorted_inv in Hs as [? _]|].
      apply StronglySorted_inv in Hs as [Hs Hf]. constructor; [by apply IH|].
      rewrite Forall_forall in *. intros y Hy. apply Hf. set_solver. }
  by eapply kinv_frame; [..|exact HK'].
Qed.
End abort.

(** C30. [timer_abort], called where no interrupt can arrive, on a queued timer: it
    takes the timer, and only it, out of the timer queue, and both invariants
    still hold; but it leaves the timer marked [TIMER_ADDED], so that adding the
    timer again stops the system with a failing assertion. *)
Theorem timer_abort_correct k Q rs ws ts n T :
  calm k -> id_nestcnt k < 31999 -> kinv k Q rs ws ts -> n ∈ ts -> timer_objs k !! n = Some T ->
  exists k' m, timer_abort n k = Ret tt k' /\
    k' = set_heap (mkHeap m (nodes (heap k))) k /\
    let ts' := filter (fun a => a <> n) ts in
    kinv k' (<[timers := ts']> Q) rs ws ts' /\ (sched_ok k rs -> sched_ok k' rs) /\
    timer_add n k' = Spin (lock k').
Proof.
  intros Hc Hnest HK Hn HT.
  assert (run (timer_abort n) k (fun _ k' => exists m,
    k' = set_heap (mkHeap m (nodes (heap k))) k /\
    kinv k' (<[timers := remove_elem n ts]> Q) rs ws (remove_elem n ts))) as ([] & k' & E & m & -> & HK').
  { apply wp_run. eapply wp_timer_abort; [done..|]. eauto. }
  eexists _, m. split; [done|]. split; [done|]. split; [done|]. split; [done|].
  destruct (ki_timers _ _ _ _ _ HK n Hn) as (T0 & HT0 & Hst & _). simplify_eq.
  set (k' := set_heap _ k). destruct Hc as [[_ Hb] _].
  assert (load timer_objs n k' = Ret T k') as El by (unfold load; simpl; by rewrite HT).
  unfold timer_add. rewrite (run_bind _ _ _ _ _ El).
  destruct (bool_decide (TIMER_DELAY = op T) || bool_decide (TIMER_ALARM = op T)) eqn:Eo.
  - rewrite (run_bind (assert_that true) _ _ _ _ eq_refl).
    apply assert_fails; [|simpl; lia]. by rewrite Hst.
  - apply assert_fails; [done|simpl; lia].
Qed.

Lemma timer_abort_correct_witness : exists k',
  timer_abort demo_t1 (demo_calm demo_timed) = Ret tt k' /\
  timer_add demo_t1 k' = Spin (lock k').
Proof.
  destruct (timer_abort_correct (demo_calm demo_timed)
    (demo_Qt [init_task] [demo_b] [demo_t1; demo_t2]) [init_task] [demo_b] [demo_t1; demo_t2]
    demo_t1 (mkTimer demo_b 8 5 5 TIMER_DELAY TIMER_ADDED)) as (k' & m & E & _ & _ & _ & H).
  - apply lock_calm; [|reflexivity]. split; [reflexivity|].
    split; [vm_compute; discriminate|reflexivity].
  - reflexivity.
  - apply demo_calm_kinv, demo_timed_kinv.
  - set_solver.
  - vm_compute. reflexivity.
  - exists k'. split; [exact E|exact H].
Defined.
