(* ===== verification/Nesting.v ===== *)
(** * Interrupts inside the scheduler

    PendSV has the lowest priority, so SysTick and TIM2 may interrupt its handler
    wherever it has not disabled interrupts.  The model runs handlers one after
    the other; this file shows that nothing is lost by that. *)

From S2P Require Import Prelude Heap Lists ListSpec Machine Logic Context Task.
From S2P Require Import Platform Timer Invariant Checker Demo TaskSpec SchedSpec Scheduler.
From S2P Require Import Signals TimerSpec.

Inductive interrupt := SysTick | TIM2.

Definition irq_body (i : interrupt) : M unit :=
  match i with SysTick => SysTick_Handler | TIM2 => TIM2_IRQHandler end.

(** Handlers that run on top of another handler. *)
Fixpoint nested (js : list interrupt) : M unit :=
  match js with [] => mret tt | i :: js => irq_body i;; nested js end.

(** Where an interrupt could arrive: nothing happens where PRIMASK is set; an
    interrupt that arrives there stays pending and counts for a later point. *)
Definition point (js : list interrupt) : M unit :=
  p ← gets primask;
  if (p : bool) then mret tt else nested js.

(** ** The scheduler, statement by statement

    [PendSV_Handler_user] with [pt i] at the [i]-th place between two statements. *)
Section points.
Context (pt : nat -> M unit).

Definition switch_task_at : M unit :=
  r ← gets running; pt 8%nat;;
  n ← gets id_nestcnt; pt 9%nat;;
  upd_task r (set_t_id_nestcnt n);; pt 10%nat;;
  r ← listop (list_rem_head ready); pt 11%nat;;
  modify (set_running r);; pt 12%nat;;
  upd_task r (set_state TASK_RUNNING);; pt 13%nat;;
  T ← load tasks r; pt 14%nat;;
  modify (set_id_nestcnt (t_id_nestcnt T));; pt 15%nat;;
  modify (set_elapsed QUANTUM).

Definition PendSV_switch_at (old_frame : addr) : M unit :=
  __disable_irq;; pt 3%nat;;
  r ← gets running;
  upd_task r (fun T => set_context
    (mkContext old_frame (bos (context T)) (tos (context T))) T);; pt 4%nat;;
  T ← load tasks r; pt 5%nat;;
  match state T with
  | TASK_RUNNING =>
      upd_task r (set_state TASK_READY);; pt 6%nat;;
      listop (list_enqueue ready r);; pt 7%nat;;
      switch_task_at
  | TASK_READY | TASK_WAITING => switch_task_at
  | TASK_INVALID | TASK_INITIALIZED => spin
  end;; pt 16%nat;;
  n ← gets id_nestcnt; pt 17%nat;;
  if n <? 0 then __enable_irq else mret tt.

Definition PendSV_at (old_frame : addr) : M addr :=
  pt 0%nat;; r ← gets running; pt 1%nat;; task_verify r;; pt 2%nat;;
  PendSV_switch_at old_frame;; pt 18%nat;;
  r ← gets running; pt 19%nat;; task_verify r;; pt 20%nat;;
  T ← load_running; pt 21%nat;;
  mret (frame (context T)).
End points.

(** The scheduler with the interrupts [w i] arriving at place [i]. *)
Definition PendSV_nested (w : nat -> list interrupt) : addr -> M addr :=
  PendSV_at (fun i => point (w i)).

(** The handlers one after the other: what arrives before [__disable_irq] is
    served before the scheduler, what arrives behind [__enable_irq] behind it. *)
Definition before (w : nat -> list interrupt) : list interrupt :=
  w 0%nat ++ w 1%nat ++ w 2%nat.
Definition behind (w : nat -> list interrupt) : list interrupt :=
  w 18%nat ++ w 19%nat ++ w 20%nat ++ w 21%nat.

Definition PendSV_chained (w : nat -> list interrupt) (old_frame : addr) : M addr :=
  nested (before w);;
  a ← PendSV_Handler_user old_frame;
  nested (behind w);;
  mret a.

(** ** The critical section

    Where PRIMASK is set, and stays set, the places between the statements make
    no difference. *)
Definition keeps_mask {A} (m : M A) : Prop := forall k, primask k = true ->
  match m k with Ret _ k' => primask k' = true | Preempt _ _ => False | _ => True end.

Definition masked_equiv {A} (m m' : M A) : Prop := forall k, primask k = true -> m k = m' k.

Lemma keeps_bind {A B} (m : M A) (f : A -> M B) :
  keeps_mask m -> (forall a, keeps_mask (f a)) -> keeps_mask (m ≫= f).
Proof.
  intros Hm Hf k Hk. specialize (Hm k Hk). unfold mbind, M_bind.
  destruct (m k) as [a k'| | | |]; simpl; [by apply Hf|done..].
Qed.

Lemma keeps_modify f : (forall k, primask (f k) = primask k) -> keeps_mask (modify f).
Proof. intros Hf k Hk. simpl. by rewrite Hf. Qed.

Lemma keeps_gets {A} (f : Kernel -> A) : keeps_mask (gets f).
Proof. by intros k Hk. Qed.

Lemma keeps_ret {A} (a : A) : keeps_mask (mret a).
Proof. by intros k Hk. Qed.

Lemma keeps_spin {A} : keeps_mask (spin : M A).
Proof. by intros k Hk. Qed.

Lemma keeps_load {V} (sel : Kernel -> gmap Z V) a : keeps_mask (load sel a).
Proof. intros k Hk. unfold load. by destruct (sel k !! a). Qed.

Lemma keeps_listop {A} (f : HM A) : keeps_mask (listop f).
Proof. intros k Hk. unfold listop. by destruct (f (heap k)) as [[a h]|]. Qed.

Lemma keeps_upd_task t f : keeps_mask (upd_task t f).
Proof. apply keeps_bind; [apply keeps_load|]. intros T. by apply keeps_modify. Qed.

Create HintDb keeps.
#[local] Hint Resolve keeps_bind keeps_modify keeps_gets keeps_ret keeps_spin keeps_load
  keeps_listop keeps_upd_task : keeps.

Lemma keeps_switch_task : keeps_mask switch_task.
Proof. unfold switch_task. eauto 30 with keeps. Qed.

Lemma masked_bind {A B} (m m' : M A) (f g : A -> M B) : masked_equiv m m' -> keeps_mask m' ->
  (forall a, masked_equiv (f a) (g a)) -> masked_equiv (m ≫= f) (m' ≫= g).
Proof.
  intros Hm Hk Hf k Hp. unfold mbind, M_bind. rewrite (Hm k Hp). specialize (Hk k Hp).
  destruct (m' k) as [a k'| | | |]; simpl; [by apply Hf|done..].
Qed.

Lemma masked_point {A} js (m m' : M A) : masked_equiv m m' -> masked_equiv (point js;; m) m'.
Proof. intros Hm k Hk. unfold mbind, M_bind, point, gets, mbind, M_bind. simpl. rewrite Hk. by apply Hm. Qed.

Ltac masked := repeat first
  [ progress (cbv beta) | apply masked_point
  | apply masked_bind; [by intros ??|by eauto with keeps|intros ?] | by intros ?? ].

Lemma switch_task_masked w : masked_equiv (switch_task_at (fun i => point (w i))) switch_task.
Proof. unfold switch_task_at, switch_task. masked. Qed.

Lemma PendSV_switch_masked w f k :
  PendSV_switch_at (fun i => point (w i)) f k = PendSV_switch f k.
Proof.
  unfold PendSV_switch_at, PendSV_switch, __disable_irq.
  rewrite !(run_bind (modify _) _ k tt (set_primask true k)) by done.
  match goal with |- ?l _ = ?r _ => assert (masked_equiv l r) as H; [|by apply H] end.
  masked. pose proof keeps_switch_task as Hk. pose proof (switch_task_masked w) as Hw.
  match goal with |- context [state ?T] => destruct (state T) end;
    (apply masked_bind; [|by eauto 10 with keeps|intros ?; masked]); try done.
  masked.
Qed.

(** A state in which a handler can be interrupted. *)
Record served (k : Kernel) : Prop := mkServed {
  sv_mode : handler k = true /\ primask k = false /\ id_nestcnt k = -1;
  sv_inv : exists Q rs ws ts, kinv k Q rs ws ts;
  sv_idle : idle_ok k }.

(** No task is switched, and no context changes. *)
Record same_contexts (k k' : Kernel) : Prop := mkSameContexts {
  sx_running : running k' = running k;
  sx_contexts : forall t, context <$> tasks k' !! t = context <$> tasks k !! t }.

Lemma same_contexts_trans k1 k2 k3 : same_contexts k1 k2 -> same_contexts k2 k3 -> same_contexts k1 k3.
Proof. intros [r1 c1] [r2 c2]. split; [congruence|]. intros t. by rewrite c2. Qed.

Lemma deliver_context u s U t : context <$> deliver u s U !! t = context <$> U !! t.
Proof.
  unfold deliver. destruct (decide (t = u)) as [->|Hne]; [|by rewrite lookup_alter_ne].
  rewrite lookup_alter_eq. destruct (U !! u) as [T|]; [|done]. simpl. by destruct (wakes T s).
Qed.

Lemma deliver_all_context objs es U t : context <$> deliver_all objs es U !! t = context <$> U !! t.
Proof.
  unfold deliver_all. generalize (omap (fun a => objs !! a) es). intros Ns. revert U.
  induction Ns as [|N Ns IH]; intros U; simpl; [done|]. by rewrite IH, deliver_context.
Qed.

Section nesting.
Context (I : Kernel -> Prop) (R : Kernel -> Kernel -> Prop).

Lemma wp_irq_body i k (P : unit -> Kernel -> Prop) : served k ->
  (forall k', served k' -> same_contexts k k' -> P tt k') -> wp I R (irq_body i) k P.
Proof.
  intros [(Hh & Hp & Hn) (Q & rs & ws & ts & HK) Hi] HP. destruct i; simpl.
  - unfold SysTick_Handler. eapply wp_bind, wp_gets, wp_bind, wp_modify, wp_bind, wp_gets.
    destruct (0 =? _); [apply wp_modify|apply wp_ret]; (apply HP; [|done]);
      (split; [done|exists Q, rs, ws, ts; by eapply kinv_frame; [..|exact HK]|exact Hi]).
  - unfold TIM2_IRQHandler. eapply wp_bind, wp_gets, wp_bind, wp_modify.
    set (k1 := set_timer_now _ k).
    eapply (wp_timer_poll _ _ k1 Q rs ws ts); [by apply handler_calm|simpl; lia| |exact Hi|].
    { by eapply kinv_frame; [..|exact HK]. }
    intros k' [(Q' & rs' & ws' & HK' & _) Hi' Et _ _ [(E1 & E2 & E3) Er _ _ _ _ _]].
    apply HP; split; [rewrite E1, E2, E3; done|eauto|done|done|].
    intros t. rewrite Et. apply deliver_all_context.
Qed.

Lemma wp_nested js : forall k (P : unit -> Kernel -> Prop), served k ->
  (forall k', served k' -> same_contexts k k' -> P tt k') -> wp I R (nested js) k P.
Proof.
  induction js as [|i js IH]; intros k P Hk HP; simpl; [by apply wp_ret, HP|].
  eapply wp_bind, wp_irq_body; [done|]. intros k1 Hk1 Hs1. apply IH; [done|].
  intros k2 Hk2 Hs2. apply HP; [done|]. by eapply same_contexts_trans.
Qed.
End nesting.

Lemma served_running k : served k -> exists T, tasks k !! running k = Some T /\ task_ok T /\
  scheduled (state T) = true.
Proof.
  intros [_ (Q & rs & ws & ts & HK) _]. destruct (ki_running _ _ _ _ _ HK) as (T & HT & Hs).
  exists T. split_and!; [done| |done]. exact (twf_ok _ _ _ _ _ _ (ki_tasks _ _ _ _ _ HK _ _ HT) Hs).
Qed.

Lemma served_verify k : served k -> task_verify (running k) k = Ret tt k.
Proof.
  intros Hk. destruct (served_running k Hk) as (T & HT & Hok & Hs). destruct (sv_mode k Hk) as (? & ? & Hn).
  assert (run (task_verify (running k)) k (fun _ k' => k' = k)) as ([] & k' & E & ->); [|exact E].
  apply wp_run. eapply wp_task_verify; [by apply handler_calm|lia|done|done|by destruct (state T)|done].
Qed.

Lemma served_nested js k : served k -> exists k', nested js k = Ret tt k' /\ served k' /\ same_contexts k k'.
Proof.
  intros Hk. assert (run (nested js) k (fun _ k' => served k' /\ same_contexts k k')) as ([] & k' & E & H).
  { apply wp_run. by apply wp_nested. }
  by exists k'.
Qed.

Lemma served_switch k f T : served k -> tasks k !! running k = Some T -> frame_ok f T ->
  exists k', PendSV_switch f k = Ret tt k' /\ served k'.
Proof.
  intros Hk HT Hf. destruct Hk as [(Hh & Hp & Hn) (Q & rs & ws & ts & HK) Hi].
  assert (run (PendSV_switch f) k (fun _ k' => dispatched k f Q rs ws ts T k')) as ([] & k' & E & Hd).
  { apply wp_run. eapply wp_pendsv_switch; [done..| |done|done|done|done].
    exact (candidates_nonempty k Q rs ws ts T HK Hi HT). }
  exists k'. split; [done|]. destruct Hd as (r & rs' & m' & X & _ & HX & HXs & Ek & HK' & _).
  split; [by rewrite Ek|by eexists _, _, _, _|].
  apply (idle_switch k f T X k' HT Hi). by rewrite Ek.
Qed.

Lemma frame_ok_context f T T' : context T' = context T -> frame_ok f T -> frame_ok f T'.
Proof. unfold frame_ok. by intros ->. Qed.

Lemma load_running_ret k T : tasks k !! running k = Some T -> load_running k = Ret T k.
Proof.
  intros HT. unfold load_running. rewrite (run_bind (gets running) _ k (running k) k) by done.
  unfold load. by rewrite HT.
Qed.

(** The handler without interrupts. *)
Lemma handler_run k k' f T : served k -> PendSV_switch f k = Ret tt k' -> served k' ->
  tasks k' !! running k' = Some T -> PendSV_Handler_user f k = Ret (frame (context T)) k'.
Proof.
  intros Hk E Hk' HT. unfold PendSV_Handler_user.
  rewrite (run_bind _ _ k (running k) k), (run_bind _ _ _ _ _ (served_verify k Hk)) by done.
  rewrite (run_bind _ _ _ _ _ E).
  rewrite (run_bind _ _ k' (running k') k'), (run_bind _ _ _ _ _ (served_verify k' Hk')) by done.
  by rewrite (run_bind _ _ _ _ _ (load_running_ret k' T HT)).
Qed.

Lemma context_lookup k k' t T : same_contexts k k' -> tasks k !! t = Some T ->
  exists T', tasks k' !! t = Some T' /\ context T' = context T.
Proof.
  intros [_ Hc] HT. specialize (Hc t). rewrite HT in Hc.
  destruct (tasks k' !! t) as [T'|]; simplify_eq/=. eauto.
Qed.

Lemma nested_app js js' k k' : nested js k = Ret tt k' -> nested (js ++ js') k = nested js' k'.
Proof.
  revert k. induction js as [|j js IH]; intros k; simpl; [by intros [= ->]|].
  unfold mbind, M_bind. destruct (irq_body j k) as [[] k1| | | |]; simpl; try done. apply IH.
Qed.

(** Interrupts arrive where PRIMASK is clear. *)
Lemma served_point js k : served k ->
  exists k', point js k = Ret tt k' /\ nested js k = Ret tt k' /\ served k' /\ same_contexts k k'.
Proof.
  intros Hk. destruct (served_nested js k Hk) as (k' & E & Hk' & Hs). exists k'. split_and!; try done.
  unfold point. rewrite (run_bind _ _ k false k); [done|].
  unfold gets. by destruct (sv_mode k Hk) as (_ & -> & _).
Qed.

(** Reading [running], with an interrupt behind it, and checking the task. *)
Lemma served_check {A} js js' k (m : M A) : served k ->
  exists k1 k2, nested js k = Ret tt k1 /\ nested js' k1 = Ret tt k2 /\ served k2 /\
    same_contexts k k2 /\
    (r ← gets running; point js;; task_verify r;; point js';; m) k = m k2.
Proof.
  intros Hk. destruct (served_point js k Hk) as (k1 & P1 & E1 & Hk1 & Hs1).
  destruct (served_point js' k1 Hk1) as (k2 & P2 & E2 & Hk2 & Hs2).
  exists k1, k2. split_and!; [done..|by eapply same_contexts_trans|].
  rewrite (run_bind _ _ k (running k) k), (run_bind _ _ _ _ _ P1) by done.
  rewrite <- (sx_running _ _ Hs1). by rewrite (run_bind _ _ _ _ _ (served_verify k1 Hk1)), (run_bind _ _ _ _ _ P2).
Qed.

(** C15. The scheduler is atomic as far as SysTick and TIM2 can tell.  With any
    numbers of them arriving at any places between the statements of
    [PendSV_Handler_user], each served at once where PRIMASK is clear and none
    where it is set, the handler returns the same frame in the same final state
    as when those that arrive before the [__disable_irq] are served before the
    handler and those behind the [__enable_irq] behind it.  The statements are
    those of the handler: with nothing at the places between them they are
    [PendSV_Handler_user]. *)
Theorem pendsv_nesting k Q rs ws ts T f w :
  kinv k Q rs ws ts -> idle_ok k -> tasks k !! running k = Some T -> frame_ok f T ->
  handler k = true -> primask k = false -> id_nestcnt k = -1 ->
  PendSV_at (fun _ => mret tt) f = PendSV_Handler_user f /\
  exists a k', PendSV_nested w f k = Ret a k' /\ PendSV_chained w f k = Ret a k'.
Proof.
  intros HK Hi HT Hf Hh Hp Hn. split; [reflexivity|].
  assert (served k) as Hk by (split; [done|by exists Q, rs, ws, ts|done]).
  destruct (served_point (w 0%nat) k Hk) as (k1 & P1 & E1 & Hk1 & Hs1).
  destruct (served_check (w 1%nat) (w 2%nat) k1 (PendSV_switch_at (fun i => point (w i)) f;;
    point (w 18%nat);; r ← gets running; point (w 19%nat);; task_verify r;; point (w 20%nat);;
    T ← load_running; point (w 21%nat);; mret (frame (context T))) Hk1)
    as (k2 & k3 & E2 & E3 & Hk3 & Hs3 & R3).
  assert (same_contexts k k3) as Hs by by eapply same_contexts_trans.
  destruct (context_lookup _ _ _ T Hs HT) as (T1 & HT1 & Hc1). rewrite <- (sx_running _ _ Hs) in HT1.
  destruct (served_switch k3 f T1 Hk3 HT1) as (k4 & E4 & Hk4); [by eapply frame_ok_context|].
  destruct (served_point (w 18%nat) k4 Hk4) as (k5 & P5 & E5 & Hk5 & Hs5).
  destruct (served_check (w 19%nat) (w 20%nat) k5
    (T ← load_running; point (w 21%nat);; mret (frame (context T))) Hk5)
    as (k6 & k7 & E6 & E7 & Hk7 & Hs7 & R7).
  destruct (served_point (w 21%nat) k7 Hk7) as (k8 & P8 & E8 & Hk8 & Hs8).
  destruct (served_running k4 Hk4) as (T4 & HT4 & _).
  pose proof (same_contexts_trans _ _ _ Hs5 Hs7) as Hs47.
  destruct (context_lookup _ _ _ T4 Hs47 HT4) as (T7 & HT7 & Hc7). rewrite <- (sx_running _ _ Hs47) in HT7.
  exists (frame (context T4)), k8. split.
  - unfold PendSV_nested, PendSV_at. rewrite (run_bind _ _ _ _ _ P1), R3.
    assert (PendSV_switch_at (fun i => point (w i)) f k3 = Ret tt k4) as E4' by by rewrite PendSV_switch_masked.
    rewrite (run_bind _ _ _ _ _ E4'), (run_bind _ _ _ _ _ P5), R7.
    rewrite (run_bind load_running _ k7 T7 k7) by by apply load_running_ret.
    rewrite (run_bind _ _ _ _ _ P8). by rewrite <- Hc7.
  - unfold PendSV_chained. rewrite (run_bind _ _ _ tt k3).
    2: { unfold before. by rewrite (nested_app _ _ _ _ E1), (nested_app _ _ _ _ E2). }
    rewrite (run_bind _ _ _ (frame (context T4)) k4) by by apply (handler_run k3 k4 f T4).
    rewrite (run_bind _ _ _ tt k8); [done|]. unfold behind.
    by rewrite (nested_app _ _ _ _ E5), (nested_app _ _ _ _ E6), (nested_app _ _ _ _ E7).
Qed.

(** Ticks arrive at every place: before the critical section they wake [demo_b],
    inside it they are masked. *)
Definition demo_handled : Kernel := set_handler true demo_timed.
Definition demo_arrivals (i : nat) : list interrupt := if Nat.even i then [TIM2] else [SysTick; TIM2].

Lemma pendsv_nesting_witness : exists a k',
  PendSV_nested demo_arrivals (demo_stack_a + 512) demo_handled = Ret a k' /\
  PendSV_chained demo_arrivals (demo_stack_a + 512) demo_handled = Ret a k'.
Proof.
  destruct (tasks demo_handled !! demo_a) as [T|] eqn:HT; [|vm_compute in HT; discriminate HT].
  apply (pendsv_nesting demo_handled (demo_Qt [init_task] [demo_b] [demo_t1; demo_t2])
    [init_task] [demo_b] [demo_t1; demo_t2] T).
  - eapply kinv_frame; [..|exact demo_timed_kinv]; reflexivity.
  - eexists. split; [vm_compute; reflexivity|]. left. reflexivity.
  - exact HT.
  - vm_compute in HT. injection HT as <-. split; vm_compute; discriminate.
  - reflexivity.
  - reflexivity.
  - reflexivity.
Defined.
