(* ===== verification/Mail.v ===== *)
(** * Message ports in memory

    The contents of a message port as a property of the state, and what leaves
    it alone: the kernel's own work on the task lists and the timer queue. *)

From S2P Require Import Prelude Heap Lists Machine Logic Context Task Invariant.

(** A port that [msgport_init] or [sys_mbox_new] has set up. *)
Definition open_port (k : Kernel) (p : addr) (P : MsgPort) : Prop :=
  ports k !! p = Some P /\ action P <> MSGPORT_INVALID.

(** [mail k p xs]: the open port [p] holds the messages [xs]. *)
Definition mail (k : Kernel) (p : addr) (xs : list Z) : Prop :=
  (exists P, open_port k p P) /\ dll (links (heap k)) p xs.

(** The message [a] is in a port. *)
Definition posted (k : Kernel) (a : addr) : Prop := exists p xs, mail k p xs /\ a ∈ xs.

(** Memory determines the contents of a list. *)
Lemma seg_fun m : forall xs ys a p p', NULL ∉ xs -> NULL ∉ ys ->
  seg m p (a :: xs) NULL -> seg m p' (a :: ys) NULL -> xs = ys.
Proof.
  induction xs as [|x xs IH]; intros ys a p p' Hx Hy [E1 H1] [E2 H2];
    rewrite E1 in E2; injection E2 as E _; destruct ys as [|y ys]; simpl in *.
  - done.
  - set_solver.
  - set_solver.
  - subst y. f_equal. apply (IH ys x a a); [set_solver|set_solver|done|done].
Qed.

Lemma dll_fun m l xs ys : dll m l xs -> dll m l ys -> xs = ys.
Proof.
  intros [[Hx _]%NoDup_cons Sx] [[Hy _]%NoDup_cons Sy]. unfold chain in *.
  assert (xs ++ [tail l] = ys ++ [tail l]) as E.
  { eapply (seg_fun m _ _ l); [| |exact Sx|exact Sy]; set_solver. }
  by apply app_inj_tail in E as [-> _].
Qed.

Lemma mail_fun k p xs ys : mail k p xs -> mail k p ys -> xs = ys.
Proof. intros [_ Hx] [_ Hy]. by eapply dll_fun. Qed.

(** ** What keeps the mail *)
Record kept_mail (k k' : Kernel) : Prop := mkKeptMail {
  km_ports : ports k' = ports k;
  km_mail : forall p xs, mail k p xs <-> mail k' p xs }.

Lemma kept_same k k' : ports k' = ports k -> links (heap k') = links (heap k) -> kept_mail k k'.
Proof.
  intros Ep El. split; [done|]. intros p xs. unfold mail, open_port. by rewrite Ep, El.
Qed.

#[export] Hint Extern 0 (kept_mail _ _) => (apply kept_same; reflexivity) : core.

Lemma kept_trans k1 k2 k3 : kept_mail k1 k2 -> kept_mail k2 k3 -> kept_mail k1 k3.
Proof.
  intros [E1 H1] [E2 H2]. split; [congruence|]. intros p xs. by rewrite H1.
Qed.

(** The open ports among the lists of the system. *)
Definition ports_in (k : Kernel) (Q : Queues) : Prop :=
  forall p P, open_port k p P -> ~ kernel_list p /\ is_Some (Q !! p).

Lemma mail_queue k Q p P : reps (links (heap k)) Q -> ports_in k Q -> open_port k p P ->
  exists xs, Q !! p = Some xs /\ mail k p xs.
Proof.
  intros Hr Hin HP. destruct (Hin p P HP) as [_ [xs Hxs]]. exists xs. split; [done|].
  split; [by exists P|]. by apply (reps_dll _ _ Hr).
Qed.

Lemma mail_lookup k Q p xs : reps (links (heap k)) Q -> ports_in k Q -> mail k p xs ->
  Q !! p = Some xs.
Proof.
  intros Hr Hin Hm. destruct (proj1 Hm) as [P HP].
  destruct (mail_queue k Q p P Hr Hin HP) as (ys & Hys & Hy). by rewrite (mail_fun k p xs ys).
Qed.

(** When the lists change, but for those of the ports, so does no mail. *)
Lemma kept_lists k k' Q Q' : reps (links (heap k)) Q -> reps (links (heap k')) Q' ->
  ports_in k Q -> ports k' = ports k -> (forall l, ~ kernel_list l -> Q' !! l = Q !! l) ->
  kept_mail k k'.
Proof.
  intros Hr Hr' Hin Ep Hq. split; [done|]. intros p xs.
  assert (forall P, open_port k p P <-> open_port k' p P) as Ho
    by (intros P; unfold open_port; by rewrite Ep).
  assert (forall P, open_port k p P -> dll (links (heap k)) p xs <-> dll (links (heap k')) p xs) as Hd.
  { intros P HP. destruct (Hin p P HP) as [Hk [ys Hys]].
    pose proof (reps_dll _ _ Hr p ys Hys) as H1. rewrite <- (Hq p Hk) in Hys.
    pose proof (reps_dll _ _ Hr' p ys Hys) as H2.
    split; intros H; [rewrite (dll_fun _ _ _ _ H H1)|rewrite (dll_fun _ _ _ _ H H2)]; done. }
  split; intros [[P HP] Hx]; (split; [exists P; by apply Ho|]).
  - by apply (Hd P).
  - apply (Hd P); [by apply Ho|done].
Qed.

Lemma kept_posted k k' a : kept_mail k k' -> posted k' a <-> posted k a.
Proof.
  intros [_ Hm]. split; intros (p & xs & H & Ha); exists p, xs; (split; [by apply Hm|done]).
Qed.
