(* ===== verification/Rely.v ===== *)
(** * Tasks and their environment

    What a task may assume when it is resumed after a preemption: interrupt
    handlers ran, other tasks ran, but the kernel invariant and the README's
    scheduling invariant hold again, the task's own fields changed only the way
    the kernel changes them for it, and nobody but the timer service touched the
    objects it owns. *)

From S2P Require Import Prelude Heap Lists ListSpec Machine Logic Context Task.
From S2P Require Import Platform Timer Invariant TaskSpec SchedSpec Signals TimerSpec Mail.

(** ** Applications

    What the tasks of an application agree on: the name each task is created
    with, the owner of each object (of a timer the task that uses it, of a task
    the one that creates it), and the signals other tasks may send to a task. *)
Class App := mkApp {
  app_name : addr -> string;
  app_owner : addr -> addr;
  app_public : addr -> Z }.

Definition sched_task (k : Kernel) (u : addr) : Prop :=
  exists U, tasks k !! u = Some U /\ scheduled (state U) = true.

(** No task that takes part in scheduling is at [a]. *)
Definition unsched (k : Kernel) (a : addr) : Prop :=
  forall T, tasks k !! a = Some T -> scheduled (state T) = false.

(** The parts of the memory that no task but the owner of the objects may
    change. *)
Record same_objs (k k' : Kernel) : Prop := mkSameObjs {
  so_links : dom (links (heap k')) = dom (links (heap k));
  so_nodes : nodes (heap k') = nodes (heap k);
  so_timers : timer_objs k' = timer_objs k;
  so_words : dom (words k') = dom (words k);
  so_mail : kept_mail k k' }.

Lemma same_objs_refl k : same_objs k k.
Proof. by split. Qed.

(** A timer while its owner is preempted: it may expire. *)
Inductive timer_env : option Timer -> option Timer -> Prop :=
| te_same X : timer_env X X
| te_fired X : status X = TIMER_ADDED ->
    timer_env (Some X) (Some (set_status TIMER_DONE X)).

Lemma timer_env_trans X Y Z : timer_env X Y -> timer_env Y Z -> timer_env X Z.
Proof.
  intros [?|V HV] Hyz; [done|].
  inversion Hyz as [|W HW]; subst; [by constructor|done].
Qed.

(** The object at address [a] while its owner is preempted: a port may receive
    messages; nobody else posts a message. *)
Record cell_env (k k' : Kernel) (a : addr) : Prop := mkCellEnv {
  ce_link : is_Some (links (heap k) !! a) <-> is_Some (links (heap k') !! a);
  ce_timer : timer_env (timer_objs k !! a) (timer_objs k' !! a);
  ce_task : unsched k a ->
    tasks k' !! a = tasks k !! a /\ nodes (heap k') !! a = nodes (heap k) !! a;
  ce_port : ports k' !! a = ports k !! a;
  ce_mail : forall xs, mail k a xs -> exists ys, mail k' a (xs ++ ys);
  ce_posted : posted k' a -> posted k a }.

Lemma cell_env_trans k1 k2 k3 a : cell_env k1 k2 a -> cell_env k2 k3 a -> cell_env k1 k3 a.
Proof.
  intros [l1 t1 u1 p1 m1 o1] [l2 t2 u2 p2 m2 o2].
  split; [by rewrite l1|by eapply timer_env_trans| |congruence| |auto].
  - intros Hu. destruct (u1 Hu) as [E1 E2]. destruct u2 as [F1 F2]; [|split; congruence].
    intros T. rewrite E1. apply Hu.
  - intros xs (ys & (zs & Hz)%m2)%m1. exists (ys ++ zs). by rewrite app_assoc.
Qed.

Lemma cell_env_mail k k' a : kept_mail k k' -> ports k' !! a = ports k !! a /\
  (forall xs, mail k a xs -> exists ys, mail k' a (xs ++ ys)) /\ (posted k' a -> posted k a).
Proof.
  intros Hk. pose proof Hk as [E Hm]. split_and!; [by rewrite E| |by apply kept_posted].
  intros xs Hx%Hm. exists []. by rewrite app_nil_r.
Qed.

Lemma same_links k k' a : dom (links (heap k')) = dom (links (heap k)) ->
  is_Some (links (heap k) !! a) <-> is_Some (links (heap k') !! a).
Proof. intros Hd. by rewrite <- !elem_of_dom, Hd. Qed.

Lemma cell_env_same k k' a : same_objs k k' -> (unsched k a -> tasks k' !! a = tasks k !! a) ->
  cell_env k k' a.
Proof.
  intros [Hl Hn Ht _ Hm] Hu. pose proof (cell_env_mail k k' a Hm) as (? & ? & ?).
  split; [by apply same_links|rewrite Ht; constructor| |done..].
  intros Ha. by rewrite Hn, Hu.
Qed.

Section app.
Context `{AP : App}.

(** What all tasks keep of the application's objects. *)
Record app_ok (k : Kernel) (Q : Queues) (ts : list Z) : Prop := mkAppOk {
  ao_timer : forall a X, timer_objs k !! a = Some X ->
    a <> NULL /\ tasks k !! a = None /\ is_Some (links (heap k) !! a) /\
    (a ∈ ts \/ unowned Q a);
  ao_queue : forall a X, a ∈ ts -> timer_objs k !! a = Some X -> tm_task X = app_owner a;
  ao_null : exists c s, nodes (heap k) !! NULL = Some c /\ name c = Some s /\
    forall t, t ∈ dom (tasks k) -> app_name t <> s;
  ao_name : forall t, sched_task k t ->
    exists c, nodes (heap k) !! t = Some c /\ name c = Some (app_name t);
  ao_inj : forall t u, t ∈ dom (tasks k) -> u ∈ dom (tasks k) ->
    app_name t = app_name u -> t = u;
  ao_ports : ports_in k Q;
  ao_lists : forall l, is_Some (Q !! l) -> kernel_list l \/ exists P, open_port k l P;
  ao_signal : forall p P, open_port k p P -> action P = MSGPORT_SIGNAL ->
    mp_task P = app_owner p /\ is_signals (mp_signal P) /\ sched_task k (app_owner p) }.

(** The ports, when they stay the same and keep their lists. *)
Lemma app_ok_ports k k' Q Q' ts : app_ok k Q ts -> ports k' = ports k ->
  (forall l, ~ kernel_list l -> is_Some (Q !! l) <-> is_Some (Q' !! l)) ->
  (forall t, sched_task k t -> sched_task k' t) ->
  ports_in k' Q' /\ (forall l, is_Some (Q' !! l) -> kernel_list l \/ exists P, open_port k' l P) /\
  forall p P, open_port k' p P -> action P = MSGPORT_SIGNAL ->
    mp_task P = app_owner p /\ is_signals (mp_signal P) /\ sched_task k' (app_owner p).
Proof.
  intros [_ _ _ _ _ Hpo Hli Hsi] Hp Hqs Hs.
  assert (forall p P, open_port k' p P <-> open_port k p P) as Ho
    by (intros p P; unfold open_port; by rewrite Hp).
  split_and!.
  - intros p P HP%Ho. destruct (Hpo p P HP) as [Hk Hx]. split; [done|]. by apply Hqs.
  - intros l Hx. destruct (decide (l = ready \/ l = waiting \/ l = timers)) as [?|Hk]; [by left|].
    apply Hqs in Hx; [|done]. destruct (Hli l Hx) as [?|[P HP]]; [by left|right].
    exists P. by apply Ho.
  - intros p P HP%Ho Hact. destruct (Hsi p P HP Hact) as (? & ? & ?). auto.
Qed.

Lemma app_ok_step k k' Q Q' ts ts' : app_ok k Q ts ->
  dom (tasks k') = dom (tasks k) -> dom (links (heap k')) = dom (links (heap k)) ->
  nodes (heap k') = nodes (heap k) ->
  (forall a X', timer_objs k' !! a = Some X' ->
    exists X, timer_objs k !! a = Some X /\ tm_task X' = tm_task X) ->
  keeps_free k Q ts Q' ts' -> (forall a, a ∈ ts' -> a ∈ ts) ->
  (forall t, sched_task k' t -> sched_task k t) -> ports k' = ports k ->
  (forall t, sched_task k t -> sched_task k' t) -> app_ok k' Q' ts'.
Proof.
  intros Ha Hd Hl Hn Ht [Hfree Hqs] Hts Hs Hp Hs'.
  destruct (app_ok_ports k k' Q Q' ts Ha Hp) as (? & ? & ?); [intros; by rewrite Hqs|done|].
  destruct Ha as [Htm Hq Hnull Hname Hinj _ _ _]. split; [..|done|done|done].
  - intros a X' HX'. destruct (Ht a X' HX') as (X & HX & _).
    destruct (Htm a X HX) as (Hz & Hta & Hlk & Hpl). split_and!; [done| | |by apply Hfree].
    + apply not_elem_of_dom. rewrite Hd. by apply not_elem_of_dom.
    + by apply (same_links k k').
  - intros a X' Ha HX'. destruct (Ht a X' HX') as (X & HX & ->). eauto.
  - by rewrite Hn, Hd.
  - intros t HT. rewrite Hn. auto.
  - by rewrite Hd.
Qed.

(** ** The environment of a task

    [own_env t S k k']: the objects of [t], but for those in [S], changed at
    most as the timer service changes them. *)
Record own_env (t : addr) (S : list Z) (k k' : Kernel) : Prop := mkOwnEnv {
  oe_cells : forall a, app_owner a = t -> a ∉ S -> cell_env k k' a;
  oe_dom : dom (tasks k') = dom (tasks k);
  oe_words : dom (words k') = dom (words k);
  oe_sched : forall u, sched_task k u -> sched_task k' u;
  oe_open : forall p P, open_port k p P -> exists P', open_port k' p P';
  oe_ports : dom (ports k') = dom (ports k) }.

Lemma own_env_trans t S k1 k2 k3 : own_env t S k1 k2 -> own_env t S k2 k3 -> own_env t S k1 k3.
Proof.
  intros [c1 d1 w1 s1 o1 p1] [c2 d2 w2 s2 o2 p2].
  split; [|congruence|congruence|auto| |congruence].
  - intros a Ha HS. eapply cell_env_trans; [by apply c1|by apply c2].
  - intros p P HP. destruct (o1 p P HP) as [P1 HP1]. eauto.
Qed.

Lemma own_env_mono t S S' k k' : own_env t S k k' -> S ⊆ S' -> own_env t S' k k'.
Proof. intros [c d w s o p] HS. split; [|done..]. intros a Ha Hn. apply c; [done|set_solver]. Qed.

(** Ports stay open where the mail is kept. *)
Lemma kept_open k k' : kept_mail k k' ->
  (forall p P, open_port k p P -> exists P', open_port k' p P') /\ dom (ports k') = dom (ports k).
Proof.
  intros [E _]. rewrite E. split; [|done]. intros p P HP. exists P. unfold open_port. by rewrite E.
Qed.

Lemma own_env_same t S k k' : same_objs k k' -> tasks k' = tasks k -> own_env t S k k'.
Proof.
  intros Ho Et. destruct (kept_open k k' (so_mail _ _ Ho)).
  split; [|by rewrite Et|apply Ho|intros u; unfold sched_task; by rewrite Et|done..].
  intros a _ _. apply cell_env_same; [done|]. by rewrite Et.
Qed.

(** A task that takes part in scheduling changes. *)
Lemma own_env_insert t S k k' u U U' : same_objs k k' -> tasks k !! u = Some U ->
  tasks k' = <[u := U']> (tasks k) -> scheduled (state U) = true ->
  scheduled (state U') = true -> own_env t S k k'.
Proof.
  intros Ho HU Et Hs Hs'. destruct (kept_open k k' (so_mail _ _ Ho)).
  split; [| | | |done|done].
  - intros a _ _. apply cell_env_same; [done|]. intros Hu. rewrite Et.
    apply lookup_insert_ne. intros ->. specialize (Hu U HU). congruence.
  - rewrite Et. by apply dom_insert_lookup_L.
  - apply Ho.
  - intros v (V & HV & HVs). unfold sched_task. rewrite Et.
    destruct (decide (u = v)) as [->|Hne]; [exists U'; by rewrite lookup_insert_eq|].
    exists V. by rewrite lookup_insert_ne.
Qed.

(** The signals [t] may have received between [k] and [k']: those that other tasks
    may send it, those of its timers that expired, and those of its ports that
    received a message. *)
Definition timed (t : addr) (k k' : Kernel) (i : Z) : Prop :=
  exists a X X', app_owner a = t /\ timer_objs k !! a = Some X /\
    timer_objs k' !! a = Some X' /\ status X = TIMER_ADDED /\ status X' = TIMER_DONE /\
    Z.testbit (tm_signal X) i = true.

Definition mailed (t : addr) (k k' : Kernel) (i : Z) : Prop :=
  exists p P, app_owner p = t /\ open_port k p P /\ action P = MSGPORT_SIGNAL /\
    Z.testbit (mp_signal P) i = true /\
    forall xs, mail k p xs -> exists y ys, mail k' p (xs ++ y :: ys).

Definition new_signal (t : addr) (k k' : Kernel) (i : Z) : Prop :=
  Z.testbit (app_public t) i = true \/ timed t k k' i \/ mailed t k k' i.

Lemma new_signal_after t k1 k2 k3 i :
  new_signal t k1 k2 i -> own_env t [] k2 k3 -> new_signal t k1 k3 i.
Proof.
  intros [?|[(a & X & X' & Ha & HX & HX' & Hs & Hs' & Hb)|
    (p & P & Hp & HP & Hact & Hb & Hm)]] Hoe; [by left|right; left|right; right].
  - destruct (oe_cells _ _ _ _ Hoe a Ha) as [_ Ht _]; [set_solver|].
    rewrite HX' in Ht. exists a, X, X'. split_and!; try done.
    inversion Ht as [|V HV]; simplify_eq; [done|congruence].
  - exists p, P. split_and!; try done. intros xs (y & ys & Hy)%Hm.
    destruct (ce_mail _ _ _ (oe_cells _ _ _ _ Hoe p Hp (not_elem_of_nil _)) _ Hy) as (zs & Hz).
    exists y, (ys ++ zs). by rewrite <- app_assoc in Hz.
Qed.

Lemma new_signal_before t k1 k2 k3 i :
  own_env t [] k1 k2 -> new_signal t k2 k3 i -> new_signal t k1 k3 i.
Proof.
  intros Hoe [?|[(a & X & X' & Ha & HX & HX' & Hs & Hs' & Hb)|
    (p & P & Hp & HP & Hact & Hb & Hm)]]; [by left|right; left|right; right].
  - destruct (oe_cells _ _ _ _ Hoe a Ha) as [_ Ht _]; [set_solver|].
    rewrite HX in Ht. exists a, X, X'. split_and!; try done.
    inversion Ht as [|V HV E1 E2]; [done|]. by subst.
  - destruct (oe_cells _ _ _ _ Hoe p Hp (not_elem_of_nil _)) as [_ _ _ Ep Em _].
    exists p, P. split_and!; try done; [unfold open_port; by rewrite <- Ep|].
    intros xs (zs & (y & ys & Hy)%Hm)%Em. rewrite <- app_assoc in Hy.
    destruct zs as [|z zs]; [by exists y, ys|by exists z, (zs ++ y :: ys)].
Qed.

(** The fields of a task that takes part in scheduling. *)
Record live_env (t : addr) (k k' : Kernel) (T T' : Task) : Prop := mkLiveEnv {
  env_alloc : sig_alloc T' = sig_alloc T;
  env_wait : sig_wait T' = sig_wait T;
  env_recvd : Z.land (sig_recvd T) (sig_recvd T') = sig_recvd T;
  env_new : forall i, Z.testbit (sig_recvd T') i = true ->
    Z.testbit (sig_recvd T) i = true \/ new_signal t k k' i;
  env_sched : scheduled (state T') = true;
  env_awake : state T <> TASK_WAITING -> state T' <> TASK_WAITING;
  env_woken : state T = TASK_WAITING -> state T' <> TASK_WAITING ->
    Z.land (sig_wait T) (sig_recvd T') <> 0 }.

(** [env t k k']: what may happen between [k], where task [t] is preempted or
    not created yet, and [k'], as far as [t] can tell. *)
Record env_task (t : addr) (k k' : Kernel) (T T' : Task) : Prop := mkEnvTask {
  env_live : scheduled (state T) = true -> live_env t k k' T T';
  env_born : scheduled (state T) = false -> scheduled (state T') = true ->
    sig_alloc T' = SIGF_SINGLE;
  env_stay : running k' = t -> state T = TASK_RUNNING \/ running k <> t ->
    state T' = TASK_RUNNING;
  env_switch : running k' = t -> pendsv k = true ->
    pendsv k' = true \/ state T' = TASK_RUNNING }.

Record env (t : addr) (k k' : Kernel) : Prop := mkEnv {
  env_own : own_env t [] k k';
  env_self : forall T, tasks k !! t = Some T ->
    exists T', tasks k' !! t = Some T' /\ env_task t k k' T T' }.

(** Transitivity: environments compose. *)
Lemma land_superset_trans a b c : Z.land a b = a -> Z.land b c = b -> Z.land a c = a.
Proof. intros H1 H2. rewrite <- H1 at 1. rewrite <- Z.land_assoc, H2. done. Qed.

Lemma land_superset_nz w a b : Z.land a b = a -> Z.land w a <> 0 -> Z.land w b <> 0.
Proof.
  intros Hs Hn E. apply Hn. rewrite <- Hs, (Z.land_comm a b), Z.land_assoc, E.
  apply Z.land_0_l.
Qed.

Lemma live_env_trans t k1 k2 k3 T1 T2 T3 : own_env t [] k1 k2 -> own_env t [] k2 k3 ->
  live_env t k1 k2 T1 T2 -> live_env t k2 k3 T2 T3 -> live_env t k1 k3 T1 T3.
Proof.
  intros O1 O2 [a1 w1 r1 n1 s1 k1' o1] [a2 w2 r2 n2 s2 k2' o2].
  split; try congruence; auto.
  - by eapply land_superset_trans.
  - intros i [Hi|Hi]%n2; [|right; by eapply new_signal_before].
    apply n1 in Hi as [?|Hi]; [by left|right; by eapply new_signal_after].
  - intros Hs Hs3. destruct (decide (state T2 = TASK_WAITING)) as [E|E].
    + rewrite <- w1. auto.
    + eapply land_superset_nz; [exact r2|auto].
Qed.

Lemma env_trans t k1 k2 k3 : env t k1 k2 -> env t k2 k3 -> env t k1 k3.
Proof.
  intros [O1 H1] [O2 H2]. split; [by eapply own_env_trans|].
  intros T1 HT1. destruct (H1 T1 HT1) as (T2 & HT2 & [l1 b1 y1 p1]).
  destruct (H2 T2 HT2) as (T3 & HT3 & [l2 b2 y2 p2]). exists T3. split; [done|]. split.
  - intros Hs. specialize (l1 Hs). eapply live_env_trans; [done..|].
    apply l2, (env_sched _ _ _ _ _ l1).
  - intros Hs Hs3. destruct (scheduled (state T2)) eqn:E2; [|auto].
    rewrite (env_alloc _ _ _ _ _ (l2 eq_refl)). auto.
  - intros Hr Hs. apply y2; [done|].
    destruct (decide (running k2 = t)); [left; auto|by right].
  - intros Hr Hp. destruct (decide (running k2 = t)) as [E|E].
    + destruct (p1 E Hp) as [Hp2|Hs2]; [auto|]. right. auto.
    + right. apply y2; auto.
Qed.

(** What a running task knows of its own fields, and no one else changes. *)
Definition holds (t : addr) (k : Kernel) (alloc : Z) : Prop :=
  exists T, tasks k !! t = Some T /\ scheduled (state T) = true /\ sig_alloc T = alloc.

Lemma holds_env t k k' alloc : holds t k alloc -> env t k k' -> holds t k' alloc.
Proof.
  intros (T & HT & Hs & Ha) [_ He]. destruct (He T HT) as (T' & HT' & [Hl _ _ _]).
  destruct (Hl Hs). exists T'. split_and!; [done|done|congruence].
Qed.

(** What delivering signals does to a task; [B]: the bits delivered. *)
Record roused (B : Z -> Prop) (T T' : Task) : Prop := mkRoused {
  ro_alloc : sig_alloc T' = sig_alloc T;
  ro_wait : sig_wait T' = sig_wait T;
  ro_recvd : Z.land (sig_recvd T) (sig_recvd T') = sig_recvd T;
  ro_bits : forall i, Z.testbit (sig_recvd T') i = true ->
    Z.testbit (sig_recvd T) i = true \/ B i;
  ro_state : state T' = state T \/
    state T = TASK_WAITING /\ state T' = TASK_READY /\ Z.land (sig_wait T) (sig_recvd T') <> 0 }.

Lemma roused_refl B T : roused B T T.
Proof. split; auto. apply Z.land_diag. Qed.

Lemma roused_trans B T1 T2 T3 : roused B T1 T2 -> roused B T2 T3 -> roused B T1 T3.
Proof.
  intros [a1 w1 r1 b1 s1] [a2 w2 r2 b2 s2]. split; try congruence.
  - by eapply land_superset_trans.
  - intros i [Hi|?]%b2; auto.
  - destruct s1 as [E1|(E1 & E2 & Hn)]; destruct s2 as [F1|(F1 & F2 & Hn')]; try congruence.
    + left. congruence.
    + right. split_and!; congruence.
    + right. split_and!; [done|congruence|]. by eapply land_superset_nz.
Qed.

Lemma roused_mono (B B' : Z -> Prop) T T' : (forall i, B i -> B' i) -> roused B T T' -> roused B' T T'.
Proof. intros HB []. split; auto. intros i Hi. destruct (ro_bits0 i Hi); auto. Qed.

Lemma roused_sched B T T' : roused B T T' -> scheduled (state T') = scheduled (state T).
Proof. intros [_ _ _ _ [->|(-> & -> & _)]]; done. Qed.

Lemma land_lor_self a b : Z.land a (Z.lor a b) = a.
Proof.
  apply Z.bits_inj'. intros i Hi. rewrite Z.land_spec, Z.lor_spec. by destruct (Z.testbit a i).
Qed.

Lemma deliver_roused u s U t T : U !! t = Some T -> exists T', deliver u s U !! t = Some T' /\
  roused (fun i => u = t /\ Z.testbit s i = true) T T'.
Proof.
  intros HT. unfold deliver. destruct (decide (u = t)) as [->|Hne].
  - rewrite lookup_alter_eq, HT. simpl. eexists. split; [done|].
    split; simpl; destruct (wakes T s) eqn:Hw; simpl; try done; auto.
    all: try apply land_lor_self.
    all: try (intros i; rewrite Z.lor_spec; intros [?|?]%orb_true_iff; auto).
    apply andb_true_iff in Hw as [Hw%bool_decide_eq_true Hb%negb_true_iff%Z.eqb_neq].
    right. split_and!; [done|done|]. intros E. apply Hb.
    rewrite Z.land_lor_distr_r in E. apply Z.lor_eq_0_iff in E as [_ E]. by rewrite Z.land_comm.
  - rewrite lookup_alter_ne by done. exists T. split; [done|apply roused_refl].
Qed.

Lemma deliver_all_roused objs es : forall U t T, U !! t = Some T ->
  exists T', deliver_all objs es U !! t = Some T' /\
    roused (fun i => exists a N, a ∈ es /\ objs !! a = Some N /\ tm_task N = t /\
      Z.testbit (tm_signal N) i = true) T T'.
Proof.
  unfold deliver_all. induction es as [|a es IH]; intros U t T HT; simpl.
  { exists T. split; [done|apply roused_refl]. }
  destruct (objs !! a) as [N|] eqn:HN; simpl.
  - destruct (deliver_roused (tm_task N) (tm_signal N) U t T HT) as (T1 & HT1 & Hr1).
    destruct (IH _ t T1 HT1) as (T2 & HT2 & Hr2). exists T2. split; [done|].
    eapply roused_trans; (eapply roused_mono; [|done]); simpl.
    + intros i [<- Hi]. exists a, N. set_solver.
    + intros i (b & X & Hb & HX). exists b, X. set_solver.
  - destruct (IH U t T HT) as (T2 & HT2 & Hr2). exists T2. split; [done|].
    eapply roused_mono; [|done]. simpl. intros i (b & X & Hb & HX). exists b, X. set_solver.
Qed.

(** Delivering signals is what the environment of a task does. *)
Lemma env_roused t k k' : own_env t [] k k' -> running k' = running k ->
  (pendsv k = true -> pendsv k' = true) ->
  (forall T, tasks k !! t = Some T -> exists T', tasks k' !! t = Some T' /\
    roused (new_signal t k k') T T') -> env t k k'.
Proof.
  intros Ho Hr Hp HT. split; [done|]. intros T HT0.
  destruct (HT T HT0) as (T' & HT' & Hro). exists T'. split; [done|].
  pose proof (roused_sched _ _ _ Hro) as Hs. destruct Hro as [a w r b s]. split.
  - intros Hs0. split; try done; [congruence|..].
    + intros Hn. destruct s as [->|(? & _)]; done.
    + intros Hw Hn. destruct s as [?|(_ & _ & ?)]; [congruence|done].
  - congruence.
  - rewrite Hr. intros Hrt [Hst|?]; [|done]. destruct s as [->|(? & _)]; congruence.
  - intros _ ?. left. auto.
Qed.

Lemma env_same t k k' : same_objs k k' -> tasks k' = tasks k -> running k' = running k ->
  (pendsv k = true -> pendsv k' = true) -> env t k k'.
Proof.
  intros Ho Et Er Ep. apply env_roused; [by apply own_env_same|done|done|].
  intros T HT. exists T. rewrite Et. split; [done|apply roused_refl].
Qed.

Lemma env_refl t k : env t k k.
Proof. by apply env_same. Qed.

(** [signal_send], of signals that [u] lets others send. *)
Lemma sent_own k Q rs ws ts u U s k' t S : kinv k Q rs ws ts -> app_ok k Q ts ->
  tasks k !! u = Some U -> scheduled (state U) = true -> is_signals s ->
  sent k Q rs ws u U s k' -> own_env t S k k' /\ kept_mail k k'.
Proof.
  intros HK Hao HU HUs Hsig Hs.
  pose proof (sent_same _ _ _ _ _ _ _ _ Hs) as [_ Hr Hn _ Hw Hp (_ & _ & Hpo & _)].
  pose proof (sent_kinv k Q rs ws ts u U s k' HK HU Hsig Hs) as HK'.
  destruct (sent_free _ _ _ _ _ _ _ _ _ HK HU Hs) as (Hfree & Hl & Hd & Ht).
  pose proof (sent_tasks _ _ _ _ _ _ _ _ HU Hs) as Et.
  assert (kept_mail k k') as Hm.
  { eapply (kept_lists k k' Q); [apply HK|apply HK'|apply Hao|done|apply Hfree]. }
  assert (same_objs k k') as Ho by (split; [done..|by rewrite Hw|done]).
  split; [|done]. destruct (kept_open k k' Hm). split; [|done|by rewrite Hw| |done..].
  - intros a _ _. apply cell_env_same; [done|]. intros Ha. rewrite Et.
    apply lookup_alter_ne. intros ->. specialize (Ha U HU). congruence.
  - intros v (V & HV & HVs). unfold sched_task. rewrite Et.
    destruct (deliver_roused u s _ v V HV) as (V' & HV' & Hro).
    exists V'. split; [done|]. by rewrite (roused_sched _ _ _ Hro).
Qed.

Lemma sent_env k Q rs ws ts u U s k' t : kinv k Q rs ws ts -> app_ok k Q ts ->
  tasks k !! u = Some U -> scheduled (state U) = true -> is_signals s ->
  sent k Q rs ws u U s k' ->
  (forall i, Z.testbit s i = true -> Z.testbit (app_public u) i = true) -> env t k k'.
Proof.
  intros HK Hao HU HUs Hsig Hs Hpub.
  pose proof (sent_same _ _ _ _ _ _ _ _ Hs) as [_ Hr _ _ _ Hp _].
  pose proof (sent_tasks _ _ _ _ _ _ _ _ HU Hs) as Et.
  apply env_roused; [by eapply (sent_own k Q rs ws ts u U s)|done|done|].
  intros T HT. rewrite Et. destruct (deliver_roused u s _ t T HT) as (T' & HT' & Hro).
  exists T'. split; [done|]. eapply roused_mono; [|done]. simpl.
  intros i [-> Hi]. left. auto.
Qed.

(** The tick interrupt. *)
Lemma all_done_lookup es : forall objs a,
  all_done es objs !! a = (if bool_decide (a ∈ es) then set_status TIMER_DONE else id) <$> objs !! a.
Proof.
  unfold all_done. induction es as [|b es IH]; intros objs a; simpl.
  - by destruct (objs !! a).
  - rewrite IH. destruct (decide (a = b)) as [->|Hne].
    + rewrite lookup_alter_eq. rewrite (bool_decide_true (b ∈ b :: es)) by set_solver.
      destruct (objs !! b); [|done]. simpl. case_bool_decide; done.
    + rewrite lookup_alter_ne by done. f_equal.
      by rewrite (bool_decide_ext (a ∈ b :: es) (a ∈ es)) by set_solver.
Qed.

Lemma polled_env k Q rs ws now ts k' t : kinv k Q rs ws ts -> app_ok k Q ts ->
  polled k Q rs now ts k' -> env t k k'.
Proof.
  intros HK Hao [(Q' & rs' & ws' & HK' & _ & Hfree) _ Et Etm Hl [_ Hr Hn _ Hw Hp (_ & _ & Hpo & _)]].
  assert (kept_mail k k') as Hm.
  { eapply (kept_lists k k' Q); [apply HK|apply HK'|apply Hao|done|apply Hfree]. }
  assert (forall a, a ∈ expired k now ts -> a ∈ ts) as Hsub
    by (intros a Ha; apply list_elem_of_filter in Ha; tauto).
  assert (forall a N, a ∈ expired k now ts -> timer_objs k !! a = Some N ->
    status N = TIMER_ADDED /\ sched_task k (tm_task N)) as Htw.
  { intros a N Ha%Hsub HN. destruct (ki_timers _ _ _ _ _ HK a Ha) as (N' & HN' & Hst & _ & Hu).
    by simplify_eq. }
  assert (forall a, timer_env (timer_objs k !! a) (timer_objs k' !! a)) as Hte.
  { intros a. rewrite Etm, all_done_lookup. case_bool_decide as Ha.
    - destruct (timer_objs k !! a) as [N|] eqn:HN; simpl; [|constructor].
      constructor. by apply (Htw a).
    - destruct (timer_objs k !! a); constructor. }
  assert (forall u U, tasks k !! u = Some U -> exists U', tasks k' !! u = Some U' /\
    roused (new_signal u k k') U U') as Hro.
  { intros u U HU. rewrite Et.
    destruct (deliver_all_roused (timer_objs k) (expired k now ts) _ u U HU) as (U' & HU' & Hro).
    exists U'. split; [done|]. eapply roused_mono; [|done]. simpl.
    intros i (a & N & Ha & HN & <- & Hi). right. left. exists a, N, (set_status TIMER_DONE N).
    split_and!; try done.
    - symmetry. eapply ao_queue; [done|by apply Hsub|done].
    - rewrite Etm, all_done_lookup, bool_decide_true by done. by rewrite HN.
    - by apply (Htw a). }
  assert (forall u, unsched k u -> tasks k' !! u = tasks k !! u) as Hun.
  { intros u Hu. rewrite Et. unfold deliver_all. clear -Htw Hu.
    assert (forall a N, a ∈ expired k now ts -> timer_objs k !! a = Some N -> tm_task N <> u) as Hne.
    { intros a N Ha HN <-. destruct (Htw a N Ha HN) as (_ & V & HV & HVs).
      specialize (Hu V HV). congruence. }
    clear Htw Hu. revert Hne. generalize (tasks k). induction (expired k now ts) as [|b es IH];
      intros U Hne; simpl; [done|].
    destruct (timer_objs k !! b) as [N|] eqn:HN; simpl; [|apply IH; set_solver].
    rewrite IH by set_solver. apply lookup_alter_ne. eapply Hne; [by left|done]. }
  apply env_roused; [|done|done|auto].
  destruct (kept_open k k' Hm). split; [|by rewrite Et, deliver_all_dom|by rewrite Hw| |done..].
  - intros a _ _. destruct (cell_env_mail k k' a Hm) as (? & ? & ?).
    split; [by apply same_links|done| |done..]. intros Ha. by rewrite Hn, Hun.
  - intros u (U & HU & HUs). destruct (Hro u U HU) as (U' & HU' & HroU).
    exists U'. split; [done|]. by rewrite (roused_sched _ _ _ HroU).
Qed.

(** ** Quiescent states

    A state in which interrupts are enabled and thread code is about to run or
    to be preempted. *)
Record quiescent (k : Kernel) : Prop := mkQuiescent {
  qu_mask : primask k = false;
  qu_handler : handler k = false;
  qu_nest : id_nestcnt k = -1;
  qu_inv : exists Q rs ws ts, kinv k Q rs ws ts /\ sched_ok k rs /\ app_ok k Q ts;
  qu_idle : idle_ok k }.

(** Task [t] is resumed: it is the running task again, and a pending PendSV
    has been taken before thread code continues. *)
Record resumed (t : addr) (k k' : Kernel) : Prop := mkResumed {
  res_quiescent : quiescent k';
  res_running : running k' = t;
  res_pendsv : pendsv k' = false;
  res_env : env t k k' }.

(** A state that is quiescent but for a context switch that should be pending. *)
Definition unsettled (k : Kernel) : Prop := quiescent (set_pendsv true k).

Record resumed_unsettled (t : addr) (k k' : Kernel) : Prop := mkResumedU {
  ru_quiescent : unsettled k';
  ru_running : running k' = t;
  ru_pendsv : pendsv k' = false;
  ru_env : env t k k' }.

(** Thread code of task [t] outside the kernel. *)
Record in_thread (t : addr) (k : Kernel) : Prop := mkInThread {
  it_quiescent : quiescent k;
  it_running : running k = t;
  it_state : in_state k TASK_RUNNING t }.

Lemma quiescent_interruptible k : quiescent k -> interruptible k = true.
Proof. intros [Hm Hh _ _ _]. unfold interruptible. by rewrite Hm, Hh. Qed.

Lemma quiescent_unsettled k : quiescent k -> unsettled k.
Proof.
  intros [Hm Hh Hn (Q & rs & ws & ts & HK & Hs & Ha) Hi]. split; try done.
  exists Q, rs, ws, ts. split_and!; [by eapply kinv_frame; [..|exact HK]|by left|by destruct Ha].
Qed.

Lemma unsettled_interruptible k : unsettled k -> interruptible k = true.
Proof. exact (quiescent_interruptible (set_pendsv true k)). Qed.

Lemma quiescent_irq_ok k : quiescent k -> irq_ok k.
Proof. intros [Hm _ Hn _ _]. split; rewrite Hn; [done|lia]. Qed.

Lemma env_running t k k' T : tasks k !! t = Some T -> state T = TASK_RUNNING ->
  running k' = t -> env t k k' ->
  exists T', tasks k' !! t = Some T' /\ state T' = TASK_RUNNING /\ live_env t k k' T T'.
Proof.
  intros HT Hs Hr [_ He]. destruct (He T HT) as (T' & HT' & [Hl _ Hst _]).
  exists T'. split_and!; [done|auto|]. apply Hl. by rewrite Hs.
Qed.

Lemma resumed_in_thread t k k' : in_state k TASK_RUNNING t -> resumed t k k' -> in_thread t k'.
Proof.
  intros (T & HT & Hs) [Hq Hr Hp He]. split; [done..|].
  destruct (env_running t k k' T HT Hs Hr He) as (T' & HT' & Hs' & _). by exists T'.
Qed.

(** The state inside the critical section, seen from outside. *)
Lemma quiescent_unlock k' Q rs ws ts :
  id_nestcnt k' = 0 -> handler k' = false -> kinv k' Q rs ws ts -> sched_ok k' rs ->
  app_ok k' Q ts -> idle_ok k' -> quiescent (unlock k').
Proof.
  intros Hn Hh HK Hs Ha Hi.
  assert (unlock k' = set_primask false (set_id_nestcnt (-1) k')) as ->.
  { unfold unlock. simpl. by rewrite Hn. }
  split; [done..| |done]. exists Q, rs, ws, ts.
  split_and!; [by eapply kinv_frame; [..|exact HK]|done|]. by destruct Ha.
Qed.

(** ** Thread code and its guarantee

    [others t k k']: no task but [t] can tell the difference between [k] and
    [k'] except as [env] allows. *)
Definition others (t : addr) (k k' : Kernel) : Prop :=
  (forall t', t' <> t -> env t' k k') /\ dom (tasks k') = dom (tasks k).

(** What a step of [t] does to another task: nothing, or [t] created the task and
    sets it up. *)
Definition other_task (t : addr) (k k' : Kernel) (u : addr) : Prop :=
  tasks k' !! u = tasks k !! u \/
  app_owner u = t /\ unsched k u /\
    forall U', tasks k' !! u = Some U' -> scheduled (state U') = true -> sig_alloc U' = SIGF_SINGLE.

(** A step of [t] that writes to no task and no object of another. *)
Lemma others_step t k k' T : running k' = t -> tasks k !! t = Some T ->
  scheduled (state T) = true -> sched_task k' t -> dom (tasks k') = dom (tasks k) ->
  (forall u, u <> t -> other_task t k k' u) -> dom (words k') = dom (words k) -> kept_mail k k' ->
  (forall a, app_owner a <> t -> (is_Some (links (heap k) !! a) <-> is_Some (links (heap k') !! a)) /\
    timer_objs k' !! a = timer_objs k !! a /\
    (unsched k a -> nodes (heap k') !! a = nodes (heap k) !! a)) -> others t k k'.
Proof.
  intros Hr HT Hs Hs' Hd Ht Hw Hm Ha. split; [|done]. intros t' Hne. apply mkEnv.
  - destruct (kept_open k k' Hm). split; [|done|done| |done..].
    + intros a Ho _. destruct (Ha a) as (H1 & H2 & H3); [congruence|].
      destruct (cell_env_mail k k' a Hm) as (? & ? & ?).
      split; [done|rewrite H2; constructor| |done..]. intros Hu. split; [|auto].
      destruct (Ht a) as [?|[? _]]; [|done|congruence].
      intros ->. specialize (Hu T HT). congruence.
    + intros u Hu. destruct (decide (u = t)) as [->|Hn]; [done|].
      destruct Hu as (U & HU & HUs). destruct (Ht u Hn) as [E|(_ & Hf & _)].
      * exists U. by rewrite E.
      * specialize (Hf U HU). congruence.
  - intros U HU. destruct (Ht t' Hne) as [E|(_ & Hf & Hb)].
    + exists U. rewrite E. split; [done|]. split; try congruence.
      intros HUs. split; try done; auto using Z.land_diag.
    + assert (is_Some (tasks k' !! t')) as [U' HU'].
      { apply elem_of_dom. rewrite Hd. apply elem_of_dom. eauto. }
      exists U'. split; [done|]. specialize (Hf U HU).
      split; [congruence|by intros _; apply Hb|congruence..].
Qed.

Lemma others_insert t k k' T T' : running k' = t -> tasks k !! t = Some T ->
  tasks k' = <[t := T']> (tasks k) -> scheduled (state T) = true ->
  scheduled (state T') = true -> same_objs k k' -> others t k k'.
Proof.
  intros Hr HT Et Hs Hs' [Hl Hn Htm Hw Hm]. apply (others_step t k k' T); try done.
  - exists T'. rewrite Et. by rewrite lookup_insert_eq.
  - rewrite Et. by apply dom_insert_lookup_L.
  - intros u Hne. left. rewrite Et. by apply lookup_insert_ne.
  - intros a _. split_and!; [by apply same_links|by rewrite Htm|by rewrite Hn].
Qed.

Lemma others_same t k k' : running k' = t -> sched_task k t -> tasks k' = tasks k ->
  same_objs k k' -> others t k k'.
Proof.
  intros Hr (T & HT & Hs) Et Ho. apply (others_insert t k k' T T); try done.
  by rewrite insert_id.
Qed.

Lemma others_trans t k1 k2 k3 : others t k1 k2 -> others t k2 k3 -> others t k1 k3.
Proof.
  intros [H1 D1] [H2 D2]. split; [|congruence].
  intros t' Hne. eapply env_trans; [by apply H1|by apply H2].
Qed.

Lemma in_thread_sched t k : in_thread t k -> sched_task k t.
Proof. intros [_ _ (T & HT & Hs)]. exists T. by rewrite Hs. Qed.

Lemma others_refl t k : in_thread t k -> others t k k.
Proof. intros Hit. apply others_same; [apply Hit|by apply in_thread_sched|done|done]. Qed.

End app.

Section thread.
Context `{AP : App} (t : addr).

(** The next thing that thread code does is to request a context switch. *)
Definition resched_next {A} (f : Kernel -> Res A) : Prop :=
  forall k, interruptible k = true -> exists g, f k = Preempt (set_pendsv true k) g.

(** [wptR k0 r Q]: the computation [r], in a segment of thread code of [t]
    that started in [k0], is safe: it meets no undefined behaviour, failing
    assertion or fuel limit; when it is preempted it kept its guarantee to the
    other tasks, and the state is quiescent, or would be with a context switch
    pending, which [r] requests next; [Q] holds at its end, of the state where
    the last segment started, the result and the final state. *)
Fixpoint wptR {A} (k0 : Kernel) (r : Res A) (Q : Kernel -> A -> Kernel -> Prop) : Prop :=
  match r with
  | Ret a k => Q k0 a k
  | Spin k => quiescent k /\ others t k0 k
  | Fault | NoFuel => False
  | Preempt k f => others t k0 k /\
      (quiescent k /\ (forall k', resumed t k k' -> wptR k' (f k') Q) \/
       running k = t /\ unsettled k /\ resched_next f /\
         forall k', resumed_unsettled t k k' -> wptR k' (f k') Q)
  end.

Definition wpt {A} (k0 : Kernel) (m : M A) (k : Kernel)
    (Q : Kernel -> A -> Kernel -> Prop) : Prop := wptR k0 (m k) Q.

Lemma wptR_bind {A B} k0 (r : Res A) (f : A -> Kernel -> Res B) Q :
  wptR k0 r (fun k1 a k => wptR k1 (f a k) Q) -> wptR k0 (bindR f r) Q.
Proof.
  revert k0. induction r as [a k|k| | |k g IH]; intros k0; simpl; [done..|].
  intros (Ho & [(Hq & Hf)|(Ht & Hq & Hr & Hf)]); (split; [done|]); [left|right].
  - split; [done|]. eauto.
  - split; [done|]. split; [done|]. split; [|eauto]. intros k1 Hi. destruct (Hr k1 Hi) as (g' & E).
    rewrite E. simpl. eauto.
Qed.

Lemma wpt_bind {A B} k0 (m : M A) (f : A -> M B) k Q :
  wpt k0 m k (fun k1 a k' => wpt k1 (f a) k' Q) -> wpt k0 (m ≫= f) k Q.
Proof. apply wptR_bind. Qed.

Lemma wptR_mono {A} k0 (r : Res A) (Q Q' : Kernel -> A -> Kernel -> Prop) :
  (forall k1 a k, Q k1 a k -> Q' k1 a k) -> wptR k0 r Q -> wptR k0 r Q'.
Proof.
  intros HQ. revert k0. induction r as [a k|k| | |k f IH]; intros k0; simpl;
    [by apply HQ|done..|].
  intros (? & [(? & Hf)|(? & ? & ? & Hf)]); (split; [done|]); [left|right]; eauto 6.
Qed.

Lemma wpt_ret {A} k0 (a : A) k (Q : Kernel -> A -> Kernel -> Prop) :
  Q k0 a k -> wpt k0 (mret a) k Q.
Proof. done. Qed.

(** An uninterrupted run is a step of a segment. *)
Lemma wpt_run {A} k0 (m : M A) k (Q' : A -> Kernel -> Prop) Q :
  wp (fun _ => False) (fun _ _ => False) m k Q' ->
  (forall a k', Q' a k' -> Q k0 a k') -> wpt k0 m k Q.
Proof.
  rewrite wp_run. intros (a & k' & E & HQ') HQ. unfold wpt. rewrite E. by apply HQ.
Qed.

(** [wpt] through a binding whose first part is uninterrupted. *)
Lemma wpt_run_bind {A B} k0 (m : M A) (f : A -> M B) k Q :
  wp (fun _ => False) (fun _ _ => False) m k (fun a k' => wpt k0 (f a) k' Q) ->
  wpt k0 (m ≫= f) k Q.
Proof. intros H. apply wpt_bind. by eapply wpt_run. Qed.

Lemma wpt_window k0 k (P : Kernel -> unit -> Kernel -> Prop) :
  quiescent k -> others t k0 k ->
  (forall k', resumed t k k' -> P k' tt k') -> wpt k0 irq_window k P.
Proof.
  intros Hq Ho HP. unfold wpt, irq_window.
  rewrite quiescent_interruptible by done. simpl. auto 6.
Qed.

(** *** Entering and leaving critical sections in thread mode *)

Lemma wpt_disable k0 k (P : Kernel -> unit -> Kernel -> Prop) :
  in_thread t k -> others t k0 k ->
  (forall k1, in_thread t k1 -> pendsv k1 = false -> env t k k1 -> P k1 tt (lock k1)) ->
  wpt k0 disable k P.
Proof.
  intros [Hq Hr Hs] Ho HP. unfold disable. apply wpt_bind, wpt_window; [done..|].
  intros k1 Hk1. pose proof (qu_nest _ (res_quiescent _ _ _ Hk1)) as Hn.
  eapply wpt_run.
  - eapply wp_bind, wp_modify, wp_add_nestcnt; [simpl; rewrite Hn; lia|].
    instantiate (1 := fun _ k' => k' = lock k1). done.
  - intros [] ? ->. apply HP; [by eapply resumed_in_thread|by destruct Hk1..].
Qed.

(** The outermost [enable]. *)
Lemma wpt_enable k0 k (P : Kernel -> unit -> Kernel -> Prop) :
  id_nestcnt k = 0 -> quiescent (unlock k) -> others t k0 (unlock k) ->
  (forall k', resumed t (unlock k) k' -> P k' tt k') ->
  wpt k0 enable k P.
Proof.
  intros Hn Hq Ho HP. unfold enable.
  eapply wpt_run_bind, wp_gets, wpt_run_bind, wp_assert; [by rewrite Hn|].
  eapply wpt_run_bind, wp_add_nestcnt; [rewrite Hn; lia|].
  eapply wpt_run_bind, wp_gets. unfold unlock in *. simpl in *. rewrite Hn in *.
  simpl in *. eapply wpt_run_bind, wp_modify. by apply wpt_window.
Qed.

Lemma wpt_reschedule k0 k (P : Kernel -> unit -> Kernel -> Prop) :
  quiescent (set_pendsv true k) -> others t k0 (set_pendsv true k) ->
  (forall k', resumed t (set_pendsv true k) k' -> P k' tt k') ->
  wpt k0 reschedule k P.
Proof. intros Hq Ho HP. eapply wpt_run_bind, wp_modify. by apply wpt_window. Qed.


Lemma enable_outer k : id_nestcnt k = 0 -> interruptible (unlock k) = true ->
  enable k = Preempt (unlock k) (fun k' => Ret tt k').
Proof.
  intros Hn Hi. unfold enable. rewrite (run_bind (gets id_nestcnt) _ k 0 k) by (unfold gets; by rewrite Hn).
  rewrite (run_bind (assert_that (-1 <=? 0)) _ k tt k eq_refl).
  assert (add_nestcnt (-1) k = Ret tt (set_id_nestcnt (-1) k)) as E.
  { unfold add_nestcnt. rewrite (run_bind (gets id_nestcnt) _ k 0 k) by (unfold gets; by rewrite Hn).
    done. }
  rewrite (run_bind _ _ _ _ _ E). unfold unlock in *. simpl in *. rewrite Hn in *.
  change (0 - 1) with (-1) in *. unfold gets, __enable_irq, modify, irq_window.
  unfold mbind, M_bind. simpl. change (-1 <? 0) with true in *. by rewrite Hi.
Qed.

(** The outermost [enable], followed by [reschedule]: only then the switch that is
    due is requested. *)
Lemma wpt_enable_reschedule k0 k (P : Kernel -> unit -> Kernel -> Prop) :
  id_nestcnt k = 0 -> running k = t -> unsettled (unlock k) -> others t k0 (unlock k) ->
  (forall k1 k', resumed_unsettled t (unlock k) k1 -> resumed t (set_pendsv true k1) k' ->
    P k' tt k') ->
  wpt k0 (enable;; reschedule) k P.
Proof.
  intros Hn Hrun Hq Ho HP.
  assert (exists g, (enable;; reschedule) k = Preempt (unlock k) g /\ resched_next g /\
    forall k1, interruptible k1 = true -> g k1 = Preempt (set_pendsv true k1) (fun k' => Ret tt k'))
    as (g & E & Hg & Hg').
  { assert (forall k1, interruptible k1 = true ->
      bindR (fun _ => reschedule) (Ret tt k1) = Preempt (set_pendsv true k1) (fun k' => Ret tt k')) as Hr.
    { intros k1 Hi. unfold reschedule, mbind, M_bind, modify, irq_window. simpl.
      change (interruptible (set_pendsv true k1)) with (interruptible k1). by rewrite Hi. }
    exists (fun k1 => bindR (fun _ => reschedule) (Ret tt k1)). split; [|split].
    - apply unsettled_interruptible in Hq. unfold mbind at 1, M_bind at 1.
      by rewrite enable_outer.
    - intros k1 Hi. rewrite Hr by done. eauto.
    - done. }
  unfold wpt. rewrite E. simpl. split; [done|]. right.
  split; [unfold unlock; simpl; by destruct (_ <? _)|]. split; [done|]. split; [done|].
  intros k1 Hk1. pose proof Hk1 as [Hq1 Hr1 Hp1 He1].
  rewrite Hg' by by apply unsettled_interruptible. simpl.
  split; [|left; split; [done|by intros k'; apply HP]].
  apply others_same; [done| |done|done]. destruct Hq1 as [_ _ _ (Q & rs & ws & ts & HK & _) _].
  destruct (ki_running _ _ _ _ _ HK) as (T & HT & Hs). rewrite <- Hr1. by exists T.
Qed.
End thread.
