(* ===== verification/Liveness.v ===== *)
(** * What is bound to happen: turns of the processor, expiring timers

    Runs of the two clocks.  Tasks of the highest priority that only compute get
    the processor in turns of [QUANTUM] ticks for ever; a timer in the queue fires
    at its tick, neither before nor after it. *)

From S2P Require Import Prelude Heap Lists ListSpec Machine Logic Context Task.
From S2P Require Import Platform Timer Invariant Checker Demo TaskSpec SchedSpec Scheduler.
From S2P Require Import Signals TimerSpec Rely.

(** ** The round-robin clock *)

(** The processor takes a pending PendSV when interrupts are enabled; [fs] gives
    the frame each task is interrupted at. *)
Definition take_pendsv (fs : addr -> addr) : M unit :=
  p ← gets pendsv;
  if (p : bool) then r ← gets running; _ ← PendSV_exception (fs r); mret tt else mret tt.

(** [n] ticks of SysTick while tasks only compute; the result is the sequence of
    the tasks that ran up to each tick. *)
Fixpoint clock_ticks (fs : addr -> addr) (n : nat) : M (list addr) :=
  match n with
  | O => mret []
  | S n =>
      r ← gets running;
      SysTick_exception;;
      take_pendsv fs;;
      rest ← clock_ticks fs n;
      mret (r :: rest)
  end.

(** Every task of [c] in turn, for a quantum. *)
Definition shares (c : list addr) : list addr :=
  concat ((fun t => replicate (Z.to_nat QUANTUM) t) <$> c).

(** The state at the start of a turn. *)
Record turn (k : Kernel) (c low ws ts : list Z) (fs : addr -> addr) : Prop := mkTurn {
  tu_ring : ring k c low ws ts;
  tu_frames : frames_ok fs k;
  tu_irq : handler k = false /\ pendsv k = false }.

Lemma bind_ret_inv {A B} (m : M A) (f : A -> M B) k b k' : (m ≫= f) k = Ret b k' ->
  exists a k1, m k = Ret a k1 /\ f a k1 = Ret b k'.
Proof. unfold mbind, M_bind. destruct (m k) as [a k1|k1| | |k1 g]; simpl; try done. eauto. Qed.

Lemma clock_ticks_app fs n m k xs k1 ys k2 :
  clock_ticks fs n k = Ret xs k1 -> clock_ticks fs m k1 = Ret ys k2 ->
  clock_ticks fs (n + m) k = Ret (xs ++ ys) k2.
Proof.
  intros E1 E2. revert k xs E1. induction n as [|n IH]; intros k xs E1.
  - by injection E1 as <- <-.
  - cbn [clock_ticks Nat.add] in *.
    apply bind_ret_inv in E1 as (r & ka & Ea & E1). rewrite (run_bind _ _ _ _ _ Ea).
    apply bind_ret_inv in E1 as (u & kb & Eb & E1). rewrite (run_bind _ _ _ _ _ Eb).
    apply bind_ret_inv in E1 as (w & kc & Ec & E1). rewrite (run_bind _ _ _ _ _ Ec).
    apply bind_ret_inv in E1 as (rest & kd & Ed & [= <- <-]).
    by rewrite (run_bind _ _ _ _ _ (IH _ _ Ed)).
Qed.

Lemma ring_clock k b e c low ws ts : ring k c low ws ts ->
  ring (set_elapsed e (set_pendsv b k)) c low ws ts.
Proof.
  intros [(Q & front & Ec & HK) Hi Hs Hq Heq Hlow]. split; try done.
  exists Q, front. split; [done|]. by eapply kinv_frame; [..|exact HK].
Qed.

(** The rest of a turn. *)
Lemma turn_run n fs k x c low ws ts :
  turn k (x :: c) low ws ts fs -> elapsed k = Z.of_nat n + 1 -> Z.of_nat n < QUANTUM ->
  run (clock_ticks fs (S n)) k (fun xs k' => xs = replicate (S n) (running k) /\ running k' = x /\
    turn k' (c ++ [x]) low ws ts fs /\ elapsed k' = QUANTUM).
Proof.
  unfold QUANTUM. revert k. induction n as [|n IH]; intros k [Hr Hf [Hh Hp]] He Hn.
  - assert (SysTick_exception k = Ret tt (set_elapsed 0 (set_pendsv true k))) as E.
    { rewrite systick_run by (done || lia). rewrite He, bool_decide_true, orb_true_r by lia. done. }
    destruct (ring_turn (set_elapsed 0 (set_pendsv true k)) x c low ws ts fs) as
      (a & k' & E' & Hx & Hr' & Hf' & Hh' & Hp' & He'); [by apply ring_clock|done|].
    exists [running k], k'. split; [|by split_and!]. cbn [clock_ticks].
    rewrite (run_bind _ _ _ (running k) k), (run_bind _ _ _ _ _ E) by done.
    rewrite (run_bind _ _ _ tt k'); [done|]. unfold take_pendsv.
    rewrite (run_bind _ _ _ true (set_elapsed 0 (set_pendsv true k))) by done. cbv iota.
    rewrite (run_bind _ _ _ (running k) (set_elapsed 0 (set_pendsv true k))) by done.
    by rewrite (run_bind _ _ _ _ _ E').
  - assert (SysTick_exception k = Ret tt (set_elapsed (Z.of_nat n + 1) (set_pendsv false k))) as E.
    { rewrite systick_run by (done || lia). rewrite He, Hp, bool_decide_false by lia.
      by replace (Z.of_nat (S n) + 1 - 1) with (Z.of_nat n + 1) by lia. }
    set (k1 := set_elapsed _ _) in E.
    destruct (IH k1) as (xs & k' & E' & -> & Hpost);
      [split; [by apply ring_clock|done|done]|done|lia|].
    exists (replicate (S (S n)) (running k)), k'. split; [|by split]. cbn [clock_ticks].
    rewrite (run_bind _ _ _ (running k) k), (run_bind _ _ _ _ _ E) by done.
    rewrite (run_bind _ _ _ tt k1) by done. by rewrite (run_bind _ _ _ _ _ E').
Qed.

Lemma shares_cons t c : shares (t :: c) = replicate (Z.to_nat QUANTUM) t ++ shares c.
Proof. done. Qed.

Lemma shares_length c : length (shares c) = (length c * Z.to_nat QUANTUM)%nat.
Proof.
  induction c as [|t c IH]; [done|]. rewrite shares_cons, length_app, IH, length_replicate. done.
Qed.

(** The turns of the tasks [c1], starting with the running task. *)
Lemma turns_run fs k c1 c2 low ws ts : turn k (c1 ++ c2) low ws ts fs -> elapsed k = QUANTUM ->
  c1 <> [] ->
  run (clock_ticks fs (length c1 * Z.to_nat QUANTUM)) k (fun xs k' =>
    xs = shares (running k :: removelast c1) /\ running k' = List.last c1 NULL /\
    turn k' (c2 ++ c1) low ws ts fs /\ elapsed k' = QUANTUM).
Proof.
  revert k c2. induction c1 as [|x c1 IH]; intros k c2 Ht He Hne; [done|].
  destruct (turn_run 3 fs k x (c1 ++ c2) low ws ts Ht He eq_refl)
    as (xs & k1 & E1 & -> & Hx & Ht1 & He1).
  rewrite <- app_assoc in Ht1. destruct c1 as [|y c1].
  - exists (shares [running k]), k1. split; [|by split_and!]. exact E1.
  - destruct (IH k1 (c2 ++ [x])) as (ys & k' & E2 & -> & Hl & Ht2 & He2); [exact Ht1|done|done|].
    exists (replicate 4 (running k) ++ shares (running k1 :: removelast (y :: c1))), k'. split.
    { change (length (x :: y :: c1) * Z.to_nat QUANTUM)%nat with
        (4 + length (y :: c1) * Z.to_nat QUANTUM)%nat.
      by eapply clock_ticks_app. }
    rewrite <- app_assoc in Ht2. split_and!; [by rewrite Hx|done..].
Qed.

(** C14. Time sharing, for ever: while the tasks only compute, in every
    [QUANTUM * n] ticks of the round-robin clock each of the [n] tasks of the
    highest priority has the processor for exactly one turn of [QUANTUM] ticks, in
    the order of the ready list, starting with the running task; no task of lower
    priority runs; and this repeats without end. *)
Theorem time_slices m fs k front low ws ts :
  ring k (front ++ [running k]) low ws ts -> frames_ok fs k -> elapsed k = QUANTUM ->
  handler k = false -> pendsv k = false ->
  let c := running k :: front in
  exists k', clock_ticks fs (m * (length c * Z.to_nat QUANTUM)) k =
      Ret (concat (replicate m (shares c))) k' /\
    running k' = running k /\ ring k' (front ++ [running k]) low ws ts /\ elapsed k' = QUANTUM.
Proof.
  intros Hr Hf He Hh Hp c.
  assert (turn k (front ++ [running k]) low ws ts fs) as Ht by by split.
  clear Hr Hf Hh Hp. revert k c Ht He. induction m as [|m IH]; intros k c Ht He.
  - exists k. split; [done|]. by split_and!; [|apply Ht|].
  - destruct (turns_run fs k (front ++ [running k]) [] low ws ts) as (xs & k1 & E1 & -> & Hx & Ht1 & He1);
      [by rewrite app_nil_r|done|by destruct front|].
    rewrite last_last in Hx. rewrite removelast_last in E1. simpl app in Ht1.
    destruct (IH k1) as (k' & E2 & Hx2 & Hr2 & He2); [by rewrite Hx|done|].
    rewrite Hx in E2, Hx2, Hr2. exists k'. split; [|by split_and!].
    replace (length (front ++ [running k])) with (length c) in E1
      by (rewrite length_app; simpl; lia).
    cbn [replicate Nat.mul]. by eapply clock_ticks_app.
Qed.

Lemma time_slices_witness : exists k',
  clock_ticks demo_frames 24 demo_equal =
    Ret (concat (replicate 3 [demo_a; demo_a; demo_a; demo_a; demo_b; demo_b; demo_b; demo_b])) k' /\
  running k' = demo_a.
Proof.
  destruct (time_slices 3 demo_frames demo_equal [demo_b] [init_task] [] []) as (k' & E & Hr & _).
  - split.
    + exists (demo_Q [demo_b; init_task] []), [demo_b]. split; [reflexivity|].
      exact demo_equal_kinv.
    + eexists. split; [vm_compute; reflexivity|]. left. vm_compute. reflexivity.
    + eexists. split; vm_compute; reflexivity.
    + split; vm_compute; reflexivity.
    + apply Forall_forall, (bool_decide_unpack _). vm_compute. exact I.
    + apply Forall_forall, (bool_decide_unpack _). vm_compute. exact I.
  - change (map_Forall (fun t T => frame_ok (demo_frames t) T) (tasks demo_equal)).
    apply (bool_decide_unpack _). vm_compute. exact I.
  - reflexivity.
  - reflexivity.
  - reflexivity.
  - exists k'. split; [exact E|]. rewrite Hr. reflexivity.
Defined.

(** ** The timer clock *)

(** [n] ticks of TIM2. *)
Fixpoint timer_ticks (n : nat) : M unit :=
  match n with O => mret tt | S n => TIM2_exception;; timer_ticks n end.

Lemma timer_ticks_snoc n k k1 k2 : timer_ticks n k = Ret tt k1 -> TIM2_exception k1 = Ret tt k2 ->
  timer_ticks (S n) k = Ret tt k2.
Proof.
  revert k. induction n as [|n IH]; intros k E1 E2.
  - injection E1 as <-. cbn [timer_ticks]. by rewrite (run_bind _ _ _ _ _ E2).
  - cbn [timer_ticks] in *. apply bind_ret_inv in E1 as ([] & ka & Ea & E1).
    rewrite (run_bind _ _ _ _ _ Ea). by apply IH.
Qed.

(** Task [t] has the signals [s] and does not wait for any of them. *)
Definition delivered (U : gmap Z Task) (t s : Z) : Prop :=
  exists T, U !! t = Some T /\ Z.land s (sig_recvd T) = s /\
    (state T = TASK_WAITING -> Z.land s (sig_wait T) = 0).

Lemma delivered_roused (U U' : gmap Z Task) t s :
  (forall T, U !! t = Some T -> exists T' B, U' !! t = Some T' /\ roused B T T') ->
  delivered U t s -> delivered U' t s.
Proof.
  intros HU (T & HT & Hs & Hw). destruct (HU T HT) as (T' & B & HT' & [_ Ew Er _ Est]).
  exists T'. split; [done|]. split; [by eapply land_superset_trans|].
  rewrite Ew. intros Hst. apply Hw. destruct Est as [<-|(_ & E & _)]; [done|congruence].
Qed.

Lemma delivered_all objs es U t s : delivered U t s -> delivered (deliver_all objs es U) t s.
Proof.
  apply delivered_roused. intros T HT.
  destruct (deliver_all_roused objs es U t T HT) as (T' & HT' & Hr). eauto.
Qed.

Lemma deliver_delivered t s (U : gmap Z Task) : is_Some (U !! t) -> delivered (deliver t s U) t s.
Proof.
  intros [T HT]. unfold deliver, delivered. rewrite lookup_alter_eq, HT. simpl.
  eexists. split; [done|]. simpl. split.
  - rewrite Z.lor_comm. apply land_lor_self.
  - unfold wakes. case_bool_decide as E; simpl; [|congruence].
    destruct (Z.eqb_spec (Z.land s (sig_wait T)) 0); simpl; done.
Qed.

Lemma deliver_all_delivered objs es a N : a ∈ es -> objs !! a = Some N ->
  forall U, is_Some (U !! tm_task N) -> delivered (deliver_all objs es U) (tm_task N) (tm_signal N).
Proof.
  unfold deliver_all. intros Ha HN. induction es as [|b es IH]; intros U HU; [by apply elem_of_nil in Ha|].
  apply elem_of_cons in Ha as [->|Ha]; simpl.
  - rewrite HN. simpl. by apply (delivered_all objs es), deliver_delivered.
  - destruct (objs !! b) as [B|]; simpl; [|by apply IH]. apply IH; [done|].
    destruct HU as [T HT]. destruct (deliver_roused (tm_task B) (tm_signal B) U _ T HT) as (T' & HT' & _).
    eauto.
Qed.

(** The state [n] ticks behind [k]. *)
Record clocked (k : Kernel) (ts : list Z) (n : nat) (k' : Kernel) : Prop := mkClocked {
  ck_now : timer_now k' = timer_now k + Z.of_nat n;
  ck_inv : exists Q rs ws, kinv k' Q rs ws (unexpired k (timer_now k + Z.of_nat n) ts);
  ck_idle : idle_ok k';
  ck_irq : primask k' = false /\ handler k' = false /\ id_nestcnt k' = -1;
  ck_timers : forall a X, a ∈ ts -> timer_objs k !! a = Some X ->
    if decide (tick X <= timer_now k + Z.of_nat n)
    then timer_objs k' !! a = Some (set_status TIMER_DONE X) /\
      delivered (tasks k') (tm_task X) (tm_signal X)
    else timer_objs k' !! a = Some X }.

(** The ticks of the timers of the start stay what they were. *)
Lemma clocked_tick k ts n k1 a X : clocked k ts n k1 -> a ∈ ts -> timer_objs k !! a = Some X ->
  tick_at k1 a = tick X.
Proof.
  intros Hck Ha HX. pose proof (ck_timers _ _ _ _ Hck a X Ha HX) as H. unfold tick_at.
  case_decide; [destruct H as [-> _]|rewrite H]; done.
Qed.

(** What is unexpired a tick later. *)
Lemma unexpired_later k k1 now ts : (forall a, a ∈ ts -> tick_at k1 a = tick_at k a) ->
  unexpired k1 (now + 1) (unexpired k now ts) = unexpired k (now + 1) ts.
Proof.
  unfold unexpired. induction ts as [|a ts IH]; intros Ht; [done|].
  assert (tick_at k1 a = tick_at k a) as Ea by (apply Ht; set_solver).
  specialize (IH ltac:(intros; apply Ht; set_solver)).
  destruct (decide (now + 1 < tick_at k a)).
  - rewrite !filter_cons_True by lia. by f_equal.
  - rewrite (filter_cons_False (fun a => now + 1 < tick_at k a)) by lia.
    destruct (decide (now < tick_at k a)).
    + rewrite (filter_cons_True (fun a => now < tick_at k a)), filter_cons_False by lia. done.
    + rewrite filter_cons_False by lia. done.
Qed.

Lemma clocked_step k Q rs ws ts n k1 : kinv k Q rs ws ts -> timer_now k + Z.of_nat (S n) < 2 ^ 32 ->
  0 <= timer_now k -> clocked k ts n k1 ->
  run TIM2_exception k1 (fun _ k2 => clocked k ts (S n) k2).
Proof.
  intros HK0 Hn H0 Hck. pose proof Hck as [Enow (Q1 & rs1 & ws1 & HK) Hi (Hp & Hh & Hnn) Htm].
  apply wp_run.
  set (now := timer_now k + Z.of_nat n) in *.
  assert (timer_now k + Z.of_nat (S n) = now + 1) as En by (unfold now; lia). rewrite En in *.
  eapply wp_TIM2_exception; [done..|]. rewrite Enow, uwrap_small by (unfold now in *; lia).
  intros k2 [(Q2 & rs2 & ws2 & HK2 & _ & _) Hi2 Et Eo _ [(E1 & E2 & E3) _ _ [Ec _] _ _]].
  simpl in E1, E2, E3, Ec, Et, Eo.
  assert (forall a X, a ∈ ts -> timer_objs k !! a = Some X -> tick_at k a = tick X) as Htick.
  { intros a X _ HX. unfold tick_at. by rewrite HX. }
  assert (forall a X, a ∈ ts -> timer_objs k !! a = Some X ->
    tick_at (set_timer_now (now + 1) k1) a = tick X) as Htick1.
  { intros a X Ha HX. by apply (clocked_tick k ts n k1). }
  assert (unexpired (set_timer_now (now + 1) k1) (now + 1) (unexpired k now ts) =
    unexpired k (now + 1) ts) as Eu.
  { apply unexpired_later. intros a Ha.
    destruct (ki_timers _ _ _ _ _ HK0 a Ha) as (X & HX & _). by rewrite (Htick a X), (Htick1 a X). }
  split.
  - lia.
  - rewrite En, <- Eu. eauto.
  - done.
  - by rewrite E1, E2, E3.
  - rewrite En. intros a X Ha HX. specialize (Htm a X Ha HX).
    rewrite Eo, all_done_lookup, Et. unfold expired, unexpired.
    rewrite (bool_decide_ext _ (tick X <= now + 1 /\ now < tick X)).
    2: { rewrite !list_elem_of_filter, (Htick a X), (Htick1 a X) by done. tauto. }
    destruct (decide (tick X <= now)) as [Hle|Hgt].
    + rewrite decide_True by lia. rewrite bool_decide_false by lia.
      destruct Htm as [HX1 Hd]. rewrite HX1. split; [done|]. by apply delivered_all.
    + rewrite Htm. case_decide as Hd.
      * rewrite bool_decide_true by lia. split; [done|].
        assert (a ∈ expired (set_timer_now (now + 1) k1) (now + 1) (unexpired k now ts)) as Hin.
        { unfold expired, unexpired.
          rewrite !list_elem_of_filter, (Htick a X), (Htick1 a X) by done. split_and!; [lia|lia|done]. }
        apply (deliver_all_delivered _ _ a X); [exact Hin|done|].
        assert (a ∈ unexpired k now ts) as Hin' by (apply list_elem_of_filter in Hin; tauto).
        destruct (ki_timers _ _ _ _ _ HK a Hin') as (Y & HY & _ & _ & U & HU & _).
        simplify_eq. eauto.
      * rewrite bool_decide_false by lia. done.
Qed.

(** C13. Timers fire in time: if the queued timers are in the future, then [n] ticks
    of TIM2 later - before the clock wraps around - exactly the timers whose tick
    has come are out of the queue and marked done, their tasks have received their
    signals and no longer wait for them; all the others are unchanged and still
    queued, in order. *)
Theorem timers_fire k Q rs ws ts n :
  primask k = false -> handler k = false -> id_nestcnt k = -1 ->
  kinv k Q rs ws ts -> idle_ok k -> (forall a, a ∈ ts -> timer_now k < tick_at k a) ->
  0 <= timer_now k -> timer_now k + Z.of_nat n < 2 ^ 32 ->
  let now := timer_now k + Z.of_nat n in
  exists k', timer_ticks n k = Ret tt k' /\ timer_now k' = now /\
    (exists Q' rs' ws', kinv k' Q' rs' ws' (filter (fun a => now < tick_at k a) ts)) /\
    forall a X, a ∈ ts -> timer_objs k !! a = Some X ->
      (tick X <= now -> timer_objs k' !! a = Some (set_status TIMER_DONE X) /\
        exists T, tasks k' !! tm_task X = Some T /\
          Z.land (tm_signal X) (sig_recvd T) = tm_signal X /\
          (state T = TASK_WAITING -> Z.land (tm_signal X) (sig_wait T) = 0)) /\
      (now < tick X -> timer_objs k' !! a = Some X).
Proof.
  intros Hp Hh Hnn HK Hi Hfut H0 Hn now.
  assert (exists k', timer_ticks n k = Ret tt k' /\ clocked k ts n k') as (k' & E & [Enow Hinv _ _ Htm]).
  { clear now. induction n as [|n IH].
    - exists k. split; [done|]. split; simpl; rewrite ?Z.add_0_r; [done| |done|done|].
      + exists Q, rs, ws. unfold unexpired.
        assert (filter (fun a => timer_now k < tick_at k a) ts = ts) as ->; [|done].
        clear -Hfut. induction ts as [|a ts IH]; [done|].
        rewrite filter_cons_True by (apply Hfut; set_solver). f_equal. apply IH. set_solver.
      + intros a X Ha HX. specialize (Hfut a Ha). unfold tick_at in Hfut. rewrite HX in Hfut.
        rewrite decide_False by lia. done.
    - destruct IH as (k1 & E1 & Hc1); [lia|].
      destruct (clocked_step k Q rs ws ts n k1 HK Hn H0 Hc1) as ([] & k2 & E2 & Hc2).
      exists k2. split; [by eapply timer_ticks_snoc|done]. }
  exists k'. split_and!; [done|done|exact Hinv|]. intros a X Ha HX. specialize (Htm a X Ha HX).
  fold now in Htm. split; intros Hd; [by rewrite decide_True in Htm|by rewrite decide_False in Htm by lia].
Qed.

Lemma timers_fire_witness : exists k', timer_ticks 3 demo_timed = Ret tt k' /\
  exists X, timer_objs k' !! demo_t1 = Some X /\ status X = TIMER_DONE.
Proof.
  destruct (timers_fire demo_timed _ _ _ _ 3 eq_refl eq_refl eq_refl demo_timed_kinv)
    as (k' & E & _ & _ & Hf).
  - eexists. split; [vm_compute; reflexivity|]. left. reflexivity.
  - apply Forall_forall, (bool_decide_unpack _). vm_compute. exact I.
  - vm_compute. discriminate.
  - reflexivity.
  - exists k'. split; [exact E|].
    destruct (timer_objs demo_timed !! demo_t1) as [X|] eqn:HX; [|vm_compute in HX; discriminate HX].
    exists (set_status TIMER_DONE X). split; [|reflexivity].
    apply (Hf demo_t1 X); [left|exact HX|].
    vm_compute in HX. injection HX as <-. vm_compute. discriminate.
Defined.
