(* ===== verification/AppChecker.v ===== *)
(** * Deciding what tasks keep of an application's objects

    The decision procedure for [app_ok] on concrete states, and the declarations
    of the demo application of [Demo.v]. *)

From S2P Require Import Prelude Heap Lists ListSpec Machine Logic Context Task.
From S2P Require Import Platform Timer Invariant Checker Demo TaskSpec SchedSpec.
From S2P Require Import Signals TimerSpec Mail Rely.

Section check.
Context `{AP : App}.

Definition timer_place (k : Kernel) (Q : Queues) (ts : list Z) (a : addr) (X : Timer) : Prop :=
  a <> NULL /\ tasks k !! a = None /\ is_Some (links (heap k) !! a) /\
  (a ∈ ts \/ unowned Q a).

Definition owner_check (k : Kernel) (a : addr) : Prop :=
  match timer_objs k !! a with Some X => tm_task X = app_owner a | None => True end.

#[local] Instance owner_check_dec k a : Decision (owner_check k a).
Proof. unfold owner_check. destruct (timer_objs k !! a); apply _. Defined.

Definition name_at (k : Kernel) (a : addr) : option string :=
  c ← nodes (heap k) !! a; name c.

(** The addresses of the task objects. *)
Definition task_addrs (k : Kernel) : list Z := (map_to_list (tasks k)).*1.

Definition null_check (k : Kernel) : Prop :=
  match name_at k NULL with
  | Some s => Forall (fun t => app_name t <> s) (task_addrs k)
  | None => False
  end.

#[local] Instance null_check_dec k : Decision (null_check k).
Proof. unfold null_check. destruct (name_at k NULL); apply _. Defined.

(** Ports and lists. *)
Definition port_check (k : Kernel) (Q : Queues) (p : addr) (P : MsgPort) : Prop :=
  action P <> MSGPORT_INVALID -> ~ kernel_list p /\ is_Some (Q !! p) /\
    (action P = MSGPORT_SIGNAL -> mp_task P = app_owner p /\
      (0 <= mp_signal P /\ mp_signal P < 2 ^ SIGNALS_WIDTH) /\
      match tasks k !! app_owner p with Some U => scheduled (state U) = true | None => False end).

#[local] Instance port_check_dec k Q p P : Decision (port_check k Q p P).
Proof. unfold port_check, kernel_list. destruct (tasks k !! app_owner p); apply _. Defined.

Definition list_check (k : Kernel) (l : addr) (xs : list Z) : Prop :=
  kernel_list l \/ match ports k !! l with Some P => action P <> MSGPORT_INVALID | None => False end.

#[local] Instance list_check_dec k l xs : Decision (list_check k l xs).
Proof. unfold list_check, kernel_list. destruct (ports k !! l); apply _. Defined.

Definition app_check (k : Kernel) (Q : Queues) (ts : list Z) : Prop :=
  map_Forall (timer_place k Q ts) (timer_objs k) /\ Forall (owner_check k) ts /\
  null_check k /\
  map_Forall (fun t T => scheduled (state T) = true -> name_at k t = Some (app_name t)) (tasks k) /\
  Forall (fun t => Forall (fun u => app_name t = app_name u -> t = u) (task_addrs k)) (task_addrs k) /\
  map_Forall (port_check k Q) (ports k) /\ map_Forall (list_check k) Q.

#[export] Instance app_check_dec k Q ts : Decision (app_check k Q ts).
Proof. unfold app_check, timer_place. apply _. Defined.

Lemma elem_of_task_addrs k t : t ∈ dom (tasks k) -> t ∈ task_addrs k.
Proof.
  intros [T HT]%elem_of_dom. unfold task_addrs. apply list_elem_of_fmap.
  exists (t, T). split; [done|]. by apply elem_of_map_to_list.
Qed.

Lemma app_check_sound k Q ts : app_check k Q ts -> app_ok k Q ts.
Proof.
  intros (Htm & Hown & Hnull & Hname & Hinj & Hpo & Hli). rewrite !Forall_forall in *. split.
  - intros a X HX. apply (Htm a X HX).
  - intros a X Ha HX. specialize (Hown a Ha). unfold owner_check in Hown. by rewrite HX in Hown.
  - unfold null_check, name_at in Hnull.
    destruct (nodes (heap k) !! NULL) as [c|]; [|done]. simpl in Hnull.
    destruct (name c) as [s|] eqn:Es; [|done]. exists c, s. split_and!; [done..|].
    rewrite Forall_forall in Hnull. intros t Ht. by apply Hnull, elem_of_task_addrs.
  - intros t (T & HT & Hs). specialize (Hname t T HT Hs). unfold name_at in Hname.
    destruct (nodes (heap k) !! t) as [c|]; [|done]. eauto.
  - intros t u Ht Hu E. specialize (Hinj t (elem_of_task_addrs k t Ht)). simpl in Hinj.
    rewrite Forall_forall in Hinj. apply Hinj; [by apply elem_of_task_addrs|done].
  - intros p P [HP Ha]. destruct (Hpo p P HP Ha) as (Hk & Hx & _). done.
  - intros l [xs Hx]. destruct (Hli l xs Hx) as [?|Hp]; [by left|right].
    destruct (ports k !! l) as [P|] eqn:HP; [by exists P|done].
  - intros p P [HP Ha] Hact. destruct (Hpo p P HP Ha) as (_ & _ & Hs).
    destruct (Hs Hact) as (? & ? & Hu). split_and!; [done|done|].
    destruct (tasks k !! app_owner p) as [U|] eqn:HU; [by exists U|done].
Qed.
End check.

(** Evaluates [app_ok] of a concrete state. *)
Ltac check_app := apply app_check_sound, (bool_decide_unpack _); vm_compute; exact I.

(** A timer on the stack of [demo_a]. *)
Definition demo_local : addr := demo_stack_a + 256.

(** [demo_b] lets others send it the signal 8. *)
Definition demo_App : App :=
  {| app_name t := if t =? init_task then "init"%string
       else if t =? demo_a then "a"%string else "b"%string;
     app_owner a := if bool_decide (a ∈ [demo_t1; demo_m1]) then demo_b
       else if bool_decide (a ∈ [demo_t2; demo_local; demo_mbox; tail demo_mbox]) then demo_a else init_task;
     app_public t := if t =? demo_b then 8 else 0 |}.

#[export] Existing Instance demo_App.

#[local] Instance kernel_list_dec l : Decision (kernel_list l).
Proof. unfold kernel_list. apply _. Defined.

Lemma demo_running_quiescent : quiescent demo_running.
Proof.
  split; [reflexivity..| |].
  - eexists _, _, _, _. split_and!; [apply (kinv_forget _ _ _ _ _ demo_sem demo_running_kinv)| |check_app].
    { apply (bool_decide_unpack _). vm_compute. exact I. }
    right. apply Forall_forall, (bool_decide_unpack _). vm_compute. exact I.
  - eexists. split; [vm_compute; reflexivity|]. left. reflexivity.
Qed.

Lemma demo_blocked_quiescent : quiescent demo_blocked.
Proof.
  split; [reflexivity..| |].
  - eexists _, _, _, _. split_and!; [apply (kinv_forget _ _ _ _ _ demo_sem demo_blocked_kinv)| |check_app].
    { apply (bool_decide_unpack _). vm_compute. exact I. }
    right. apply Forall_forall, (bool_decide_unpack _). vm_compute. exact I.
  - eexists. split; [vm_compute; reflexivity|]. left. reflexivity.
Qed.
