(* ===== verification/WaitSpec.v ===== *)
(** * Blocking: [signal_wait] under preemption ([src/task.c])

    Also where [signal_wait] is called inside a critical section, as
    [msgport_wait] does: it leaves the critical section while it blocks and
    re-enters it at the same depth. *)

From S2P Require Import Prelude Heap Lists ListSpec Machine Logic Context Task.
From S2P Require Import Platform Timer Invariant TaskSpec SchedSpec TimerSpec Mail Rely.

(** The state [k] inside [n + 1] levels of [disable]. *)
Definition locked (n : Z) (k : Kernel) : Kernel := set_id_nestcnt n (set_primask true k).

Lemma unlock_outer k : id_nestcnt k = 0 ->
  unlock k = set_primask false (set_id_nestcnt (-1) k).
Proof. intros Hn. unfold unlock. simpl. by rewrite Hn. Qed.

Lemma kinv_locked n k Q rs ws ts : kinv k Q rs ws ts -> kinv (locked n k) Q rs ws ts.
Proof. intros HK. by eapply kinv_frame; [..|exact HK]. Qed.

Lemma idle_other t k T' : t <> init_task -> idle_ok k ->
  idle_ok (set_tasks (<[t := T']> (tasks k)) k).
Proof. intros Ht (X & HX & Hs). exists X. simpl. by rewrite lookup_insert_ne. Qed.

(** A signal mask that shares a bit with what was received. *)
Lemma land_bit a b : Z.land a b <> 0 -> 0 <= a ->
  exists i, 0 <= i /\ Z.testbit a i = true /\ Z.testbit b i = true.
Proof.
  intros Hn Ha. assert (0 <= Z.land a b) by (apply Z.land_nonneg; auto).
  exists (Z.log2 (Z.land a b)). split; [apply Z.log2_nonneg|].
  apply andb_true_iff. rewrite <- Z.land_spec. apply Z.bit_log2. lia.
Qed.

(** Bits of a mask that another one includes. *)
Lemma land_superset_bit a b i : Z.land a b = a -> Z.testbit a i = true -> Z.testbit b i = true.
Proof. intros <-. rewrite Z.land_spec. by intros [_ ?]%andb_true_iff. Qed.

Lemma land_superset_bits a b : (forall i, Z.testbit a i = true -> Z.testbit b i = true) ->
  Z.land a b = a.
Proof.
  intros H. apply Z.bits_inj'. intros i _. rewrite Z.land_spec.
  destruct (Z.testbit a i) eqn:E; [by rewrite H|done].
Qed.

Lemma testbit_nonneg a i : Z.testbit a i = true -> 0 <= i.
Proof. intros H. destruct (decide (0 <= i)); [done|]. by rewrite Z.testbit_neg_r in H by lia. Qed.

Section inv.
Context `{AP : App} (t : addr).

Lemma in_thread_kinv k : in_thread t k ->
  exists Q rs ws ts T, kinv k Q rs ws ts /\ sched_ok k rs /\ app_ok k Q ts /\ idle_ok k /\
    tasks k !! t = Some T /\ state T = TASK_RUNNING.
Proof.
  intros [Hq Hr (T & HT & Hs)].
  destruct Hq as [_ _ _ (Q & rs & ws & ts & HK & Hsch & Ha) Hi]. by exists Q, rs, ws, ts, T.
Qed.

Lemma in_thread_unlock k T : in_thread t k -> tasks k !! t = Some T -> state T = TASK_RUNNING.
Proof. intros [_ _ (U & HU & Hs)] HT. by simplify_eq. Qed.

(** Updating a task that takes part in scheduling. *)
Lemma app_ok_insert k Q ts u U U' : app_ok k Q ts -> tasks k !! u = Some U ->
  scheduled (state U) = true -> scheduled (state U') = true ->
  app_ok (set_tasks (<[u := U']> (tasks k)) k) Q ts.
Proof.
  intros Ha HU Hs Hs'. eapply app_ok_step; [exact Ha|..]; try done.
  - simpl. by apply dom_insert_lookup_L.
  - simpl. eauto.
  - intros v (V & HV & HVs). simpl in HV.
    destruct (decide (u = v)) as [->|Hne]; [by exists U|].
    rewrite lookup_insert_ne in HV by done. by exists V.
  - intros v (V & HV & HVs). unfold sched_task. simpl.
    destruct (decide (u = v)) as [->|Hne]; [exists U'; by rewrite lookup_insert_eq|].
    exists V. by rewrite lookup_insert_ne.
Qed.

(** A list of tasks changes in memory. *)
Lemma app_ok_tasks_list k Q ts l xs xs' m' : app_ok k Q ts -> Q !! l = Some xs ->
  l = ready \/ l = waiting -> dom m' = dom (links (heap k)) -> (forall x, x ∈ xs' -> is_Some (tasks k !! x)) ->
  app_ok (set_heap (mkHeap m' (nodes (heap k))) k) (<[l := xs']> Q) ts.
Proof.
  intros Ha Hl Hk Hd Hx. eapply app_ok_step; [exact Ha|..]; try done; [by eauto|].
  by eapply keeps_free_tasks.
Qed.

Lemma live_env_after k1 k2 k3 T T' : live_env t k1 k2 T T' -> own_env t [] k2 k3 ->
  live_env t k1 k3 T T'.
Proof.
  intros [] Ho. split; try done. intros i Hi.
  destruct (env_new i Hi) as [?|?]; [by left|right]. by eapply new_signal_after.
Qed.

Lemma live_env_before k1 k2 k3 T T' : own_env t [] k1 k2 -> live_env t k2 k3 T T' ->
  live_env t k1 k3 T T'.
Proof.
  intros Ho []. split; try done. intros i Hi.
  destruct (env_new i Hi) as [?|?]; [by left|right]. by eapply new_signal_before.
Qed.

(** The environment of a task that blocked and runs again. *)
Lemma live_env_wakeup k k' T T' : live_env t k k' (set_state TASK_WAITING T) T' ->
  state T = TASK_RUNNING -> state T' = TASK_RUNNING -> live_env t k k' T T'.
Proof. intros [] Hs Hs'. split; try done; congruence. Qed.

(** The running task updates its own fields. *)
Lemma in_thread_update k T T' : in_thread t k -> tasks k !! t = Some T ->
  state T' = state T -> (task_ok T -> task_ok T') ->
  in_thread t (set_tasks (<[t := T']> (tasks k)) k).
Proof.
  intros [Hq Hr (T0 & HT0 & Hs)] HT Hst Hok. rewrite HT in HT0. injection HT0 as <-.
  destruct Hq as [Hm Hh Hn (Q & rs & ws & ts & HK & Hsch & Hao) Hi].
  split; [|done|exists T'; simpl; rewrite lookup_insert_eq; split; [done|congruence]].
  split; [done..| |].
  - exists Q, rs, ws, ts. split_and!; [by eapply kinv_set_task|exact Hsch|].
    eapply app_ok_insert; [done|exact HT|by rewrite Hs|by rewrite Hst, Hs].
  - destruct Hi as (X & HX & HXs). unfold idle_ok. simpl.
    destruct (decide (init_task = t)) as [E|Hne].
    + rewrite E in *. simplify_eq. exists T'. rewrite lookup_insert_eq, Hst. done.
    + exists X. rewrite lookup_insert_ne by done. done.
Qed.

End inv.

Section wait.
Context `{AP : App} (t : addr) (Ht : t <> init_task).

(** The task has entered the waiting list. *)
Lemma blocked_ok k Q rs ws ts T m' : kinv k Q rs ws ts -> app_ok k Q ts -> running k = t ->
  tasks k !! t = Some T -> state T = TASK_RUNNING ->
  reps m' (<[waiting := ws ++ [t]]> Q) -> dom m' = dom (links (heap k)) ->
  let k1 := set_heap (mkHeap m' (nodes (heap k)))
    (set_tasks (<[t := set_state TASK_WAITING T]> (tasks k)) k) in
  kinv k1 (<[waiting := ws ++ [t]]> Q) rs (ws ++ [t]) ts /\
  app_ok k1 (<[waiting := ws ++ [t]]> Q) ts /\ kept_mail k k1.
Proof.
  intros HK Hao Hrun HT Hst Hm Hd k1. assert (scheduled (state T) = true) as HsT by by rewrite Hst.
  split_and!; [| |eapply (kept_lists k k1 Q); [apply HK|exact Hm|apply Hao|done|]].
  - pose proof (twf_ok _ _ _ _ _ _ (ki_tasks _ _ _ _ _ HK _ _ HT) HsT) as Hok.
    pose proof (kinv_task_place HK _ _ HT) as Hpl. rewrite Hst in Hpl. destruct Hpl as [_ Hun].
    unfold k1. rewrite <- Hrun in *. eapply kinv_block; try done. by destruct Hok.
  - eapply (app_ok_tasks_list (set_tasks _ k)); [by eapply app_ok_insert|apply HK|by right|done|].
    intros x Hx. simpl. destruct (decide (t = x)) as [->|]; [rewrite lookup_insert_eq; eauto|].
    rewrite lookup_insert_ne by done. eapply kinv_waiting_tasks; [exact HK|set_solver].
  - intros l. apply kernel_insert. by right; left.
Qed.

(** [reschedule] with interrupts enabled leaves nothing unsettled. *)
Lemma pended_unsettled k : quiescent k -> unsettled (set_pendsv true k).
Proof.
  intros [? ? ? (Q & rs & ws & ts & HK & _ & Ha) ?]. split; try done.
  exists Q, rs, ws, ts. split_and!; [by eapply kinv_frame; [..|exact HK]|by left|by destruct Ha].
Qed.

(** The blocked task runs again behind [enable] and [reschedule]. *)
Lemma blocked_resumed k1 k2 k3 T1 : tasks k1 !! t = Some T1 -> state T1 = TASK_WAITING ->
  resumed t k1 k2 -> resumed t (set_pendsv true k2) k3 ->
  exists T3, in_thread t k3 /\ tasks k3 !! t = Some T3 /\ state T3 = TASK_RUNNING /\
    live_env t k1 k3 T1 T3 /\ own_env t [] k1 k3 /\ Z.land (sig_wait T1) (sig_recvd T3) <> 0.
Proof.
  intros HT1 Hs1 Hk2 Hk3. assert (scheduled (state T1) = true) as HsT by by rewrite Hs1.
  pose proof (res_env _ _ _ Hk2) as [Ho2 He2]. destruct (He2 T1 HT1) as (T2 & HT2 & Ht2).
  pose proof (env_live _ _ _ _ _ Ht2 HsT) as Hl2.
  pose proof (res_env _ _ _ Hk3) as [Ho3 He3]. destruct (He3 T2 HT2) as (T3 & HT3 & Ht3).
  pose proof (env_live _ _ _ _ _ Ht3 (env_sched _ _ _ _ _ Hl2)) as Hl3.
  assert (state T3 = TASK_RUNNING) as Hs3.
  { destruct (env_switch _ _ _ _ _ Ht3) as [E|E]; [apply Hk3|done| |done].
    by rewrite (res_pendsv _ _ _ Hk3) in E. }
  assert (own_env t [] k2 (set_pendsv true k2)) as Ho2' by by apply own_env_same.
  assert (live_env t k1 k3 T1 T3) as Hl13.
  { eapply (live_env_trans t _ (set_pendsv true k2)); [|exact Ho3| |exact Hl3].
    - by eapply own_env_trans.
    - by eapply live_env_after. }
  exists T3. split_and!; try done.
  - split; [apply Hk3..|]. by exists T3.
  - eapply own_env_trans; [exact Ho2|]. by eapply own_env_trans.
  - apply (env_woken _ _ _ _ _ Hl13 Hs1). congruence.
Qed.

(** The part of the loop that blocks: from a state in which the task was
    found without one of its signals to the state in which it runs again. *)
Lemma wpt_block {A} n k0 k Q rs ws ts T s (rest : M A) P :
  kinv k Q rs ws ts -> sched_ok k rs -> app_ok k Q ts -> idle_ok k -> others t k0 k ->
  running k = t -> tasks k !! t = Some T -> state T = TASK_RUNNING -> sig_wait T = s ->
  handler k = false -> id_nestcnt k = n -> 0 <= n < 2 ^ 15 ->
  (forall k' T', in_thread t k' -> pendsv k' = false -> tasks k' !! t = Some T' ->
    Z.land s (sig_recvd T') <> 0 -> own_env t [] k k' -> live_env t k k' T T' ->
    wpt t k' rest (locked n k') P) ->
  wpt t k0
    (r ← gets running;
     upd_task r (set_state TASK_WAITING);;
     listop (list_add_tail waiting r);;
     n ← gets id_nestcnt;
     let nestcnt := swrap 16 n in
     modify (set_id_nestcnt 0);;
     enable;; reschedule;; disable;;
     modify (set_id_nestcnt nestcnt);;
     rest) k P.
Proof.
  intros HK Hsch Hao Hidle Hoth Hrun HT Hst Hw Hh Hn Hnb HP.
  pose proof (ki_tasks _ _ _ _ _ HK _ _ HT) as [Hnd Hlk Hnz Hpl _].
  rewrite Hst in Hpl. destruct Hpl as [_ Hun].
  assert (scheduled (state T) = true) as HsT by by rewrite Hst.
  eapply wpt_run_bind, wp_gets. rewrite Hrun.
  eapply wpt_run_bind, wp_upd_task; [exact HT|]. set (T1 := set_state TASK_WAITING T).
  eapply wpt_run_bind, wp_list_step.
  { apply (add_tail_step (heap k) Q (ki_reps _ _ _ _ _ HK) waiting ws t); [apply HK|by split]. }
  simpl. intros m' Hm' [Hd _].
  destruct (blocked_ok k Q rs ws ts T m' HK Hao Hrun HT Hst Hm' Hd) as (HK1 & Ha1 & Hmail).
  set (k1 := set_heap _ _) in *.
  eapply wpt_run_bind, wp_gets. simpl. rewrite Hn, (swrap_small 16 n) by (simpl; lia).
  set (k1' := set_id_nestcnt 0 k1).
  assert (same_objs k (unlock k1') /\ tasks (unlock k1') = <[t := T1]> (tasks k)) as [Hso Et1]
    by (rewrite unlock_outer by done; split; [split; try done; by destruct Hmail|done]).
  assert (own_env t [] k (unlock k1')) as Ho1 by by eapply own_env_insert.
  eapply wpt_run_bind, wp_modify, wpt_bind, wpt_enable; [done|..].
  { eapply quiescent_unlock; [done|done|by eapply kinv_frame; [..|exact HK1]|done| |].
    - by destruct Ha1.
    - by apply (idle_other t k T1). }
  { eapply others_trans; [exact Hoth|]. by eapply others_insert. }
  intros k2 Hk2. assert (tasks (unlock k1') !! t = Some T1) as HT1
    by (rewrite Et1; apply lookup_insert_eq).
  eapply wpt_bind, wpt_reschedule; [by apply pended_unsettled, Hk2| |].
  { destruct (res_env _ _ _ Hk2) as [_ He2]. destruct (He2 T1 HT1) as (T2 & HT2 & Ht2).
    apply others_same; [apply Hk2| |done|done]. exists T2.
    by split; [|apply (env_live _ _ _ _ _ Ht2)]. }
  intros k3 Hk3.
  destruct (blocked_resumed _ _ _ T1 HT1 eq_refl Hk2 Hk3)
    as (T3 & Hit3 & HT3 & Hs3 & Hl13 & Ho13 & Hr3).
  eapply wpt_bind, wpt_disable; [exact Hit3|by apply others_refl|].
  intros k4 Hit4 Hp4 He4. pose proof He4 as [Ho4 _].
  destruct (env_running t k3 k4 T3 HT3 Hs3 (it_running _ _ Hit4) He4) as (T4 & HT4 & Hs4 & Hl4).
  eapply wpt_run_bind, wp_modify. change (set_id_nestcnt n (lock k4)) with (locked n k4).
  assert (live_env t (unlock k1') k4 T1 T4 /\ own_env t [] (unlock k1') k4) as [Hl14 Ho14]
    by (split; [by eapply live_env_trans|by eapply own_env_trans]).
  eapply HP; [done|done|exact HT4| | |].
  - eapply land_superset_nz; [apply (env_recvd _ _ _ _ _ Hl4)|]. by rewrite <- Hw.
  - by eapply own_env_trans.
  - eapply live_env_wakeup; [|done|done]. by eapply live_env_before.
Qed.

(** Clearing received signals. *)
Definition clear_recvd (rcvd : Z) (T : Task) : Task :=
  set_sig_recvd (Z.land (sig_recvd T) (Z.lnot rcvd)) T.

(** The loop from inside the critical section. *)
Lemma wpt_wait_loop fuel n k0 k T s (P : Kernel -> unit -> Kernel -> Prop) :
  in_thread t k -> tasks k !! t = Some T -> sig_wait T = s -> others t k0 k ->
  0 <= n < 2 ^ 15 ->
  (forall k1 k' T', in_thread t k' -> tasks k' !! t = Some T' ->
    Z.land s (sig_recvd T') <> 0 -> own_env t [] k k' -> live_env t k k' T T' ->
    others t k1 k' -> P k1 tt (locked n k')) ->
  wpt t k0 (wait_loop (S (S fuel)) s) (locked n k) P.
Proof.
  intros Hit HT Hw Hoth Hn HP. pose proof (it_running _ _ Hit) as Hr.
  destruct (in_thread_kinv t k Hit) as (Q & rs & ws & ts & T0 & HK & Hsch & Hao & Hidle & HT0 & Hs).
  rewrite HT in HT0. injection HT0 as <-. subst s.
  pose proof (it_quiescent _ _ Hit) as [Hm Hh Hnest _ _].
  cbn [wait_loop]. eapply wpt_run_bind, wp_bind, wp_gets, wp_load;
    [simpl; rewrite Hr; exact HT|].
  destruct (Z.land (sig_wait T) (sig_recvd T) =? 0) eqn:E; norm_bool.
  - eapply (wpt_block n k0 (locked n k) Q rs ws ts T (sig_wait T)); try done.
    + by apply kinv_locked.
    + by destruct Hao.
    + eapply others_trans; [exact Hoth|]. by apply others_same; [|apply in_thread_sched| |].
    + intros k' T' Hit' Hp' HT' Hb Ho' Hl'.
      pose proof (it_running _ _ Hit') as Hr'. cbn [wait_loop].
      eapply wpt_run_bind, wp_bind, wp_gets, wp_load; [simpl; rewrite Hr'; exact HT'|].
      replace (Z.land (sig_wait T) (sig_recvd T') =? 0) with false
        by (symmetry; by apply Z.eqb_neq).
      assert (own_env t [] k (locked n k)) as Hok by by apply own_env_same.
      eapply wpt_ret, HP; [done|exact HT'|done| | |by apply others_refl].
      * by eapply own_env_trans.
      * by eapply live_env_before.
  - eapply wpt_ret, HP; [done|exact HT|done| | |done].
    + by apply own_env_same.
    + split; try done; auto using Z.land_diag. by rewrite Hs.
Qed.

(** What [signal_wait] leaves of the running task, and what it returns. *)
Record waited (k k' : Kernel) (T T' : Task) (s rcvd : Z) : Prop := mkWaited {
  wd_own : own_env t [] k k';
  wd_alloc : sig_alloc T' = sig_alloc T;
  wd_some : rcvd <> 0;
  wd_sub : Z.land s rcvd = rcvd;
  wd_new : forall i, Z.testbit rcvd i = true ->
    Z.testbit (sig_recvd T) i = true \/ new_signal t k k' i;
  wd_left : forall i, Z.testbit s i = true -> Z.testbit (sig_recvd T') i = true ->
    new_signal t k k' i;
  wd_kept : forall i, Z.testbit s i = false -> Z.testbit (sig_recvd T) i = true ->
    Z.testbit (sig_recvd T') i = true }.

(** Between the [disable] and the [enable] of [signal_wait]. *)
Lemma wpt_wait_body {A} fuel n k0 k T s (rest : Z -> M A) P :
  in_thread t k -> tasks k !! t = Some T -> others t k0 k -> is_signals s ->
  0 <= n < 2 ^ 15 ->
  (forall k1 k' T' rcvd, in_thread t k' -> tasks k' !! t = Some T' ->
    waited k k' T T' s rcvd -> others t k1 k' -> wpt t k1 (rest rcvd) (locked n k') P) ->
  wpt t k0
    (r ← gets running;
     upd_task r (set_sig_wait s);;
     wait_loop (S (S fuel)) s;;
     T ← load_running;
     let rcvd := Z.land s (sig_recvd T) in
     r ← gets running;
     upd_task r (fun T => set_sig_recvd (Z.land (sig_recvd T) (Z.lnot rcvd)) T);;
     rest rcvd) (locked n k) P.
Proof.
  intros Hit HT Hoth Hsig Hn HP. pose proof (it_running _ _ Hit) as Hr.
  pose proof (it_state _ _ Hit) as (T0 & HT0 & Hs0). rewrite HT in HT0. injection HT0 as <-.
  eapply wpt_run_bind, wp_gets. simpl. rewrite Hr.
  eapply wpt_run_bind, wp_upd_task; [exact HT|].
  set (T1 := set_sig_wait s T). set (k2 := set_tasks (<[t := T1]> (tasks k)) k).
  change (set_tasks _ (locked n k)) with (locked n k2).
  assert (in_thread t k2) as Hit2 by (eapply in_thread_update; [done|exact HT|done|]; by intros []).
  assert (own_env t [] k k2) as Ho2
    by (eapply (own_env_insert t [] k k2 t T T1); [done|done|done|by rewrite Hs0|simpl; by rewrite Hs0]).
  eapply wpt_bind, (wpt_wait_loop fuel n k0 k2 T1); [done|apply lookup_insert_eq|done| |done|].
  { eapply others_trans; [exact Hoth|].
    eapply (others_insert t k k2 T T1); try done; [by rewrite Hs0|simpl; by rewrite Hs0]. }
  intros k3 k4 T4 Hit4 HT4 Hb Ho4 Hl4 Hoth4. pose proof (it_running _ _ Hit4) as Hr4.
  pose proof (it_state _ _ Hit4) as (T0 & HT0 & Hs4). rewrite HT4 in HT0. injection HT0 as <-.
  eapply wpt_run_bind, wp_bind, wp_gets, wp_load; [simpl; rewrite Hr4; exact HT4|].
  eapply wpt_run_bind, wp_gets. simpl. rewrite Hr4.
  eapply wpt_run_bind, wp_upd_task; [exact HT4|].
  set (rcvd := Z.land s (sig_recvd T4)). fold (clear_recvd rcvd T4).
  set (T5 := clear_recvd rcvd T4). set (k5 := set_tasks (<[t := T5]> (tasks k4)) k4).
  change (set_tasks _ (locked n k4)) with (locked n k5).
  assert (own_env t [] k4 k5) as Ho5
    by (eapply (own_env_insert t [] k4 k5 t T4 T5); [done|done|done|by rewrite Hs4|simpl; by rewrite Hs4]).
  eapply (HP k3 k5 T5).
  - eapply in_thread_update; [done|exact HT4|done|].
    intros []. split; try done. by apply is_signals_land.
  - apply lookup_insert_eq.
  - split.
    + by do 2 (eapply own_env_trans; [done|]).
    + simpl. by rewrite (env_alloc _ _ _ _ _ Hl4).
    + done.
    + unfold rcvd. by rewrite Z.land_assoc, Z.land_diag.
    + intros i. unfold rcvd. rewrite Z.land_spec. intros [_ Hi]%andb_true_iff.
      destruct (env_new _ _ _ _ _ Hl4 i Hi) as [?|Hnew]; [by left|right].
      eapply new_signal_after; [|exact Ho5]. by eapply new_signal_before.
    + intros i Hi. simpl. unfold rcvd. rewrite Z.land_spec, Z.lnot_spec, Z.land_spec, Hi.
      * by destruct (Z.testbit (sig_recvd T4) i).
      * destruct (decide (0 <= i)); [done|]. by rewrite Z.testbit_neg_r in Hi by lia.
    + intros i Hi Hr1. assert (0 <= i) as H0 by by eapply testbit_nonneg.
      simpl. unfold rcvd. rewrite Z.land_spec, Z.lnot_spec, Z.land_spec, Hi by done.
      by rewrite (land_superset_bit _ _ i (env_recvd _ _ _ _ _ Hl4)).
  - eapply others_trans; [exact Hoth4|].
    eapply (others_insert t k4 k5 T4 T5); try done; [by rewrite Hs4|simpl; by rewrite Hs4].
Qed.

(** Leaving the outermost critical section. *)
Lemma wpt_leave k0 k (P : Kernel -> unit -> Kernel -> Prop) :
  in_thread t k -> others t k0 k ->
  (forall k', in_thread t k' -> pendsv k' = false -> env t k k' -> P k' tt k') ->
  wpt t k0 enable (locked 0 k) P.
Proof.
  intros Hit Hoth HP. pose proof (it_quiescent _ _ Hit) as [Hm Hh Hn (Q & rs & ws & ts & HK & Hs & Ha) Hi].
  assert (unlock (locked 0 k) = k) as E.
  { rewrite unlock_outer by done. apply kernel_ext; try reflexivity; simpl; congruence. }
  eapply wpt_enable; [done|..]; rewrite E; [apply Hit|done|].
  intros k' Hk'. apply HP; [|by destruct Hk'..].
  eapply resumed_in_thread; [apply Hit|exact Hk'].
Qed.

Lemma lock_locked k : in_thread t k -> lock k = locked 0 k.
Proof. intros Hit. unfold lock. by rewrite (qu_nest _ (it_quiescent _ _ Hit)). Qed.

Lemma wpt_signal_wait fuel k0 k T s (P : Kernel -> Z -> Kernel -> Prop) :
  in_thread t k -> others t k0 k -> tasks k !! t = Some T -> is_signals s ->
  (forall rcvd k' T', in_thread t k' -> pendsv k' = false -> tasks k' !! t = Some T' ->
    waited k k' T T' s rcvd -> P k' rcvd k') ->
  wpt t k0 (signal_wait (S (S fuel)) s) k P.
Proof.
  intros Hit Hoth HT Hsig HP. unfold signal_wait.
  pose proof (it_state _ _ Hit) as (T0 & HT0 & Hs0). rewrite HT in HT0. injection HT0 as <-.
  eapply wpt_bind, wpt_disable; [exact Hit|done|]. intros k1 Hit1 Hp1 He1.
  destruct (env_running t k k1 T HT Hs0 (it_running _ _ Hit1) He1) as (T1 & HT1 & Hs1 & Hl1).
  rewrite (lock_locked k1) by done.
  apply (wpt_wait_body fuel 0 k1 k1 T1 s (fun rcvd => enable;; mret rcvd));
    [done|exact HT1|by apply others_refl|done|lia|].
  intros k2 k3 T3 rcvd Hit3 HT3 [Wo Wa Wn Ws Wb Wl Wk] Hoth3.
  pose proof (it_state _ _ Hit3) as (X & HX & Hs3). rewrite HT3 in HX. injection HX as <-.
  eapply wpt_bind, wpt_leave; [done|done|]. intros k4 Hit4 Hp4 He4.
  destruct (env_running t k3 k4 T3 HT3 Hs3 (it_running _ _ Hit4) He4) as (T4 & HT4 & Hs4 & Hl4).
  apply wpt_ret, (HP rcvd k4 T4); [done..|]. split; try done.
  - do 2 (eapply own_env_trans; [apply He1 || done|]). apply He4.
  - rewrite (env_alloc _ _ _ _ _ Hl4), Wa. apply (env_alloc _ _ _ _ _ Hl1).
  - intros i [Hi|Hi]%Wb.
    + destruct (env_new _ _ _ _ _ Hl1 i Hi) as [?|Hi']; [by left|right].
      do 2 (eapply new_signal_after; [|by first [exact Wo|apply He4]]). done.
    + right. eapply new_signal_after; [|apply He4]. eapply new_signal_before; [apply He1|done].
  - intros i Hsi [Hi|Hi]%(env_new _ _ _ _ _ Hl4); (eapply new_signal_before; [apply He1|]).
    + eapply new_signal_after; [by apply Wl|apply He4].
    + by eapply new_signal_before.
  - intros i Hsi Hi. eapply land_superset_bit; [apply (env_recvd _ _ _ _ _ Hl4)|].
    apply Wk; [done|]. eapply land_superset_bit; [apply (env_recvd _ _ _ _ _ Hl1)|done].
Qed.

(** [signal_wait] called inside [n + 1] levels of [disable]. *)
Lemma wpt_signal_wait_nested fuel n k0 k T s (P : Kernel -> Z -> Kernel -> Prop) :
  in_thread t k -> others t k0 k -> tasks k !! t = Some T -> is_signals s -> 0 <= n < 31998 ->
  (forall k1 rcvd k' T', in_thread t k' -> tasks k' !! t = Some T' ->
    waited k k' T T' s rcvd -> others t k1 k' -> P k1 rcvd (locked n k')) ->
  wpt t k0 (signal_wait (S (S fuel)) s) (locked n k) P.
Proof.
  intros Hit Hoth HT Hsig Hn HP. unfold signal_wait.
  eapply wpt_run_bind, wp_disable_calm.
  { split; [|done]. split; [|simpl; lia]. simpl. symmetry. apply Z.leb_le. lia. }
  change (lock (locked n k)) with (locked (n + 1) k).
  apply (wpt_wait_body fuel (n + 1) k0 k T s (fun rcvd => enable;; mret rcvd));
    [done|exact HT|done|done|lia|].
  intros k2 k3 T3 rcvd Hit3 HT3 Hwd Hoth3.
  assert (unlock (locked (n + 1) k3) = locked n k3) as E.
  { unfold unlock. simpl. replace (n + 1 - 1) with n by lia.
    rewrite (proj2 (Z.ltb_ge n 0)) by lia. done. }
  eapply wpt_run_bind, wp_enable_calm; [simpl; lia|by rewrite E|]. rewrite E.
  eapply wpt_ret, HP; done.
Qed.
End wait.
