(* ===== verification/Threads.v ===== *)
(** * The task API in thread code under preemption

    Each function is safe when called by a running task, whatever the
    interrupts and the other tasks do at the points where they can: it keeps the
    kernel invariant, harms no other task, and returns to the running task with
    its result. *)

From S2P Require Import Prelude Heap Lists ListSpec Machine Logic Context Task.
From S2P Require Import Platform Timer Invariant Checker Demo TaskSpec SchedSpec.
From S2P Require Import Signals TimerSpec Mail Rely AppChecker WaitSpec.

(** As [peel], for a prefix of thread code that runs uninterrupted. *)
Ltac peel_thread H :=
  apply wp_unbind in H;
  eapply wpt_run_bind, wp_mono; [exact H|]; clear H; simpl; intros ? ? H.

Section api.
Context `{AP : App} (t : addr).

Lemma in_thread_task k T : in_thread t k -> tasks k !! t = Some T -> state T = TASK_RUNNING.
Proof. intros [_ _ (U & HU & Hs)] HT. by simplify_eq. Qed.

Lemma in_thread_lookup k : in_thread t k -> exists T, tasks k !! t = Some T.
Proof. intros [_ _ (T & HT & _)]. eauto. Qed.

(** A task that was preempted while it executed. *)
Lemma env_thread k k' T : in_thread t k -> tasks k !! t = Some T -> in_thread t k' ->
  env t k k' -> exists T', tasks k' !! t = Some T' /\ live_env t k k' T T'.
Proof.
  intros Hit HT Hit' He.
  destruct (env_running t k k' T HT (in_thread_task k T Hit HT) (it_running _ _ Hit') He)
    as (T' & HT' & _ & Hl). eauto.
Qed.

(** The running task updates its own fields. *)
Lemma own_update S k T T' : in_thread t k -> tasks k !! t = Some T ->
  state T' = state T -> (task_ok T -> task_ok T') ->
  let k' := set_tasks (<[t := T']> (tasks k)) k in
  in_thread t k' /\ own_env t S k k' /\ others t k k'.
Proof.
  intros Hit HT Hst Hok k'. pose proof (in_thread_task k T Hit HT) as Hs.
  assert (scheduled (state T) = true /\ scheduled (state T') = true) as [H1 H2]
    by by rewrite Hst, Hs.
  split_and!; [by eapply in_thread_update|by eapply own_env_insert|].
  eapply others_insert; [apply Hit|exact HT|done..].
Qed.

(** The end of a critical section. *)
Lemma wpt_critical_end k1 k Q rs ws ts (P : Kernel -> unit -> Kernel -> Prop) :
  id_nestcnt k = 0 -> handler k = false -> kinv k Q rs ws ts -> sched_ok k rs ->
  app_ok k Q ts -> idle_ok k -> in_state k TASK_RUNNING t -> others t k1 k ->
  (forall k', in_thread t k' -> pendsv k' = false -> env t k k' -> P k' tt k') ->
  wpt t k1 enable k P.
Proof.
  intros Hn Hh HK Hs Ha Hi (T & HT & Hst) Ho HP.
  assert (forall u, env u k (unlock k)) as He.
  { intros u. rewrite unlock_outer by done. by apply env_same. }
  eapply wpt_enable; [done|by eapply quiescent_unlock|..].
  - destruct Ho as [Ho Hd]. split; [|by rewrite unlock_outer].
    intros t' Hne. eapply env_trans; [by apply Ho|apply He].
  - intros k' Hk'. apply HP.
    + eapply resumed_in_thread; [|exact Hk']. exists T. by rewrite unlock_outer.
    + apply Hk'.
    + eapply env_trans; [apply He|apply Hk'].
Qed.

Lemma in_thread_calm k : in_thread t k -> calm (lock k).
Proof.
  intros [Hq _ _]. apply lock_calm; [by apply quiescent_irq_ok|].
  rewrite (qu_nest _ Hq). lia.
Qed.

(** The invariants inside the critical section a thread entered. *)
Lemma in_thread_inv k : in_thread t k -> exists Q rs ws ts T, kinv (lock k) Q rs ws ts /\
  sched_ok (lock k) rs /\ app_ok (lock k) Q ts /\ idle_ok (lock k) /\
  tasks k !! t = Some T /\ state T = TASK_RUNNING /\ running k = t /\
  id_nestcnt (lock k) = 0 /\ handler k = false.
Proof.
  intros [Hq Hr (T & HT & Hs)].
  destruct Hq as [_ Hh Hn (Q & rs & ws & ts & HK & Hsch & Ha) Hi].
  exists Q, rs, ws, ts, T. split_and!; try done; [by eapply kinv_frame; [..|exact HK]|..].
  - by destruct Ha.
  - simpl. rewrite Hn. done.
Qed.

(** A thread behind its critical section. *)
Lemma critical_thread k Q rs ws ts : id_nestcnt k = 0 -> handler k = false -> running k = t ->
  kinv k Q rs ws ts -> sched_ok k rs -> app_ok k Q ts -> idle_ok k -> in_state k TASK_RUNNING t ->
  in_thread t (unlock k).
Proof.
  intros Hn Hh Hr HK Hs Ha Hi Hst. split; [by eapply quiescent_unlock|..]; by rewrite unlock_outer.
Qed.

Lemma unlock_locked k : in_thread t k -> unlock (locked 0 k) = k.
Proof.
  intros Hit. pose proof (it_quiescent _ _ Hit) as [Hm _ Hn _ _].
  rewrite unlock_outer by done. apply kernel_ext; try reflexivity; simpl; congruence.
Qed.

Lemma deliver_running u s U T : U !! t = Some T -> state T = TASK_RUNNING ->
  exists T', deliver u s U !! t = Some T' /\ state T' = TASK_RUNNING.
Proof.
  intros HT Hs. destruct (deliver_roused u s U t T HT) as (T' & HT' & [_ _ _ _ Hst]).
  exists T'. split; [done|]. destruct Hst as [->|(? & _)]; congruence.
Qed.

(** The end of a critical section in which [u] was sent the signals [s]. *)
Lemma sent_end k Q rs ws ts u U s k2 :
  in_thread t k -> kinv (lock k) Q rs ws ts -> sched_ok (lock k) rs -> app_ok (lock k) Q ts ->
  idle_ok (lock k) -> tasks k !! u = Some U -> scheduled (state U) = true -> is_signals s ->
  sent (lock k) Q rs ws u U s k2 ->
  id_nestcnt k2 = 0 /\ handler k2 = false /\ running k2 = t /\
  (exists Q' rs' ws', kinv k2 Q' rs' ws' ts /\ sched_ok k2 rs' /\ app_ok k2 Q' ts) /\
  idle_ok k2 /\ in_state k2 TASK_RUNNING t.
Proof.
  intros Hit HK Hs Ha Hi HU HUs Hsig H.
  destruct (it_state _ _ Hit) as (T & HT & Hst). pose proof (it_quiescent _ _ Hit) as [_ Hh Hnest _ _].
  pose proof (sent_same _ _ _ _ _ _ _ _ H) as [(E1 & E2 & E3) E4 En _ _ _ (_ & _ & Epo & _)].
  pose proof (sent_tasks (lock k) _ _ _ _ _ _ _ HU H) as Et. simpl in Et.
  destruct (sent_free (lock k) _ _ _ _ _ _ _ _ HK HU H) as (Hfree & Hl & Hd & Htm).
  destruct (sent_own (lock k) Q rs ws ts u U s k2 0 [] HK Ha HU HUs Hsig H) as [Hown _].
  split_and!.
  - rewrite E3. simpl. by rewrite Hnest.
  - by rewrite E2.
  - rewrite E4. apply Hit.
  - eexists _, _, _. split_and!; [exact (sent_kinv (lock k) _ _ _ _ _ _ _ _ HK HU Hsig H)|
      exact (sent_sched_ok (lock k) _ _ _ _ _ _ _ Hs H)|].
    eapply (app_ok_step (lock k)); try done; [by rewrite Htm; eauto| |].
    + intros v (V & HV & HVs). rewrite Et in HV. unfold deliver in HV.
      destruct (decide (u = v)) as [->|Hne]; [by exists U|].
      rewrite lookup_alter_ne in HV by done. by exists V.
    + intros v. by apply (oe_sched _ _ _ _ Hown).
  - exact (sent_idle_ok (lock k) _ _ _ _ _ _ _ HU Hi H).
  - destruct (deliver_running u s _ T HT Hst) as (T' & HT' & Hs').
    exists T'. by rewrite Et.
Qed.

Lemma wpt_sent_end k0 k Q rs ws ts u U s k2 (P : Kernel -> unit -> Kernel -> Prop) :
  in_thread t k -> kinv (lock k) Q rs ws ts -> sched_ok (lock k) rs -> app_ok (lock k) Q ts ->
  idle_ok (lock k) -> tasks k !! u = Some U -> scheduled (state U) = true -> is_signals s ->
  sent (lock k) Q rs ws u U s k2 -> others t k0 k2 ->
  (forall k', in_thread t k' -> pendsv k' = false -> env t k2 k' -> P k' tt k') ->
  wpt t k0 enable k2 P.
Proof.
  intros Hit HK Hs Ha Hi HU HUs Hsig H Ho HP.
  destruct (sent_end k Q rs ws ts u U s k2) as (? & ? & _ & (Q' & rs' & ws' & ? & ? & ?) & ? & ?); try done.
  by eapply (wpt_critical_end k0 k2 Q' rs' ws' ts).
Qed.

Lemma wpt_signal_send k0 k u s (P : Kernel -> unit -> Kernel -> Prop) :
  in_thread t k -> others t k0 k -> sched_task k u -> is_signals s ->
  (forall i, Z.testbit s i = true -> Z.testbit (app_public u) i = true) ->
  (forall k', in_thread t k' -> pendsv k' = false -> env t k k' -> P k' tt k') ->
  wpt t k0 (signal_send u s) k P.
Proof.
  intros Hit Ho Hu Hsig Hpub HP. unfold signal_send.
  eapply wpt_bind, wpt_disable; [done..|]. intros k1 Hit1 Hp1 He1.
  destruct (in_thread_inv k1 Hit1) as (Q & rs & ws & ts & T & HK & Hs & Ha & Hi & HT & Hst & _).
  apply (oe_sched _ _ _ _ (env_own _ _ _ He1)) in Hu as (U & HU & HUs).
  assert (wp (fun _ => False) (fun _ _ => False) (send_body u s) (lock k1)
    (fun _ k' => sent (lock k1) Q rs ws u U s k')) as H.
  { eapply wp_send_body; [by apply in_thread_calm|exact HK|exact HU|done|done]. }
  do 2 peel_thread H. eapply wpt_run_bind, wp_mono; [exact H|]. simpl. clear H.
  intros [] k2 H.
  assert (forall u', env u' k1 k2) as He2.
  { intros u'. eapply (env_trans u' k1 (lock k1)); [by apply env_same|].
    exact (sent_env (lock k1) Q rs ws ts u U s k2 u' HK Ha HU HUs Hsig H Hpub). }
  eapply (wpt_sent_end k1 k1 Q rs ws ts u U s k2); try done.
  - split; [auto|].
    destruct (sent_free (lock k1) _ _ _ _ _ _ _ _ HK HU H) as (_ & _ & Hd & _). done.
  - intros k5 Hit' Hp' He'. apply HP; [done|done|].
    eapply env_trans; [exact He1|]. by eapply env_trans.
Qed.

Lemma wpt_load_running k0 k T (P : Kernel -> Task -> Kernel -> Prop) :
  running k = t -> tasks k !! t = Some T -> P k0 T k -> wpt t k0 load_running k P.
Proof.
  intros Hr HT HP. eapply wpt_run; [|intros a k' H; exact H].
  eapply wp_bind, wp_gets, wp_load; [|exact HP]. by rewrite Hr.
Qed.

Lemma wpt_signal_free k0 k T s (P : Kernel -> unit -> Kernel -> Prop) :
  in_thread t k -> tasks k !! t = Some T ->
  Z.land s SIGF_SINGLE = 0 -> Z.land s (sig_alloc T) = s ->
  (let k' := set_tasks (<[t := freed s T]> (tasks k)) k in
   in_thread t k' -> others t k k' -> own_env t [] k k' -> P k0 tt k') ->
  wpt t k0 (signal_free s) k P.
Proof.
  intros Hit HT H1 H2 HP. pose proof (it_running _ _ Hit) as Hr.
  eapply wpt_run; [|intros a k' H; exact H].
  eapply (wp_signal_free _ _ _ T); [by rewrite Hr|done|done|]. rewrite Hr.
  destruct (own_update [] k T (freed s T) Hit HT eq_refl (freed_ok s T H1)) as (? & ? & ?).
  by apply HP.
Qed.

(** The signal is allocated before the critical section that clears it: what
    arrives in between is lost, what arrives behind it is new. *)
Lemma wpt_signal_allocate k0 k T s (P : Kernel -> Z -> Kernel -> Prop) :
  in_thread t k -> others t k0 k -> tasks k !! t = Some T -> -1 <= s < SIGNALS_WIDTH ->
  (forall k' T', in_thread t k' -> pendsv k' = false -> tasks k' !! t = Some T' ->
    own_env t [] k k' ->
    sig_alloc T' = Z.lor (sig_alloc T) (snd (alloc_choice s (sig_alloc T))) ->
    (forall i, Z.testbit (sig_recvd T') i = true ->
      Z.testbit (snd (alloc_choice s (sig_alloc T))) i = true -> new_signal t k k' i) ->
    (forall i, Z.testbit (snd (alloc_choice s (sig_alloc T))) i = false ->
      Z.testbit (sig_recvd T) i = true -> Z.testbit (sig_recvd T') i = true) ->
    P k' (fst (alloc_choice s (sig_alloc T))) k') ->
  wpt t k0 (signal_allocate s) k P.
Proof.
  intros Hit Ho HT Hs HP. pose proof (it_running _ _ Hit) as Hr.
  destruct (alloc_choice_spec s (sig_alloc T) Hs) as (m & Hm & E & _).
  unfold signal_allocate. eapply wpt_run_bind, wp_assert.
  { unfold SIGNALS_WIDTH in *. apply andb_true_iff; split; [apply Z.leb_le|apply Z.ltb_lt]; lia. }
  eapply wpt_run_bind, wp_alloc_choice; [by rewrite Hr|].
  rewrite E in *. simpl in HP. rewrite (proj2 (Z.ltb_lt 0 (2 ^ m))) by lia.
  apply wpt_bind. eapply wpt_run_bind, wp_gets. rewrite Hr.
  eapply wpt_run_bind, wp_upd_task; [exact HT|].
  eapply wpt_run_bind, wp_upd_task; [apply lookup_insert_eq|]. simpl tasks.
  rewrite insert_insert_eq. set (T1 := set_sig_wait _ _).
  set (k1 := set_tasks _ _).
  destruct (own_update [] k T T1 Hit HT eq_refl) as (Hit1 & Hoe1 & Hoth1).
  { intros Hok. pose proof (allocated_ok m T Hm Hok) as []. by destruct Hok; split. }
  eapply wpt_bind, wpt_disable; [exact Hit1|by eapply others_trans|].
  intros k2 Hit2 Hp2 He2.
  destruct (env_thread k1 k2 T1 Hit1 (lookup_insert_eq _ _ _) Hit2 He2) as (T2 & HT2 & Hl2).
  pose proof (it_running _ _ Hit2) as Hr2.
  eapply wpt_run_bind, wp_gets. simpl. rewrite Hr2.
  eapply wpt_run_bind, wp_upd_task; [exact HT2|].
  set (T3 := set_sig_recvd _ T2).
  destruct (own_update [] k2 T2 T3 Hit2 HT2 eq_refl) as (Hit3 & Hoe3 & Hoth3).
  { intros []. split; try done. by apply is_signals_land. }
  set (k3 := set_tasks (<[t := T3]> (tasks k2)) k2) in *.
  change (set_tasks _ (lock k2)) with (lock k3). rewrite (lock_locked t k3) by done.
  eapply wpt_leave; [done|done|]. intros k4 Hit4 Hp4 He4.
  destruct (env_thread k3 k4 T3 Hit3 (lookup_insert_eq _ _ _) Hit4 He4) as (T4 & HT4 & Hl4).
  apply wpt_ret, (HP k4 T4); [done|done|done|..].
  - apply (own_env_trans t [] k k1); [exact Hoe1|]. apply (own_env_trans t [] k1 k2); [apply He2|].
    apply (own_env_trans t [] k2 k3); [done|apply He4].
  - rewrite (env_alloc _ _ _ _ _ Hl4). simpl. rewrite (env_alloc _ _ _ _ _ Hl2). done.
  - intros i Hi Hb. destruct (env_new _ _ _ _ _ Hl4 i Hi) as [Hi3|Hn].
    + simpl in Hi3. rewrite Z.land_spec in Hi3. apply andb_true_iff in Hi3 as [_ Hi3].
      assert (0 <= i).
      { destruct (decide (0 <= i)); [done|]. rewrite Z.testbit_neg_r in Hb by lia. done. }
      rewrite Z.lnot_spec, Hb in Hi3 by done. done.
    + apply (new_signal_before t k k1); [exact Hoe1|].
      apply (new_signal_before t k1 k2); [apply He2|].
      by apply (new_signal_before t k2 k3).
  - intros i Hi Hb. assert (0 <= i) as H0 by by eapply testbit_nonneg.
    apply (land_superset_bit _ _ i (env_recvd _ _ _ _ _ Hl4)). simpl.
    rewrite Z.land_spec, Z.lnot_spec, Hi by done. apply andb_true_iff. split; [|done].
    by apply (land_superset_bit _ _ i (env_recvd _ _ _ _ _ Hl2)).
Qed.
End api.

(** C4. [signal_wait] in thread code, for a task other than the init task, under
    any interrupts and any behaviour of the other tasks that keeps the system
    invariant: it runs without undefined behaviour or failing assertion, blocks
    at most once, and returns to the running task, with interrupts enabled and
    the invariants intact, a non-empty set of the signals it was asked to wait
    for; each of them was received before the call, or may be sent by other
    tasks, or is the signal of a timer of the task that has expired since, or of a
    port of the task that has received a message since. *)
Theorem signal_wait_returns `{AP : App} fuel t k T s :
  t <> init_task -> in_thread t k -> tasks k !! t = Some T -> is_signals s ->
  wpt t k (signal_wait (S (S fuel)) s) k (fun _ rcvd k' =>
    in_thread t k' /\ pendsv k' = false /\ rcvd <> 0 /\ Z.land s rcvd = rcvd /\
    forall i, Z.testbit rcvd i = true ->
      Z.testbit (sig_recvd T) i = true \/ new_signal t k k' i).
Proof.
  intros Ht Hit HT Hs. eapply wpt_signal_wait; [done|done|by apply others_refl|exact HT|done|].
  by intros rcvd k' T' Hit' Hp' HT' [].
Qed.

Definition demo_b_task : Task := Eval vm_compute in demo_task demo_running demo_b.

Lemma demo_running_thread : in_thread demo_b demo_running.
Proof.
  split; [exact demo_running_quiescent|reflexivity|].
  apply (bool_decide_unpack _). vm_compute. exact I.
Qed.

Lemma signal_wait_returns_witness :
  wpt demo_b demo_running (signal_wait 2 8) demo_running (fun _ rcvd k' =>
    in_thread demo_b k' /\ pendsv k' = false /\ rcvd <> 0 /\ Z.land 8 rcvd = rcvd /\
    forall i, Z.testbit rcvd i = true ->
      Z.testbit (sig_recvd demo_b_task) i = true \/ new_signal demo_b demo_running k' i).
Proof.
  apply (signal_wait_returns 0 demo_b demo_running demo_b_task 8).
  - discriminate.
  - exact demo_running_thread.
  - vm_compute. reflexivity.
  - split; [vm_compute; discriminate|reflexivity].
Defined.
