(* ===== verification/ThreadTimers.v ===== *)
(** * Timers in thread code under preemption

    A task that uses a timer of its own, and [timer_delay] from its entry to its
    return, whatever the interrupts and the other tasks do in between. *)

From S2P Require Import Prelude Heap Lists ListSpec Machine Logic Context Task.
From S2P Require Import Platform Timer Invariant Checker Demo TaskSpec SchedSpec.
From S2P Require Import Signals TimerSpec Mail Rely AppChecker WaitSpec Threads.

(** Nothing is at address [a]. *)
Record absent (k : Kernel) (a : addr) : Prop := mkAbsent {
  ab_link : links (heap k) !! a = None;
  ab_node : nodes (heap k) !! a = None;
  ab_timer : timer_objs k !! a = None;
  ab_task : tasks k !! a = None;
  ab_port : ports k !! a = None }.

(** [k'] differs from [k] at most in the object at [n]. *)
Record at_object (n : addr) (k k' : Kernel) : Prop := mkAtObject {
  at_tasks : tasks k' = tasks k;
  at_words : words k' = words k;
  at_running : running k' = running k;
  at_links : forall a, a <> n -> (is_Some (links (heap k) !! a) <-> is_Some (links (heap k') !! a));
  at_nodes : forall a, a <> n -> nodes (heap k') !! a = nodes (heap k) !! a;
  at_timers : forall a, a <> n -> timer_objs k' !! a = timer_objs k !! a;
  at_mail : kept_mail k k' }.

Section objects.
Context `{AP : App} (t : addr).

Lemma absent_own S k k' a : app_owner a = t -> a ∉ S -> own_env t S k k' ->
  absent k a -> absent k' a.
Proof.
  intros Ha HS [Hc _ _ _ _ _] [Hl Hn Htm Htk Hp].
  destruct (Hc a Ha HS) as [Cl Ct Cu Cp _ _]. destruct Cu as [E1 E2]; [intros T; congruence|].
  split; [|congruence| |congruence|congruence].
  - apply eq_None_not_Some. intros Hs%Cl. rewrite Hl in Hs. by destruct Hs.
  - rewrite Htm in Ct. by inversion Ct.
Qed.

Lemma at_object_own n k k' : at_object n k k' -> own_env t [n] k k'.
Proof.
  intros [Et Ew Er Hl Hn Htm Hm]. destruct (kept_open k k' Hm).
  split; [|by rewrite Et|by rewrite Ew| |done..].
  - intros a _ Ha%not_elem_of_cons. destruct Ha as [Hne _].
    destruct (cell_env_mail k k' a Hm) as (? & ? & ?).
    split; [by apply Hl|rewrite Htm by done; constructor| |done..]. intros _. rewrite Et, Hn by done. done.
  - intros u. unfold sched_task. by rewrite Et.
Qed.

Lemma at_object_others n k k' : in_thread t k -> app_owner n = t -> at_object n k k' ->
  others t k k'.
Proof.
  intros Hit Hn [Et Ew Er Hl Hnd Htm Hm]. destruct (in_thread_sched t k Hit) as (T & HT & Hs).
  apply (others_step t k k' T); try done; [by rewrite Er; apply Hit|..].
  - exists T. by rewrite Et.
  - by rewrite Et.
  - intros u _. left. by rewrite Et.
  - by rewrite Ew.
  - intros a Ha. assert (a <> n) by congruence. split_and!; [by apply Hl|by apply Htm|].
    intros _. by apply Hnd.
Qed.

(** The task stays in thread code when the invariants hold again. *)
Lemma in_thread_objects n k k' Q rs ws ts Q' ts' : in_thread t k -> at_object n k k' ->
  kinv k Q rs ws ts -> sched_ok k rs -> app_ok k Q ts ->
  primask k' = primask k -> handler k' = handler k -> id_nestcnt k' = id_nestcnt k ->
  pendsv k' = pendsv k -> tasks k !! n = None -> nodes (heap k') !! NULL = nodes (heap k) !! NULL ->
  kinv k' Q' rs ws ts' -> (forall l, ~ kernel_list l -> Q' !! l = Q !! l) ->
  (forall a X, timer_objs k' !! a = Some X -> a <> NULL /\ tasks k !! a = None /\
    is_Some (links (heap k') !! a) /\ (a ∈ ts' \/ unowned Q' a)) ->
  (forall a X, a ∈ ts' -> timer_objs k' !! a = Some X -> tm_task X = app_owner a) ->
  in_thread t k'.
Proof.
  intros [[Hm Hh Hn _ Hi] Hr Hst] [Et Ew Er Hl Hnd Htm Hml] HK Hs Ha E1 E2 E3 E4 Hnt Hnull HK' HQ Ht1 Ht2.
  assert (forall x, is_Some (tasks k !! x) -> nodes (heap k') !! x = nodes (heap k) !! x) as Hnx.
  { intros x [X HX]. apply Hnd. congruence. }
  split; [split|congruence|unfold in_state; by rewrite Et]; try congruence.
  - exists Q', rs, ws, ts'. split_and!; [done| |].
    + destruct Hs as [Hs|Hs]; [left; congruence|right]. intros u Hu.
      unfold prio_at, prio_of in *. rewrite Er, !Hnx; [by apply Hs|..].
      * destruct (ki_running _ _ _ _ _ HK) as (R & HR & _). eauto.
      * by eapply kinv_ready_tasks.
    + destruct (app_ok_ports k k' Q Q' ts Ha (km_ports _ _ Hml)) as (? & ? & ?).
      { intros. by rewrite HQ. }
      { intros u. unfold sched_task. by rewrite Et. }
      destruct Ha as [Htmr Hq Hnul Hname Hinj _ _ _]. split; try done.
      * intros a X HX. rewrite Et. by eapply Ht1.
      * rewrite Hnull, Et. done.
      * intros u (U & HU & HUs). rewrite Et in HU. rewrite Hnx by eauto. apply Hname. by exists U.
      * by rewrite Et.
  - unfold idle_ok. by rewrite Et, Er.
Qed.

(** A timer that is not queued. *)
Lemma unqueued k Q rs ws ts n X : kinv k Q rs ws ts -> timer_objs k !! n = Some X ->
  status X <> TIMER_ADDED -> n ∉ ts.
Proof.
  intros HK HX Hs Hin. destruct (ki_timers _ _ _ _ _ HK n Hin) as (Y & HY & HYs & _). congruence.
Qed.

Definition put_timer (n : addr) (X : Timer) (k : Kernel) : Kernel :=
  set_timer_objs (<[n := X]> (timer_objs k)) k.

Lemma put_timer_at n X k : at_object n k (put_timer n X k).
Proof. split; try done. intros a Ha. by apply lookup_insert_ne. Qed.

(** The running task updates a timer of its own that is not queued. *)
Lemma in_thread_put_timer k n X X' : in_thread t k -> timer_objs k !! n = Some X ->
  status X <> TIMER_ADDED -> in_thread t (put_timer n X' k).
Proof.
  intros Hit HX Hs. destruct (in_thread_kinv t k Hit) as (Q & rs & ws & ts & _ & HK & Hsch & Ha & _).
  destruct (ao_timer _ _ _ Ha n X HX) as (_ & Hnt & _).
  pose proof (unqueued _ _ _ _ _ _ _ HK HX Hs) as Hn.
  eapply (in_thread_objects n k _ Q rs ws ts Q ts); try done;
    [apply put_timer_at|by apply kinv_set_timer|simpl..].
  - intros a Y [[<- <-]|[Hne HY]]%lookup_insert_Some; by eapply ao_timer.
  - intros a Y Hin [[<- <-]|[Hne HY]]%lookup_insert_Some; [done|]. by eapply ao_queue.
Qed.

Lemma wpt_upd_own k0 k n X f (P : Kernel -> unit -> Kernel -> Prop) :
  in_thread t k -> app_owner n = t -> timer_objs k !! n = Some X -> status X <> TIMER_ADDED ->
  (let k' := put_timer n (f X) k in in_thread t k' -> others t k k' -> own_env t [n] k k' ->
   P k0 tt k') -> wpt t k0 (upd_timer n f) k P.
Proof.
  intros Hit Hn HX Hs HP. eapply wpt_run; [|intros a k' H; exact H].
  eapply wp_upd_timer; [exact HX|]. apply HP.
  - by eapply in_thread_put_timer.
  - eapply at_object_others; [done|done|apply put_timer_at].
  - apply at_object_own, put_timer_at.
Qed.

(** *** A timer as a local variable *)

Definition enter_state (v : TimerVar) (k : Kernel) : Kernel :=
  set_timer_objs (<[tv_addr v := tv_fields v]> (timer_objs k))
    (set_heap (mkHeap (<[tv_addr v := tv_links v]> (links (heap k)))
                      (<[tv_addr v := tv_node v]> (nodes (heap k)))) k).

Definition leave_state (v : TimerVar) (k : Kernel) : Kernel :=
  set_timer_objs (delete (tv_addr v) (timer_objs k))
    (set_heap (mkHeap (delete (tv_addr v) (links (heap k)))
                      (delete (tv_addr v) (nodes (heap k)))) k).

(** Memory comes and goes outside the lists. *)
Lemma kept_cells k k' Q rs ws ts : kinv k Q rs ws ts -> app_ok k Q ts ->
  reps (links (heap k')) Q -> ports k' = ports k -> kept_mail k k'.
Proof. intros HK Ha Hr Hp. by eapply kept_lists; [apply HK|exact Hr|apply Ha|..]. Qed.

Lemma enter_at v k : in_thread t k -> links (heap k) !! tv_addr v = None ->
  at_object (tv_addr v) k (enter_state v k).
Proof.
  intros Hit Hl. destruct (in_thread_kinv t k Hit) as (Q & rs & ws & ts & _ & HK & _ & Ha & _).
  split; try done; try (intros a Hne; simpl; by rewrite lookup_insert_ne).
  eapply kept_cells; [done|done| |done]. apply reps_grow; [apply HK|done].
Qed.

Lemma leave_at v k X : in_thread t k -> timer_objs k !! tv_addr v = Some X ->
  status X <> TIMER_ADDED -> at_object (tv_addr v) k (leave_state v k).
Proof.
  intros Hit HX Hs. destruct (in_thread_kinv t k Hit) as (Q & rs & ws & ts & _ & HK & _ & Ha & _).
  split; try done; try (intros a Hne; simpl; by rewrite lookup_delete_ne).
  eapply kept_cells; [done|done| |done]. apply reps_shrink; [apply HK|].
  pose proof (unqueued _ _ _ _ _ _ _ HK HX Hs).
  by destruct (ao_timer _ _ _ Ha _ X HX) as (_ & _ & _ & [?|?]).
Qed.

Lemma in_thread_enter v k : in_thread t k -> tv_addr v <> NULL -> absent k (tv_addr v) ->
  in_thread t (enter_state v k).
Proof.
  intros Hit Hz [Hl Hn Htm Htk _]. set (n := tv_addr v) in *.
  assert (forall x, is_Some (tasks k !! x) -> x <> n) as Hx by (intros x [X HX] ->; congruence).
  destruct (in_thread_kinv t k Hit) as (Q & rs & ws & ts & _ & HK & Hsch & Ha & _).
  pose proof (ki_reps _ _ _ _ _ HK) as Hr.
  assert (n ∉ ts) as Hni.
  { intros Hin. destruct (ki_timers _ _ _ _ _ HK n Hin) as (X & HX & _). congruence. }
  eapply (in_thread_objects n k _ Q rs ws ts Q ts); try done; [by apply enter_at|..].
  { simpl. by rewrite lookup_insert_ne. }
  - eapply (kinv_objects k); try done; simpl.
    + by apply reps_grow.
    + intros x HxS. rewrite !lookup_insert_ne by (apply not_eq_sym, Hx; done).
      split; [done|]. destruct HxS as [X HX]. apply (ki_tasks _ _ _ _ _ HK x X HX).
    + intros a Hin. apply lookup_insert_ne. set_solver.
  - simpl. intros a X [[<- <-]|[Hne HX]]%lookup_insert_Some.
    + split_and!; [done..|rewrite lookup_insert_eq; eauto|]. right. by eapply reps_unowned.
    + destruct (ao_timer _ _ _ Ha a X HX) as (? & ? & ? & ?). rewrite lookup_insert_ne by done. done.
  - simpl. intros a X Hin [[<- <-]|[Hne HX]]%lookup_insert_Some; [done|]. by eapply ao_queue.
Qed.

Lemma in_thread_leave v k X : in_thread t k -> timer_objs k !! tv_addr v = Some X ->
  status X <> TIMER_ADDED -> in_thread t (leave_state v k).
Proof.
  intros Hit HX Hs. set (n := tv_addr v) in *.
  destruct (in_thread_kinv t k Hit) as (Q & rs & ws & ts & _ & HK & Hsch & Ha & _).
  destruct (ao_timer _ _ _ Ha n X HX) as (Hz & Hnt & _).
  assert (forall x, is_Some (tasks k !! x) -> x <> n) as Hx by (intros x [Y HY] ->; congruence).
  pose proof (ki_reps _ _ _ _ _ HK) as Hr.
  pose proof (unqueued _ _ _ _ _ _ _ HK HX Hs) as Hni.
  destruct (ao_timer _ _ _ Ha n X HX) as (_ & _ & _ & [?|Hun]); [done|].
  eapply (in_thread_objects n k _ Q rs ws ts Q ts); try done; [by eapply leave_at|..].
  { simpl. by rewrite lookup_delete_ne. }
  - eapply (kinv_objects k); try done; simpl.
    + by apply reps_shrink.
    + intros x HxS. rewrite !lookup_delete_ne by (apply not_eq_sym, Hx; done).
      split; [done|]. destruct HxS as [Y HY]. apply (ki_tasks _ _ _ _ _ HK x Y HY).
    + intros a Hin. apply lookup_delete_ne. set_solver.
  - simpl. intros a Y [Hne HY]%lookup_delete_Some.
    destruct (ao_timer _ _ _ Ha a Y HY) as (? & ? & ? & ?). rewrite lookup_delete_ne by done. done.
  - simpl. intros a Y Hin [Hne HY]%lookup_delete_Some. by eapply ao_queue.
Qed.
End objects.

(** ** The signal of a timer *)

(** Signal [i] is free: it is not allocated, other tasks may not send it, and no
    queued timer and no port of the task sends it. *)
Definition port_silent `{AP : App} (t : addr) (k : Kernel) (i : Z) : Prop :=
  forall p P, app_owner p = t -> open_port k p P -> action P = MSGPORT_SIGNAL ->
    Z.testbit (mp_signal P) i = false.

Definition spare `{AP : App} (t : addr) (k : Kernel) (alloc i : Z) : Prop :=
  Z.testbit alloc i = false -> Z.testbit (app_public t) i = false /\
  (forall a X, app_owner a = t -> timer_objs k !! a = Some X -> status X = TIMER_ADDED ->
    Z.testbit (tm_signal X) i = false) /\ port_silent t k i.

(** What a task keeps of the signals it has not allocated; [delay_ok]: enough
    for [timer_delay]. *)
Record delay_ok `{AP : App} (t : addr) (k : Kernel) (T : Task) : Prop := mkDelayOk {
  do_spare : forall i, spare t k (sig_alloc T) i;
  do_free : exists i, 0 <= i < 16 /\ Z.testbit (sig_alloc T) i = false }.

(** The timer at [n] has the signal [m]; [A]: the other signals allocated; [G]:
    signals that the task has received.  The task has received the signal of the
    timer only if the timer is done. *)
Record reserved `{AP : App} (t n m A G : Z) (k : Kernel) : Prop := mkReserved {
  rv_task : exists T, tasks k !! t = Some T /\ sig_alloc T = Z.lor A (2 ^ m) /\
    Z.land G (sig_recvd T) = G /\
    (Z.testbit (sig_recvd T) m = true -> exists X, timer_objs k !! n = Some X /\ status X = TIMER_DONE);
  rv_timers : forall a X, a <> n -> app_owner a = t -> timer_objs k !! a = Some X ->
    status X = TIMER_ADDED -> Z.testbit (tm_signal X) m = false;
  rv_public : Z.testbit (app_public t) m = false;
  rv_ports : port_silent t k m }.

Section timers.
Context `{AP : App} (t : addr).

(** A timer of the task, behind its environment. *)
Lemma own_timer S k k' a X : own_env t S k k' -> app_owner a = t -> a ∉ S ->
  timer_objs k !! a = Some X -> exists X', timer_objs k' !! a = Some X' /\
    (X' = X \/ status X = TIMER_ADDED /\ X' = set_status TIMER_DONE X).
Proof.
  intros [Hc _ _ _ _ _] Ha HS HX. destruct (Hc a Ha HS) as [_ Ht _ _ _ _]. rewrite HX in Ht.
  inversion Ht; simplify_eq; eauto.
Qed.

Lemma own_timer_back S k k' a X' : own_env t S k k' -> app_owner a = t -> a ∉ S ->
  timer_objs k' !! a = Some X' -> status X' = TIMER_ADDED -> timer_objs k !! a = Some X'.
Proof.
  intros [Hc _ _ _ _ _] Ha HS HX Hs. destruct (Hc a Ha HS) as [_ Ht _ _ _ _]. rewrite HX in Ht.
  inversion Ht; simplify_eq; done.
Qed.

Lemma own_ports_none S k k' : own_env t S k k' -> (forall a, a ∈ S -> ports k !! a = None) ->
  forall a, a ∈ S -> ports k' !! a = None.
Proof.
  intros Ho HS a Ha. apply not_elem_of_dom. rewrite (oe_ports _ _ _ _ Ho).
  by apply not_elem_of_dom, HS.
Qed.

Lemma silent_own S k k' i : own_env t S k k' -> (forall a, a ∈ S -> ports k !! a = None) ->
  port_silent t k i -> port_silent t k' i.
Proof.
  intros Ho HS Hp p P Hpo [HP Ha] Hact.
  destruct (decide (p ∈ S)) as [Hin|Hni].
  { pose proof (own_ports_none S k k' Ho HS p Hin). congruence. }
  apply (Hp p P Hpo); [|done]. split; [|done].
  by rewrite <- (ce_port _ _ _ (oe_cells _ _ _ _ Ho p Hpo Hni)).
Qed.

Lemma silent_kept k k' i : kept_mail k k' -> port_silent t k i -> port_silent t k' i.
Proof.
  intros [E _] Hp p P Hpo [HP Ha] Hact. apply (Hp p P Hpo); [|done]. by rewrite E in HP.
Qed.

Lemma spare_own S k k' alloc i : own_env t S k k' -> (forall a X, a ∈ S -> app_owner a = t ->
    timer_objs k' !! a = Some X -> status X <> TIMER_ADDED) ->
  (forall a, a ∈ S -> ports k !! a = None) ->
  spare t k alloc i -> spare t k' alloc i.
Proof.
  intros Ho HS HSp Hsp Hi. destruct (Hsp Hi) as (Hp & Ht & Hps). split; [done|].
  split; [|by eapply silent_own].
  intros a X Ha HX Hs. destruct (decide (a ∈ S)) as [Hin|Hni]; [by destruct (HS a X)|].
  eapply Ht; [done|by eapply own_timer_back|done].
Qed.

Lemma reserved_env n m A G k k' : app_owner n = t -> sched_task k t -> reserved t n m A G k ->
  env t k k' -> reserved t n m A G k'.
Proof.
  intros Hn (T & HT & Hs) [(T0 & HT0 & Ha & Hg & Hb) Htm Hp Hpo] [Ho He].
  rewrite HT in HT0. injection HT0 as <-.
  destruct (He T HT) as (T' & HT' & [Hl _ _ _]). specialize (Hl Hs). split.
  - exists T'. split; [done|]. split; [by rewrite (env_alloc _ _ _ _ _ Hl)|].
    split; [by eapply land_superset_trans; [|apply (env_recvd _ _ _ _ _ Hl)]|].
    intros [Hi|[Hi|[(a & X & X' & Hao & HX & HX' & Hst & Hst' & Hi)|
      (p & P & Hpw & HP & Hact & Hi & _)]]]%(env_new _ _ _ _ _ Hl);
      [|congruence| |by rewrite (Hpo p P) in Hi].
    + destruct (Hb Hi) as (X & HX & Hst).
      destruct (own_timer [] k k' n X Ho Hn) as (X' & HX' & [->|[? _]]); [set_solver|done| |congruence].
      eauto.
    + destruct (decide (a = n)) as [->|Hne]; [eauto|]. by rewrite (Htm a X) in Hi.
  - intros a X Hne Hao HX Hst. eapply Htm; [done|done| |done]. eapply own_timer_back; [done..| |done|done].
    set_solver.
  - done.
  - eapply silent_own; [done| |done]. set_solver.
Qed.

(** The timer itself changes, before it expires. *)
Lemma reserved_at n m A G k k' X : timer_objs k !! n = Some X -> status X <> TIMER_DONE ->
  at_object n k k' -> reserved t n m A G k -> reserved t n m A G k'.
Proof.
  intros HX Hs [Et _ _ _ _ Htm Hm] [(T & HT & Ha & Hg & Hb) Ht Hp Hpo].
  split; [| |done|by eapply silent_kept].
  - exists T. rewrite Et. split_and!; [done..|]. intros Hi.
    destruct (Hb Hi) as (Y & HY & HYs). congruence.
  - intros a Y Hne Hao HY. rewrite Htm in HY by done. by eapply Ht.
Qed.

Lemma in_thread_ok k T : in_thread t k -> tasks k !! t = Some T -> task_ok T.
Proof.
  intros Hit HT. destruct (in_thread_kinv t k Hit) as (Q & rs & ws & ts & T0 & HK & _ & _ & _ & HT0 & Hs).
  simplify_eq. apply (ki_tasks _ _ _ _ _ HK t T HT). by rewrite Hs.
Qed.

(** A spare signal is the one [signal_allocate(-1)] finds. *)
Lemma alloc_any alloc : (exists i, 0 <= i < 16 /\ Z.testbit alloc i = false) ->
  exists m, 0 <= m < 16 /\ Z.testbit alloc m = false /\ alloc_choice (-1) alloc = (m, 2 ^ m).
Proof.
  intros (i & Hi & Hf). destruct (alloc_choice_spec (-1) alloc) as (m & Hm & E & _ & Hany); [lia|].
  destruct (Hany eq_refl) as [Hall H0]. exists m.
  destruct (Z.testbit alloc m) eqn:Em; [|done]. specialize (H0 eq_refl). subst m.
  destruct (decide (i = 0)) as [->|]; [congruence|]. rewrite Hall in Hf by lia. done.
Qed.

Lemma uwrap_pow2 m : 0 <= m < 16 -> uwrap 16 (Z.shiftl 1 m) = 2 ^ m.
Proof. intros Hm. rewrite Z.shiftl_1_l. apply uwrap_small. split; [lia|]. apply Z.pow_lt_mono_r; lia. Qed.

(** The timer behind [timer_allocate]. *)
Definition fresh_timer (m : Z) (X : Timer) : Prop :=
  tm_task X = t /\ tm_signal X = 2 ^ m /\ op X = TIMER_NONE /\ status X = TIMER_INITIALIZED.

Lemma wpt_timer_allocate k0 k n T X (P : Kernel -> unit -> Kernel -> Prop) :
  in_thread t k -> others t k0 k -> app_owner n = t -> tasks k !! t = Some T ->
  timer_objs k !! n = Some X -> status X <> TIMER_ADDED -> delay_ok t k T ->
  (forall k1 k' m X', in_thread t k' -> others t k1 k' -> 0 <= m < 16 ->
    Z.testbit (sig_alloc T) m = false -> reserved t n m (sig_alloc T) (Z.land (sig_alloc T) (sig_recvd T)) k' ->
    own_env t [n] k k' -> timer_objs k' !! n = Some X' -> fresh_timer m X' -> P k1 tt k') ->
  wpt t k0 (timer_allocate n) k P.
Proof.
  intros Hit Hoth Hn HT HX Hs [Hsp Hfree] HP. unfold timer_allocate.
  destruct (alloc_any _ Hfree) as (m & Hm & Hmf & E). destruct (Hsp m Hmf) as (Hpub & Htm & Hpo).
  eapply wpt_run_bind, wp_gets. rewrite (it_running _ _ Hit).
  eapply wpt_bind, (wpt_upd_own t k0 k n X); [done..|]. intros k1 Hit1 Ho1 Hoe1.
  set (X1 := set_tm_task t X) in *.
  eapply wpt_bind, (wpt_signal_allocate t k0 k1 T); [done|by eapply others_trans|done|unfold SIGNALS_WIDTH; lia|].
  intros k2 T2 Hit2 _ HT2 Hoe2 Ha2 Hn2 Hk2. rewrite E in Ha2, Hn2, Hk2 |- *. cbn [fst snd] in *.
  destruct (own_timer [] k1 k2 n X1 Hoe2 Hn) as (X2 & HX2 & [->|[? _]]);
    [set_solver|apply lookup_insert_eq| |done].
  eapply wpt_run_bind, wp_assert; [apply negb_true_iff, Z.eqb_neq; lia|].
  rewrite uwrap_pow2 by done.
  eapply wpt_bind, (wpt_upd_own t k2 k2 n X1); [done..|]. intros k3 Hit3 Ho3 Hoe3.
  eapply wpt_bind, (wpt_upd_own t k2 k3 n (set_tm_signal (2 ^ m) X1)); [done|done|apply lookup_insert_eq|done|].
  intros k4 Hit4 Ho4 Hoe4.
  eapply (wpt_upd_own t k2 k4 n); [done|done|apply lookup_insert_eq|done|].
  intros k5 Hit5 Ho5 Hoe5.
  assert (own_env t [n] k k5) as Hoe.
  { apply (own_env_trans t [n] k k1); [done|]. apply (own_env_trans t [n] k1 k2).
    { eapply own_env_mono; [done|set_solver]. }
    apply (own_env_trans t [n] k2 k3); [done|]. by apply (own_env_trans t [n] k3 k4). }
  apply (HP k2 k5 m (set_status TIMER_INITIALIZED (set_op TIMER_NONE (set_tm_signal (2 ^ m) X1))));
    [done| |done|done| |done|apply lookup_insert_eq|done].
  - apply (others_trans t k2 k3); [done|]. by apply (others_trans t k3 k4).
  - assert (port_silent t k2 m) as Hpo2.
    { apply (silent_own [] k1 k2); [done|set_solver|exact Hpo]. }
    split; [| |done|exact Hpo2].
    + exists T2. split; [done|]. split; [done|]. split.
      { apply land_superset_bits. intros i. rewrite Z.land_spec. intros [Hal Hi]%andb_true_iff.
        apply Hk2; [|done]. apply Z.pow2_bits_false. congruence. }
      intros Hi. exfalso.
      assert (Z.testbit (2 ^ m) m = true) as Hmm by (apply Z.pow2_bits_true; lia).
      destruct (Hn2 m Hi Hmm) as [?|[(a & Y & Y' & Hao & HY & _ & HYs & _ & Hb)|
        (p & R & Hpw & HR & Hact & Hb & _)]]; [congruence| |by rewrite (Hpo p R) in Hb].
      destruct (decide (a = n)) as [->|Hne].
      * unfold k1 in HY. simpl in HY. rewrite lookup_insert_eq in HY. by simplify_eq.
      * unfold k1 in HY. simpl in HY. rewrite lookup_insert_ne in HY by done.
        by rewrite (Htm a Y) in Hb.
    + intros a Y Hne Hao HY HYs. eapply Htm; [done| |done].
      eapply own_timer_back; [exact Hoe|done|set_solver|done|done].
Qed.

(** *** Adding a timer *)

Lemma prefix_unowned Q l xs xs' a : Q !! l = Some xs -> unowned Q a -> a ∉ xs' ->
  unowned (<[l := xs']> Q) a.
Proof. intros Hl Hu Hn. by eapply unowned_update. Qed.

(** The timer of the running task enters the queue. *)
Lemma in_thread_queued k Q rs ws ts n X k' : in_thread t k -> kinv k Q rs ws ts ->
  sched_ok k rs -> app_ok k Q ts -> app_owner n = t -> timer_objs k !! n = Some X ->
  tm_task X = t -> queued (lock k) Q rs ws ts n X k' ->
  exists k4, k' = lock k4 /\ in_thread t k4 /\ at_object n k k4 /\
    timer_objs k4 !! n = Some (set_status TIMER_ADDED X).
Proof.
  intros Hit HK Hsch Ha Hn HX Htk (m & -> & Hd & HK').
  set (X' := set_status TIMER_ADDED X) in *.
  set (k4 := set_timer_objs (<[n := X']> (timer_objs k)) (set_heap (mkHeap m (nodes (heap k))) k)).
  exists k4. split; [by apply kernel_ext|]. cbv zeta in HK'. simpl in Hd.
  set (ts' := tick_insert _ n ts) in HK'.
  assert (at_object n k k4) as Hat.
  { split; try done.
    - intros a Hne. by apply same_links.
    - intros a Hne. by apply lookup_insert_ne.
    - eapply (kept_lists k k4 Q); [apply HK|apply (ki_reps _ _ _ _ _ HK')|apply Ha|done|].
      intros l. apply kernel_insert. by do 2 right. }
  split; [|split; [done|apply lookup_insert_eq]].
  destruct (ao_timer _ _ _ Ha n X HX) as (Hz & Hnt & _).
  eapply (in_thread_objects t n k k4 Q rs ws ts (<[timers := ts']> Q) ts'); try done.
  - by eapply kinv_frame; [..|exact HK'].
  - intros l. apply kernel_insert. by do 2 right.
  - simpl. intros a Y HY. destruct (decide (a = n)) as [->|Hne].
    + destruct (ao_timer _ _ _ Ha n X HX) as (_ & _ & Hlk & _).
      split_and!; [done|done|by eapply (same_links k k4)|left]. apply elem_of_tick_insert. by left.
    + rewrite lookup_insert_ne in HY by done.
      destruct (ao_timer _ _ _ Ha a Y HY) as (? & ? & Hlk & Hpl).
      split_and!; [done|done|by eapply (same_links k k4)|].
      destruct Hpl as [Hin|Hun]; [left; apply elem_of_tick_insert; by right|].
      destruct (decide (a ∈ ts')) as [?|Hni]; [by left|right].
      eapply prefix_unowned; [apply HK|done|done].
  - simpl. intros a Y [->|Hin]%elem_of_tick_insert HY.
    + rewrite lookup_insert_eq in HY. by simplify_eq.
    + destruct (decide (a = n)) as [->|Hne]; [rewrite lookup_insert_eq in HY; by simplify_eq|].
      rewrite lookup_insert_ne in HY by done. by eapply ao_queue.
Qed.

Lemma wpt_get_clock k0 k (P : Kernel -> Z -> Kernel -> Prop) :
  in_thread t k -> others t k0 k ->
  (forall k', in_thread t k' -> env t k k' -> P k' (timer_now k') k') ->
  wpt t k0 timer_get_clock k P.
Proof.
  intros Hit Ho HP. eapply wpt_bind, wpt_window; [apply Hit|done|]. intros k' Hk'.
  apply HP; [|apply Hk']. eapply resumed_in_thread; [apply Hit|done].
Qed.

Lemma own_timer_same S k k' a X : own_env t S k k' -> app_owner a = t -> a ∉ S ->
  timer_objs k !! a = Some X -> status X <> TIMER_ADDED -> timer_objs k' !! a = Some X.
Proof. intros Ho Ha HS HX Hs. by destruct (own_timer S k k' a X Ho Ha HS HX) as (? & ? & [->|[? _]]). Qed.

(** What [timer_add] leaves of the timer [X]. *)
Record put_up (k k' : Kernel) (n m A G : Z) (X Y : Timer) : Prop := mkPutUp {
  pu_reserved : reserved t n m A G k';
  pu_own : own_env t [n] k k';
  pu_timer : timer_objs k' !! n = Some Y;
  pu_fields : tm_task Y = tm_task X /\ tm_signal Y = tm_signal X;
  pu_status : status Y = TIMER_ABORTED \/ status Y = TIMER_ADDED \/ status Y = TIMER_DONE }.

Lemma wpt_add_queue k0 k n m A G X (P : Kernel -> unit -> Kernel -> Prop) :
  in_thread t k -> others t k0 k -> app_owner n = t -> timer_objs k !! n = Some X ->
  status X <> TIMER_ADDED -> status X <> TIMER_DONE -> tm_task X = t -> is_signals (tm_signal X) ->
  reserved t n m A G k ->
  (forall k' Y, in_thread t k' -> put_up k k' n m A G X Y -> P k' tt k') ->
  wpt t k0 (disable;;
    upd_timer n (set_status TIMER_ADDED);;
    tnode ← listop (get_next timers);
    fuel ← gets (fun k => walk_bound (heap k));
    added ← add_scan fuel n tnode;
    (if bool_decide (false = added) then listop (list_add_tail timers n) else mret tt);;
    enable) k P.
Proof.
  intros Hit Ho Hn HX Hs1 Hs2 Htk Hsig Hrv HP.
  eapply wpt_bind, wpt_disable; [done..|]. intros k1 Hit1 _ He1. pose proof He1 as [Hoe1 _].
  assert (n ∉ []) as Hnil by set_solver.
  pose proof (own_timer_same [] k k1 n X Hoe1 Hn Hnil HX Hs1) as HX1.
  destruct (in_thread_kinv t k1 Hit1) as (Q & rs & ws & ts & T & HK & Hsch & Ha & _ & HT & Hst).
  destruct (ao_timer _ _ _ Ha n X HX1) as (Hz & Hnt & Hlk & Hpl).
  pose proof (unqueued _ _ _ _ _ _ _ HK HX1 Hs1) as Hni.
  destruct Hpl as [?|Hun]; [done|].
  assert (timer_free_node (lock k1) Q n X) as Hf.
  { split; [by split|done|done|done|]. exists T. rewrite Htk, Hst. done. }
  assert (wp (fun _ => False) (fun _ _ => False) (add_body n) (lock k1)
    (fun _ k' => queued (lock k1) Q rs ws ts n X k')) as H.
  { eapply wp_add_body; [by eapply kinv_frame; [..|exact HK]|done|done]. }
  do 4 peel_thread H. eapply wpt_run_bind, wp_mono; [exact H|]. simpl. intros [] k2 Hq.
  destruct (in_thread_queued k1 Q rs ws ts n X k2 Hit1 HK Hsch Ha Hn HX1 Htk Hq)
    as (k3 & -> & Hit3 & Hat & HX3).
  rewrite (lock_locked t k3) by done. eapply wpt_leave; [done|by eapply at_object_others|].
  intros k4 Hit4 _ He4. pose proof He4 as [Hoe4 _].
  destruct (own_timer [] k3 k4 n _ Hoe4 Hn Hnil HX3) as (Y & HY & HYs).
  apply (HP k4 Y); [done|]. split.
  - apply (reserved_env n m A G k3 k4); [done|by apply in_thread_sched| |done].
    eapply (reserved_at n m A G k1); [exact HX1|done|done|].
    apply (reserved_env n m A G k k1); [done|by apply in_thread_sched|done|done].
  - apply (own_env_trans t [n] k k1); [eapply own_env_mono; [done|set_solver]|].
    apply (own_env_trans t [n] k1 k3); [by apply at_object_own|].
    eapply own_env_mono; [done|set_solver].
  - done.
  - by destruct HYs as [->|[_ ->]].
  - destruct HYs as [->|[_ ->]]; auto.
Qed.

Definition add_due (n : addr) : M unit :=
  T ← load timer_objs n; now ← timer_get_clock;
  if tick T <=? now then upd_timer n (set_status TIMER_ABORTED)
  else disable;;
    upd_timer n (set_status TIMER_ADDED);;
    tnode ← listop (get_next timers);
    fuel ← gets (fun k => walk_bound (heap k));
    added ← add_scan fuel n tnode;
    (if bool_decide (false = added) then listop (list_add_tail timers n) else mret tt);;
    enable.

(** The timer with its tick set: it is due already, or it enters the queue. *)
Lemma wpt_add_due k0 k n m A G X (P : Kernel -> unit -> Kernel -> Prop) :
  in_thread t k -> others t k0 k -> app_owner n = t -> timer_objs k !! n = Some X ->
  status X <> TIMER_ADDED -> status X <> TIMER_DONE -> tm_task X = t -> is_signals (tm_signal X) ->
  reserved t n m A G k ->
  (forall k1 k' Y, in_thread t k' -> others t k1 k' -> put_up k k' n m A G X Y -> P k1 tt k') ->
  wpt t k0 (add_due n) k P.
Proof.
  intros Hit Ho Hn HX Hs1 Hs2 Htk Hsig Hrv HP. assert (n ∉ []) as Hnil by set_solver.
  eapply wpt_run_bind, wp_load; [exact HX|].
  eapply wpt_bind, wpt_get_clock; [done..|]. intros k3 Hit3 He3. pose proof He3 as [Hoe3 _].
  assert (timer_objs k3 !! n = Some X) as HX3 by by eapply own_timer_same.
  assert (reserved t n m A G k3) as Hrv3
    by (apply (reserved_env n m A G k k3); [done|by apply in_thread_sched|done|done]).
  assert (own_env t [n] k k3) as Hoek3 by (eapply own_env_mono; [done|set_solver]).
  destruct (tick X <=? timer_now k3).
  - eapply (wpt_upd_own t k3 k3 n X); [done..|].
    intros k4 Hit4 Ho4 Hoe4. eapply HP; [done|exact Ho4|]. split.
    + eapply (reserved_at n m A G k3); [exact HX3|done|apply put_timer_at|done].
    + by eapply own_env_trans.
    + apply lookup_insert_eq.
    + done.
    + by left.
  - eapply (wpt_add_queue k3 k3 n m A G X); [done|by apply others_refl|done..|].
    intros k4 Y Hit4 [Hr4 Ho4 HY HF HYs]. eapply HP; [done|by apply others_refl|].
    split; try done. by eapply own_env_trans.
Qed.

Lemma put_up_before k k1 k' n m A G X X1 Y : own_env t [n] k k1 -> put_up k1 k' n m A G X1 Y ->
  tm_task X1 = tm_task X -> tm_signal X1 = tm_signal X -> put_up k k' n m A G X Y.
Proof.
  intros Ho [Hr Ho' HY [F1 F2] Hs] E1 E2. split; try done; [by eapply own_env_trans|].
  split; congruence.
Qed.

Lemma wpt_timer_add k0 k n m A G X (P : Kernel -> unit -> Kernel -> Prop) :
  in_thread t k -> others t k0 k -> app_owner n = t -> timer_objs k !! n = Some X ->
  op X = TIMER_DELAY \/ op X = TIMER_ALARM ->
  status X = TIMER_INITIALIZED \/ status X = TIMER_ABORTED ->
  tm_task X = t -> is_signals (tm_signal X) -> reserved t n m A G k ->
  (forall k1 k' Y, in_thread t k' -> others t k1 k' -> put_up k k' n m A G X Y -> P k1 tt k') ->
  wpt t k0 (timer_add n) k P.
Proof.
  intros Hit Ho Hn HX Hop Hs Htk Hsig Hrv HP. unfold timer_add.
  assert (n ∉ []) as Hnil by set_solver.
  assert (status X <> TIMER_ADDED /\ status X <> TIMER_DONE) as [Hs1 Hs2]
    by (destruct Hs as [->| ->]; done).
  eapply wpt_run_bind, wp_load; [exact HX|].
  eapply wpt_run_bind, wp_assert; [by destruct Hop as [->| ->]|].
  eapply wpt_run_bind, wp_assert; [by destruct Hs as [->| ->]|].
  apply wpt_bind. destruct (bool_decide (TIMER_DELAY = op X)).
  - eapply wpt_bind, wpt_get_clock; [done..|]. intros k1 Hit1 He1. pose proof He1 as [Hoe1 _].
    assert (timer_objs k1 !! n = Some X) as HX1 by by eapply own_timer_same.
    eapply (wpt_upd_own t k1 k1 n X); [done..|]. intros k2 Hit2 Ho2 Hoe2.
    eapply (wpt_add_due _ k2 n m A G); [done|done|done|apply lookup_insert_eq|done..| |].
    + eapply (reserved_at n m A G k1); [exact HX1|done|apply put_timer_at|].
      apply (reserved_env n m A G k k1); [done|by apply in_thread_sched|done|done].
    + intros k3 k' Y ? ? Hput. eapply HP; [done..|]. eapply put_up_before; [|exact Hput|done..].
      eapply own_env_trans; [|exact Hoe2]. eapply own_env_mono; [done|set_solver].
  - eapply wpt_ret, (wpt_add_due _ k n m A G X); done.
Qed.

(** *** Freeing a timer *)

Lemma land_lor_lnot A m : 0 <= m -> Z.testbit A m = false ->
  Z.land (Z.lor A (2 ^ m)) (Z.lnot (2 ^ m)) = A.
Proof.
  intros Hm HA. apply Z.bits_inj'. intros i Hi.
  rewrite land_lnot_pow2_bits, lor_pow2_bits by done.
  case_bool_decide; [by subst|]. done.
Qed.

Lemma pow2_not_single m : 1 <= m -> Z.land (2 ^ m) SIGF_SINGLE = 0.
Proof.
  intros Hm. rewrite Z.land_comm. change SIGF_SINGLE with (2 ^ 0). rewrite land_pow2 by lia.
  by rewrite Z.pow2_bits_false by lia.
Qed.

Lemma pow2_in_lor A m : Z.land (2 ^ m) (Z.lor A (2 ^ m)) = 2 ^ m.
Proof. rewrite Z.lor_comm. apply land_lor_self. Qed.

Lemma wpt_timer_free k0 k n m A T X (P : Kernel -> unit -> Kernel -> Prop) :
  in_thread t k -> others t k0 k -> app_owner n = t -> tasks k !! t = Some T ->
  timer_objs k !! n = Some X -> status X <> TIMER_ADDED -> tm_signal X = 2 ^ m ->
  1 <= m < 16 -> Z.testbit A m = false -> sig_alloc T = Z.lor A (2 ^ m) ->
  (forall k' T', in_thread t k' -> others t k0 k' -> own_env t [n] k k' ->
    tasks k' !! t = Some T' -> sig_alloc T' = A -> sig_recvd T' = sig_recvd T ->
    (exists X', timer_objs k' !! n = Some X' /\ status X' = TIMER_INVALID) -> P k0 tt k') ->
  wpt t k0 (timer_free n) k P.
Proof.
  intros Hit Ho Hn HT HX Hs Hsig Hm HA Hal HP. unfold timer_free.
  eapply wpt_bind, (wpt_upd_own t k0 k n X); [done..|]. intros k1 Hit1 Ho1 Hoe1.
  set (X1 := set_tm_task NULL X) in *.
  eapply wpt_run_bind, wp_load; [apply lookup_insert_eq|]. simpl. rewrite Hsig.
  eapply wpt_bind, (wpt_signal_free t k0 k1 T); [done|done|..].
  { apply pow2_not_single; lia. }
  { rewrite Hal. by apply pow2_in_lor. }
  intros k2 Hit2 Ho2 Hoe2.
  eapply wpt_bind, (wpt_upd_own t k0 k2 n X1); [done|done|apply lookup_insert_eq|done|].
  intros k3 Hit3 Ho3 Hoe3.
  eapply (wpt_upd_own t k0 k3 n); [done|done|apply lookup_insert_eq|done|].
  intros k4 Hit4 Ho4 Hoe4.
  apply (HP k4 (freed (2 ^ m) T)); [done| | |apply lookup_insert_eq| |done|].
  - do 3 (eapply others_trans; [done || exact Ho|]). by eapply others_trans.
  - apply (own_env_trans t [n] k k1); [done|]. apply (own_env_trans t [n] k1 k2).
    { eapply own_env_mono; [done|set_solver]. }
    by apply (own_env_trans t [n] k2 k3).
  - simpl. rewrite Hal. apply land_lor_lnot; [lia|done].
  - eexists. split; [apply lookup_insert_eq|done].
Qed.

(** *** [timer_delay] *)

Lemma own_env_absent n k k' : own_env t [n] k k' -> absent k n -> absent k' n -> own_env t [] k k'.
Proof.
  intros [Hc Hd Hw Hs Hop Hpd] [L N TM TK PO] [L' N' TM' TK' PO']. split; [|done..].
  intros a Ha _. destruct (decide (a = n)) as [->|Hne]; [|apply Hc; set_solver].
  split; [by rewrite L, L'|rewrite TM, TM'; constructor| |congruence|..].
  - intros _. split; congruence.
  - intros xs [[P [HP _]] _]. congruence.
  - intros (p & xs & [_ [_ Hseg]] & Hin).
    destruct (seg_lookup _ _ _ _ n Hseg) as [c Hc']; [|congruence].
    unfold chain. set_solver.
Qed.

Lemma delay_ok_own S k k' T T' : own_env t S k k' -> (forall a X, a ∈ S -> app_owner a = t ->
    timer_objs k' !! a = Some X -> status X <> TIMER_ADDED) ->
  (forall a, a ∈ S -> ports k !! a = None) ->
  sig_alloc T' = sig_alloc T -> delay_ok t k T -> delay_ok t k' T'.
Proof.
  intros Ho HS HSp E [Hsp Hf]. split; rewrite E; [|done]. intros i. by eapply spare_own.
Qed.

Lemma reserved_task n m A G k T : reserved t n m A G k -> tasks k !! t = Some T ->
  sig_alloc T = Z.lor A (2 ^ m) /\ Z.land G (sig_recvd T) = G /\
  (Z.testbit (sig_recvd T) m = true -> exists X, timer_objs k !! n = Some X /\ status X = TIMER_DONE).
Proof. intros [(T0 & HT0 & ? & ? & ?) _ _] HT. by simplify_eq. Qed.

(** The task waits for its timer: it is woken by nothing else. *)
Lemma wpt_wait_timer fuel k0 k n m A G T X (P : Kernel -> Z -> Kernel -> Prop) :
  t <> init_task -> in_thread t k -> others t k0 k -> app_owner n = t -> tasks k !! t = Some T ->
  timer_objs k !! n = Some X -> status X = TIMER_ADDED -> tm_signal X = 2 ^ m -> 0 <= m < 16 ->
  reserved t n m A G k ->
  (forall k' T' X' rcvd, in_thread t k' -> own_env t [] k k' -> tasks k' !! t = Some T' ->
    sig_alloc T' = sig_alloc T ->
    (forall i, i <> m -> Z.testbit (sig_recvd T) i = true -> Z.testbit (sig_recvd T') i = true) ->
    timer_objs k' !! n = Some X' -> status X' = TIMER_DONE ->
    tm_signal X' = 2 ^ m -> P k' rcvd k') ->
  wpt t k0 (signal_wait (S (S fuel)) (tm_signal X)) k P.
Proof.
  intros Ht Hit Ho Hn HT HX Hs Hsig Hm Hrv HP.
  assert (is_signals (tm_signal X)) as Hsg.
  { rewrite Hsig. split; [lia|]. apply Z.pow_lt_mono_r; lia. }
  eapply (wpt_signal_wait t Ht fuel k0 k T); [done..|].
  intros rcvd k' T' Hit' _ HT' [Ho' Ha' Hnz Hsub Hbits _ Hkept].
  destruct (reserved_task n m A G k T Hrv HT) as (_ & _ & Hb).
  assert (Z.testbit rcvd m = true) as Hbm.
  { rewrite Hsig, land_pow2 in Hsub by lia. destruct (Z.testbit rcvd m); [done|congruence]. }
  assert (new_signal t k k' m) as Hnew.
  { destruct (Hbits m Hbm) as [Hi|?]; [|done]. destruct (Hb Hi) as (Y & HY & HYs). congruence. }
  destruct Hnew as [Hp|[(a & Y & Y' & Hao & HY & HY' & HYs & HYs' & Hi)|
    (p & R & Hpw & HR & Hact & Hi & _)]].
  { by rewrite (rv_public _ _ _ _ _ _ Hrv) in Hp. }
  2: { by rewrite (rv_ports _ _ _ _ _ _ Hrv p R) in Hi. }
  destruct (decide (a = n)) as [->|Hne]; [|by rewrite (rv_timers _ _ _ _ _ _ Hrv a Y) in Hi].
  eapply (HP k' T' Y'); try done.
  { intros i Hne. apply Hkept. rewrite Hsig. apply Z.pow2_bits_false. congruence. }
  destruct (own_timer [] k k' n X Ho' Hn) as (Z & HZ & E); [set_solver|done|].
  assert (Z = Y') as -> by congruence. by destruct E as [->|[_ ->]].
Qed.

Lemma enter_spare v k T : in_thread t k -> absent k (tv_addr v) ->
  status (tv_fields v) <> TIMER_ADDED -> delay_ok t k T -> delay_ok t (enter_state v k) T.
Proof.
  intros Hit [Hl _ _ _ Hp] Hs. eapply delay_ok_own; [by eapply at_object_own, enter_at|..]; [| |done].
  - intros a X ->%list_elem_of_singleton _. simpl. rewrite lookup_insert_eq. by intros [= <-].
  - by intros a ->%list_elem_of_singleton.
Qed.

(** The timer of a delay is freed and leaves the stack. *)
Lemma wpt_free_leave k0 k1 k v m A T Y (P : Kernel -> unit -> Kernel -> Prop) :
  let n := tv_addr v in
  in_thread t k -> others t k1 k -> own_env t [n] k0 k -> app_owner n = t -> absent k0 n ->
  1 <= m < 16 -> Z.testbit A m = false ->
  tasks k !! t = Some T -> sig_alloc T = Z.lor A (2 ^ m) ->
  timer_objs k !! n = Some Y -> status Y <> TIMER_ADDED -> tm_signal Y = 2 ^ m ->
  (forall k2 k' T', in_thread t k' -> others t k2 k' -> own_env t [] k0 k' ->
    absent k' n -> tasks k' !! t = Some T' -> sig_alloc T' = A -> sig_recvd T' = sig_recvd T ->
    P k2 tt k') ->
  wpt t k1 (timer_free n;; leave_timer v) k P.
Proof.
  intros n Hit Ho Hoe Hn Hab Hm HA HT Ha HY Hs Hsig HP.
  eapply wpt_bind, (wpt_timer_free k1 k n m A T Y); [done..|].
  intros k7 T7 Hit7 Ho7 Hoe7 HT7 Ha7 Hg7 (X7 & HX7 & Hs7).
  eapply (wpt_run t k1 _ k7 (fun _ k8 => k8 = leave_state v k7)); [by apply wp_modify|].
  intros [] ? ->.
  assert (absent (leave_state v k7) n) as Hab8.
  { destruct (in_thread_kinv t k7 Hit7) as (Q & rs & ws & ts & _ & _ & _ & Hao & _).
    destruct (ao_timer _ _ _ Hao n X7 HX7) as (_ & Hnt & _).
    assert (n ∈ [n]) as Hin by set_solver.
    split; simpl; try apply lookup_delete_eq; [done|].
    apply (own_ports_none [n] k0 k7); [by apply (own_env_trans t [n] k0 k)| |done].
    intros a ->%list_elem_of_singleton. apply Hab. }
  assert (at_object n k7 (leave_state v k7)) as Hat by (eapply leave_at; [done|exact HX7|congruence]).
  apply (HP k1 _ T7); try done.
  - eapply (in_thread_leave t v k7 X7); [done|done|congruence].
  - eapply others_trans; [exact Ho7|]. by eapply at_object_others.
  - apply (own_env_absent n); [|done|done]. apply (own_env_trans t [n] k0 k); [done|].
    apply (own_env_trans t [n] k k7); [done|]. by apply at_object_own.
Qed.

(** The signals that are allocated and received stay received. *)
Definition kept_signals (T T' : Task) : Prop := forall i,
  Z.testbit (sig_alloc T) i = true -> Z.testbit (sig_recvd T) i = true ->
  Z.testbit (sig_recvd T') i = true.

Lemma kept_superset T T' m : Z.testbit (sig_alloc T) m = false ->
  (forall i, i <> m -> Z.testbit (Z.land (sig_alloc T) (sig_recvd T)) i = true ->
    Z.testbit (sig_recvd T') i = true) -> kept_signals T T'.
Proof.
  intros Hm HG i Ha Hr. apply HG; [congruence|]. by rewrite Z.land_spec, Ha, Hr.
Qed.

Lemma wpt_timer_delay fuel k0 k v ticks T (P : Kernel -> unit -> Kernel -> Prop) :
  t <> init_task -> in_thread t k -> others t k0 k -> tasks k !! t = Some T ->
  app_owner (tv_addr v) = t -> tv_addr v <> NULL -> absent k (tv_addr v) ->
  status (tv_fields v) <> TIMER_ADDED -> delay_ok t k T ->
  (forall k1 k' T', in_thread t k' -> others t k1 k' -> own_env t [] k k' ->
    absent k' (tv_addr v) -> tasks k' !! t = Some T' -> sig_alloc T' = sig_alloc T ->
    kept_signals T T' -> P k1 tt k') ->
  wpt t k0 (timer_delay (S (S fuel)) v ticks) k P.
Proof.
  intros Ht Hit Ho HT Hn Hz Hab Hgb Hdo HP. unfold timer_delay. cbv zeta.
  set (n := tv_addr v) in *. pose proof (in_thread_ok k T Hit HT) as Hok.
  assert (n ∉ []) as Hnil by set_solver.
  eapply wpt_run_bind, wp_modify. fold (enter_state v k). set (k1 := enter_state v k).
  pose proof (enter_at t v k Hit (ab_link _ _ Hab)) as Hat1. fold n k1 in Hat1.
  assert (in_thread t k1) as Hit1 by by apply in_thread_enter.
  eapply wpt_bind, (wpt_timer_allocate k0 k1 n T (tv_fields v)); [done| |done|done|
    apply lookup_insert_eq|done|by apply enter_spare|].
  { eapply others_trans; [exact Ho|]. by eapply at_object_others. }
  intros k2' k2 m X Hit2 Ho2 Hm HmA Hrv2 Hoe2 HX2 (F1 & F2 & F3 & F4).
  assert (1 <= m < 16) as Hm1.
  { destruct Hok as [_ _ _ Hone _ _]. destruct (decide (m = 0)) as [->|]; [|lia]. exfalso.
    apply Hone. change SIGF_SINGLE with (2 ^ 0). by rewrite land_pow2, HmA by lia. }
  eapply wpt_bind, (wpt_upd_own t k2' k2 n X); [done..|congruence|]. intros k3 Hit3 Ho3 Hoe3.
  set (X3 := set_op TIMER_DELAY X) in *.
  eapply wpt_bind, (wpt_upd_own t k2' k3 n X3); [done|done|apply lookup_insert_eq|simpl; congruence|].
  intros k4 Hit4 Ho4 Hoe4. set (X4 := set_delay ticks X3) in *.
  set (G := Z.land (sig_alloc T) (sig_recvd T)) in *.
  assert (reserved t n m (sig_alloc T) G k4) as Hrv4.
  { eapply (reserved_at n m _ _ k3); [apply lookup_insert_eq|simpl; congruence|apply put_timer_at|].
    eapply (reserved_at n m _ _ k2); [exact HX2|congruence|apply put_timer_at|done]. }
  eapply wpt_bind, (wpt_timer_add k2' k4 n m (sig_alloc T) G X4);
    [done| |done|apply lookup_insert_eq|by left|left; done|done|simpl; rewrite F2|done|].
  { do 2 (eapply others_trans; [done|]). done. }
  { split; [lia|]. apply Z.pow_lt_mono_r; lia. }
  intros k5' k5 Y Hit5 Ho5 [Hrv5 Hoe5 HY [G1 G2] HYs]. simpl in G2. rewrite F2 in G2.
  eapply wpt_run_bind, wp_load; [exact HY|].
  destruct (in_thread_lookup t k5 Hit5) as [T5 HT5].
  destruct (reserved_task n m _ _ k5 T5 Hrv5 HT5) as (Ha5 & Hg5 & _).
  assert (own_env t [n] k k5) as Hoek5.
  { apply (own_env_trans t [n] k k1); [by apply at_object_own|].
    do 3 (eapply own_env_trans; [eassumption|]). done. }
  case_bool_decide as Hst.
  - eapply wpt_bind, wpt_bind, (wpt_wait_timer fuel k5' k5 n m _ G T5 Y); [done..|].
    intros k6 T6 Y6 rcvd Hit6 Hoe6 HT6 Ha6 Hg6 HY6 Hs6 Hsig6.
    eapply wpt_ret, (wpt_free_leave k k6 k6 v m (sig_alloc T) T6 Y6); try done.
    + by apply others_refl.
    + eapply own_env_trans; [exact Hoek5|]. eapply own_env_mono; [done|set_solver].
    + congruence.
    + congruence.
    + intros k7 k' T7 ????? Ha7 Hg7. eapply HP; try done.
      apply (kept_superset _ _ m HmA). intros i Hi Hb. rewrite Hg7.
      apply Hg6; [done|]. by apply (land_superset_bit G).
  - eapply wpt_bind, wpt_ret, (wpt_free_leave k k5' k5 v m (sig_alloc T) T5 Y); try done.
    intros k7 k' T7 ????? Ha7 Hg7. eapply HP; try done.
    apply (kept_superset _ _ m HmA). intros i Hi Hb. rewrite Hg7. by apply (land_superset_bit G).
Qed.
End timers.


Definition demo_var : TimerVar := mkTimerVar demo_local blank_min blank_node blank_timer.
Definition demo_a_task : Task := Eval vm_compute in demo_task demo_blocked demo_a.

Lemma demo_blocked_thread : in_thread demo_a demo_blocked.
Proof.
  split; [exact demo_blocked_quiescent|reflexivity|].
  apply (bool_decide_unpack _). vm_compute. exact I.
Qed.

Lemma demo_delay_ok : delay_ok demo_a demo_blocked demo_a_task.
Proof.
  split; [|by exists 5].
  intros i _. split_and!; [apply Z.bits_0| |].
  - intros a X _ HX Hs.
    assert (map_Forall (fun _ X => status X <> TIMER_ADDED) (timer_objs demo_blocked)) as Hf
      by (apply (bool_decide_unpack _); vm_compute; exact I).
    by destruct (Hf a X HX).
  - intros p P Hp [HP _] Ha.
    assert (map_Forall (fun p P => app_owner p = demo_a -> action P <> MSGPORT_SIGNAL)
      (ports demo_blocked)) as Hf by (apply (bool_decide_unpack _); vm_compute; exact I).
    by destruct (Hf p P HP Hp).
Qed.


(** ** Delays past the end of the clock *)

Section calm.
Context (I : Kernel -> Prop) (R : Kernel -> Kernel -> Prop).

Lemma wp_upd_put n X f k (P : unit -> Kernel -> Prop) :
  P tt (put_timer n (f X) k) -> wp I R (upd_timer n f) (put_timer n X k) P.
Proof.
  intros HP. eapply wp_upd_timer; [apply lookup_insert_eq|].
  assert (put_timer n (f X) k = set_timer_objs (<[n := f X]> (timer_objs (put_timer n X k)))
    (put_timer n X k)) as <-; [|done]. apply kernel_ext; try reflexivity. simpl.
  by rewrite insert_insert_eq.
Qed.

Lemma wp_allocate_calm k n T X m (P : unit -> Kernel -> Prop) :
  calm k -> tasks k !! running k = Some T -> alloc_choice (-1) (sig_alloc T) = (m, 2 ^ m) ->
  0 <= m < 16 ->
  P tt (put_timer n (mkTimer (running k) (2 ^ m) (delay X) (tick X) TIMER_NONE TIMER_INITIALIZED)
    (set_tasks (<[running k := allocated (2 ^ m) T]> (tasks k)) k)) ->
  wp I R (timer_allocate n) (put_timer n X k) P.
Proof.
  intros Hc HT Ea Hm HP. unfold timer_allocate. eapply wp_bind, wp_gets, wp_bind, wp_upd_put.
  eapply wp_bind, wp_signal_allocate; [by eapply calm_frame; [..|exact Hc]|exact HT|unfold SIGNALS_WIDTH; lia|].
  rewrite Ea. eapply wp_bind, wp_assert; [apply negb_true_iff, Z.eqb_neq; lia|].
  rewrite uwrap_pow2 by done.
  match goal with |- wp _ _ _ (set_tasks ?tk (put_timer n ?Y k)) _ =>
    change (set_tasks tk (put_timer n Y k)) with (put_timer n Y (set_tasks tk k)) end.
  do 2 eapply wp_bind, wp_upd_put. by apply wp_upd_put.
Qed.

Lemma wp_add_elapsed k n X tk (P : unit -> Kernel -> Prop) :
  calm k -> op X = TIMER_DELAY -> status X = TIMER_INITIALIZED ->
  tk = uwrap 32 (timer_now k + delay X) -> tk <= timer_now k ->
  P tt (put_timer n (set_status TIMER_ABORTED (set_tick tk X)) k) ->
  wp I R (timer_add n) (put_timer n X k) P.
Proof.
  intros Hc Ho Hs -> Hle HP.
  assert (calm (put_timer n X k)) as HcX by by eapply calm_frame; [..|exact Hc].
  unfold timer_add, timer_get_clock.
  eapply wp_bind, wp_load; [apply lookup_insert_eq|]. rewrite Ho, Hs.
  do 2 (eapply wp_bind, wp_assert; [done|]). rewrite bool_decide_true by done.
  eapply wp_bind, wp_bind, wp_bind, wp_window_calm; [apply HcX|].
  eapply wp_gets, wp_upd_put.
  eapply wp_bind, wp_load; [apply lookup_insert_eq|].
  eapply wp_bind, wp_bind, wp_window_calm; [apply HcX|]. apply wp_gets.
  change (tick (set_tick _ X)) with (uwrap 32 (timer_now k + delay X)).
  change (timer_now (put_timer n _ k)) with (timer_now k).
  rewrite (proj2 (Z.leb_le _ _) Hle). by apply wp_upd_put.
Qed.

Lemma wp_free_calm k n X T m (P : unit -> Kernel -> Prop) :
  calm k -> tasks k !! running k = Some T -> tm_signal X = 2 ^ m -> 1 <= m < 16 ->
  let T' := allocated (2 ^ m) T in
  P tt (put_timer n (set_status TIMER_INVALID (set_op TIMER_NONE (set_tm_task NULL X)))
    (set_tasks (<[running k := freed (2 ^ m) T']> (tasks k)) k)) ->
  wp I R (timer_free n) (put_timer n X (set_tasks (<[running k := T']> (tasks k)) k)) P.
Proof.
  intros Hc HT Hs Hm T' HP. unfold timer_free. eapply wp_bind, wp_upd_put.
  eapply wp_bind, wp_load; [apply lookup_insert_eq|].
  change (tm_signal (set_tm_task NULL X)) with (tm_signal X). rewrite Hs.
  eapply wp_bind, (wp_signal_free _ _ _ T');
    [apply lookup_insert_eq|apply pow2_not_single; lia|apply pow2_in_lor|].
  match goal with |- wp _ _ _ (set_tasks ?tk (put_timer n ?Y ?k3)) _ =>
    change (set_tasks tk (put_timer n Y k3)) with (put_timer n Y (set_tasks tk k3)) end.
  eapply wp_bind, wp_upd_put, wp_upd_put. simpl. by rewrite insert_insert_eq.
Qed.
End calm.

(** C40. The clock of 32 bits wraps around, which [timer_add] does not handle: a
    delay that would end behind the wrap-around does not wait.  [timer_delay],
    called where no interrupt can arrive by a task with a free signal, returns at
    once, and nothing has changed but that the task has lost a received and an
    awaited signal of the number it used. *)
Theorem timer_delay_wraps k T v ticks :
  calm k -> tasks k !! running k = Some T -> task_ok T ->
  (exists i, 0 <= i < 16 /\ Z.testbit (sig_alloc T) i = false) -> absent k (tv_addr v) ->
  0 <= timer_now k < 2 ^ 32 -> 0 <= ticks < 2 ^ 32 -> 2 ^ 32 <= timer_now k + ticks ->
  exists T', timer_delay 0 v ticks k = Ret tt (set_tasks (<[running k := T']> (tasks k)) k) /\
    sig_alloc T' = sig_alloc T /\ state T' = state T.
Proof.
  intros Hc HT Hok Hfree [Hl Hn Htm _] Hnow Hticks Hover. set (n := tv_addr v) in *.
  destruct (alloc_any _ Hfree) as (m & Hm & HmA & Ea).
  assert (1 <= m < 16) as Hm1.
  { destruct Hok as [_ _ _ Hone _ _]. destruct (decide (m = 0)) as [->|]; [|lia]. exfalso.
    apply Hone. change SIGF_SINGLE with (2 ^ 0). by rewrite land_pow2, HmA by lia. }
  set (T' := freed (2 ^ m) (allocated (2 ^ m) T)).
  assert (sig_alloc T' = sig_alloc T) as Eal by (apply land_lor_lnot; [lia|done]).
  exists T'. split; [|done].
  assert (run (timer_delay 0 v ticks) k (fun _ k' => k' = set_tasks (<[running k := T']> (tasks k)) k))
    as ([] & k' & E & ->); [|exact E].
  apply wp_run. unfold timer_delay. cbv zeta. fold n.
  eapply wp_bind, wp_modify. fold (enter_state v k). set (k1 := enter_state v k).
  assert (calm k1) as Hc1 by by eapply calm_frame; [..|exact Hc].
  assert (k1 = put_timer n (tv_fields v) (set_timer_objs (timer_objs k) k1)) as -> by by apply kernel_ext.
  set (k2 := set_timer_objs (timer_objs k) k1).
  eapply wp_bind, (wp_allocate_calm _ _ k2 n T _ m); [by eapply calm_frame; [..|exact Hc]|done..|].
  do 2 eapply wp_bind, wp_upd_put. simpl.
  eapply wp_bind, wp_add_elapsed; [by eapply calm_frame; [..|exact Hc]|done|done|reflexivity| |].
  { change (uwrap 32 (timer_now k + ticks) <= timer_now k). unfold uwrap.
    rewrite <- (Z.mod_unique (timer_now k + ticks) (2 ^ 32) 1 (timer_now k + ticks - 2 ^ 32)); lia. }
  eapply wp_bind, wp_load; [apply lookup_insert_eq|].
  simpl. change (bool_decide (TIMER_ADDED = TIMER_ABORTED)) with false.
  eapply wp_bind, wp_ret, wp_bind, (wp_free_calm _ _ k2 n _ T m);
    [by eapply calm_frame; [..|exact Hc]|done..|].
  apply wp_modify. fold n.
  unfold put_timer. simpl. rewrite !delete_insert_eq, ?insert_insert_eq, !delete_id by done.
  apply kernel_ext; try reflexivity. simpl. by destruct (heap k).
Qed.

Definition demo_late : Kernel := set_timer_now (2 ^ 32 - 10) (demo_calm demo_blocked).

Lemma timer_delay_wraps_witness : exists T', timer_delay 0 demo_var 20 demo_late =
    Ret tt (set_tasks (<[demo_a := T']> (tasks demo_late)) demo_late) /\
  sig_alloc T' = 1 /\ state T' = TASK_RUNNING.
Proof.
  apply (timer_delay_wraps demo_late demo_a_task demo_var 20).
  - split; [split|]; vm_compute; [reflexivity|split; [discriminate|reflexivity]|reflexivity].
  - vm_compute. reflexivity.
  - split; try done; vm_compute; split; (discriminate || reflexivity).
  - exists 5. split; [lia|reflexivity].
  - split; vm_compute; reflexivity.
  - vm_compute. split; [discriminate|reflexivity].
  - vm_compute. split; [discriminate|reflexivity].
  - vm_compute. discriminate.
Defined.
