(* ===== verification/TaskOps.v ===== *)
(** * Scheduling tasks, priorities, and interrupt nesting

    [task_schedule] and [task_set_prio] of [src/task.c]; [disable], [enable] and
    the assertion failure of [platform.c]. *)

From S2P Require Import Prelude Heap Lists ListSpec Machine Logic Context Task.
From S2P Require Import Platform Timer Invariant Checker Demo TaskSpec SchedSpec.
From S2P Require Import Signals BootSpec.

(** ** [task_schedule] *)

(** C27. [task_schedule], called where no interrupt can arrive, on an initialised
    task in no list: the task becomes ready, behind the ready tasks of at least
    its priority and before all others, a context switch is requested, and the
    kernel invariant and the scheduling invariant hold again. *)
Theorem task_schedule_correct k Q rs ws ts t T :
  calm k -> id_nestcnt k < 31999 -> kinv k Q rs ws ts ->
  tasks k !! t = Some T -> state T = TASK_INITIALIZED -> task_ok T ->
  exists k' m, task_schedule t k = Ret tt k' /\
    k' = set_pendsv true (set_tasks (<[t := set_state TASK_READY T]> (tasks k))
      (set_heap (mkHeap m (nodes (heap k))) k)) /\
    let rs' := prio_insert (prio_at k) t rs in
    kinv k' (<[ready := rs']> Q) rs' ws ts /\ sched_ok k' rs'.
Proof.
  intros Hc Hn HK HT Hs Hok.
  set (rs' := prio_insert (prio_at k) t rs).
  assert (run (task_schedule t) k (fun _ k' => exists m,
    k' = set_pendsv true (set_tasks (<[t := set_state TASK_READY T]> (tasks k))
      (set_heap (mkHeap m (nodes (heap k))) k)) /\
    kinv k' (<[ready := rs']> Q) rs' ws ts)) as ([] & k' & E & m & Ek & HK').
  2: { exists k', m. split; [done|]. split; [done|]. split; [done|]. left. by rewrite Ek. }
  apply wp_run. unfold task_schedule.
  eapply wp_bind, wp_task_verify; [done|lia|exact HT|done|congruence|].
  eapply wp_bind, wp_disable_calm; [done|].
  eapply wp_bind, wp_upd_task; [exact HT|].
  pose proof (ki_tasks _ _ _ _ _ HK t T HT) as [Hnd Hlk Hnz Hpl _].
  rewrite Hs in Hpl. simpl in Hpl.
  eapply wp_bind, wp_list_step.
  { apply (enqueue_step _ _ (ki_reps _ _ _ _ _ HK) ready rs t); [apply HK|by split|done|].
    intros x. by apply (kinv_rs_nodes HK). }
  intros m Hm [Hd _]. eapply wp_bind, wp_enable_back; [exact Hc|done..|].
  eapply wp_reschedule_calm; [apply Hc|]. exists m. split; [apply kernel_ext; reflexivity|].
  eapply kinv_frame; [..|eapply (kinv_enqueue k Q rs ws ts t T (set_state TASK_READY T) m)];
    try done. by destruct Hok.
Qed.

(** ** [task_set_prio] *)

Definition set_node_prio (t pr : Z) (k : Kernel) : Kernel :=
  set_heap (mkHeap (links (heap k))
    (alter (fun c => mkNode (name c) pr) t (nodes (heap k)))) k.

Lemma wp_task_set_prio I R k t T N pr (P : unit -> Kernel -> Prop) :
  calm k -> tasks k !! t = Some T -> nodes (heap k) !! t = Some N ->
  is_Some (nodes (heap k) !! running k) ->
  P tt (set_pendsv (pendsv k || bool_decide (t = running k) ||
      bool_decide (state T = TASK_READY) && (prio_at k (running k) <? pr))
    (set_node_prio t pr k)) ->
  wp I R (task_set_prio t pr) k P.
Proof.
  intros Hc HT HN [Nr HNr] HP. unfold task_set_prio.
  assert (alter (fun c => mkNode (name c) pr) t (nodes (heap k)) =
    <[t := mkNode (name N) pr]> (nodes (heap k))) as Ealt.
  { apply map_eq. intros i. destruct (decide (i = t)) as [->|Hne].
    - by rewrite lookup_alter_eq, lookup_insert_eq, HN.
    - by rewrite lookup_alter_ne, lookup_insert_ne. }
  unfold set_node_prio in HP. rewrite Ealt in HP.
  eapply wp_bind, wp_disable_calm; [done|].
  eapply wp_bind, wp_upd_node; [exact HN|]. set (k1 := set_heap _ _).
  assert (forall b, P tt (set_pendsv (pendsv k || b)
      (set_heap (mkHeap (links (heap k)) (<[t := mkNode (name N) pr]> (nodes (heap k)))) k)) ->
    wp I R ((if b then reschedule else mret tt);; enable) k1 P) as Hend.
  { intros b Hb. destruct b.
    - eapply wp_bind, wp_reschedule_calm; [done|]. eapply wp_enable_back; [exact Hc|done..|].
      rewrite orb_true_r in Hb.
      match goal with |- P tt ?k' => match type of Hb with P tt ?k2 =>
        replace k' with k2; [exact Hb|apply kernel_ext; reflexivity] end end.
    - eapply wp_bind, wp_ret, wp_enable_back; [exact Hc|done..|]. rewrite orb_false_r in Hb.
      match goal with |- P tt ?k' => match type of Hb with P tt ?k2 =>
        replace k' with k2; [exact Hb|apply kernel_ext; reflexivity] end end. }
  eapply wp_bind, wp_gets. simpl. apply wp_bind.
  destruct (Z.eqb_spec t (running k)) as [E|Hne].
  - apply wp_ret, (Hend true). rewrite (bool_decide_true (t = running k)) in HP by done.
    by rewrite orb_true_r in HP |- *.
  - rewrite (bool_decide_false (t = running k)), orb_false_r in HP by done.
    eapply wp_bind, wp_load; [exact HT|].
    rewrite (bool_decide_ext (TASK_READY = state T) (state T = TASK_READY)) by done.
    destruct (bool_decide (state T = TASK_READY)); simpl in HP.
    + eapply wp_bind, wp_get_prio; [simpl; rewrite lookup_insert_ne by done; eauto|].
      eapply wp_bind, wp_get_prio; [simpl; rewrite lookup_insert_eq; eauto|].
      apply wp_ret, (Hend (_ <? _)). unfold prio_at at 1 2, prio_of. simpl.
      rewrite lookup_insert_ne, lookup_insert_eq by done. simpl.
      unfold prio_at, prio_of in HP. rewrite HNr in *. exact HP.
    + by apply wp_ret, (Hend false); rewrite orb_false_r in HP |- *.
Qed.

Lemma kinv_set_prio k Q rs ws ts t pr : kinv k Q rs ws ts -> t ∉ rs ->
  kinv (set_node_prio t pr k) Q rs ws ts.
Proof.
  intros HK Ht. pose proof (ki_sorted _ _ _ _ _ HK) as Hs. destruct HK.
  split; try done.
  - intros u U HU. destruct (ki_tasks u U HU) as [Hn Hl Hz Hp Hok]. split; try done. simpl.
    destruct (decide (u = t)) as [->|Hne];
      [by rewrite lookup_alter_eq, fmap_is_Some|by rewrite lookup_alter_ne].
  - clear -Hs Ht. unfold prio_sorted in *.
    induction Hs as [|x xs Hs IH Hf]; constructor; [apply IH; set_solver|].
    rewrite Forall_forall in *. intros y Hy. specialize (Hf y Hy).
    unfold prio_at, prio_of in *. simpl. rewrite !lookup_alter_ne by set_solver. done.
Qed.

(** C28. [task_set_prio], called where no interrupt can arrive: it sets the
    priority of the task and requests a context switch if the task is the running
    task, or is ready and now of higher priority than the running task; nothing
    else changes.  For a task that is not in the ready list both invariants hold
    again. *)
Theorem task_set_prio_correct k Q rs ws ts t T pr :
  calm k -> kinv k Q rs ws ts -> tasks k !! t = Some T ->
  exists k', task_set_prio t pr k = Ret tt k' /\
    k' = set_pendsv (pendsv k || bool_decide (t = running k) ||
      bool_decide (state T = TASK_READY) && (prio_at k (running k) <? pr)) (set_node_prio t pr k) /\
    prio_at k' t = pr /\ (forall u, u <> t -> prio_at k' u = prio_at k u) /\
    (t ∉ rs -> kinv k' Q rs ws ts /\ (sched_ok k rs -> sched_ok k' rs)).
Proof.
  intros Hc HK HT. destruct (ki_running _ _ _ _ _ HK) as (U & HU & _).
  pose proof (twf_node _ _ _ _ _ _ (ki_tasks _ _ _ _ _ HK _ _ HU)) as Hnr.
  destruct (twf_node _ _ _ _ _ _ (ki_tasks _ _ _ _ _ HK _ _ HT)) as [N HN].
  set (b := pendsv k || _ || _).
  assert (run (task_set_prio t pr) k (fun _ k' => k' = set_pendsv b (set_node_prio t pr k)))
    as ([] & k' & E & Ek).
  { apply wp_run. by eapply wp_task_set_prio. }
  exists k'. split; [done|]. split; [done|]. subst k'.
  assert (forall u, u <> t -> prio_at (set_node_prio t pr k) u = prio_at k u) as Hoth.
  { intros u Hne. unfold prio_at, prio_of. simpl. by rewrite lookup_alter_ne. }
  split; [|split; [exact Hoth|]].
  - unfold prio_at, prio_of. simpl. by rewrite lookup_alter_eq, HN.
  - intros Ht. split; [eapply kinv_frame; [..|by apply (kinv_set_prio k Q rs ws ts t pr)]; done|].
    intros [Hp|Hs]; [left; simpl; unfold b; by rewrite Hp|].
    destruct (decide (t = running k)) as [->|Hne].
    + left. simpl. unfold b. rewrite (bool_decide_true (running k = _)) by done.
      by rewrite orb_true_r.
    + right. intros u Hu. change (prio_at (set_node_prio t pr k) u <=
        prio_at (set_node_prio t pr k) (running k)).
      rewrite !Hoth by (set_solver || done). by apply Hs.
Qed.

(** What [task_set_prio] does to a ready task that is not the first: raised
    above the first ready task, it keeps its place in the ready list, which is then
    no longer in order of priority, so that the next context switch can run a task
    of lower priority than one that is ready. *)
Theorem task_set_prio_ready_unsorted k Q r rs ws ts t pr :
  calm k -> kinv k Q (r :: rs) ws ts -> t ∈ rs -> prio_at k r < pr ->
  exists k', task_set_prio t pr k = Ret tt k' /\ reps (links (heap k')) Q /\
    prio_at k' r < prio_at k' t /\ ~ prio_sorted k' (r :: rs).
Proof.
  intros Hc HK Ht Hpr. destruct (ki_running _ _ _ _ _ HK) as (U & HU & _).
  pose proof (twf_node _ _ _ _ _ _ (ki_tasks _ _ _ _ _ HK _ _ HU)) as Hnr.
  destruct (ki_ready _ _ _ _ _ HK t ltac:(set_solver)) as (T & HT & _).
  destruct (twf_node _ _ _ _ _ _ (ki_tasks _ _ _ _ _ HK _ _ HT)) as [N HN].
  assert (exists b, run (task_set_prio t pr) k (fun _ k' =>
    k' = set_pendsv b (set_node_prio t pr k))) as (b & [] & k' & E & ->).
  { eexists. apply wp_run. by eapply wp_task_set_prio. }
  eexists. split; [done|]. split; [apply HK|].
  assert (t <> r) as Hne.
  { pose proof (kinv_nodup_rs HK) as [Hnd _]%NoDup_cons. set_solver. }
  assert (prio_at (set_pendsv b (set_node_prio t pr k)) r <
    prio_at (set_pendsv b (set_node_prio t pr k)) t) as Hlt.
  { unfold prio_at, prio_of in *. simpl.
    rewrite lookup_alter_ne, lookup_alter_eq by done. rewrite HN. simpl. exact Hpr. }
  split; [done|]. intros [_ Hf]%StronglySorted_inv. rewrite Forall_forall in Hf.
  specialize (Hf t Ht). simpl in Hf. lia.
Qed.

(** ** Nesting of [disable] and [enable], and failing assertions *)

Fixpoint times (n : nat) (m : M unit) : M unit :=
  match n with O => mret tt | S n => m;; times n m end.

Definition nested (n : nat) (k : Kernel) : Kernel :=
  set_id_nestcnt (id_nestcnt k + Z.of_nat n) (set_primask (primask k || bool_decide (n <> O)) k).

Lemma quietly_disables n : forall k (P : unit -> Kernel -> Prop), irq_ok k ->
  id_nestcnt k + Z.of_nat n < 32000 -> P tt (nested n k) -> quietly (times n disable) k P.
Proof.
  induction n as [|n IH]; intros k P Hi Hn HP; cbn [times].
  - apply quietly_wp, wp_ret. replace k with (nested 0 k); [done|].
    apply kernel_ext; try reflexivity; simpl; [by rewrite orb_false_r|lia].
  - apply quietly_bind, quietly_disable; [done|]. destruct Hi as [Hm Hb].
    apply IH; [split; simpl; [symmetry; apply Z.leb_le|]; lia|simpl; lia|].
    replace (nested n (lock k)) with (nested (S n) k); [done|].
    apply kernel_ext; try reflexivity; simpl; [by rewrite orb_true_r|lia].
Qed.

Lemma quietly_enables j : forall k n (P : unit -> Kernel -> Prop), irq_ok k ->
  id_nestcnt k + Z.of_nat (n + j) < 32000 -> P tt (nested n k) ->
  quietly (times j enable) (nested (n + j) k) P.
Proof.
  induction j as [|j IH]; intros k n P Hi Hn HP; cbn [times].
  - rewrite Nat.add_0_r. by apply quietly_wp, wp_ret.
  - pose proof Hi as [Hm Hb].
    apply quietly_bind, quietly_enable; [simpl; lia|].
    replace (unlock (nested (n + S j) k)) with (nested (n + j) k); [apply IH; [done|lia|done]|].
    unfold unlock, nested. simpl. case_bool; norm_bool.
    + assert (n + j = O)%nat as E0 by lia. rewrite E0. apply kernel_ext; try reflexivity; simpl; [|lia].
      rewrite Hm, orb_false_r. apply Z.leb_gt. lia.
    + apply kernel_ext; try reflexivity; simpl; [|lia].
      rewrite (bool_decide_true (n + S j <> O)%nat), orb_true_r by lia.
      destruct (decide (n + j = O)%nat) as [E0|]; [|by rewrite bool_decide_true, orb_true_r].
      rewrite bool_decide_false, orb_false_r, Hm by (rewrite E0; auto). apply Z.leb_le. lia.
Qed.

(** C31. [disable] and [enable] nest: after [n] calls of [disable] and [j] calls of
    [enable], with [j <= n], the nesting depth is [n - j] above what it was;
    interrupts are masked as long as [j < n], and as they were before when [j = n]. *)
Theorem disable_enable_nest k n j : irq_ok k -> (j <= n)%nat ->
  id_nestcnt k + Z.of_nat n < 32000 ->
  exists k', quiet_run (times n disable;; times j enable) k = Some (tt, k') /\
    id_nestcnt k' = id_nestcnt k + Z.of_nat (n - j) /\
    primask k' = (if decide (j < n)%nat then true else primask k) /\
    (j = n -> k' = k).
Proof.
  intros Hi Hj Hn.
  assert (quietly (times n disable;; times j enable) k (fun _ k' => k' = nested (n - j) k))
    as ([] & k' & E & ->).
  { apply quietly_bind, quietly_disables; [done|done|].
    replace n with (n - j + j)%nat at 1 by lia. apply quietly_enables; [done|lia|done]. }
  eexists. split; [exact E|]. split; [done|]. split.
  - simpl. case_decide; [by rewrite bool_decide_true, orb_true_r by lia|].
    rewrite bool_decide_false, orb_false_r by lia. done.
  - intros ->. apply kernel_ext; try reflexivity; simpl; [|lia].
    rewrite bool_decide_false, orb_false_r by lia. done.
Qed.

(** A failing [assert], in whatever state, stops the system for good with
    interrupts masked, and changes no task, list, timer or other object; but it
    counts the nesting depth [id_nestcnt] up by one. *)
Theorem assert_fails_halts k : -1 <= id_nestcnt k < 32000 ->
  exists k', assert_that false k = Spin k' /\ interruptible k' = false /\
    id_nestcnt k' = id_nestcnt k + 1 /\
    k' = set_primask true (set_id_nestcnt (id_nestcnt k') k).
Proof.
  intros Hn. exists (lock k). split; [|done].
  unfold assert_that, __assert_func, abort, user_halt, disable, __disable_irq,
    irq_window, add_nestcnt, mbind, M_bind, modify, gets. simpl.
  rewrite (proj2 (Z.leb_le _ _)) by lia. rewrite (proj2 (Z.ltb_lt _ _)) by lia. done.
Qed.

(** The assertion of [enable] admits one [enable] too many: outside every
    critical section it counts the depth down to -2, and then the next two nested
    critical sections are broken: leaving the inner one enables interrupts inside
    the outer one. *)
Theorem unmatched_enable k : primask k = false -> id_nestcnt k = -1 ->
  exists k', quiet_run (enable;; disable;; disable;; enable) k = Some (tt, k') /\
    primask k' = false /\ id_nestcnt k' = -1.
Proof.
  intros Hp Hn.
  assert (quietly (enable;; disable;; disable;; enable) k (fun _ k' =>
    primask k' = false /\ id_nestcnt k' = -1)) as ([] & k' & E & H); [|by exists k'].
  assert (forall k0 (P : unit -> Kernel -> Prop), -2 <= id_nestcnt k0 < 5 ->
    P tt (lock k0) -> quietly disable k0 P) as Hdis.
  { intros k0 P H0 HP. unfold disable. apply quietly_bind, quietly_window, quietly_wp.
    eapply wp_bind, wp_modify, wp_add_nestcnt; simpl; [lia|done]. }
  apply quietly_bind, quietly_enable; [lia|].
  assert (id_nestcnt (unlock k) = -2) as E1.
  { unfold unlock. simpl. rewrite Hn. done. }
  generalize dependent (unlock k). intros k1 E1.
  apply quietly_bind, Hdis; [lia|]. apply quietly_bind, Hdis; [simpl; lia|].
  apply quietly_enable; [simpl; lia|]. unfold unlock. simpl. rewrite E1. done.
Qed.

(** ** The properties at concrete states *)

Lemma task_schedule_correct_witness : exists k',
  task_schedule demo_a (demo_calm demo_initialized) = Ret tt k' /\ sched_ok k' [demo_a].
Proof.
  destruct (task_schedule_correct (demo_calm demo_initialized) (demo_Q [] []) [] [] [] demo_a
    (demo_task demo_initialized demo_a)) as (k' & m & E & _ & _ & Hs).
  - apply lock_calm; [|reflexivity]. split; [reflexivity|].
    split; [vm_compute; discriminate|reflexivity].
  - reflexivity.
  - apply demo_calm_kinv, demo_initialized_kinv.
  - vm_compute. reflexivity.
  - reflexivity.
  - apply (bool_decide_unpack _). vm_compute. exact I.
  - exists k'. split; [exact E|exact Hs].
Defined.

Lemma task_set_prio_correct_witness : exists k',
  task_set_prio demo_b 7 (demo_calm demo_blocked) = Ret tt k' /\ prio_at k' demo_b = 7.
Proof.
  destruct (task_set_prio_correct (demo_calm demo_blocked) _ _ _ _ demo_b
    (demo_task demo_blocked demo_b) 7 demo_blocked_calm
    (demo_calm_kinv _ _ _ _ _ demo_blocked_kinv)) as (k' & E & _ & H & _).
  - vm_compute. reflexivity.
  - exists k'. split; [exact E|exact H].
Defined.

Lemma task_set_prio_ready_unsorted_witness : exists k',
  task_set_prio init_task 5 (demo_calm demo_running) = Ret tt k' /\
  ~ prio_sorted k' [demo_a; init_task].
Proof.
  destruct (task_set_prio_ready_unsorted (demo_calm demo_running) (demo_Q [demo_a; init_task] [])
    demo_a [init_task] [] [] init_task 5) with (2 := demo_calm_kinv _ _ _ _ _ demo_running_kinv) as (k' & E & _ & _ & H).
  - apply lock_calm; [|reflexivity]. split; [reflexivity|].
    split; [vm_compute; discriminate|reflexivity].
  - set_solver.
  - vm_compute. reflexivity.
  - exists k'. split; [exact E|exact H].
Defined.

Lemma disable_enable_nest_witness : exists k',
  quiet_run (times 3 disable;; times 2 enable) demo_running = Some (tt, k') /\
  id_nestcnt k' = 0.
Proof.
  destruct (disable_enable_nest demo_running 3 2) as (k' & E & H & _).
  - split; [reflexivity|]. split; [vm_compute; discriminate|reflexivity].
  - lia.
  - reflexivity.
  - exists k'. split; [exact E|exact H].
Defined.

Lemma assert_fails_halts_witness : exists k',
  assert_that false demo_running = Spin k' /\ id_nestcnt k' = 0.
Proof.
  destruct (assert_fails_halts demo_running) as (k' & E & _ & H & _).
  - split; [vm_compute; discriminate|reflexivity].
  - exists k'. split; [exact E|exact H].
Defined.

Lemma unmatched_enable_witness : exists k',
  quiet_run (enable;; disable;; disable;; enable) demo_running = Some (tt, k') /\
  primask k' = false.
Proof.
  destruct (unmatched_enable demo_running) as (k' & E & H & _); [reflexivity|reflexivity|].
  exists k'. split; [exact E|exact H].
Defined.

(** ** [task_find] *)

Definition all_names (k : Kernel) (xs : list Z) : Prop :=
  forall x, x ∈ xs -> exists c nm, nodes (heap k) !! x = Some c /\ name c = Some nm.

Lemma calm_disable k : calm k -> disable k = Ret tt (lock k).
Proof.
  intros Hc. assert (run disable k (fun _ k' => k' = lock k)) as ([] & k' & E & ->); [|done].
  apply wp_run. by apply wp_disable_calm.
Qed.

(** The result of the two searches of [task_find]. *)
Definition find_in_lists (k : Kernel) (s : string) (rs ws : list Z) : addr :=
  let t := find_name (heap k) s rs in if NULL =? t then find_name (heap k) s ws else t.

(** C32. [task_find], called where no interrupt can arrive, by a name that a ready
    or a waiting task has: it returns the first ready task of that name, or else
    the first waiting one, and changes nothing.  By a name that none of them has,
    it reads the name of a task at address [NULL]: if nothing is there, the
    behaviour is undefined. *)
Theorem task_find_correct k Q rs ws ts s :
  calm k -> kinv k Q rs ws ts -> all_names k (rs ++ ws) ->
  let t := find_in_lists k s rs ws in
  (t <> NULL -> task_find (Some s) k = Ret t k) /\
  (t = NULL -> nodes (heap k) !! NULL = None -> task_find (Some s) k = Fault).
Proof.
  intros Hc HK Hnames t. pose proof (ki_reps _ _ _ _ _ HK) as Hr.
  assert (listop (list_find ready (Some s)) (lock k) = Ret (find_name (heap k) s rs) (lock k)) as E1.
  { unfold listop. change (heap (lock k)) with (heap k). rewrite (find_run _ _ Hr ready s rs); [done|apply HK|].
    intros x Hx. apply Hnames. set_solver. }
  assert (listop (list_find waiting (Some s)) (lock k) = Ret (find_name (heap k) s ws) (lock k)) as E2.
  { unfold listop. change (heap (lock k)) with (heap k). rewrite (find_run _ _ Hr waiting s ws); [done|apply HK|].
    intros x Hx. apply Hnames. set_solver. }
  assert (run enable (lock k) (fun _ k' => k' = k)) as ([] & k' & E3 & ->).
  { apply wp_run. eapply wp_enable_back; [exact Hc|done..|]. by apply kernel_ext. }
  unfold task_find, t, find_in_lists. rewrite (run_bind _ _ _ _ _ (calm_disable k Hc)).
  rewrite (run_bind _ _ _ _ _ E1).
  destruct (Z.eqb_spec NULL (find_name (heap k) s rs)) as [Ez|Hnz].
  - split; intros Ht.
    + assert ((task ← listop (list_find waiting (Some s));
        (if NULL =? task then
           s0 ← listop (get_name task); same ← listop (strcmp_eq (Some s) s0);
           if (same : bool) then gets running else mret task
         else mret task)) (lock k) = Ret (find_name (heap k) s ws) (lock k)) as E4.
      { rewrite (run_bind _ _ _ _ _ E2). by rewrite (proj2 (Z.eqb_neq _ _)) by done. }
      rewrite (run_bind _ _ _ _ _ E4). by rewrite (run_bind _ _ _ _ _ E3).
    + intros Hnull. unfold mbind at 1, M_bind at 1. rewrite (run_bind _ _ _ _ _ E2), Ht.
      change (NULL =? NULL) with true. cbv iota.
      unfold mbind, M_bind, listop, get_name. simpl. by rewrite Hnull.
  - split; intros Ht; [|done]. rewrite (run_bind (mret _) _ _ _ _ eq_refl).
    by rewrite (run_bind _ _ _ _ _ E3).
Qed.

Lemma task_find_correct_witness :
  task_find (Some "b"%string) (demo_calm demo_blocked) = Ret demo_b (demo_calm demo_blocked).
Proof.
  destruct (task_find_correct (demo_calm demo_blocked) _ _ _ _ "b"%string demo_blocked_calm
    (demo_calm_kinv _ _ _ _ _ demo_blocked_kinv)) as [H _].
  - intros x [->|[->|[]%elem_of_nil]%elem_of_cons]%elem_of_cons;
      eexists _, _; split; vm_compute; reflexivity.
  - apply H. vm_compute. discriminate.
Defined.

(** [task_init] without a name, while a task runs, stops the system with a
    failing assertion before it sets up the task: [task_find] of no name is the
    running task. *)
Theorem task_init_without_name k task T pr pc ud stack size :
  tasks k !! task = Some T -> running k <> NULL -> -1 <= id_nestcnt k < 32000 ->
  exists k', task_init task None pr pc ud stack size k = Spin k' /\
    interruptible k' = false /\
    tasks k' = <[task := set_state TASK_INVALID T]> (tasks k).
Proof.
  intros HT Hr Hn. set (k1 := set_tasks (<[task := set_state TASK_INVALID T]> (tasks k)) k).
  assert (upd_task task (set_state TASK_INVALID) k = Ret tt k1) as E1.
  { unfold upd_task. rewrite (run_bind (load tasks task) _ k T k); [done|].
    unfold load. by rewrite HT. }
  exists (lock k1). split; [|done]. unfold task_init. rewrite (run_bind _ _ _ _ _ E1).
  rewrite (run_bind (task_find None) _ k1 (running k) k1 eq_refl).
  apply assert_fails; [|done]. apply Z.eqb_neq. congruence.
Qed.

Lemma task_init_without_name_witness : exists k',
  task_init demo_a None 1 134220001 NULL demo_stack_a 1024 demo_running = Spin k'.
Proof.
  destruct (task_init_without_name demo_running demo_a (demo_task demo_running demo_a)
    1 134220001 NULL demo_stack_a 1024) as (k' & E & _).
  - vm_compute. reflexivity.
  - discriminate.
  - split; [vm_compute; discriminate|reflexivity].
  - exists k'. exact E.
Defined.
