(* ===== verification/ThreadTasks.v ===== *)
(** * Creating tasks in thread code under preemption

    [task_init], [task_schedule] and [task_set_prio] called by a running task:
    the new task is the creator's until it is scheduled, and is one of the tasks
    the scheduler and every other task know of afterwards. *)

From S2P Require Import Prelude Heap Lists ListSpec Machine Logic Context Task.
From S2P Require Import Platform Timer Invariant TaskSpec SchedSpec ContextSpec BootSpec.
From S2P Require Import Signals TimerSpec Mail Rely WaitSpec Threads TaskOps.

(** [k'] differs from [k] at most in the task object at [u], which was [T] and is
    now [T'], and in the contents of stack memory. *)
Record at_task (u : addr) (T T' : Task) (k k' : Kernel) : Prop := mkAtTask {
  tt_old : tasks k !! u = Some T;
  tt_tasks : tasks k' = <[u := T']> (tasks k);
  tt_links : links (heap k') = links (heap k);
  tt_nodes : forall a, a <> u -> nodes (heap k') !! a = nodes (heap k) !! a;
  tt_node : is_Some (nodes (heap k) !! u) -> is_Some (nodes (heap k') !! u);
  tt_words : dom (words k') = dom (words k);
  tt_timers : timer_objs k' = timer_objs k;
  tt_running : running k' = running k;
  tt_irq : primask k' = primask k /\ handler k' = handler k /\ id_nestcnt k' = id_nestcnt k /\
    pendsv k' = pendsv k;
  tt_ports : ports k' = ports k }.

Lemma at_task_mail u T T' k k' : at_task u T T' k k' -> kept_mail k k'.
Proof. intros []. by apply kept_same. Qed.

(** The invariant does not depend on a task that is not scheduled. *)
Lemma kinv_at_task u T T' k k' Q rs ws ts : kinv k Q rs ws ts -> at_task u T T' k k' ->
  scheduled (state T) = false -> scheduled (state T') = false -> kinv k' Q rs ws ts.
Proof.
  intros HK [HT Et El Hn Hn' _ Etm Er _ _] Hs Hs'.
  assert (forall x X, tasks k !! x = Some X -> scheduled (state X) = true ->
    x <> u /\ tasks k' !! x = Some X) as Hother.
  { intros x X HX HXs. assert (u <> x) by (intros ->; congruence).
    split; [done|]. by rewrite Et, lookup_insert_ne. }
  assert (forall s x, scheduled s = true -> in_state k s x -> in_state k' s x) as Hin.
  { intros s x Hsc (X & HX & <-). exists X. split; [|done]. by apply Hother. }
  assert (forall x, in_state k TASK_READY x -> prio_at k' x = prio_at k x) as Hpr.
  { intros x (X & HX & HXs). unfold prio_at, prio_of. rewrite Hn; [done|].
    apply (Hother x X HX). by rewrite HXs. }
  pose proof (ki_ready _ _ _ _ _ HK) as Hrd.
  destruct HK. split; try done.
  - by rewrite El.
  - intros x Hx. apply Hin; auto.
  - intros x Hx. apply Hin; auto.
  - intros x X HX. rewrite Et in HX. apply lookup_insert_Some in HX as [[<- <-]|[Hne HX]].
    + destruct (ki_tasks u T HT) as [H1 H2 H3 H4 H5].
      split; [by apply Hn'|by rewrite El|done| |by rewrite Hs'].
      destruct (state T), (state T'); done.
    + destruct (ki_tasks x X HX) as [H1 H2 H3 H4 H5].
      split; [by rewrite Hn|by rewrite El|done| |done].
      destruct (state X); simpl in *; try done. by rewrite Er.
  - destruct ki_running as (X & HX & HXs). exists X. rewrite Er. split; [|done]. by apply Hother.
  - clear -ki_sorted Hpr Hrd. unfold prio_sorted in *.
    induction ki_sorted as [|x xs Hs IH Hf]; constructor; [apply IH; set_solver|].
    rewrite Forall_forall in *. intros y Hy. rewrite !Hpr by (apply Hrd; set_solver). by apply Hf.
  - intros a (X & HX & HXs & Hsig & U & HU & HUs)%ki_timers. exists X. rewrite Etm.
    split_and!; [done..|]. exists U. split; [|done]. by apply Hother.
  - unfold tick_sorted, tick_at in *. by rewrite Etm.
Qed.

Lemma find_name_none h s xs : (forall x, x ∈ xs -> has_name h s x = false) -> find_name h s xs = NULL.
Proof.
  induction xs as [|x xs IH]; intros Hx; simpl; [done|].
  rewrite Hx by set_solver. apply IH. set_solver.
Qed.

Section create.
Context `{AP : App} (t : addr).

(** The object of a task before it is scheduled, behind its environment. *)
Lemma own_task S k k' u T : own_env t S k k' -> app_owner u = t -> u ∉ S ->
  tasks k !! u = Some T -> scheduled (state T) = false ->
  tasks k' !! u = Some T /\ nodes (heap k') !! u = nodes (heap k) !! u.
Proof.
  intros [Hc _ _ _ _ _] Hu HS HT Hs. destruct (Hc u Hu HS) as [_ _ Hcu _ _ _].
  destruct Hcu as [E1 E2]; [intros X HX; congruence|]. by rewrite E1.
Qed.

Lemma at_task_own u T T' k k' : at_task u T T' k k' -> scheduled (state T) = false ->
  own_env t [u] k k'.
Proof.
  intros Hat Hs. pose proof (at_task_mail _ _ _ _ _ Hat) as Hm.
  destruct Hat as [HT Et El Hn _ Hw Etm _ _ _]. destruct (kept_open k k' Hm). split; try done.
  - intros a _ Ha%not_elem_of_cons. destruct Ha as [Hne _].
    destruct (cell_env_mail k k' a Hm) as (? & ? & ?).
    split; [by rewrite El|rewrite Etm; constructor| |done..]. intros _.
    rewrite Et, lookup_insert_ne by done. split; [done|by apply Hn].
  - rewrite Et. by apply dom_insert_lookup_L.
  - intros x (X & HX & HXs). exists X. rewrite Et, lookup_insert_ne; [done|]. intros ->. congruence.
Qed.

Lemma at_task_holds u T T' k k' A : at_task u T T' k k' -> scheduled (state T) = false ->
  holds t k A -> holds t k' A.
Proof.
  intros [HT Et _ _ _ _ _ _ _ _] Hs (X & HX & HXs & HA). exists X. split; [|done].
  rewrite Et, lookup_insert_ne; [done|]. intros ->. congruence.
Qed.

Lemma at_task_others u T T' k k' : in_thread t k -> app_owner u = t -> at_task u T T' k k' ->
  scheduled (state T) = false -> scheduled (state T') = false -> others t k k'.
Proof.
  intros Hit Hu Hat Hs Hs'. pose proof (at_task_mail _ _ _ _ _ Hat) as Hm.
  destruct Hat as [HT Et El Hn _ Hw Etm Er _ _].
  destruct (in_thread_sched t k Hit) as (X & HX & HXs).
  assert (u <> t) as Hne by (intros ->; congruence).
  apply (others_step t k k' X); try done.
  - rewrite Er. apply Hit.
  - exists X. by rewrite Et, lookup_insert_ne.
  - rewrite Et. by apply dom_insert_lookup_L.
  - intros x Hx. unfold other_task. rewrite Et.
    destruct (decide (u = x)) as [->|Hux]; [right|left; by rewrite lookup_insert_ne].
    split; [done|]. split; [intros Y HY; congruence|].
    intros U' HU'. rewrite lookup_insert_eq in HU'. simplify_eq. congruence.
  - intros a Ha. rewrite El, Etm. split_and!; [done..|]. intros _. apply Hn. congruence.
Qed.

Lemma app_at_task u T T' k k' Q ts : app_ok k Q ts -> at_task u T T' k k' -> u <> NULL ->
  scheduled (state T) = false -> scheduled (state T') = false -> app_ok k' Q ts.
Proof.
  intros Ha [HT Et El Hn _ Hw Etm Er _ Ep] Hz HsT Hs'.
  destruct (app_ok_ports k k' Q Q ts Ha Ep) as (? & ? & ?); [done| |].
  { intros x (X & HX & HXs). exists X. rewrite Et, lookup_insert_ne; [done|]. intros ->. congruence. }
  destruct Ha as [Htm Hq Hnull Hname Hinj _ _ _].
  assert (dom (tasks k') = dom (tasks k)) as Hd by (rewrite Et; by apply dom_insert_lookup_L).
  split; try done.
  - intros a X HX. rewrite Etm in HX. destruct (Htm a X HX) as (? & Hta & ? & ?).
    rewrite El. split_and!; [done| |done..]. rewrite Et, lookup_insert_ne; [done|]. intros ->. congruence.
  - intros a X Ha. rewrite Etm. by apply Hq.
  - rewrite Hn, Hd by done. done.
  - intros x (X & HX & HXs). rewrite Et in HX.
    apply lookup_insert_Some in HX as [[<- <-]|[Hne HX]]; [congruence|].
    rewrite Hn by done. apply Hname. by exists X.
  - by rewrite Hd.
Qed.

Lemma in_thread_at_task u T T' k k' : in_thread t k -> at_task u T T' k k' ->
  scheduled (state T) = false -> scheduled (state T') = false -> in_thread t k'.
Proof.
  intros [[Hm Hh Hn (Q & rs & ws & ts & HK & Hs & Ha) Hi] Hr (X & HX & HXs)] Hat HTs HTs'.
  pose proof (kinv_at_task _ _ _ _ _ _ _ _ _ HK Hat HTs HTs') as HK'.
  pose proof (twf_nonnull _ _ _ _ _ _ (ki_tasks _ _ _ _ _ HK u T (tt_old _ _ _ _ _ Hat))) as Hz.
  pose proof (app_at_task _ _ _ _ _ _ _ Ha Hat Hz HTs HTs') as Ha'.
  destruct Hat as [HT Et El Hnd _ Hw Etm Er (E1 & E2 & E3 & E4) _].
  assert (forall x Y, tasks k !! x = Some Y -> scheduled (state Y) = true ->
    tasks k' !! x = Some Y /\ prio_at k' x = prio_at k x) as Hx.
  { intros x Y HY HYs. assert (u <> x) by (intros ->; congruence).
    rewrite Et, lookup_insert_ne by done. unfold prio_at, prio_of. by rewrite Hnd. }
  split; [split; [congruence..| |]|congruence|].
  - exists Q, rs, ws, ts. split_and!; [done| |done].
    destruct Hs as [Hs|Hs]; [left; congruence|right]. intros x Hin.
    destruct (ki_ready _ _ _ _ _ HK x Hin) as (Y & HY & HYs).
    destruct (ki_running _ _ _ _ _ HK) as (R & HR & HRs).
    rewrite Er, (proj2 (Hx x Y HY ltac:(by rewrite HYs))), (proj2 (Hx _ R HR HRs)). by apply Hs.
  - destruct Hi as (Y & HY & HYs). exists Y. rewrite Er. split; [|done]. apply Hx; [done|].
    by destruct HYs as [->|[-> _]].
  - exists X. split; [|done]. apply Hx; [done|]. by rewrite HXs.
Qed.

(** *** Finding and verifying *)

(** No scheduled task has the name of one that is not scheduled. *)
Lemma find_name_unsched k Q rs ws ts u T xs : kinv k Q rs ws ts -> app_ok k Q ts ->
  tasks k !! u = Some T -> scheduled (state T) = false -> (forall x, x ∈ xs -> sched_task k x) ->
  (forall x, x ∈ xs -> exists c nm, nodes (heap k) !! x = Some c /\ name c = Some nm) /\
  find_name (heap k) (app_name u) xs = NULL.
Proof.
  intros HK Ha HT Hs Hx. split.
  - intros x Hin. destruct (ao_name _ _ _ Ha x (Hx x Hin)) as (c & ? & ?). eauto.
  - apply find_name_none. intros x Hin. destruct (ao_name _ _ _ Ha x (Hx x Hin)) as (c & Hc & Hnm).
    unfold has_name. rewrite Hc, Hnm. apply bool_decide_eq_false. intros [= E].
    destruct (Hx x Hin) as (X & HX & HXs).
    assert (x = u) as -> by (apply (ao_inj _ _ _ Ha); [by apply elem_of_dom..|done]).
    congruence.
Qed.

Lemma kinv_lists_sched k Q rs ws ts : kinv k Q rs ws ts ->
  (forall x, x ∈ rs -> sched_task k x) /\ (forall x, x ∈ ws -> sched_task k x).
Proof.
  intros HK. split; intros x Hx.
  - destruct (ki_ready _ _ _ _ _ HK x Hx) as (X & HX & HXs). exists X. by rewrite HXs.
  - destruct (ki_waiting _ _ _ _ _ HK x Hx) as (X & HX & HXs). exists X. by rewrite HXs.
Qed.

Lemma wpt_task_find k0 k u T (P : Kernel -> addr -> Kernel -> Prop) :
  in_thread t k -> others t k0 k -> app_owner u = t -> tasks k !! u = Some T ->
  scheduled (state T) = false -> (forall k', in_thread t k' -> env t k k' -> P k' NULL k') ->
  wpt t k0 (task_find (Some (app_name u))) k P.
Proof.
  intros Hit Ho Hu HT Hs HP. unfold task_find.
  eapply wpt_bind, wpt_disable; [done..|]. intros k1 Hit1 _ He1.
  destruct (own_task [] k k1 u T (env_own _ _ _ He1) Hu) as [HT1 _]; [set_solver|done|done|].
  destruct (in_thread_kinv t k1 Hit1) as (Q & rs & ws & ts & X & HK & _ & Ha & _).
  destruct (kinv_lists_sched _ _ _ _ _ HK) as [Hrs Hws].
  destruct (find_name_unsched k1 Q rs ws ts u T rs HK Ha HT1 Hs Hrs) as [Hn1 E1].
  destruct (find_name_unsched k1 Q rs ws ts u T ws HK Ha HT1 Hs Hws) as [Hn2 E2].
  destruct (ao_null _ _ _ Ha) as (c & s & Hc & Hcs & Hne).
  eapply wpt_run_bind, wp_list_read.
  { apply (find_run _ _ (ki_reps _ _ _ _ _ HK) ready _ rs); [apply HK|exact Hn1]. }
  change (heap (lock k1)) with (heap k1). rewrite E1.
  change (NULL =? NULL) with true. cbv iota.
  eapply wpt_bind, wpt_run_bind, wp_list_read.
  { apply (find_run _ _ (ki_reps _ _ _ _ _ HK) waiting _ ws); [apply HK|exact Hn2]. }
  change (heap (lock k1)) with (heap k1). rewrite E2.
  change (NULL =? NULL) with true. cbv iota.
  eapply wpt_run_bind, (wp_list_read _ _ _ _ (Some s)).
  { unfold get_name. simpl. by rewrite Hc, <- Hcs. }
  eapply wpt_run_bind, (wp_list_read _ _ _ _ false).
  { unfold strcmp_eq. rewrite bool_decide_false; [done|]. apply Hne. by apply elem_of_dom. }
  cbv iota. apply wpt_ret. rewrite (lock_locked t k1) by done.
  eapply wpt_bind, wpt_leave; [done|by apply others_refl|]. intros k2 Hit2 _ He2.
  apply wpt_ret, HP; [done|]. by eapply env_trans.
Qed.

Lemma wpt_task_verify k0 k u T (P : Kernel -> unit -> Kernel -> Prop) :
  in_thread t k -> others t k0 k -> app_owner u = t -> tasks k !! u = Some T ->
  state T = TASK_INITIALIZED -> task_ok T ->
  (forall k', in_thread t k' -> env t k k' -> P k' tt k') -> wpt t k0 (task_verify u) k P.
Proof.
  intros Hit Ho Hu HT Hs Hok HP. unfold task_verify.
  eapply wpt_bind, wpt_disable; [done..|]. intros k1 Hit1 _ He1.
  destruct (own_task [] k k1 u T (env_own _ _ _ He1) Hu) as [HT1 _];
    [set_solver|done|by rewrite Hs|].
  assert (wp (fun _ => False) (fun _ _ => False) (verify_body u) (lock k1) (fun _ k' => k' = lock k1))
    as H by (eapply wp_verify_body; [exact HT1|done|congruence|done]).
  do 4 peel_thread H. eapply wpt_run_bind, wp_mono; [exact H|]. intros [] ? ->.
  rewrite (lock_locked t k1) by done. eapply wpt_leave; [done|by apply others_refl|].
  intros k2 Hit2 _ He2. apply HP; [done|]. by eapply env_trans.
Qed.

(** *** Initialising *)

(** A task as [task_init] leaves it. *)
Definition new_task (stack size : Z) : Task :=
  mkTask (mkContext (stack + size - sizeof_StackFrame) stack (stack + size)) SIGF_SINGLE 0 0 (-1)
    TASK_INITIALIZED.

Lemma new_task_ok stack size : sizeof_StackFrame <= size -> task_ok (new_task stack size).
Proof. intros Hsz. split; try done; simpl; [lia..|]. unfold sizeof_StackFrame in *. lia. Qed.

Lemma wpt_task_init k0 k u T pr pc ud stack size (P : Kernel -> unit -> Kernel -> Prop) :
  in_thread t k -> others t k0 k -> app_owner u = t -> tasks k !! u = Some T ->
  scheduled (state T) = false -> stack mod 4 = 0 -> size mod 4 = 0 -> sizeof_StackFrame <= size ->
  frame_mapped (words k) (stack + size - sizeof_StackFrame) ->
  (forall k1 k', in_thread t k' -> others t k1 k' -> own_env t [u] k k' ->
    (forall A, holds t k A -> holds t k' A) ->
    tasks k' !! u = Some (new_task stack size) ->
    nodes (heap k') !! u = Some (mkNode (Some (app_name u)) pr) -> P k1 tt k') ->
  wpt t k0 (task_init u (Some (app_name u)) pr pc ud stack size) k P.
Proof.
  intros Hit Ho Hu HT Hs H1 H2 H3 Hmap HP. unfold task_init.
  set (T1 := set_state TASK_INVALID T). set (k1 := set_tasks (<[u := T1]> (tasks k)) k).
  assert (at_task u T T1 k k1) as Hat1 by by split.
  eapply wpt_run_bind, wp_upd_task; [exact HT|]. fold T1 k1.
  assert (in_thread t k1) as Hit1 by by eapply in_thread_at_task.
  eapply wpt_bind, (wpt_task_find k0 k1 u T1); [done| |done|apply lookup_insert_eq|done|].
  { eapply others_trans; [exact Ho|]. by eapply at_task_others. }
  intros k2 Hit2 He2.
  destruct (own_task [] k1 k2 u T1 (env_own _ _ _ He2) Hu) as [HT2 _];
    [set_solver|apply lookup_insert_eq|done|].
  eapply wpt_run_bind, wp_assert; [done|].
  destruct (in_thread_kinv t k2 Hit2) as (Q & rs & ws & ts & X & HK & _).
  destruct (twf_node _ _ _ _ _ _ (ki_tasks _ _ _ _ _ HK u T1 HT2)) as [N HN].
  assert (frame_mapped (words k2) (stack + size - sizeof_StackFrame)) as Hmap2.
  { eapply frame_mapped_dom; [|exact Hmap]. rewrite (oe_words _ _ _ _ (env_own _ _ _ He2)). done. }
  eapply wpt_run; [eapply (wp_init_tail _ _ k2 u _ T1 N _ _ _ _ _ (fun _ k3 => k3 = _));
    [exact HT2|exact HN|done|done|done|exact Hmap2|reflexivity]|].
  intros [] k3 Ek3. fold (new_task stack size) in Ek3.
  assert (at_task u T1 (new_task stack size) k2 k3) as Hat3.
  { rewrite Ek3. split; try done; simpl.
    - intros a Hne. by apply lookup_insert_ne.
    - rewrite lookup_insert_eq. eauto.
    - by apply first_frame_dom. }
  apply (HP k2 k3).
  - by eapply in_thread_at_task.
  - by eapply at_task_others.
  - apply (own_env_trans t [u] k k1); [by eapply at_task_own|].
    apply (own_env_trans t [u] k1 k2); [eapply own_env_mono; [apply He2|set_solver]|].
    by eapply at_task_own.
  - intros A HA. eapply at_task_holds; [exact Hat3|done|]. eapply holds_env; [|exact He2].
    by eapply at_task_holds.
  - rewrite Ek3. apply lookup_insert_eq.
  - rewrite Ek3. apply lookup_insert_eq.
Qed.

(** *** Scheduling *)

(** The state behind the critical section of [task_schedule]. *)
Definition scheduled_state (u : addr) (T : Task) (m : gmap Z MinNode) (k : Kernel) : Kernel :=
  set_tasks (<[u := set_state TASK_READY T]> (tasks k)) (set_heap (mkHeap m (nodes (heap k))) k).

Lemma schedule_unsettled k Q rs ws ts u T N m : in_thread t k -> kinv k Q rs ws ts ->
  app_ok k Q ts -> tasks k !! u = Some T -> state T = TASK_INITIALIZED -> task_ok T ->
  nodes (heap k) !! u = Some N -> name N = Some (app_name u) ->
  reps m (<[ready := prio_insert (prio_at k) u rs]> Q) -> dom m = dom (links (heap k)) ->
  unsettled (scheduled_state u T m k).
Proof.
  intros Hit HK Ha HT Hs Hok HN Hname Hm Hd.
  destruct (it_quiescent _ _ Hit) as [E1 E2 E3 _ (Y & HY & HYs)].
  pose proof (ki_tasks _ _ _ _ _ HK u T HT) as [_ _ _ Hpl _]. rewrite Hs in Hpl. simpl in Hpl.
  set (k1 := scheduled_state u T m k).
  assert (forall x, x <> u -> tasks k1 !! x = tasks k !! x) as Hx
    by (intros x Hne; by apply lookup_insert_ne).
  assert (dom (tasks k1) = dom (tasks k)) as Hdt by by apply dom_insert_lookup_L.
  split; [done..| |].
  - exists (<[ready := prio_insert (prio_at k) u rs]> Q), (prio_insert (prio_at k) u rs), ws, ts.
    split_and!; [|by left|].
    + eapply kinv_frame; [..|eapply (kinv_enqueue k Q rs ws ts u T (set_state TASK_READY T) m)];
        try done. by destruct Hok.
    + assert (app_ok k1 (<[ready := prio_insert (prio_at k) u rs]> Q) ts) as Ha1; [|by destruct Ha1].
      destruct (app_ok_ports k k1 Q (<[ready := prio_insert (prio_at k) u rs]> Q) ts Ha eq_refl)
        as (? & ? & ?).
      { intros l Hl. rewrite kernel_insert; [done|by left|done]. }
      { intros x (X & HX & HXs). exists X. rewrite Hx; [done|]. intros ->. simplify_eq. by rewrite Hs in HXs. }
      destruct Ha as [Htm Hq Hnull Hnm Hinj _ _ _]. split; try done.
      * intros a X HX. destruct (Htm a X HX) as (? & Hta & Hl & Hpos).
        split_and!; [done| |by eapply (same_links k k1)|].
        { rewrite Hx; [done|]. intros ->. congruence. }
        eapply (keeps_free_tasks k Q ts ready rs); [apply HK|by left| |done|done].
        intros x [->|Hin]%elem_of_prio_insert; [eauto|by eapply kinv_ready_tasks].
      * by rewrite Hdt.
      * intros x (X & HX & HXs). destruct (decide (x = u)) as [->|Hne]; [by exists N|].
        rewrite Hx in HX by done. apply Hnm. by exists X.
      * by rewrite Hdt.
  - exists Y. rewrite Hx; [done|]. intros <-. simplify_eq. by destruct HYs as [?|[? _]]; congruence.
Qed.

(** What the other tasks see of it. *)
Lemma schedule_others u T m k Q rs ws ts : in_thread t k -> kinv k Q rs ws ts -> app_ok k Q ts ->
  reps m (<[ready := prio_insert (prio_at k) u rs]> Q) -> app_owner u = t -> tasks k !! u = Some T ->
  state T = TASK_INITIALIZED -> sig_alloc T = SIGF_SINGLE -> dom m = dom (links (heap k)) ->
  own_env t [u] k (scheduled_state u T m k) /\ others t k (scheduled_state u T m k).
Proof.
  intros Hit HK Ha Hm Hu HT Hs Hal Hd. destruct (it_state _ _ Hit) as (X & HX & HXs).
  assert (kept_mail k (scheduled_state u T m k)) as Hmail.
  { eapply kept_lists; [apply HK|exact Hm|apply Ha|done|]. intros l. apply kernel_insert. by left. }
  destruct (kept_open _ _ Hmail).
  assert (scheduled (state T) = false) as Hsf by by rewrite Hs.
  assert (u <> t) as Hne by (intros ->; congruence).
  assert (dom (<[u := set_state TASK_READY T]> (tasks k)) = dom (tasks k)) as Hdt
    by by apply dom_insert_lookup_L.
  split.
  - split; [|done|done| |done..].
    + intros a _ Hau%not_elem_of_cons. destruct Hau as [Hau _]. apply cell_env_same; [by split|].
      intros _. by apply lookup_insert_ne.
    + intros x (Y & HY & HYs). destruct (decide (x = u)) as [->|Hxu]; [congruence|].
      exists Y. simpl. by rewrite lookup_insert_ne.
  - apply (others_step t k _ X); try done; [apply Hit|by rewrite HXs| | |].
    + exists X. simpl. by rewrite lookup_insert_ne, HXs.
    + intros x Hxt. unfold other_task. simpl.
      destruct (decide (u = x)) as [->|Hux]; [right|left; by rewrite lookup_insert_ne].
      split; [done|]. split; [intros Y HY; congruence|].
      intros U' HU'. rewrite lookup_insert_eq in HU'. by simplify_eq.
    + intros a Hat. split_and!; [by eapply (same_links k _)|done|done].
Qed.

Lemma wpt_task_schedule k0 k u T N (P : Kernel -> unit -> Kernel -> Prop) :
  in_thread t k -> others t k0 k -> app_owner u = t -> tasks k !! u = Some T ->
  state T = TASK_INITIALIZED -> task_ok T -> sig_alloc T = SIGF_SINGLE ->
  nodes (heap k) !! u = Some N -> name N = Some (app_name u) ->
  (forall k', in_thread t k' -> own_env t [u] k k' -> (forall A, holds t k A -> holds t k' A) ->
    sched_task k' u -> P k' tt k') ->
  wpt t k0 (task_schedule u) k P.
Proof.
  intros Hit Ho Hu HT Hs Hok Hal HN Hname HP. unfold task_schedule.
  assert (scheduled (state T) = false) as Hsf by by rewrite Hs.
  eapply wpt_bind, wpt_task_verify; [done..|]. intros k1 Hit1 He1.
  eapply wpt_bind, wpt_disable; [done|by apply others_refl|]. intros k2 Hit2 _ He2.
  assert (env t k k2) as He by by eapply env_trans.
  destruct (own_task [] k k2 u T (env_own _ _ _ He) Hu) as [HT2 HN2]; [set_solver|done..|].
  rewrite HN in HN2.
  destruct (in_thread_kinv t k2 Hit2) as (Q & rs & ws & ts & X & HK & _ & Ha & _ & HX & HXs).
  pose proof (ki_tasks _ _ _ _ _ HK u T HT2) as [Hnd Hlk Hnz Hpl _]. rewrite Hs in Hpl.
  eapply wpt_run_bind, wp_upd_task; [exact HT2|].
  eapply wpt_run_bind, wp_list_step.
  { apply (enqueue_step (heap k2) Q (ki_reps _ _ _ _ _ HK) ready rs u); [apply HK|by split|done|].
    intros x. by apply (kinv_rs_nodes HK). }
  intros m Hm [Hd _]. set (k3 := scheduled_state u T m k2).
  match goal with |- wpt _ _ _ ?s _ => assert (s = lock k3) as -> by (by apply kernel_ext) end.
  pose proof (schedule_unsettled k2 Q rs ws ts u T N m Hit2 HK Ha HT2 Hs Hok HN2 Hname Hm Hd) as Hun.
  fold k3 in Hun.
  assert (id_nestcnt (lock k3) = 0) as Hn0.
  { simpl. by rewrite (qu_nest _ (it_quiescent _ _ Hit2)). }
  assert (unlock (lock k3) = k3) as Eu.
  { rewrite unlock_outer by done. apply kernel_ext; try reflexivity; simpl.
    - by rewrite (qu_mask _ (it_quiescent _ _ Hit2)).
    - by rewrite (qu_nest _ (it_quiescent _ _ Hit2)). }
  assert (u <> t) as Hne by (intros ->; congruence).
  assert (in_state k3 TASK_RUNNING t) as Hst3.
  { exists X. split; [|done]. simpl. by rewrite lookup_insert_ne. }
  destruct (schedule_others u T m k2 Q rs ws ts Hit2 HK Ha Hm Hu HT2 Hs Hal Hd) as [Hoe3 Ho3].
  apply wpt_enable_reschedule; [done|apply Hit2|by rewrite Eu|by rewrite Eu|rewrite Eu].
  intros k4 k5 [Hq4 Hr4 _ He4] Hk5. destruct Hst3 as (X3 & HX3 & HXs3).
  destruct (env_running t k3 k4 X3 HX3 HXs3 Hr4 He4) as (X4 & HX4 & HXs4 & _).
  assert (in_thread t k5) as Hit5.
  { eapply resumed_in_thread; [|exact Hk5]. by exists X4. }
  assert (own_env t [u] k3 k5) as Hoe5.
  { apply (own_env_mono t []); [|set_solver]. apply (own_env_trans t [] k3 k4); [apply He4|].
    apply (own_env_trans t [] k4 (set_pendsv true k4)); [by apply own_env_same|apply Hk5]. }
  apply HP; [done| | |].
  - apply (own_env_trans t [u] k k2); [eapply own_env_mono; [apply He|set_solver]|].
    by apply (own_env_trans t [u] k2 k3).
  - intros A HA%(fun H => holds_env _ _ _ _ H He). apply (holds_env t (set_pendsv true k4) k5); [|apply Hk5].
    change (holds t k4 A). apply (holds_env t k3 k4); [|done].
    destruct HA as (Y & HY & HYA). exists Y. simpl. rewrite lookup_insert_ne by done. done.
  - apply (oe_sched _ _ _ _ Hoe5). exists (set_state TASK_READY T). split; [|done].
    apply lookup_insert_eq.
Qed.

(** *** The running task changes its own priority *)

Lemma set_node_prio_nodes n pr k N : nodes (heap k) !! n = Some N ->
  nodes (heap (set_node_prio n pr k)) = <[n := mkNode (name N) pr]> (nodes (heap k)).
Proof.
  intros HN. simpl. apply map_eq. intros i. destruct (decide (i = n)) as [->|Hne].
  - by rewrite lookup_alter_eq, lookup_insert_eq, HN.
  - by rewrite lookup_alter_ne, lookup_insert_ne.
Qed.

(** Priorities are not part of what the application relies on. *)
Lemma app_ok_set_prio k Q ts n pr N : nodes (heap k) !! n = Some N -> app_ok k Q ts ->
  app_ok (set_node_prio n pr k) Q ts.
Proof.
  intros HN [Htm Hq (c & s & Hc & Hcs & Hne) Hname Hinj Hpo Hli Hsi].
  assert (forall x c, nodes (heap k) !! x = Some c ->
    exists c', nodes (heap (set_node_prio n pr k)) !! x = Some c' /\ name c' = name c) as Hnm.
  { intros x c0 Hc0. rewrite (set_node_prio_nodes n pr k N) by done.
    destruct (decide (n = x)) as [<-|Hnx].
    - rewrite lookup_insert_eq. simplify_eq. eauto.
    - rewrite lookup_insert_ne by done. eauto. }
  split; try done.
  - destruct (Hnm _ _ Hc) as (c' & Hc' & E). exists c', s. by rewrite E.
  - intros x Hx. destruct (Hname x Hx) as (cx & Hcx & E). destruct (Hnm _ _ Hcx) as (c' & Hc' & E').
    exists c'. by rewrite E'.
Qed.

(** The running task with another priority and a context switch pending. *)
Lemma in_thread_set_prio pr k : in_thread t k ->
  let k' := set_pendsv true (set_node_prio t pr k) in
  in_thread t k' /\ own_env t [] k k' /\ others t k k'.
Proof.
  intros Hit k'. pose proof Hit as [[Hm Hh Hn _ Hid] Hr Hst].
  destruct (in_thread_kinv t k Hit) as (Q & rs & ws & ts & T & HK & _ & Ha & _ & HT & HTs).
  pose proof (ki_tasks _ _ _ _ _ HK t T HT) as [[N HN] _ _ Hpl _]. rewrite HTs in Hpl.
  destruct Hpl as [_ Hun].
  assert (t ∉ rs) as Hnrs.
  { intros Hin. apply (Hun _ _ (ki_rs _ _ _ _ _ HK)). set_solver. }
  assert (forall a, unsched k a -> nodes (heap k') !! a = nodes (heap k) !! a) as Hnd.
  { intros a Hf. change (heap k') with (heap (set_node_prio t pr k)).
    rewrite (set_node_prio_nodes t pr k N) by done. apply lookup_insert_ne. intros <-.
    specialize (Hf T HT). by rewrite HTs in Hf. }
  assert (kept_mail k k') as Hml by done.
  destruct (kept_open k k' Hml).
  split_and!.
  - split; [split; try done| |]; [|done|by exists T].
    exists Q, rs, ws, ts. split_and!; [|by left|].
    + eapply kinv_frame; [..|by apply (kinv_set_prio k Q rs ws ts t pr)]; done.
    + by destruct (app_ok_set_prio k Q ts t pr N HN Ha).
  - split; try done. intros a _ _. destruct (cell_env_mail k k' a Hml) as (? & ? & ?).
    split; [done|constructor| |done..]. intros Hf. split; [done|]. by apply Hnd.
  - apply (others_step t k k' T); try done; [by rewrite HTs|exists T; by rewrite HTs|by left|].
    intros a _. by split_and!; [..|apply Hnd].
Qed.

Lemma wpt_set_prio_self k0 k pr (P : Kernel -> unit -> Kernel -> Prop) :
  in_thread t k -> others t k0 k ->
  (forall k', in_thread t k' -> own_env t [] k k' -> P k' tt k') ->
  wpt t k0 (task_set_prio t pr) k P.
Proof.
  intros Hit Ho HP. unfold task_set_prio.
  eapply wpt_bind, wpt_disable; [done..|]. intros k1 Hit1 _ He1.
  destruct (in_thread_kinv t k1 Hit1) as (Q & rs & ws & ts & T & HK & _ & _ & _ & HT & _).
  pose proof (ki_tasks _ _ _ _ _ HK t T HT) as [[N HN] _ _ _ _].
  destruct (in_thread_set_prio pr k1 Hit1) as (Hit2 & Hoe2 & Ho2).
  set (k2 := set_pendsv true (set_node_prio t pr k1)) in *.
  eapply wpt_run_bind, wp_upd_node; [exact HN|].
  eapply wpt_run_bind, wp_gets. simpl. rewrite (it_running _ _ Hit1), Z.eqb_refl.
  eapply wpt_bind, wpt_ret. cbv iota.
  eapply wpt_run_bind, wp_reschedule_calm; [done|].
  match goal with |- wpt _ _ _ ?s _ => assert (s = lock k2) as -> end.
  { apply kernel_ext; try done. simpl. f_equal. symmetry. by apply (set_node_prio_nodes t pr k1). }
  rewrite (lock_locked t k2) by done. eapply wpt_leave; [done|done|]. intros k3 Hit3 _ He3.
  apply HP; [done|]. do 2 (eapply own_env_trans; [apply He1 || done|]). apply He3.
Qed.
End create.
