(* ===== verification/ThreadLwip.v ===== *)
(** * lwIP's threads in thread code under preemption

    [sys_thread_new] of [lwip_martos/sys_arch.c] with the thread options of
    [lwip_martos/include/lwipopts.h].  lwIP's allocator is a parameter. *)

From S2P Require Import Prelude Heap Lists ListSpec Machine Logic Context Task.
From S2P Require Import Platform Timer SysArch TestPrograms Invariant Checker Demo TaskSpec.
From S2P Require Import SchedSpec ContextSpec BootSpec Signals TimerSpec Mail Rely AppChecker.
From S2P Require Import WaitSpec Threads TaskOps ThreadTasks.

(** ** [lwipopts.h] *)

Definition MEM_ALIGNMENT : Z := 4.
Definition TCPIP_THREAD_STACKSIZE : Z := 4096.
Definition TCPIP_THREAD_PRIO : Z := 32.
Definition DEFAULT_THREAD_STACKSIZE : Z := 4096.
Definition DEFAULT_THREAD_PRIO : Z := 8.
Definition MEM_SIZE : Z := 1600 + (TCPIP_THREAD_STACKSIZE + DEFAULT_THREAD_STACKSIZE).

(** Stack size and priority of the threads that lwIP creates. *)
Definition thread_options : list (Z * Z) :=
  [(TCPIP_THREAD_STACKSIZE, TCPIP_THREAD_PRIO); (DEFAULT_THREAD_STACKSIZE, DEFAULT_THREAD_PRIO)].

Section lwip.
Context `{AP : App} (t : addr).
Context (mem_malloc : Z -> M addr) (sizeof_Task : Z).

(** The allocator, called by [t] with [size], returns [a], and does no more to
    the kernel than the environment of [t] may. *)
Definition malloc_gives (size : Z) (a : addr) : Prop :=
  forall k0 k (P : Kernel -> addr -> Kernel -> Prop), in_thread t k -> others t k0 k ->
    (forall k1 k', in_thread t k' -> others t k1 k' -> own_env t [] k k' ->
      (forall A, holds t k A -> holds t k' A) -> P k1 a k') ->
    wpt t k0 (mem_malloc size) k P.

Lemma wpt_sys_thread_new k0 k u T stack size pr pc ud (P : Kernel -> addr -> Kernel -> Prop) :
  in_thread t k -> others t k0 k -> app_owner u = t -> tasks k !! u = Some T ->
  scheduled (state T) = false -> malloc_gives size stack -> malloc_gives sizeof_Task u ->
  stack <> NULL -> stack mod 4 = 0 -> size mod 4 = 0 -> sizeof_StackFrame <= size < 2 ^ 32 ->
  - 2 ^ 15 <= pr < 2 ^ 15 -> frame_mapped (words k) (stack + size - sizeof_StackFrame) ->
  (forall k', in_thread t k' -> own_env t [u] k k' -> (forall A, holds t k A -> holds t k' A) ->
    sched_task k' u -> P k' u k') ->
  wpt t k0 (sys_thread_new mem_malloc sizeof_Task (Some (app_name u)) pc ud size pr) k P.
Proof.
  intros Hit Ho Hu HT Hs Hm1 Hm2 Hz H1 H2 H3 Hpr Hmap HP. unfold sys_thread_new.
  rewrite (swrap_small 16 pr), (uwrap_small 32 size) by (unfold sizeof_StackFrame in *; simpl; lia).
  eapply wpt_bind, Hm1; [done..|]. intros k1 k2 Hit2 Ho2 Hoe2 Hh2.
  replace (NULL =? stack) with false by (symmetry; apply Z.eqb_neq; congruence). cbn [negb].
  eapply wpt_bind, Hm2; [done..|]. intros k3 k4 Hit4 Ho4 Hoe4 Hh4.
  assert (own_env t [] k k4) as Hoe by by eapply own_env_trans.
  destruct (own_task t [] k k4 u T Hoe Hu (not_elem_of_nil _) HT Hs) as [HT4 _].
  destruct (in_thread_kinv t k4 Hit4) as (Q & rs & ws & ts & X & HK & _).
  pose proof (twf_nonnull _ _ _ _ _ _ (ki_tasks _ _ _ _ _ HK u T HT4)) as Huz.
  replace (NULL =? u) with false by (symmetry; apply Z.eqb_neq; congruence). cbn [negb].
  eapply wpt_bind, (wpt_task_init t k3 k4 u T); try done; [lia| |].
  { eapply frame_mapped_dom; [|exact Hmap]. by rewrite (oe_words _ _ _ _ Hoe). }
  intros k5 k6 Hit6 Ho6 Hoe6 Hh6 HT6 HN6.
  eapply wpt_bind, (wpt_task_schedule t k5 k6 u _ _); [done|done|done|exact HT6|done| |done|exact HN6|done|].
  { apply new_task_ok. lia. }
  intros k7 Hit7 Hoe7 Hh7 Hs7. apply wpt_ret, HP; [done| |auto|done].
  apply (own_env_trans t [u] k k4); [eapply own_env_mono; [done|set_solver]|].
  by apply (own_env_trans t [u] k4 k6).
Qed.
End lwip.


(** ** The init task starts the tcpip thread *)

Definition demo_thread : addr := 536880128.
Definition demo_thread_stack : addr := 536891392.

(** The state behind [user_init] of the demo, with the memory that the allocator
    returns. *)
Definition demo_lwip : Kernel := Eval vm_compute in
  set_tasks (<[demo_thread := blank_task]> (tasks demo_ready))
    (set_words (list_to_map (frame_words demo_thread_stack 4096) ∪ words demo_ready)
      (set_heap (mkHeap (<[demo_thread := blank_min]> (links (heap demo_ready)))
        (<[demo_thread := blank_node]> (nodes (heap demo_ready)))) demo_ready)).

Definition lwip_App : App :=
  {| app_name t := if t =? init_task then "init"%string
       else if t =? demo_a then "a"%string
       else if t =? demo_b then "b"%string else "tcpip_thread"%string;
     app_owner _ := init_task;
     app_public _ := 0 |}.

#[local] Existing Instance lwip_App | 0.

Definition demo_malloc (size : Z) : M addr :=
  mret (if size =? TCPIP_THREAD_STACKSIZE then demo_thread_stack else demo_thread).

Lemma demo_malloc_gives size a : demo_malloc size = mret a ->
  malloc_gives init_task demo_malloc size a.
Proof.
  intros E k0 k P Hit Ho HP. rewrite E. apply wpt_ret, HP; [done|done| |done].
  by apply own_env_same.
Qed.

Lemma demo_lwip_kinv : kinv demo_lwip (demo_Q [demo_b; demo_a] []) [demo_b; demo_a] [] [].
Proof. check_kinv. Qed.

Lemma demo_lwip_thread : in_thread init_task demo_lwip.
Proof.
  split; [split; [reflexivity..| |]|reflexivity|].
  - eexists _, _, _, _. split_and!; [apply (kinv_forget _ _ _ _ _ demo_sem demo_lwip_kinv)| |check_app].
    { apply (bool_decide_unpack _). vm_compute. exact I. }
    left. reflexivity.
  - eexists. split; [vm_compute; reflexivity|]. right. split; reflexivity.
  - apply (bool_decide_unpack _). vm_compute. exact I.
Qed.

