(* ===== verification/System.v ===== *)
(** * The whole system: tasks, interrupts and the scheduler interleaved

    The processor executes the running task up to a point where interrupts are
    enabled; there the SysTick, the TIM2 or a pending PendSV exception may be
    taken, any number of times, before thread code goes on.  What every task
    keeps while it executes holds of every state the system can reach. *)

From S2P Require Import Prelude Heap Lists ListSpec Machine Logic Context Task.
From S2P Require Import Platform Timer Invariant Checker Demo TaskSpec SchedSpec.
From S2P Require Import Signals TimerSpec Mail Rely AppChecker WaitSpec Threads.

Section system.
Context `{AP : App}.

(** The application: [code t l] is one round of the main loop of task [t]
    with local variables [l]; it returns the local variables of the next. *)
Context {L : Type} (code : addr -> L -> M L).

(** The state of the kernel, and of each task the computation it is in. *)
Record Sys := mkSys { sk : Kernel; conts : addr -> Kernel -> Res L }.

Definition set_cont (t : addr) (f : Kernel -> Res L) (S : addr -> Kernel -> Res L) :
    addr -> Kernel -> Res L := fun t' => if decide (t' = t) then f else S t'.

Inductive step : Sys -> Sys -> Prop :=
| step_thread S k' f : interruptible (sk S) = true -> pendsv (sk S) = false ->
    conts S (running (sk S)) (sk S) = Preempt k' f ->
    step S (mkSys k' (set_cont (running (sk S)) f (conts S)))
| step_spin S k' : interruptible (sk S) = true -> pendsv (sk S) = false ->
    conts S (running (sk S)) (sk S) = Spin k' ->
    step S (mkSys k' (set_cont (running (sk S)) (fun k => Spin k) (conts S)))
| step_round S l k' : interruptible (sk S) = true -> pendsv (sk S) = false ->
    conts S (running (sk S)) (sk S) = Ret l k' ->
    step S (mkSys k' (set_cont (running (sk S)) (code (running (sk S)) l) (conts S)))
| step_SysTick S k' : interruptible (sk S) = true ->
    SysTick_exception (sk S) = Ret tt k' -> step S (mkSys k' (conts S))
| step_TIM2 S k' : interruptible (sk S) = true ->
    TIM2_exception (sk S) = Ret tt k' -> step S (mkSys k' (conts S))
| step_PendSV S T f a k' : interruptible (sk S) = true -> pendsv (sk S) = true ->
    tasks (sk S) !! running (sk S) = Some T -> frame_ok f T ->
    PendSV_exception f (sk S) = Ret a k' -> step S (mkSys k' (conts S)).

Inductive reachable (S0 : Sys) : Sys -> Prop :=
| reach_init : reachable S0 S0
| reach_step S1 S2 : reachable S0 S1 -> step S1 S2 -> reachable S0 S2.

(** What a task may rely on at the start of a round: stable under the
    environment. *)
Context (LI : addr -> L -> Kernel -> Prop).

(** The outcome of a round. *)
Definition round_post (t : addr) (k1 : Kernel) (l : L) (k : Kernel) : Prop :=
  in_thread t k /\ others t k1 k /\ LI t l k.

Definition code_safe : Prop := forall t l k, in_thread t k -> pendsv k = false ->
  LI t l k -> wpt t k (code t l) k (round_post t).

Definition LI_stable : Prop := forall t l k k', LI t l k -> env t k k' -> LI t l k'.

(** Task [t] will behave if it is resumed now: in a quiescent state, or in an
    unsettled one when it requests the context switch that is due next. *)
Definition cont_settled (k : Kernel) (t : addr) (f : Kernel -> Res L) : Prop :=
  exists snap, env t snap k /\ forall k', resumed t snap k' -> wptR t k' (f k') (round_post t).

Definition cont_resched (k : Kernel) (t : addr) (f : Kernel -> Res L) : Prop :=
  exists snap, env t snap k /\ resched_next f /\
    forall k', resumed_unsettled t snap k' -> wptR t k' (f k') (round_post t).

Definition cont_ok (k : Kernel) (t : addr) (f : Kernel -> Res L) : Prop :=
  cont_settled k t f \/ cont_resched k t f.

Record sys_inv (S : Sys) : Prop := mkSysInv {
  si_unsettled : unsettled (sk S);
  si_settled : quiescent (sk S) \/ cont_resched (sk S) (running (sk S)) (conts S (running (sk S)));
  si_conts : forall t, t ∈ dom (tasks (sk S)) -> cont_ok (sk S) t (conts S t) }.

(** ** The exceptions keep the invariant *)

(** The tasks behind a context switch: [t1] is switched in. *)
Lemma switched_task k f Q rs ws ts T k' u U : tasks k !! running k = Some T ->
  switched k f Q rs ws ts T k' -> tasks k !! u = Some U ->
  exists U', tasks k' !! u = Some U' /\
    sig_alloc U' = sig_alloc U /\ sig_wait U' = sig_wait U /\ sig_recvd U' = sig_recvd U /\
    (if decide (u = running k')
     then state U' = TASK_RUNNING /\ (state U = TASK_READY \/ state U = TASK_RUNNING)
     else state U' = state U \/ state U = TASK_RUNNING /\ state U' = TASK_READY).
Proof.
  intros HT [_ (X & HX & HXs & Etk) _ _ _ _ _ _] HU. rewrite Etk.
  assert (exists U1, <[running k := switched_out f T]> (tasks k) !! u = Some U1 /\
    sig_alloc U1 = sig_alloc U /\ sig_wait U1 = sig_wait U /\ sig_recvd U1 = sig_recvd U /\
    (state U1 = state U \/ state U = TASK_RUNNING /\ state U1 = TASK_READY))
    as (U1 & HU1 & E1 & E2 & E3 & Es).
  { destruct (decide (u = running k)) as [->|Hne].
    - rewrite lookup_insert_eq. eexists. split; [done|]. simplify_eq/=.
      split_and!; [done..|]. case_bool_decide; auto.
    - rewrite lookup_insert_ne by done. exists U. split_and!; auto. }
  case_decide as E; [subst u; rewrite lookup_insert_eq|rewrite lookup_insert_ne by done; eauto 10].
  simplify_eq. eexists. split; [done|]. split_and!; try done.
  destruct Es as [<-|[? _]]; auto.
Qed.

Lemma switched_unsched k f Q rs ws ts T k' u : tasks k !! running k = Some T ->
  scheduled (state T) = true -> switched k f Q rs ws ts T k' -> unsched k u ->
  tasks k' !! u = tasks k !! u.
Proof.
  intros HT Hs [_ (X & HX & HXs & Etk) _ _ _ _ _ _] Hu. rewrite Etk.
  assert (u <> running k) as H1 by (intros ->; specialize (Hu T HT); congruence).
  assert (u <> running k') as H2.
  { intros ->. rewrite lookup_insert_ne in HX by done. specialize (Hu X HX).
    by rewrite HXs in Hu. }
  by rewrite !lookup_insert_ne.
Qed.

Lemma switched_dom k f Q rs ws ts T k' : tasks k !! running k = Some T ->
  switched k f Q rs ws ts T k' -> dom (tasks k') = dom (tasks k).
Proof.
  intros HT [_ (X & HX & HXs & Etk) _ _ _ _ _ _].
  rewrite Etk, dom_insert_lookup_L by (by exists X). by apply dom_insert_lookup_L.
Qed.

Lemma switched_own k f Q rs ws ts T k' t : kinv k Q rs ws ts -> app_ok k Q ts ->
  tasks k !! running k = Some T ->
  scheduled (state T) = true -> switched k f Q rs ws ts T k' -> own_env t [] k k'.
Proof.
  intros HK Ha HT Hs Hsw.
  pose proof Hsw as [(rs' & _ & HK' & _) _ _ _ _ Hn (_ & Htm & _ & _ & Hpo & _ & Hw) Hl].
  assert (kept_mail k k') as Hm.
  { eapply kept_lists; [apply HK|apply HK'|apply Ha|done|]. intros l. apply kernel_insert. by left. }
  destruct (kept_open k k' Hm). split; [|by eapply switched_dom|by rewrite Hw| |done..].
  - intros a _ _. apply cell_env_same; [by split; rewrite ?Hw|]. by eapply switched_unsched.
  - intros u (U & HU & HUs).
    destruct (switched_task _ _ _ _ _ _ _ _ u U HT Hsw HU) as (U' & HU' & _ & _ & _ & Hst).
    exists U'. split; [done|]. case_decide; [by destruct Hst as [-> _]|].
    by destruct Hst as [->|[_ ->]].
Qed.

Lemma switched_env k f Q rs ws ts T k' t : kinv k Q rs ws ts -> app_ok k Q ts ->
  tasks k !! running k = Some T -> scheduled (state T) = true -> switched k f Q rs ws ts T k' -> env t k k'.
Proof.
  intros HK Ha HT Hs Hsw. split; [by eapply switched_own|]. intros U HU.
  destruct (switched_task _ _ _ _ _ _ _ _ t U HT Hsw HU) as (U' & HU' & Ea & Ew & Er & Hst).
  exists U'. split; [done|].
  assert (scheduled (state U) = false -> U' = U) as Hun.
  { intros Hf. assert (unsched k t) as Hu by (intros V HV; congruence).
    pose proof (switched_unsched _ _ _ _ _ _ _ _ t HT Hs Hsw Hu). congruence. }
  split.
  - intros HUs. split; try done; [by rewrite Er, Z.land_diag|by rewrite Er; left|..].
    all: case_decide as E; [destruct Hst as [E' [E2|E2]]|destruct Hst as [E'|[E2 E']]];
      rewrite ?E', ?E2; try done.
  - intros Hf Hf'. rewrite Hun in Hf' by done. congruence.
  - intros <- _. by rewrite decide_True in Hst by done; destruct Hst.
  - intros <- _. right. by rewrite decide_True in Hst by done; destruct Hst.
Qed.

(** An event that changes no task but in the ways [env] allows. *)
Record env_event (k k' : Kernel) : Prop := mkEnvEvent {
  ev_unsettled : unsettled k';
  ev_settled : quiescent k -> quiescent k';
  ev_running : quiescent k' \/ running k' = running k;
  ev_env : forall t, env t k k' }.

Lemma pendsv_event k T f : quiescent k -> tasks k !! running k = Some T -> frame_ok f T ->
  exists a k', PendSV_exception f k = Ret a k' /\ env_event k k'.
Proof.
  intros [Hm Hh Hn (Q & rs & ws & ts & HK & Hs & Ha) Hi] HT Hf.
  assert (run (PendSV_exception f) k (fun _ k' => switched k f Q rs ws ts T k')) as
    (a & k' & E & Hsw).
  { apply wp_run. by eapply wp_pendsv. }
  destruct (ki_running _ _ _ _ _ HK) as (T0 & HT0 & HTs). simplify_eq.
  exists a, k'. split; [done|].
  pose proof (fun t => switched_env _ _ _ _ _ _ _ _ t HK Ha HT HTs Hsw) as He.
  pose proof (switched_idle _ _ _ _ _ _ _ _ HT Hi Hsw) as Hi'.
  pose proof (switched_dom _ _ _ _ _ _ _ _ HT Hsw) as Hd.
  pose proof (fun u => switched_unsched _ _ _ _ _ _ _ _ u HT HTs Hsw) as Hun.
  assert (quiescent k') as Hq.
  { destruct Hsw as [(rs' & Hc & HK' & Hh') Htk (H1 & H2 & H3) Hp _ Hnd (_ & Htm & _ & _ & Hpo & _) Hl].
    split; [done..| |done]. eexists _, rs', ws, ts. split; [exact HK'|]. split; [by right|].
    eapply (app_ok_step k k' Q _ ts ts Ha); try done.
    - intros b X. rewrite Htm. eauto.
    - eapply keeps_free_tasks; [apply HK|by left|]. intros x Hx.
      destruct (kinv_ready_tasks _ _ _ _ _ x HK' Hx) as [V HV].
      apply elem_of_dom. rewrite <- Hd. apply elem_of_dom. eauto.
    - intros u (V & HV & HVs). destruct (tasks k !! u) as [U|] eqn:HU.
      + exists U. split; [done|]. destruct (scheduled (state U)) eqn:HUs; [done|].
        assert (unsched k u) as Hu by (intros W HW; congruence).
        specialize (Hun u Hu). congruence.
      + apply not_elem_of_dom in HU. rewrite <- Hd in HU. apply not_elem_of_dom in HU. congruence.
    - apply (He 0). }
  split; [by apply quiescent_unsettled|done|by left|done].
Qed.

(** The tick of the round-robin clock. *)
Lemma systick_takes k : handler k = false -> run SysTick_exception k (fun _ k' =>
  k' = set_elapsed (elapsed k') (set_pendsv (pendsv k') k) /\ (pendsv k = true -> pendsv k' = true)).
Proof.
  intros Hh. apply wp_run. unfold SysTick_exception, exception, SysTick_Handler.
  eapply wp_bind, wp_modify, wp_bind, wp_bind, wp_gets, wp_bind, wp_modify.
  eapply wp_bind, wp_gets. case_bool.
  - eapply wp_modify, wp_bind, wp_modify, wp_ret.
    split; [apply kernel_ext; try reflexivity; symmetry; exact Hh|done].
  - eapply wp_ret, wp_bind, wp_modify, wp_ret.
    split; [apply kernel_ext; try reflexivity; symmetry; exact Hh|done].
Qed.

Lemma systick_event k : unsettled k ->
  exists k', SysTick_exception k = Ret tt k' /\ env_event k k'.
Proof.
  intros Hu. destruct (systick_takes k) as ([] & k' & E & Ek & Hp); [apply Hu|].
  assert (forall b e k0, quiescent k0 -> (pendsv k0 = true -> b = true) ->
    quiescent (set_elapsed e (set_pendsv b k0))) as Hq.
  { intros b e k0 [Hm Hh Hn (Q & rs & ws & ts & HK & Hs & Ha) Hi] Hb. split; try done.
    exists Q, rs, ws, ts. split; [by eapply kinv_frame; [..|exact HK]|]. split; [|by destruct Ha].
    destruct Hs as [Hs|Hs]; [left; by apply Hb|by right]. }
  exists k'. split; [done|]. rewrite Ek. split.
  - exact (Hq true (elapsed k') (set_pendsv true k) Hu (fun _ => eq_refl)).
  - intros H. by apply Hq.
  - by right.
  - intros t. by apply env_same.
Qed.

Lemma polled_app k Q rs ws now ts k' : kinv k Q rs ws ts -> app_ok k Q ts ->
  polled k Q rs now ts k' -> exists Q' rs' ws', kinv k' Q' rs' ws' (unexpired k now ts) /\
    (sched_ok k rs -> sched_ok k' rs') /\ app_ok k' Q' (unexpired k now ts).
Proof.
  intros HK Ha Hpl. pose proof (polled_env _ _ _ _ _ _ _ 0 HK Ha Hpl) as He.
  destruct Hpl as [(Q' & rs' & ws' & HK' & Hs' & Hf) _ Ht' Htm Hl [_ _ Hn' _ _ _ (_ & _ & Hp' & _)]].
  exists Q', rs', ws'. split_and!; [done..|].
  eapply (app_ok_step k k' Q Q' ts); try done; [apply He|..].
  - intros a X'. rewrite Htm, all_done_lookup. intros (X & HX & ->)%fmap_Some.
    exists X. split; [done|]. by case_bool_decide.
  - intros a Hx%list_elem_of_filter. apply Hx.
  - intros u (V & HV & HVs). destruct (tasks k !! u) as [U|] eqn:HU.
    + destruct (deliver_all_roused (timer_objs k) (expired k now ts) _ u U HU)
        as (U' & HU' & Hro%roused_sched).
      exists U. split; [done|]. rewrite Ht' in HV. simplify_eq. congruence.
    + apply elem_of_dom_2 in HV. rewrite Ht', deliver_all_dom in HV. by apply not_elem_of_dom in HU.
  - apply He.
Qed.

Lemma tim2_event k : unsettled k ->
  exists k', TIM2_exception k = Ret tt k' /\ env_event k k'.
Proof.
  intros [Hm Hh Hn (Q & rs & ws & ts & HK & _ & Ha) Hi]. simpl in *.
  set (now := uwrap 32 (timer_now k + 1)). set (k1 := set_timer_now now k).
  assert (kinv k1 Q rs ws ts) as HK1 by (by eapply kinv_frame; [..|exact HK]).
  assert (run TIM2_exception k (fun _ k' => polled k1 Q rs now ts k')) as ([] & k' & E & Hpl).
  { apply wp_run. eapply wp_TIM2_exception; try done. by eapply kinv_frame; [..|exact HK]. }
  assert (app_ok k1 Q ts) as Ha1 by by destruct Ha.
  assert (forall t, env t k1 k') as He by (intros t; by eapply polled_env).
  exists k'. split; [done|].
  destruct (polled_app _ _ _ _ _ _ _ HK1 Ha1 Hpl) as (Q' & rs' & ws' & HK' & Hs' & Ha').
  destruct Hpl as [_ Hi' _ _ _ [(H1 & H2 & H3) Hr' _ _ _ _]].
  split.
  - split; simpl; [by rewrite ?H1, ?H2, ?H3..| |done]. exists Q', rs', ws', (unexpired k1 now ts).
    split_and!; [by eapply kinv_frame; [..|exact HK']|by left|by destruct Ha'].
  - intros [_ _ _ (Q0 & rs0 & ws0 & ts0 & HK0 & Hs0 & Ha0) _].
    split; [by rewrite ?H1, ?H2, ?H3..| |done]. exists Q', rs', ws', (unexpired k1 now ts).
    split_and!; [done| |done]. apply Hs'.
    destruct Hs0 as [Hs0|Hs0]; [by left|right]. intros u Hu. apply Hs0.
    destruct (ki_ready _ _ _ _ _ HK1 u Hu) as (U & HU & HUs).
    pose proof (kinv_task_place HK0 u U HU) as Hp. by rewrite HUs in Hp.
  - by right.
  - intros t. eapply env_trans; [|apply He]. by apply env_same.
Qed.

(** ** Every step keeps the invariant *)

Lemma cont_ok_env k k' t f : cont_ok k t f -> env t k k' -> cont_ok k' t f.
Proof.
  intros [(snap & He & Hf)|(snap & He & Hr & Hf)] He'; [left|right];
    exists snap; (split; [by eapply env_trans|done]).
Qed.

Lemma event_inv S k' : sys_inv S -> env_event (sk S) k' -> sys_inv (mkSys k' (conts S)).
Proof.
  intros [Hu Hs Hc] [Hu' Hq Hr He]. split; [done| |]; simpl.
  - destruct Hs as [Hs|(snap & Hsn & Hsf)]; [left; auto|].
    destruct Hr as [?|Hr]; [by left|right]. rewrite Hr.
    exists snap. split; [by eapply env_trans|done].
  - intros t Ht. rewrite (oe_dom _ _ _ _ (env_own _ _ _ (He t))) in Ht.
    eapply cont_ok_env; [by apply Hc|apply He].
Qed.

(** The running task goes on from [k'] with [f]. *)
Lemma thread_inv S k' f : sys_inv S -> unsettled k' ->
  others (running (sk S)) (sk S) k' ->
  quiescent k' /\ cont_settled k' (running (sk S)) f \/
    running k' = running (sk S) /\ cont_resched k' (running (sk S)) f ->
  sys_inv (mkSys k' (set_cont (running (sk S)) f (conts S))).
Proof.
  intros [_ _ Hc] Hu [He Hd] Hf. split; [done| |]; simpl.
  - destruct Hf as [[? _]|[Hr Hf]]; [by left|right].
    unfold set_cont. by rewrite Hr, decide_True.
  - intros t Ht. unfold set_cont. case_decide as E.
    + subst t. destruct Hf as [[_ ?]|[_ ?]]; [by left|by right].
    + rewrite Hd in Ht. eapply cont_ok_env; [by apply Hc|by apply He].
Qed.

Lemma unsettled_running k : unsettled k -> sched_task k (running k).
Proof.
  intros [_ _ _ (Q & rs & ws & ts & HK & _) _].
  destruct (ki_running _ _ _ _ _ HK) as (T & HT & Hs). by exists T.
Qed.

(** With a context switch pending, an unsettled state is quiescent. *)
Lemma unsettled_pending k : unsettled k -> pendsv k = true -> quiescent k.
Proof.
  intros Hu Hp. assert (set_pendsv true k = k) as <-; [|done].
  apply kernel_ext; try reflexivity. by rewrite Hp.
Qed.

(** What the running task does when nothing interrupts it. *)
Lemma running_safe S : sys_inv S -> pendsv (sk S) = false ->
  wptR (running (sk S)) (sk S) (conts S (running (sk S)) (sk S)) (round_post (running (sk S))).
Proof.
  intros [Hu Hs Hc] Hp. destruct (unsettled_running _ Hu) as (T & HT & _).
  assert (cont_resched (sk S) (running (sk S)) (conts S (running (sk S))) ->
    wptR (running (sk S)) (sk S) (conts S (running (sk S)) (sk S)) (round_post (running (sk S)))) as Hr.
  { intros (snap & He & _ & Hf). by apply Hf. }
  destruct Hs as [Hq|?]; [|auto].
  destruct (Hc (running (sk S))) as [(snap & He & Hf)|?]; [|by apply Hf|auto].
  apply elem_of_dom. eauto.
Qed.

Context (Hsafe : code_safe) (Hstable : LI_stable).

Lemma settled_cont k t f : (forall k', resumed t k k' -> wptR t k' (f k') (round_post t)) ->
  cont_settled k t f.
Proof. intros Hf. exists k. split; [apply env_refl|done]. Qed.

Lemma step_inv S S' : sys_inv S -> step S S' -> sys_inv S'.
Proof.
  intros HS Hstep. pose proof (si_unsettled _ HS) as Hu.
  destruct Hstep as [S k' f Hi Hp E|S k' Hi Hp E|S l k' Hi Hp E|S k' Hi E|S k' Hi E
    |S T f a k' Hi Hp HT Hf E].
  1-3: pose proof (running_safe S HS Hp) as Hr; rewrite E in Hr; simpl in Hr.
  - destruct Hr as (Ho & [(Hq & Hf)|(Hrun & Hq & Hrs & Hf)]).
    + apply thread_inv; [done|by apply quiescent_unsettled|done|left]. split; [done|].
      by apply settled_cont.
    + apply thread_inv; [done..|right]. split; [done|]. exists k'. split; [apply env_refl|done].
  - destruct Hr as [Hq Ho]. apply thread_inv; [done|by apply quiescent_unsettled|done|left].
    split; [done|]. apply settled_cont.
    intros k1 [Hq1 Hr1 _ _]. simpl. split; [done|]. apply others_same; [done| |done|done].
    rewrite <- Hr1. by apply unsettled_running, quiescent_unsettled.
  - destruct Hr as (Hit & Ho & Hl). pose proof (it_quiescent _ _ Hit) as Hq.
    apply thread_inv; [done|by apply quiescent_unsettled|done|left]. split; [done|].
    apply settled_cont. intros k1 Hk1. apply Hsafe; [|apply Hk1|].
    + eapply resumed_in_thread; [|exact Hk1]. apply Hit.
    + eapply Hstable; [exact Hl|apply Hk1].
  - destruct (systick_event _ Hu) as (k1 & E1 & Hev). rewrite E in E1. simplify_eq.
    by apply event_inv.
  - destruct (tim2_event _ Hu) as (k1 & E1 & Hev). rewrite E in E1. simplify_eq.
    by apply event_inv.
  - destruct (pendsv_event (sk S) T f) as (a1 & k1 & E1 & Hev); [by apply unsettled_pending|done..|].
    rewrite E in E1. simplify_eq. by apply event_inv.
Qed.

Lemma reachable_inv S0 S : sys_inv S0 -> reachable S0 S -> sys_inv S.
Proof. intros H0. induction 1; [done|]. by eapply step_inv. Qed.

(** The start: every task is at the beginning of its first round. *)
Record initial (S : Sys) (l0 : addr -> L) : Prop := mkInitial {
  in_quiescent : quiescent (sk S);
  in_running : in_state (sk S) TASK_RUNNING (running (sk S));
  in_conts : conts S = fun t => code t (l0 t);
  in_locals : forall t, LI t (l0 t) (sk S) }.

Lemma initial_inv S l0 : initial S l0 -> sys_inv S.
Proof.
  intros [Hq (R & HR & HRs) Hc Hl]. split; [by apply quiescent_unsettled|by left|].
  intros t [T HT]%elem_of_dom. left. apply settled_cont. rewrite Hc.
  intros k' Hk'. apply Hsafe; [|apply Hk'|].
  - split; [apply Hk'..|]. destruct (env_self _ _ _ (res_env _ _ _ Hk') T HT) as (T' & HT' & He).
    exists T'. split; [done|]. apply (env_stay _ _ _ _ _ He); [apply Hk'|].
    destruct (decide (running (sk S) = t)) as [<-|]; [left; by simplify_eq|by right].
  - eapply Hstable; [apply Hl|apply Hk'].
Qed.

(** ** What the invariant gives *)

(** Interrupts are enabled and the kernel invariant holds; the running task is of
    the highest priority among the tasks that are ready, or a context switch is
    pending, or the running task requests it next; the running task does not fail;
    every interrupt handler runs to its end. *)
Definition safe_state (S : Sys) : Prop :=
  interruptible (sk S) = true /\
  (exists Q rs ws ts, kinv (sk S) Q rs ws ts /\
    (pendsv (sk S) = true \/
     (forall t, t ∈ rs -> prio_at (sk S) t <= prio_at (sk S) (running (sk S))) \/
     resched_next (conts S (running (sk S))))) /\
  (pendsv (sk S) = false -> match conts S (running (sk S)) (sk S) with
    | Fault | NoFuel => False
    | Spin k | Preempt k _ | Ret _ k => interruptible k = true
    end) /\
  (exists k', SysTick_exception (sk S) = Ret tt k') /\
  (exists k', TIM2_exception (sk S) = Ret tt k') /\
  (pendsv (sk S) = true -> forall T f, tasks (sk S) !! running (sk S) = Some T -> frame_ok f T ->
    exists a k', PendSV_exception f (sk S) = Ret a k').

Lemma sys_inv_safe S : sys_inv S -> safe_state S.
Proof.
  intros HS. pose proof HS as [Hu Hs _]. split_and!.
  - by apply unsettled_interruptible.
  - destruct Hs as [Hq|(snap & _ & Hr & _)].
    + destruct (qu_inv _ Hq) as (Q & rs & ws & ts & HK & [?|?] & _); exists Q, rs, ws, ts; auto.
    + destruct (qu_inv _ Hu) as (Q & rs & ws & ts & HK & _). exists Q, rs, ws, ts.
      split; [by eapply kinv_frame; [..|exact HK]|auto].
  - intros Hp. pose proof (running_safe S HS Hp) as Hr.
    destruct (conts S (running (sk S)) (sk S)) as [l k|k| | |k f]; simpl in Hr; try done.
    + destruct Hr as ([] & _). by apply quiescent_interruptible.
    + by apply quiescent_interruptible, Hr.
    + destruct Hr as (_ & [[? _]|(_ & ? & _)]);
        [by apply quiescent_interruptible|by apply unsettled_interruptible].
  - destruct (systick_event _ Hu) as (k' & E & _). eauto.
  - destruct (tim2_event _ Hu) as (k' & E & _). eauto.
  - intros Hp T f HT Hf.
    destruct (pendsv_event (sk S) T f (unsettled_pending _ Hu Hp) HT Hf) as (a & k' & E & _). eauto.
Qed.

Lemma reachable_safe S0 l0 S : initial S0 l0 -> reachable S0 S -> safe_state S.
Proof.
  intros Hin Hreach. apply sys_inv_safe. eapply reachable_inv; [by eapply initial_inv|done].
Qed.
End system.

(** C1. Safety of the whole system, and the scheduling contract of the README.
    If the code of every task is safe, then in every state the system reaches
    from a proper start, by any interleaving of thread code, tick interrupts,
    clock interrupts and context switches: interrupts are enabled; the kernel
    invariant holds; the running task has a priority at least as high as every
    other task ready for execution, or a context switch is pending, or the
    running task is about to request one; the running task does not run into
    undefined behaviour, a failing assertion or more re-blockings than it was
    proved to need; and every interrupt handler runs to its end, the scheduler
    for every frame within the stack of the running task. *)
Theorem system_safe `{AP : App} {L} (code : addr -> L -> M L) (LI : addr -> L -> Kernel -> Prop) S0 l0 S :
  code_safe code LI -> LI_stable LI -> initial code LI S0 l0 -> reachable code S0 S ->
  interruptible (sk S) = true /\
  (exists Q rs ws ts, kinv (sk S) Q rs ws ts /\
    (pendsv (sk S) = true \/
     (forall t, t ∈ rs -> prio_at (sk S) t <= prio_at (sk S) (running (sk S))) \/
     resched_next (conts S (running (sk S))))) /\
  (pendsv (sk S) = false -> match conts S (running (sk S)) (sk S) with
    | Fault | NoFuel => False
    | Spin k | Preempt k _ | Ret _ k => interruptible k = true
    end) /\
  (exists k', SysTick_exception (sk S) = Ret tt k') /\
  (exists k', TIM2_exception (sk S) = Ret tt k') /\
  (pendsv (sk S) = true -> forall T f, tasks (sk S) !! running (sk S) = Some T -> frame_ok f T ->
    exists a k', PendSV_exception f (sk S) = Ret a k').
Proof.
  intros Hsafe Hst Hin Hreach. exact (reachable_safe code LI Hsafe Hst S0 l0 S Hin Hreach).
Qed.

(** ** An application *)

(** [a] signals [b] again and again; [b] waits for the signal; the init task
    idles. *)
Definition demo_code (t : addr) (l : unit) : M unit :=
  if t =? demo_a then signal_send demo_b 8
  else if t =? demo_b then _ ← signal_wait 2 8; mret tt
  else spin.

Definition demo_LI (t : addr) (l : unit) (k : Kernel) : Prop := sched_task k demo_b.

Lemma demo_code_safe : code_safe demo_code demo_LI.
Proof.
  intros t [] k Hit Hp Hl. unfold demo_code.
  pose proof (others_refl t k Hit) as Ho.
  assert (is_signals 8) as H8 by (split; [lia|reflexivity]).
  destruct (t =? demo_a); [|destruct (t =? demo_b) eqn:E; norm_bool].
  - eapply wpt_signal_send; try done. intros k' Hit' Hp' He'.
    split; [done|]. split; [by apply others_refl|].
    by apply (oe_sched _ _ _ _ (env_own _ _ _ He')).
  - destruct (in_thread_lookup t k Hit) as [T HT].
    eapply wpt_bind, wpt_signal_wait; [by subst|done|done|exact HT|done|].
    intros rcvd k' T' Hit' Hp' HT' [He' _]. apply wpt_ret.
    split; [done|]. split; [by apply others_refl|]. by apply (oe_sched _ _ _ _ He').
  - split; [apply Hit|done].
Qed.

Lemma demo_LI_stable : LI_stable demo_LI.
Proof. intros t l k k' Hl [He _]. by apply (oe_sched _ _ _ _ He). Qed.

Definition demo_sys : Sys := mkSys demo_running (fun t => demo_code t tt).

Lemma demo_sys_initial : initial demo_code demo_LI demo_sys (fun _ => tt).
Proof.
  split; [apply demo_running_thread|apply demo_running_thread|reflexivity|].
  intros t. exists demo_b_task. split; vm_compute; reflexivity.
Qed.

(** The demo application stays safe behind a tick. *)
Lemma system_safe_witness : exists S k',
  reachable demo_code demo_sys S /\ elapsed (sk S) = 3 /\ TIM2_exception (sk S) = Ret tt k'.
Proof.
  set (S1 := mkSys (set_elapsed 3 demo_running) (conts demo_sys)).
  assert (reachable demo_code demo_sys S1) as Hr.
  { eapply reach_step; [apply reach_init|]. apply step_SysTick; vm_compute; reflexivity. }
  destruct (system_safe demo_code demo_LI demo_sys (fun _ => tt) S1 demo_code_safe
    demo_LI_stable demo_sys_initial Hr) as (_ & _ & _ & _ & (k' & E) & _).
  exists S1, k'. split; [exact Hr|]. split; [reflexivity|exact E].
Defined.
