(* ===== verification/TestSystem.v ===== *)
(** * The message test as a whole system ([src/test_message/test_message.c])

    Start-up, the init task with [user_init] of [test_common.c], the task it
    creates and the task that one creates, run under every interleaving with the
    interrupts and the scheduler. *)

From S2P Require Import Prelude Heap Lists ListSpec Machine Logic Context Task.
From S2P Require Import Platform Timer Init TestPrograms Invariant Checker Demo TaskSpec SchedSpec.
From S2P Require Import ContextSpec BootSpec Signals TimerSpec Rely AppChecker WaitSpec Threads.
From S2P Require Import ThreadTimers TaskOps ThreadTasks System.

(** Where the variable [timer] of [timer_delay] is on the stack of a task. *)
Definition timer_slot (t : addr) : addr :=
  if t =? test_task then test_task_stack + 920 else t2_stack + 920.

(** The init task creates [test_task], which creates [t2]; each of the two has its
    timer; no task sends signals to another. *)
Definition message_App : App :=
  {| app_name t := if t =? init_task then "init"%string
       else if t =? test_task then "test"%string else "t2"%string;
     app_owner a := if bool_decide (a ∈ [t2; timer_slot test_task]) then test_task
       else if a =? timer_slot t2 then t2 else init_task;
     app_public _ := 0 |}.

#[local] Existing Instance message_App | 0.

(** The init task behind [timer_init]. *)
Definition init_task_rest (user_init : M unit) : M unit :=
  task_set_prio init_task TASK_PRIO_MIN;; user_init;; spin.

Lemma init_task_f_rest user_init : init_task_f user_init = (timer_init;; init_task_rest user_init).
Proof. done. Qed.

Section system.
Context (GPIO_ToggleBits : Z -> M unit) (GPIO_Pin_12 GPIO_Pin_13 : Z).

(** What the stack of a task holds in its [n]th round where the variable of the
    first ([b] is false) and the second call of [timer_delay] is. *)
Context (stack_var : addr -> nat -> bool -> TimerVar).

(** One round of each task; [fuel] bounds how often [signal_wait] blocks. *)
Definition message_code (fuel : nat) (t : addr) (n : nat) : M nat :=
  if t =? init_task then
    init_task_rest user_init;; mret n
  else if t =? test_task then
    match n with
    | O => test_task_f_start;; mret 1%nat
    | S _ => test_task_f_round GPIO_ToggleBits GPIO_Pin_12 fuel
        (stack_var t n false) (stack_var t n true);; mret (S n)
    end
  else if t =? t2 then
    t2_f_round GPIO_ToggleBits GPIO_Pin_13 fuel
      (stack_var t n false) (stack_var t n true);; mret (S n)
  else spin.

(** The driver toggles the pins of an LED and touches no memory of the kernel. *)
Definition toggles : Prop := forall pin k, GPIO_ToggleBits pin k = Ret tt k.

Definition stack_vars_ok : Prop := forall t n b,
  tv_addr (stack_var t n b) = timer_slot t /\ status (tv_fields (stack_var t n b)) <> TIMER_ADDED.

(** ** What each task relies on *)

(** The task may call [timer_delay]. *)
Record may_delay (t : addr) (k : Kernel) : Prop := mkMayDelay {
  md_slot : absent k (timer_slot t);
  md_idle : forall a X, app_owner a = t -> timer_objs k !! a = Some X -> status X <> TIMER_ADDED;
  md_alloc : forall T, tasks k !! t = Some T -> scheduled (state T) = true -> sig_alloc T = SIGF_SINGLE;
  md_ports : forall p, app_owner p = t -> ports k !! p = None }.

Lemma no_ports t S k k' : own_env t S k k' -> (forall p, app_owner p = t -> ports k !! p = None) ->
  forall p, app_owner p = t -> ports k' !! p = None.
Proof.
  intros Ho Hp p Hpo. apply not_elem_of_dom. rewrite (oe_ports _ _ _ _ Ho).
  by apply not_elem_of_dom, Hp.
Qed.

(** The task at [u] may be created. *)
Record may_create (u stack : addr) (k : Kernel) : Prop := mkMayCreate {
  mc_task : exists T, tasks k !! u = Some T /\ scheduled (state T) = false;
  mc_stack : frame_mapped (words k) (stack + TEST_STACK_SIZE - sizeof_StackFrame) }.

Definition message_LI (t : addr) (n : nat) (k : Kernel) : Prop :=
  (t = init_task -> may_create test_task test_task_stack k) /\
  (t = test_task -> n = O -> may_create t2 t2_stack k) /\
  (t = test_task \/ t = t2 -> may_delay t k).

Lemma slot_owner t : t = test_task \/ t = t2 -> app_owner (timer_slot t) = t /\ timer_slot t <> NULL.
Proof. intros [->| ->]; split; (reflexivity || discriminate). Qed.

Lemma may_create_own t u stack S k k' : own_env t S k k' -> app_owner u = t -> u ∉ S ->
  may_create u stack k -> may_create u stack k'.
Proof.
  intros Ho Hu HS [(T & HT & Hs) Hm]. split.
  - exists T. by destruct (own_task t S k k' u T Ho Hu HS HT Hs) as [-> _].
  - eapply frame_mapped_dom; [apply Ho|done].
Qed.

Lemma idle_own t S k k' : own_env t S k k' ->
  (forall a, a ∈ S -> timer_objs k' !! a = None) ->
  (forall a X, app_owner a = t -> timer_objs k !! a = Some X -> status X <> TIMER_ADDED) ->
  forall a X, app_owner a = t -> timer_objs k' !! a = Some X -> status X <> TIMER_ADDED.
Proof.
  intros Ho HS Hi a X Ha HX Hs. destruct (decide (a ∈ S)) as [Hin|Hni].
  - specialize (HS a Hin). congruence.
  - apply (Hi a X Ha); [|done]. by eapply own_timer_back.
Qed.

Lemma may_delay_env t k k' : t = test_task \/ t = t2 -> env t k k' -> may_delay t k -> may_delay t k'.
Proof.
  intros Ht [Ho He] [Hs Hi Ha Hp]. destruct (slot_owner t Ht) as [Hsl _].
  split; [..|by eapply no_ports].
  - eapply absent_own; [exact Hsl|apply not_elem_of_nil|done|done].
  - eapply idle_own; [done|set_solver|done].
  - intros T' HT' Hs'. destruct (tasks k !! t) as [T|] eqn:HT.
    + destruct (He T eq_refl) as (T1 & HT1 & [Hl Hb _ _]). simplify_eq.
      destruct (scheduled (state T)) eqn:HsT; [|auto].
      rewrite (env_alloc _ _ _ _ _ (Hl eq_refl)). auto.
    + apply not_elem_of_dom in HT. rewrite <- (oe_dom _ _ _ _ Ho) in HT.
      apply not_elem_of_dom in HT. congruence.
Qed.

Lemma message_LI_stable : LI_stable message_LI.
Proof.
  intros t n k k' (H1 & H2 & H3) He. pose proof He as [Ho _]. split_and!.
  - intros Ht. apply (may_create_own t _ _ [] k); [exact Ho|by subst|set_solver|auto].
  - intros Ht Hn. apply (may_create_own t _ _ [] k); [exact Ho|by subst|set_solver|auto].
  - intros Ht. apply (may_delay_env t k k'); auto.
Qed.

(** ** The tasks are safe *)

Context (Hgpio : toggles) (Hvars : stack_vars_ok).

Lemma wpt_toggle {A} t k0 pin (f : unit -> M A) k Q :
  wpt t k0 (f tt) k Q -> wpt t k0 (GPIO_ToggleBits pin ≫= f) k Q.
Proof.
  intros H. eapply wpt_run_bind. unfold wp. by rewrite Hgpio.
Qed.

Lemma may_delay_ok t k T : in_thread t k -> tasks k !! t = Some T -> may_delay t k -> delay_ok t k T.
Proof.
  intros Hit HT [_ Hi Ha Hp].
  assert (sig_alloc T = SIGF_SINGLE) as E.
  { apply Ha; [done|]. by rewrite (in_thread_task t k T Hit HT). }
  split; rewrite E; [|by exists 1]. intros i _. split; [apply Z.bits_0|].
  split.
  - intros a X Hao HX Hs. by destruct (Hi a X).
  - intros p P Hpo [HP _]. by rewrite Hp in HP.
Qed.

Lemma wpt_delay fuel t k0 k n b ticks (P : Kernel -> unit -> Kernel -> Prop) :
  t = test_task \/ t = t2 -> in_thread t k -> others t k0 k -> may_delay t k ->
  (forall k1 k', in_thread t k' -> others t k1 k' -> may_delay t k' -> P k1 tt k') ->
  wpt t k0 (timer_delay (S (S fuel)) (stack_var t n b) ticks) k P.
Proof.
  intros Ht Hit Ho Hmd HP. destruct (slot_owner t Ht) as [Hsl Hz].
  destruct (Hvars t n b) as [Ea Hg]. destruct (in_thread_lookup t k Hit) as [T HT].
  eapply (wpt_timer_delay t fuel k0 k _ ticks T); rewrite ?Ea; try done.
  - by destruct Ht as [->| ->].
  - apply Hmd.
  - by apply may_delay_ok.
  - intros k1 k' T' Hit' Ho' Hoe Hab HT' Hal _. apply HP; [done|done|]. split; [done| | |eapply no_ports; [exact Hoe|apply Hmd]].
    + eapply idle_own; [exact Hoe|set_solver|apply Hmd].
    + intros U HU _. simplify_eq. rewrite Hal. apply Hmd; [done|].
      by rewrite (in_thread_task t k T Hit HT).
Qed.

(** [task_init] and [task_schedule] of a new task. *)
Lemma wpt_create t k0 k u pr pc stack (P : Kernel -> unit -> Kernel -> Prop) :
  in_thread t k -> others t k0 k -> app_owner u = t -> may_create u stack k -> stack mod 4 = 0 ->
  (forall k1 k', in_thread t k' -> others t k1 k' -> own_env t [u] k k' ->
    (forall A, holds t k A -> holds t k' A) -> P k1 tt k') ->
  wpt t k0 (task_init u (Some (app_name u)) pr pc NULL stack TEST_STACK_SIZE;; task_schedule u) k P.
Proof.
  intros Hit Ho Hu [(T & HT & Hs) Hm] Hst HP.
  eapply wpt_bind, (wpt_task_init t k0 k u T); [done..| | |exact Hm|].
  { reflexivity. }
  { unfold sizeof_StackFrame, TEST_STACK_SIZE. lia. }
  intros k1 k2 Hit2 Ho2 Hoe2 HA2 HT2 HN2.
  eapply (wpt_task_schedule t k1 k2 u); [done..| | |exact HN2|done|].
  { apply new_task_ok. unfold sizeof_StackFrame, TEST_STACK_SIZE. lia. }
  { done. }
  intros k3 Hit3 Hoe3 HA3 _. apply HP; [done|by apply others_refl| |by auto].
  by apply (own_env_trans t [u] k k2).
Qed.

Lemma may_delay_created t u k k' : t = test_task \/ t = t2 -> in_thread t k -> in_thread t k' ->
  own_env t [u] k k' -> (forall A, holds t k A -> holds t k' A) -> u <> timer_slot t ->
  is_Some (tasks k' !! u) -> may_delay t k -> may_delay t k'.
Proof.
  intros Ht Hit Hit' Ho HA Hne [U HU] [Hs Hi Hal Hp]. destruct (slot_owner t Ht) as [Hsl _].
  split; [..|by eapply no_ports].
  - eapply absent_own; [exact Hsl| |exact Ho|done]. set_solver.
  - eapply idle_own; [exact Ho| |done]. intros a ->%list_elem_of_singleton.
    destruct (in_thread_kinv t k' Hit') as (Q & rs & ws & ts & _ & _ & _ & Ha & _).
    destruct (timer_objs k' !! u) as [X|] eqn:HX; [|done].
    destruct (ao_timer _ _ _ Ha u X HX) as (_ & Hn & _). congruence.
  - intros T' HT' Hs'. destruct (in_thread_lookup t k Hit) as [T HT].
    assert (scheduled (state T) = true) as HTs by by rewrite (in_thread_task t k T Hit HT).
    destruct (HA (sig_alloc T)) as (X & HX & _ & EX); [by exists T|]. simplify_eq.
    rewrite EX. auto.
Qed.

Lemma message_code_safe fuel : code_safe (message_code (S (S fuel))) message_LI.
Proof.
  intros t n k Hit Hp (H1 & H2 & H3). unfold message_code.
  pose proof (others_refl t k Hit) as Ho.
  assert (forall n' k1 k', t = test_task \/ t = t2 -> (t = test_task -> n' <> O) ->
    in_thread t k' -> others t k1 k' -> may_delay t k' -> round_post message_LI t k1 n' k') as Hend.
  { intros n' k1 k' Ht Hn' Hit' Ho' Hmd. split; [done|]. split; [done|]. split_and!; [|tauto|done].
    by destruct Ht as [->| ->]. }
  destruct (t =? init_task) eqn:E1; norm_bool; [|destruct (t =? test_task) eqn:E2; norm_bool;
    [destruct n as [|n]|destruct (t =? t2) eqn:E3; norm_bool]].
  - subst t. do 2 apply wpt_bind. eapply wpt_set_prio_self; [done|done|]. intros k1 Hit1 Hoe1.
    apply wpt_bind, wpt_create; [done|by apply others_refl|done| |done|].
    { apply (may_create_own init_task _ _ [] k); [exact Hoe1|done|set_solver|auto]. }
    intros k2 k3 Hit3 Ho3 _ _. split; [apply Hit3|done].
  - assert (t = test_task \/ t = t2) as Ht by auto. apply wpt_bind.
    apply wpt_create; [done|done|by subst|by apply H2|done|].
    intros k1 k2 Hit2 Ho2 Hoe2 HA2. apply wpt_ret, Hend; try done.
    eapply may_delay_created; [done|exact Hit|exact Hit2|exact Hoe2|exact HA2|by subst| |auto].
    apply elem_of_dom. rewrite (oe_dom _ _ _ _ Hoe2). apply elem_of_dom.
    destruct (H2 E2 eq_refl) as [(T & HT & _) _]. eauto.
  - assert (t = test_task \/ t = t2) as Ht by auto.
    apply wpt_bind, wpt_toggle, wpt_bind, wpt_delay; [done..|auto|].
    intros k1 k2 Hit2 Ho2 Hmd2. apply wpt_toggle, wpt_delay; [done..|].
    intros k3 k4 Hit4 Ho4 Hmd4. by apply wpt_ret, Hend.
  - assert (t = test_task \/ t = t2) as Ht by auto.
    apply wpt_bind, wpt_toggle, wpt_bind, wpt_delay; [done..|auto|].
    intros k1 k2 Hit2 Ho2 Hmd2. apply wpt_toggle, wpt_delay; [done..|].
    intros k3 k4 Hit4 Ho4 Hmd4. by apply wpt_ret, Hend.
  - split; [apply Hit|done].
Qed.
End system.

(** ** The start *)

(** Memory behind reset: besides what start-up needs, the task objects and stacks
    of the test, no message ports, and nothing where the timers will be; the name read from address 0
    is none of a task's. *)
Record message_memory (k : Kernel) : Prop := mkMessageMemory {
  mm_reset : reset_state k;
  mm_tasks : dom (tasks k) = {[init_task; test_task; t2]};
  mm_stack : frame_mapped (words k) (test_task_stack + TEST_STACK_SIZE - sizeof_StackFrame);
  mm_stack2 : frame_mapped (words k) (t2_stack + TEST_STACK_SIZE - sizeof_StackFrame);
  mm_timers : timer_objs k = ∅;
  mm_ports : ports k = ∅;
  mm_slots : forall t, t = test_task \/ t = t2 -> absent k (timer_slot t);
  mm_null : exists c s, nodes (heap k) !! NULL = Some c /\ name c = Some s /\
    s ∉ ["init"%string; "test"%string; "t2"%string] }.

Lemma message_app_ok k k' : message_memory k -> booted k k' -> app_ok k' boot_queues [].
Proof.
  intros [Hrt Hd _ _ Htm Hpo _ (c & s & Hc & Hs & Hnm)] [m N W _ _ EN _ _].
  assert (dom (<[init_task:=set_state TASK_RUNNING booted_task]> (tasks k)) =
    {[init_task; test_task; t2]}) as Hd' by (rewrite dom_insert_L, Hd; set_solver).
  assert (forall t, t ∈ ({[init_task; test_task; t2]} : gset Z) ->
    t = init_task \/ t = test_task \/ t = t2) as Hcases.
  { intros t. rewrite !elem_of_union, !elem_of_singleton. tauto. }
  split; simpl.
  - intros a X. by rewrite Htm, lookup_empty.
  - intros a X []%elem_of_nil.
  - exists c, s. rewrite EN, lookup_insert_ne by done. split_and!; [done..|].
    rewrite Hd'. intros t [->|[->| ->]]%Hcases; simpl; intros <-; apply Hnm; rewrite !elem_of_cons; tauto.
  - intros t (T & HT & HTs). simpl in HT. destruct (decide (t = init_task)) as [->|Hne].
    + eexists. by rewrite EN, lookup_insert_eq.
    + rewrite lookup_insert_ne in HT by done.
      destruct (rt_others _ Hrt t T HT Hne) as (Hst & _). by rewrite Hst in HTs.
  - rewrite Hd'. by intros t u [->|[->| ->]]%Hcases [->|[->| ->]]%Hcases.
  - intros p P [HP _]. simpl in HP. by rewrite Hpo in HP.
  - intros l [xs Hx]. left. unfold boot_queues in Hx. unfold kernel_list.
    repeat (apply lookup_insert_Some in Hx as [[<- _]|[_ Hx]]; [tauto|]).
    apply lookup_singleton_Some in Hx as [<- _]. tauto.
  - intros p P [HP _]. simpl in HP. by rewrite Hpo in HP.
Qed.

Lemma booted_quiescent k k' : message_memory k -> booted k k' -> in_thread init_task k'.
Proof.
  intros Hm Hb. pose proof (booted_kinv k k' (mm_reset _ Hm) Hb) as HK.
  pose proof (message_app_ok k k' Hm Hb) as Ha.
  destruct (rt_irq _ (mm_reset _ Hm)) as [Hpm Hh].
  destruct Hb as [m N W _ _ _ _ _]. split; [split; [done..| |]|done|].
  - eexists _, [], [], []. split_and!; [exact HK| |exact Ha]. right. intros t []%elem_of_nil.
  - eexists. split; [apply lookup_insert_eq|by right].
  - eexists. split; [apply lookup_insert_eq|done].
Qed.

Lemma booted_LI k k' t : message_memory k -> booted k k' -> message_LI t 0 k'.
Proof.
  intros [Hrt Hd Hs1 Hs2 Htm Hpo Hsl _] [m N W _ Hdm EN Hdw _].
  assert (forall u, u = test_task \/ u = t2 -> exists U, tasks k !! u = Some U /\ state U = TASK_INVALID)
    as Hnew.
  { intros u Hu. assert (is_Some (tasks k !! u)) as [U HU] by (apply elem_of_dom; set_solver).
    exists U. split; [done|]. assert (u <> init_task) as Hne by by destruct Hu as [->| ->].
    apply (rt_others _ Hrt u U HU Hne). }
  assert (forall u stack, u = test_task \/ u = t2 ->
    frame_mapped (words k) (stack + TEST_STACK_SIZE - sizeof_StackFrame) ->
    may_create u stack (set_timer_now 0 (set_running init_task (set_elapsed QUANTUM
      (set_id_nestcnt (-1) (set_words W (set_tasks
        (<[init_task := set_state TASK_RUNNING booted_task]> (tasks k))
          (set_heap (mkHeap m N) k)))))))) as Hcreate.
  { intros u stack Hu Hst. split; [|by eapply frame_mapped_dom].
    destruct (Hnew u Hu) as (U & HU & HUs). exists U. split; [|by rewrite HUs]. simpl.
    rewrite lookup_insert_ne; [done|]. by destruct Hu as [->| ->]. }
  split_and!; [auto..|]. intros Ht. split; simpl; [..|by intros p _; rewrite Hpo].
  - destruct (Hsl t Ht) as [E1 E2 E3 E4 E5].
    assert (timer_slot t <> init_task) by by destruct Ht as [->| ->].
    split; simpl; [|by rewrite EN, lookup_insert_ne|done|by rewrite lookup_insert_ne|done].
    apply not_elem_of_dom. rewrite Hdm. by apply not_elem_of_dom.
  - intros a X _. by rewrite Htm, lookup_empty.
  - intros T HT HTs. destruct (Hnew t Ht) as (U & HU & HUs).
    rewrite lookup_insert_ne in HT by (by destruct Ht as [->| ->]). simplify_eq.
    by rewrite HUs in HTs.
Qed.
(** The state of the system in which start-up left the kernel. *)
Definition message_start (code : addr -> nat -> M nat) (k : Kernel) : Sys :=
  mkSys k (fun t => code t O).

(** C2. The message test of the repository is safe: from memory as the loader leaves
    it, [martos_pre] and [timer_init] return, and in every state the system then
    reaches - the init task lowering its priority and running [user_init],
    [test_task] creating [t2], both tasks sleeping in [timer_delay] for ever, under
    every interleaving with SysTick, TIM2 and context switches - no assertion fails,
    the model meets no undefined behaviour, no call of [signal_wait] blocks more than
    once, interrupts are enabled, and the kernel invariant and the scheduling
    invariant hold as C1 states them.  Two hypotheses are about memory.  [mm_null]: a
    node that is named, and not as a task, can be read at address 0, as the alias
    of the vector table in flash may or may not provide; the code needs this, since
    [task_find], which every [task_init] calls, reads a name through a null pointer
    for a name that is new.  In C this read is undefined.  [stack_vars_ok]:
    the indeterminate status of a [Timer] on a stack is not [TIMER_ADDED] by
    chance; all else that is on the stacks is arbitrary. *)
Theorem message_test_safe GPIO_ToggleBits GPIO_Pin_12 GPIO_Pin_13 stack_var k :
  toggles GPIO_ToggleBits -> stack_vars_ok stack_var -> message_memory k ->
  exists k1, quiet_run (t ← martos_pre; timer_init;; mret t) k = Some (init_task, k1) /\
    let code := message_code GPIO_ToggleBits GPIO_Pin_12 GPIO_Pin_13 stack_var 2 in
    forall S, reachable code (message_start code k1) S -> safe_state S.
Proof.
  intros Hg Hv Hm. destruct (boot_run k (mm_reset _ Hm)) as (k1 & E & Hb).
  exists k1. split; [exact E|]. intros code S.
  apply (reachable_safe code message_LI (message_code_safe _ _ _ _ Hg Hv 0) message_LI_stable
    (message_start code k1) (fun _ => O)).
  pose proof (booted_quiescent k k1 Hm Hb) as Hit. split.
  - apply Hit.
  - simpl. rewrite (it_running _ _ Hit). apply Hit.
  - done.
  - intros t. by apply (booted_LI k).
Qed.

(** The memory of the test program. *)
Definition message_mem : Kernel :=
  mkKernel false false false 0 0 NULL 0
    (mkHeap
      (list_to_map ((fun a => (a, blank_min)) <$>
        [ready; tail ready; waiting; tail waiting; timers; tail timers; init_task; test_task; t2]))
      (<[NULL := mkNode (Some "vector_table"%string) 0]>
        (list_to_map ((fun a => (a, blank_node)) <$> [init_task; test_task; t2]))))
    (list_to_map ((fun a => (a, blank_task)) <$> [init_task; test_task; t2]))
    ∅ ∅ ∅ ∅ ∅ ∅
    (list_to_map (frame_words init_task_stack INIT_TASK_STACK_SIZE ++
      frame_words test_task_stack TEST_STACK_SIZE ++ frame_words t2_stack TEST_STACK_SIZE)) 0.

Lemma message_mem_ok : message_memory message_mem.
Proof.
  split.
  - split.
    + apply Forall_forall, (bool_decide_unpack _). vm_compute. exact I.
    + eexists. vm_compute. reflexivity.
    + eexists. vm_compute. reflexivity.
    + eexists _, _. split; [vm_compute; reflexivity|]. split; [reflexivity|discriminate].
    + apply frame_mapped_check, (bool_decide_unpack _). vm_compute. exact I.
    + done.
    + change (map_Forall (fun t T => t <> init_task ->
        state T = TASK_INVALID /\ is_Some (nodes (heap message_mem) !! t) /\
        is_Some (links (heap message_mem) !! t) /\
        t ∉ [NULL; ready; tail ready; waiting; tail waiting; timers; tail timers])
        (tasks message_mem)).
      apply (bool_decide_unpack _). vm_compute. exact I.
  - apply (bool_decide_unpack _). vm_compute. exact I.
  - apply frame_mapped_check, (bool_decide_unpack _). vm_compute. exact I.
  - apply frame_mapped_check, (bool_decide_unpack _). vm_compute. exact I.
  - done.
  - done.
  - intros t [->| ->]; split; vm_compute; reflexivity.
  - eexists _, _. split; [vm_compute; reflexivity|]. split; [reflexivity|].
    apply (bool_decide_unpack _). vm_compute. exact I.
Qed.

(** Stacks of zeros, and a driver that does nothing the kernel can see. *)
Definition zero_var (t : addr) (n : nat) (b : bool) : TimerVar :=
  mkTimerVar (timer_slot t) blank_min blank_node blank_timer.

Lemma message_test_safe_witness : exists k1,
  quiet_run (t ← martos_pre; timer_init;; mret t) message_mem = Some (init_task, k1) /\
  let code := message_code (fun _ => mret tt) 4096 8192 zero_var 2 in
  forall S, reachable code (message_start code k1) S -> safe_state S.
Proof.
  apply (message_test_safe (fun _ => mret tt) 4096 8192 zero_var message_mem).
  - intros pin k. reflexivity.
  - intros t n b. split; [reflexivity|discriminate].
  - exact message_mem_ok.
Defined.
