(* ===== verification/Interpreter.v ===== *)
(** * Running the whole system

    The step relation of [System] as a function of the event that comes next, and
    a run of the network demo in which an alarm is lost. *)

From S2P Require Import Prelude Heap Lists ListSpec Machine Logic Context Task.
From S2P Require Import Platform Timer Init NetDemo Invariant Checker Demo TaskSpec SchedSpec Scheduler.
From S2P Require Import ContextSpec BootSpec Signals TimerSpec Rely System.

(** ** Events *)

(** What happens next: the running task goes on, or an exception is taken;
    PendSV with the frame the running task is interrupted at. *)
Inductive event := Thread | SysTick | TIM2 | PendSV (f : addr).

Section run.
Context {L : Type} (code : addr -> L -> M L).

Definition happens (e : event) (S : Sys) : option Sys :=
  if interruptible (sk S) then
    match e with
    | Thread =>
        let t := running (sk S) in
        if pendsv (sk S) then None
        else match conts S t (sk S) with
          | Preempt k f => Some (mkSys k (set_cont t f (conts S)))
          | Spin k => Some (mkSys k (set_cont t (fun k => Spin k) (conts S)))
          | Ret l k => Some (mkSys k (set_cont t (code t l) (conts S)))
          | Fault | NoFuel => None
          end
    | SysTick => match SysTick_exception (sk S) with Ret _ k => Some (mkSys k (conts S)) | _ => None end
    | TIM2 => match TIM2_exception (sk S) with Ret _ k => Some (mkSys k (conts S)) | _ => None end
    | PendSV f =>
        T ← tasks (sk S) !! running (sk S);
        if pendsv (sk S) && bool_decide (frame_ok f T) then
          match PendSV_exception f (sk S) with Ret _ k => Some (mkSys k (conts S)) | _ => None end
        else None
    end
  else None.

Lemma happens_step e S S' : happens e S = Some S' -> step code S S'.
Proof.
  unfold happens. destruct (interruptible (sk S)) eqn:Hi; [|done]. destruct e as [| | |f].
  - destruct (pendsv (sk S)) eqn:Hp; [done|].
    destruct (conts S (running (sk S)) (sk S)) as [l k|k| | |k f] eqn:E; intros [= <-].
    + by apply step_round.
    + by apply step_spin.
    + by apply step_thread.
  - destruct (SysTick_exception (sk S)) as [[] k|k| | |k f] eqn:E; intros [= <-]. by apply step_SysTick.
  - destruct (TIM2_exception (sk S)) as [[] k|k| | |k f] eqn:E; intros [= <-]. by apply step_TIM2.
  - destruct (tasks (sk S) !! running (sk S)) as [T|] eqn:HT; [|done]. simpl.
    destruct (pendsv (sk S)) eqn:Hp; [|done]. case_bool_decide; [|done]. simpl.
    destruct (PendSV_exception f (sk S)) as [a k|k| | |k g] eqn:E; intros [= <-].
    by eapply step_PendSV.
Qed.

Lemma step_happens S S' : step code S S' -> exists e, happens e S = Some S'.
Proof.
  intros Hs. destruct Hs as [S k' f Hi Hp E|S k' Hi Hp E|S l k' Hi Hp E|S k' Hi E|S k' Hi E
    |S T f a k' Hi Hp HT Hf E].
  1-3: exists Thread; unfold happens; by rewrite Hi, Hp, E.
  - exists SysTick. unfold happens. by rewrite Hi, E.
  - exists TIM2. unfold happens. by rewrite Hi, E.
  - exists (PendSV f). unfold happens. rewrite Hi, HT. simpl. by rewrite Hp, bool_decide_true, E.
Qed.

Fixpoint happen (es : list event) (S : Sys) : option Sys :=
  match es with [] => Some S | e :: es => S' ← happens e S; happen es S' end.

Lemma happen_snoc es e S : happen (es ++ [e]) S = (S' ← happen es S; happens e S').
Proof.
  revert S. induction es as [|e' es IH]; intros S; simpl.
  - by destruct (happens e S).
  - destruct (happens e' S); simpl; auto.
Qed.

(** The runs are the reachable states. *)
Lemma reachable_happen S0 S : reachable code S0 S <-> exists es, happen es S0 = Some S.
Proof.
  split.
  - induction 1 as [|S1 S2 _ [es IH] Hs]; [by exists []|].
    destruct (step_happens _ _ Hs) as [e He]. exists (es ++ [e]). by rewrite happen_snoc, IH.
  - intros [es Hes]. revert S Hes. induction es as [|e es IH] using rev_ind; intros S Hes.
    + injection Hes as <-. apply reach_init.
    + rewrite happen_snoc in Hes. destruct (happen es S0) as [S1|]; [|done].
      eapply reach_step; [by apply IH|by eapply happens_step].
Qed.
End run.

(** ** The network demo *)

(** lwIP's thread: its [Task], its stack and its entry point, which lwIP's heap and
    flash hold. *)
Definition tcpip : addr := 536924160.
Definition tcpip_stack : addr := 536924416.
Definition tcpip_pc : addr := 134222201.

Definition net_tasks : list addr := [init_task; tcpip; n1; n2].

(** The memory of the demo. *)
Definition net_mem : Kernel :=
  mkKernel false false false 0 0 NULL 0
    (mkHeap
      (list_to_map ((fun a => (a, blank_min)) <$>
        [ready; tail ready; waiting; tail waiting; timers; tail timers] ++ net_tasks))
      (<[NULL := mkNode (Some "vector_table"%string) 0]>
        (list_to_map ((fun a => (a, blank_node)) <$> net_tasks))))
    (list_to_map ((fun a => (a, blank_task)) <$> net_tasks))
    ∅ ∅ ∅ ∅ ∅ ∅
    (list_to_map (frame_words init_task_stack INIT_TASK_STACK_SIZE ++
      frame_words tcpip_stack N_STACK_SIZE ++
      frame_words n1_stack N_STACK_SIZE ++ frame_words n2_stack N_STACK_SIZE)) 0.

(** Where the variable [timer] of the tasks is on their stacks. *)
Definition net_timer (stack : addr) : TimerVar :=
  mkTimerVar (stack + 3072) blank_min blank_node blank_timer.

(** What lwIP does here: [tcpip_init] creates a thread of priority 32, and the
    thread sleeps for a tick, is busy up to tick 249 and waits from then on. *)
Definition net_tcpip_init (_ _ : addr) : M unit :=
  task_init tcpip (Some "tcpip_thread"%string) 32 tcpip_pc NULL tcpip_stack N_STACK_SIZE;;
  task_schedule tcpip.

Definition tcpip_round (busy : bool) : M unit :=
  if busy then
    now ← timer_get_clock;
    if now <? 249 then mret tt else _ ← signal_wait 2 SIGF_SINGLE; mret tt
  else timer_delay 2 (net_timer tcpip_stack) 1.

(** The tasks, on a network that never fails; the local variables of [n1_f] are
    its connection and its buffer. *)
Definition net_code (t : addr) (l : option (addr * addr)) : M (option (addr * addr)) :=
  if t =? init_task then
    task_set_prio init_task TASK_PRIO_MIN;;
    net_user_init net_tcpip_init (fun _ => mret 1) (fun _ => mret tt) (mret tt);;
    spin
  else if t =? tcpip then
    tcpip_round (bool_decide (l <> None));; mret (Some (0, 0))
  else if t =? n1 then
    match l with
    | None =>
        p ← n1_f_start 0 0 (fun _ _ _ _ => 0) (fun _ => mret 1) (fun _ _ _ => mret 0)
          (mret 1) (fun _ _ _ => mret 0) (net_timer n1_stack);
        mret (Some p)
    | Some (conn, buf) =>
        n1_f_round (fun _ => mret tt) 8192 0 (fun _ _ => mret 0) 2 (net_timer n1_stack) conn buf;;
        mret (Some (conn, buf))
    end
  else if t =? n2 then
    match l with
    | None => n2_f_start (net_timer n2_stack);; mret (Some (0, 0))
    | Some _ => n2_f_round (fun _ => mret tt) 4096 2 (net_timer n2_stack);; mret l
    end
  else spin.

(** Start-up has left the kernel to the init task. *)
Definition net_start : Sys :=
  mkSys (state_after (t ← martos_pre; timer_init;; mret t) net_mem) (fun t => net_code t None).

(** The frames the tasks are interrupted at. *)
Definition net_frame (t : addr) : addr :=
  if t =? init_task then init_task_stack + 1000
  else if t =? tcpip then tcpip_stack + 2048
  else if t =? n1 then n1_stack + 2048 else n2_stack + 2048.

(** The init task creates the three tasks; lwIP's thread sleeps; [n1] waits for its
    alarm at tick 250; [n2] sets its alarm to tick 250 and is about to enter the
    critical section of [timer_add] when lwIP's thread wakes up. *)
Definition net_up : list event :=
  replicate 2 Thread ++ [PendSV (net_frame init_task)] ++ replicate 7 Thread ++
  [PendSV (net_frame init_task)] ++ replicate 9 Thread ++ [PendSV (net_frame tcpip)] ++
  replicate 9 Thread ++ [PendSV (net_frame init_task)] ++ replicate 10 Thread ++
  [PendSV (net_frame n1)] ++ replicate 5 Thread ++ [PendSV (net_frame init_task)] ++
  replicate 6 Thread ++ [TIM2; PendSV (net_frame n2)].

(** lwIP's thread is busy for 248 ticks and waits; [n2] goes on and queues its
    timer. *)
Definition held_up : list event :=
  replicate 6 Thread ++ concat (replicate 248 [TIM2; Thread; Thread]) ++
  [Thread; PendSV (net_frame tcpip); Thread].

(** [n1] runs a round; [n2] ends its round and starts the next two. *)
Definition next_alarms : list event :=
  [PendSV (net_frame n2)] ++ replicate 9 Thread ++ [PendSV (net_frame n1)] ++ replicate 8 Thread.

Lemma run_result {A} (o : option A) (P : A -> Prop) :
  match o with Some X => P X | None => False end -> exists X, o = Some X /\ P X.
Proof. destruct o as [X|]; [eauto|done]. Qed.

(** A run, one event, and another run. *)
Lemma runs_result {L} (code : addr -> L -> M L) es e es' S0 (P : Sys -> Sys -> Sys -> Prop) :
  match happen code es S0 with
  | Some X => match happens code e X with
    | Some Y => match happen code es' Y with Some Z => P X Y Z | None => False end
    | None => False end
  | None => False end ->
  exists X Y Z, happen code es S0 = Some X /\ happens code e X = Some Y /\
    happen code es' Y = Some Z /\ P X Y Z.
Proof.
  destruct (happen code es S0) as [X|] eqn:E1; [|done].
  destruct (happens code e X) as [Y|] eqn:E2; [|done].
  destruct (happen code es' Y) as [Z|] eqn:E3; [|done]. eauto 10.
Qed.

(** The clock and the timer of [n2]. *)
Definition n2_alarm (k : Kernel) : Z * option Timer :=
  (timer_now k, timer_objs k !! tv_addr (net_timer n2_stack)).

(** [n2] has queued its timer, and the tick of the timer is next. *)
Definition before_alarm (X : @Sys (option (addr * addr))) : Prop :=
  running (sk X) = n2 /\ n2_alarm (sk X) = (249, Some (mkTimer n2 32768 0 250 TIMER_ALARM TIMER_ADDED)).

(** The timer has expired; what is left of the round of [n2] does nothing. *)
Definition behind_alarm (X : @Sys (option (addr * addr))) : Prop :=
  n2_alarm (sk X) = (250, Some (mkTimer n2 32768 0 250 TIMER_ALARM TIMER_DONE)) /\
  (Z.land 32768 ∘ sig_recvd) <$> tasks (sk X) !! n2 = Some 32768 /\
  match conts X n2 (sk X) with Ret l k => l = Some (0, 0) /\ k = sk X | _ => False end.

(** The system at the end of this run. *)
Definition halted_end (X : @Sys (option (addr * addr))) : Prop :=
  (running (sk X), primask (sk X), n2_alarm (sk X)) =
    (n2, true, (250, Some (mkTimer n2 32768 0 750 TIMER_ALARM TIMER_ADDED))) /\
  match conts X n2 (sk X) with Spin _ => True | _ => False end.

Definition late_run (X Y Z : @Sys (option (addr * addr))) : Prop :=
  before_alarm X /\ behind_alarm Y /\ halted_end Z.

Lemma late_alarm_run : exists X Y Z, happen net_code (net_up ++ held_up) net_start = Some X /\
  happens net_code TIM2 X = Some Y /\ happen net_code next_alarms Y = Some Z /\ late_run X Y Z.
Proof.
  apply (runs_result net_code (net_up ++ held_up) TIM2 next_alarms net_start late_run).
  vm_compute. repeat split.
Qed.

Lemma happens_TIM2 {L} (code : addr -> L -> M L) S S' : happens code TIM2 S = Some S' ->
  TIM2_exception (sk S) = Ret tt (sk S') /\ conts S' = conts S.
Proof.
  unfold happens. destruct (interruptible (sk S)); [|done].
  destruct (TIM2_exception (sk S)) as [[] k| | | |]; by intros [= <-].
Qed.

(** C36. The alarm tasks of the network demo can halt the system.  There is a run in
    which [n2_f] has queued its timer in [timer_add] ([S1]: the status is
    [TIMER_ADDED], the alarm is due at tick 250 and the clock shows 249) when the
    tick comes ([S2]: one TIM2 interrupt later, the status is [TIMER_DONE] and [n2]
    has the signal of the timer).  The test of [timer.status] is all that is left of
    its round: the round returns without waiting, and the signal stays behind.
    [signal_wait] of the next round then returns at once, while the timer is in the
    queue; the round after that changes the tick of the queued timer and calls
    [timer_add], whose assertion fails ([S]): the processor runs [n2_f] in
    [__assert_func] with interrupts masked, and no step is possible.  In this run
    [n2] gets as late as tick 249 because lwIP's thread, which stands for any task
    of higher priority, is busy up to then. *)
Theorem alarm_halts : exists S1 S2 S X1 X2 X,
  reachable net_code net_start S1 /\ running (sk S1) = n2 /\ timer_now (sk S1) = 249 /\
  timer_objs (sk S1) !! tv_addr (net_timer n2_stack) = Some X1 /\
  status X1 = TIMER_ADDED /\ tick X1 = 250 /\
  step net_code S1 S2 /\ TIM2_exception (sk S1) = Ret tt (sk S2) /\ timer_now (sk S2) = 250 /\
  timer_objs (sk S2) !! tv_addr (net_timer n2_stack) = Some X2 /\ status X2 = TIMER_DONE /\
  (exists T, tasks (sk S2) !! n2 = Some T /\ Z.land (tm_signal X2) (sig_recvd T) = tm_signal X2) /\
  (exists l, conts S2 n2 (sk S2) = Ret l (sk S2)) /\
  reachable net_code S2 S /\ running (sk S) = n2 /\ (exists k, conts S n2 (sk S) = Spin k) /\
  primask (sk S) = true /\ timer_objs (sk S) !! tv_addr (net_timer n2_stack) = Some X /\
  status X = TIMER_ADDED /\ tick X = 750 /\ timer_now (sk S) = 250 /\
  (forall S', ~ step net_code S S').
Proof.
  destruct late_alarm_run as (S1 & S2 & S & E1 & E2 & E3 & [Hr1 [= Hn1 HX1]] &
    ([= Hn2 HX2] & Hs2 & Hc2) & [= Hr Hm Hn HX] & Hc).
  pose proof (proj2 (reachable_happen net_code net_start S1) (ex_intro _ _ E1)) as R1.
  pose proof (proj2 (reachable_happen net_code S2 S) (ex_intro _ _ E3)) as R3.
  pose proof (happens_step _ _ _ _ E2) as Hst. destruct (happens_TIM2 _ _ _ E2) as [Hti _].
  clear E1 E2 E3. eexists S1, S2, S, _, _, _. split; [exact R1|]. split; [exact Hr1|].
  split; [exact Hn1|]. split; [exact HX1|]. do 2 (split; [reflexivity|]).
  split; [exact Hst|]. split; [exact Hti|]. split; [exact Hn2|]. split; [exact HX2|].
  split; [reflexivity|]. split.
  { destruct (tasks (sk S2) !! n2) as [T|]; [|discriminate Hs2]. injection Hs2 as Hs2. by exists T. }
  split. { destruct (conts S2 n2 (sk S2)) as [l k| | | |]; [|done..]. destruct Hc2 as [_ ->]. by exists l. }
  split; [exact R3|]. split; [exact Hr|]. split; [destruct (conts S n2 (sk S)); [done| |done..]; eauto|].
  split; [exact Hm|]. split; [exact HX|]. do 2 (split; [reflexivity|]). split; [exact Hn|].
  intros S' Hs. destruct (step_happens _ _ _ Hs) as [e He].
  unfold happens, interruptible in He. by rewrite Hm in He.
Qed.
