(* ===== verification/PortSpec.v ===== *)
(** * What the message ports do ([src/msgport.c])

    A port is a first-in-first-out queue of message nodes; sending signals the
    task that owns the port. *)

From S2P Require Import Prelude Heap Lists ListSpec Machine Logic Context Task.
From S2P Require Import Platform Timer MsgPort Invariant Checker Demo TaskSpec.
From S2P Require Import SchedSpec Signals TimerSpec.

(** A list of other objects than tasks and timers, and a node that is free to
    enter it. *)
Record object_queue (Q : Queues) (l : addr) (xs : list Z) : Prop := mkObjectQueue {
  oq_queue : Q !! l = Some xs;
  oq_ready : l <> ready;
  oq_waiting : l <> waiting;
  oq_timers : l <> timers }.

Record object_node (k : Kernel) (Q : Queues) (n : addr) : Prop := mkObjectNode {
  on_free : free_node (links (heap k)) Q n;
  on_not_task : tasks k !! n = None }.

Lemma kinv_object k Q rs ws ts l xs xs' m' : kinv k Q rs ws ts -> object_queue Q l xs ->
  reps m' (<[l := xs']> Q) -> dom m' = dom (links (heap k)) ->
  (forall x, x ∈ xs' -> x ∈ xs \/ tasks k !! x = None) ->
  kinv (set_heap (mkHeap m' (nodes (heap k))) k) (<[l := xs']> Q) rs ws ts.
Proof.
  intros HK [Hl H1 H2 H3] Hm Hd Hnew. eapply kinv_queue; try done.
  - intros t T HT [?|?]%Hnew; [done|congruence].
  - rewrite lookup_insert_ne by done. apply HK.
  - apply HK.
  - apply HK.
Qed.

(** Waking a task changes the two task lists only. *)
Lemma wake_queues_other k Q rs ws t l : l <> ready -> l <> waiting ->
  wake_queues k Q rs ws t !! l = Q !! l.
Proof. intros. unfold wake_queues. by rewrite !lookup_insert_ne. Qed.

(** [k'] is [k] with the signals [s] sent to task [t], if any. *)
Record notified (k : Kernel) (Q : Queues) (ts : list Z) (target : option (Z * Z))
    (k' : Kernel) (Q' : Queues) : Prop := mkNotified {
  nt_inv : exists rs' ws', kinv k' Q' rs' ws' ts /\ sched_ok k' rs';
  nt_idle : idle_ok k';
  nt_queues : forall l, l <> ready -> l <> waiting -> Q' !! l = Q !! l;
  nt_tasks : tasks k' =
    match target with Some (t, s) => deliver t s (tasks k) | None => tasks k end;
  nt_same : same_machine k k';
  nt_links : dom (links (heap k')) = dom (links (heap k));
  nt_objects : ports k' = ports k /\ sems k' = sems k /\ reqs k' = reqs k /\
    timer_objs k' = timer_objs k /\ msgs k' = msgs k /\ sysmsgs k' = sysmsgs k }.

Section notify.
Context (I : Kernel -> Prop) (R : Kernel -> Kernel -> Prop).

Lemma wp_notify k Q rs ws ts t T s (P : unit -> Kernel -> Prop) :
  calm k -> id_nestcnt k < 31999 -> kinv k Q rs ws ts -> sched_ok k rs -> idle_ok k ->
  tasks k !! t = Some T -> is_signals s ->
  (forall k' Q', notified k Q ts (Some (t, s)) k' Q' -> P tt k') ->
  wp I R (signal_send t s) k P.
Proof.
  intros Hc Hn HK Hs Hi HT Hsig HP.
  eapply wp_signal_send; [done..|]. intros k' Hk'.
  eapply (HP k' (if wakes T s then wake_queues k Q rs ws t else Q)). split.
  - eexists _, _. split; [by eapply sent_kinv|by eapply sent_sched_ok].
  - by eapply sent_idle_ok.
  - intros l H1 H2. case_bool; [by apply wake_queues_other|done].
  - by eapply sent_tasks.
  - by eapply sent_same.
  - unfold sent in Hk'. by destruct (wakes T s); [destruct Hk' as (m & -> & _ & [Hd _])|subst k'].
  - unfold sent in Hk'. by destruct (wakes T s); [destruct Hk' as (m & -> & _)|subst k'].
Qed.

(** Leaving the critical section. *)
Lemma notified_back k Q ts target m k' Q' : calm k ->
  notified (set_heap (mkHeap m (nodes (heap k))) (lock k)) Q ts target k' Q' ->
  let k2 := set_id_nestcnt (id_nestcnt k) (set_primask (primask k) k') in
  notified (set_heap (mkHeap m (nodes (heap k))) k) Q ts target k2 Q' /\
  id_nestcnt k' = id_nestcnt k + 1 /\ primask k' = true /\ handler k' = handler k.
Proof.
  intros Hc [(rs & ws & HK & Hs) Hi Hq Ht [(H1 & H2 & H3) Hr Hnd Hcl Hp] Hd Ho] k2.
  split; [|done]. split; try done.
  exists rs, ws. split; [by eapply kinv_frame; [..|exact HK]|done].
Qed.
End notify.

(** Which task [msgport_send] signals. *)
Definition port_target (P : MsgPort) : option (Z * Z) :=
  if negb (NULL =? mp_task P) && bool_decide (MSGPORT_SIGNAL = action P)
  then Some (mp_task P, mp_signal P) else None.

(** A port that is set up for messages. *)
Record port_ok (k : Kernel) (Q : Queues) (port : addr) (P : MsgPort) (xs : list Z) : Prop :=
  mkPortOk {
  po_queue : object_queue Q port xs;
  po_port : ports k !! port = Some P;
  po_action : action P <> MSGPORT_INVALID;
  po_target : forall t s, port_target P = Some (t, s) ->
    is_signals s /\ is_Some (tasks k !! t) }.

Section port.
Context (I : Kernel -> Prop) (R : Kernel -> Kernel -> Prop).

Lemma wp_msgport_send k Q rs ws ts port P xs m (Φ : unit -> Kernel -> Prop) :
  calm k -> id_nestcnt k < 31998 -> kinv k Q rs ws ts -> sched_ok k rs -> idle_ok k ->
  port_ok k Q port P xs -> object_node k Q m ->
  (forall h k' Q', reps h (<[port := xs ++ [m]]> Q) ->
    dom h = dom (links (heap k)) ->
    notified (set_heap (mkHeap h (nodes (heap k))) k) (<[port := xs ++ [m]]> Q) ts
      (port_target P) k' Q' -> Φ tt k') ->
  wp I R (msgport_send port m) k Φ.
Proof.
  intros Hc Hn HK Hs Hi [Hq HP Ha Ht] [Hfree Hnt] HΦ. unfold msgport_send.
  eapply wp_bind, wp_disable_calm; [done|]. eapply wp_bind, wp_load; [exact HP|].
  eapply wp_bind, wp_assert; [by destruct (action P)|].
  assert (kinv (lock k) Q rs ws ts) as HK1 by by eapply kinv_frame; [..|exact HK].
  eapply wp_bind, wp_list_step.
  { apply (add_tail_step _ _ (ki_reps _ _ _ _ _ HK1) port xs m); [apply Hq|exact Hfree]. }
  intros h Hh [Hd _].
  assert (forall x, x ∈ xs ++ [m] -> x ∈ xs \/ tasks (lock k) !! x = None) as Hnew.
  { intros x [Hx|Hx]%elem_of_app; [by left|].
    apply list_elem_of_singleton in Hx as ->. by right. }
  pose proof (kinv_object (lock k) Q rs ws ts port xs _ h HK1 Hq Hh Hd Hnew) as HK2.
  set (k2 := set_heap _ (lock k)) in *.
  assert (calm (lock k)) as Hcl by (apply lock_calm; [apply Hc|lia]).
  assert (calm k2) as Hc2 by (by eapply calm_frame; [..|exact Hcl]).
  assert (forall k' Q', notified k2 (<[port := xs ++ [m]]> Q) ts (port_target P) k' Q' ->
    wp I R enable k' Φ) as Hend.
  { intros k' Q' Hk'. destruct (notified_back k _ ts _ h k' Q' Hc Hk') as (Hk2 & E1 & E2 & E3).
    eapply wp_enable_back; [exact Hc|done..|]. by eapply HΦ. }
  unfold port_target in *. apply wp_bind.
  destruct (negb (NULL =? mp_task P) && bool_decide (MSGPORT_SIGNAL = action P)).
  - destruct (Ht _ _ eq_refl) as [Hsig [T HT]].
    eapply (wp_notify _ _ k2); [exact Hc2|simpl; lia|exact HK2|exact Hs|exact Hi|exact HT|done|].
    intros k' Q' Hk'. by eapply Hend.
  - apply wp_ret, (Hend k2 (<[port := xs ++ [m]]> Q)).
    split; try done. by exists rs, ws.
Qed.

Lemma wp_msgport_get k Q rs ws ts port xs (Φ : addr -> Kernel -> Prop) :
  calm k -> kinv k Q rs ws ts -> object_queue Q port xs ->
  (forall k', match xs with
    | [] => k' = k
    | x :: xs' => exists h, k' = set_heap (mkHeap h (nodes (heap k))) k /\
        kinv k' (<[port := xs']> Q) rs ws ts
    end -> Φ (first NULL xs) k') ->
  wp I R (msgport_get port) k Φ.
Proof.
  intros Hc HK Hq HΦ. unfold msgport_get. pose proof (ki_reps _ _ _ _ _ HK) as Hr.
  eapply wp_bind, wp_disable_calm; [done|]. destruct xs as [|x xs].
  - eapply wp_bind, wp_list_read; [exact (rem_head_nil _ _ Hr port (oq_queue _ _ _ Hq))|].
    eapply wp_bind, wp_enable_back; [exact Hc|done..|]. apply wp_ret, HΦ.
    by apply kernel_ext.
  - eapply wp_bind, wp_list_step;
      [exact (rem_head_step _ _ Hr port x xs (oq_queue _ _ _ Hq))|].
    intros h Hh [Hd _]. eapply wp_bind, wp_enable_back; [exact Hc|done..|].
    apply wp_ret, HΦ. exists h. split; [by apply kernel_ext|].
    assert (kinv (set_heap (mkHeap h (nodes (heap k))) k) (<[port := xs]> Q) rs ws ts) as HK'.
    { eapply kinv_object; [done|exact Hq|done|done|]. set_solver. }
    by eapply kinv_frame; [..|exact HK'].
Qed.
End port.

(** ** First in, first out *)

Lemma deliver_is_Some u s U t : is_Some (deliver u s U !! t) <-> is_Some (U !! t).
Proof.
  unfold deliver. destruct (decide (t = u)) as [->|Hne];
    [by rewrite lookup_alter_eq, fmap_is_Some|by rewrite lookup_alter_ne].
Qed.

Lemma target_tasks k target t : is_Some (tasks k !! t) <->
  is_Some ((match target with Some (u, s) => deliver u s (tasks k) | None => tasks k end) !! t).
Proof. destruct target as [[u s]|]; [by rewrite deliver_is_Some|done]. Qed.

Lemma notified_node k Q rs ws ts target k' Q' n : kinv k Q rs ws ts ->
  notified k Q ts target k' Q' -> object_node k Q n -> object_node k' Q' n.
Proof.
  intros HK [(rs' & ws' & HK' & _) _ Hq Ht _ Hd _] [[Ha Hz Hu] Hn].
  assert (tasks k' !! n = None) as Hn'.
  { destruct (tasks k' !! n) as [T|] eqn:E; [|done].
    assert (is_Some (tasks k !! n)) as [? ?]; [|congruence].
    apply (target_tasks k target). rewrite <- Ht. eauto. }
  split; [|done]. split; [|done|].
  - apply elem_of_dom. rewrite Hd. by apply elem_of_dom.
  - intros l xs Hl Hin.
    pose proof (Hu _ _ (ki_rs _ _ _ _ _ HK)) as Hur. pose proof (Hu _ _ (ki_ws _ _ _ _ _ HK)) as Huw.
    destruct (decide (l = ready)) as [->|H1].
    { rewrite (ki_rs _ _ _ _ _ HK') in Hl. simplify_eq.
      assert (n ∈ xs) as (T & HT & _)%(ki_ready _ _ _ _ _ HK') by set_solver. congruence. }
    destruct (decide (l = waiting)) as [->|H2].
    { rewrite (ki_ws _ _ _ _ _ HK') in Hl. simplify_eq.
      assert (n ∈ xs) as (T & HT & _)%(ki_waiting _ _ _ _ _ HK') by set_solver. congruence. }
    rewrite Hq in Hl by done. by apply (Hu l xs).
Qed.

Fixpoint send_all (port : addr) (ms : list addr) : M unit :=
  match ms with [] => mret tt | m :: ms => msgport_send port m;; send_all port ms end.

Fixpoint get_all (port : addr) (n : nat) : M (list addr) :=
  match n with
  | O => mret []
  | S n => m ← msgport_get port; rest ← get_all port n; mret (m :: rest)
  end.

Section fifo.
Context (I : Kernel -> Prop) (R : Kernel -> Kernel -> Prop).

(** After one message the port is as usable as before. *)
Lemma port_ok_sent k Q rs ws ts port P xs m h k' Q' :
  kinv k Q rs ws ts -> port_ok k Q port P xs -> object_node k Q m ->
  reps h (<[port := xs ++ [m]]> Q) -> dom h = dom (links (heap k)) ->
  notified (set_heap (mkHeap h (nodes (heap k))) k) (<[port := xs ++ [m]]> Q) ts
    (port_target P) k' Q' ->
  port_ok k' Q' port P (xs ++ [m]) /\
  (forall n, n <> m -> object_node k Q n -> object_node k' Q' n).
Proof.
  intros HK [[Hl H1 H2 H3] HP Ha Ht] Hm Hh Hd Hnt. split.
  - pose proof Hnt as [_ _ Hq Htk _ _ (Hp & _)]. split.
    + split; [|done..]. rewrite Hq by done. by rewrite lookup_insert_eq.
    + by rewrite Hp.
    + done.
    + intros t s E. destruct (Ht t s E) as [Hs HT]. split; [done|].
      rewrite Htk. by apply (target_tasks k).
  - intros n Hne Hn.
    assert (kinv (set_heap (mkHeap h (nodes (heap k))) k) (<[port := xs ++ [m]]> Q) rs ws ts) as HK1.
    { eapply kinv_object; [done|by split|done|done|].
      intros x [Hx|Hx]%elem_of_app; [by left|]. apply list_elem_of_singleton in Hx as ->.
      right. apply Hm. }
    eapply notified_node; [exact HK1|exact Hnt|]. destruct Hn as [[Hal Hz Hu] Hnn].
    split; [|done]. split; [|done|].
    + apply elem_of_dom. simpl. rewrite Hd. by apply elem_of_dom.
    + eapply unowned_update; [exact Hl|exact Hu|].
      intros [Hin|Hin]%elem_of_app; [apply (Hu _ _ Hl); set_solver|set_solver].
Qed.

Lemma wp_send_all port P ms : forall k Q rs ws ts xs (Φ : unit -> Kernel -> Prop),
  calm k -> id_nestcnt k < 31998 -> kinv k Q rs ws ts -> sched_ok k rs -> idle_ok k ->
  port_ok k Q port P xs -> NoDup ms -> (forall m, m ∈ ms -> object_node k Q m) ->
  (forall k' Q' rs' ws', calm k' -> kinv k' Q' rs' ws' ts -> port_ok k' Q' port P (xs ++ ms) ->
    Φ tt k') -> wp I R (send_all port ms) k Φ.
Proof.
  induction ms as [|m ms IH]; intros k Q rs ws ts xs Φ Hc Hn HK Hs Hi Hp Hnd Hms HΦ; simpl.
  - apply wp_ret. eapply HΦ; [done|done|by rewrite app_nil_r].
  - apply NoDup_cons in Hnd as [Hm Hnd].
    eapply wp_bind, wp_msgport_send; [done..|apply Hms; set_solver|].
    intros h k' Q' Hh Hd Hnt.
    destruct (port_ok_sent k Q rs ws ts port P xs m h k' Q') as [Hp' Hn']; [done|done|
      apply Hms; set_solver|done..|].
    pose proof Hnt as [(rs' & ws' & HK' & Hs') Hi' _ _ Hsm _ _].
    eapply IH; [|..|exact Hp'|done| |].
    + eapply same_machine_calm; [exact Hsm|]. by eapply calm_frame; [..|exact Hc].
    + destruct Hsm as [(_ & _ & ->) _ _ _ _]. done.
    + exact HK'.
    + exact Hs'.
    + exact Hi'.
    + intros n Hin. apply Hn'; [set_solver|]. apply Hms. set_solver.
    + intros k2 Q2 rs2 ws2 Hc2 HK2 Hp2. eapply HΦ; [done|exact HK2|].
      by rewrite <- app_assoc in Hp2.
Qed.

Lemma wp_get_all port xs : forall k Q rs ws ts (Φ : list addr -> Kernel -> Prop),
  calm k -> kinv k Q rs ws ts -> object_queue Q port xs ->
  (forall k' Q', kinv k' Q' rs ws ts -> Q' !! port = Some [] -> Φ (xs ++ [NULL]) k') ->
  wp I R (get_all port (S (length xs))) k Φ.
Proof.
  induction xs as [|x xs IH]; intros k Q rs ws ts Φ Hc HK Hq HΦ; cbn [get_all length].
  - eapply wp_bind, wp_msgport_get; [done..|]. intros k' ->.
    apply wp_bind, wp_ret, wp_ret. eapply HΦ; [exact HK|apply Hq].
  - eapply wp_bind, wp_msgport_get; [done..|]. intros k' (h & Ek & HK').
    eapply wp_bind, (IH k' (<[port := xs]> Q)).
    + rewrite Ek. by eapply calm_frame; [..|exact Hc].
    + exact HK'.
    + destruct Hq. split; [by rewrite lookup_insert_eq|done..].
    + intros k2 Q2 HK2 H2. apply wp_ret. by eapply HΦ.
Qed.
End fifo.

(** ** The contract *)

(** [msgport_send], called where no interrupt can arrive: it appends the
    message to the queue of the port and, if the port has a task and its action
    is [MSGPORT_SIGNAL], sends the signal of the port to the task; other queues,
    ports and tasks do not change, and the kernel invariant and the scheduling
    invariant hold again. *)
Theorem msgport_send_correct k Q rs ws ts port P xs m :
  calm k -> id_nestcnt k < 31998 -> kinv k Q rs ws ts -> sched_ok k rs -> idle_ok k ->
  port_ok k Q port P xs -> object_node k Q m ->
  exists k' Q' rs' ws', msgport_send port m k = Ret tt k' /\
    kinv k' Q' rs' ws' ts /\ sched_ok k' rs' /\ idle_ok k' /\
    Q' !! port = Some (xs ++ [m]) /\
    (forall l, l <> ready -> l <> waiting -> l <> port -> Q' !! l = Q !! l) /\
    tasks k' = (if bool_decide (mp_task P <> NULL /\ action P = MSGPORT_SIGNAL)
      then deliver (mp_task P) (mp_signal P) (tasks k) else tasks k) /\
    ports k' = ports k /\ same_machine k k'.
Proof.
  intros Hc Hn HK Hs Hi Hp Hm.
  assert (run (msgport_send port m) k (fun _ k' => exists h Q',
    notified (set_heap (mkHeap h (nodes (heap k))) k) (<[port := xs ++ [m]]> Q) ts
      (port_target P) k' Q')) as ([] & k' & E & h & Q' & Hnt).
  { apply wp_run. eapply wp_msgport_send; [done..|]. eauto. }
  destruct Hnt as [(rs' & ws' & HK' & Hs') Hi' Hq Ht Hsm _ (Hpt & _)].
  pose proof Hp as [[Hl H1 H2 H3] _ _ _].
  exists k', Q', rs', ws'. split_and!; try done.
  - rewrite Hq by done. by rewrite lookup_insert_eq.
  - intros l ???. rewrite Hq by done. by rewrite lookup_insert_ne.
  - rewrite Ht. unfold port_target.
    replace (negb (NULL =? mp_task P) && bool_decide (MSGPORT_SIGNAL = action P)) with
      (bool_decide (mp_task P <> NULL /\ action P = MSGPORT_SIGNAL)); [by case_bool_decide|].
    rewrite bool_decide_and, (bool_decide_ext (action P = _) (MSGPORT_SIGNAL = action P)) by done.
    f_equal. destruct (Z.eqb_spec NULL (mp_task P)); [by rewrite bool_decide_false by congruence|].
    by rewrite bool_decide_true by congruence.
  - destruct Hsm as [? ? ? ? ?]. by split.
Qed.

(** C23. Messages arrive in the order they were sent: after any number of
    [msgport_send]s on a port, the [msgport_get]s return the messages that were
    queued before, then the messages sent, in order and each once, and then
    [NULL]. *)
Theorem msgport_fifo k Q rs ws ts port P xs ms :
  calm k -> id_nestcnt k < 31998 -> kinv k Q rs ws ts -> sched_ok k rs -> idle_ok k ->
  port_ok k Q port P xs -> NoDup ms -> (forall m, m ∈ ms -> object_node k Q m) ->
  exists k' Q' rs' ws',
    (send_all port ms;; get_all port (S (length (xs ++ ms)))) k = Ret (xs ++ ms ++ [NULL]) k' /\
    kinv k' Q' rs' ws' ts /\ Q' !! port = Some [].
Proof.
  intros Hc Hn HK Hs Hi Hp Hnd Hms.
  assert (run (send_all port ms;; get_all port (S (length (xs ++ ms)))) k (fun r k' =>
    r = xs ++ ms ++ [NULL] /\ exists Q' rs' ws', kinv k' Q' rs' ws' ts /\ Q' !! port = Some []))
    as (r & k' & E & -> & Q' & rs' & ws' & HK' & Hq').
  { apply wp_run. eapply wp_bind, wp_send_all; [done..|].
    intros k1 Q1 rs1 ws1 Hc1 HK1 Hp1. eapply wp_get_all; [done|exact HK1|apply Hp1|].
    intros k2 Q2 HK2 H2. rewrite <- app_assoc. eauto 10. }
  by exists k', Q', rs', ws'.
Qed.

Lemma demo_node n : bool_decide (free_node (links (heap (demo_calm demo_blocked)))
    (demo_Q [init_task] [demo_b]) n) = true -> tasks demo_blocked !! n = None ->
  object_node (demo_calm demo_blocked) (demo_Q [init_task] [demo_b]) n.
Proof. intros H%bool_decide_eq_true Hn. by split. Qed.

Lemma demo_port_ok : port_ok (demo_calm demo_blocked) (demo_Q [init_task] [demo_b]) demo_port
  (mkPort init_task 32768 MSGPORT_SIGNAL) [].
Proof.
  split.
  - split; [vm_compute; reflexivity|discriminate..].
  - vm_compute. reflexivity.
  - discriminate.
  - intros t s [= <- <-]. split; [split; [vm_compute; discriminate|reflexivity]|].
    eexists. vm_compute. reflexivity.
Qed.

Lemma demo_blocked_sched : sched_ok (demo_calm demo_blocked) [init_task].
Proof. right. apply Forall_forall, (bool_decide_unpack _). vm_compute. exact I. Qed.

Lemma msgport_send_correct_witness : exists k' (Q' : Queues),
  msgport_send demo_port demo_m1 (demo_calm demo_blocked) = Ret tt k' /\
  Q' !! demo_port = Some [demo_m1].
Proof.
  destruct (msgport_send_correct (demo_calm demo_blocked) _ _ _ _ demo_port _ [] demo_m1
    demo_blocked_calm eq_refl (demo_calm_kinv _ _ _ _ _ demo_blocked_kinv) demo_blocked_sched
    demo_blocked_idle demo_port_ok) as (k' & Q' & rs' & ws' & E & _ & _ & _ & Hq & _).
  - apply demo_node; vm_compute; reflexivity.
  - exists k', Q'. split; [exact E|exact Hq].
Defined.

Lemma msgport_fifo_witness : exists k',
  (send_all demo_port [demo_m2; demo_m1];; get_all demo_port 3) (demo_calm demo_blocked) =
  Ret [demo_m2; demo_m1; NULL] k'.
Proof.
  destruct (msgport_fifo (demo_calm demo_blocked) _ _ _ _ demo_port _ [] [demo_m2; demo_m1]
    demo_blocked_calm eq_refl (demo_calm_kinv _ _ _ _ _ demo_blocked_kinv) demo_blocked_sched
    demo_blocked_idle demo_port_ok) as (k' & Q' & rs' & ws' & E & _).
  - apply (bool_decide_unpack _). vm_compute. exact I.
  - intros m [->|[->|[]%elem_of_nil]%elem_of_cons]%elem_of_cons;
      apply demo_node; vm_compute; reflexivity.
  - exists k'. exact E.
Defined.
