(* ===== verification/ThreadPorts.v ===== *)
(** * Message ports in thread code under preemption

    A task that uses a port of its own and a task that sends to the port of
    another, whatever the interrupts and the other tasks do in between: mail
    arrives while the owner of a port is preempted, and nobody else takes it. *)

From S2P Require Import Prelude Heap Lists ListSpec Machine Logic Context Task.
From S2P Require Import Platform Timer MsgPort Invariant Checker Demo TaskSpec SchedSpec.
From S2P Require Import Signals TimerSpec Mail Rely AppChecker WaitSpec Threads ThreadTimers.
From S2P Require Import PortSpec.

Section step.
Context `{AP : App}.

Lemma port_queue k Q ts p P xs : app_ok k Q ts -> open_port k p P -> Q !! p = Some xs ->
  object_queue Q p xs.
Proof.
  intros Ha HP Hq. destruct (ao_ports _ _ _ Ha p P HP) as [Hk _]. unfold kernel_list in Hk.
  split; tauto.
Qed.

(** The queue of an open port changes from [xs] to [xs']; what enters is neither
    a task nor a timer. *)
Lemma port_list_app k Q ts p xs xs' h : app_ok k Q ts -> Q !! p = Some xs -> ~ kernel_list p ->
  dom h = dom (links (heap k)) ->
  (forall x, x ∈ xs' -> x ∈ xs \/ tasks k !! x = None /\ timer_objs k !! x = None) ->
  app_ok (set_heap (mkHeap h (nodes (heap k))) k) (<[p := xs']> Q) ts.
Proof.
  intros Ha Hq Hk Hd Hnew. set (k' := set_heap _ k).
  destruct (app_ok_ports k k' Q (<[p := xs']> Q) ts Ha) as (? & ? & ?); [done| |done|].
  { intros l _. rewrite lookup_insert_is_Some. destruct (decide (p = l)) as [->|Hne].
    - rewrite Hq. split; [by left|eauto].
    - split; [by right|by intros [?|[]]]. }
  destruct Ha as [Htm Hown Hnull Hname Hinj _ _ _]. split; try done.
  intros a X HX. destruct (Htm a X HX) as (Hz & Hta & Hl & Hpl).
  split_and!; [done|done|by apply (same_links k k')|].
  destruct Hpl as [?|Hu]; [by left|right]. eapply unowned_update; [done|done|].
  intros [Hin|[_ Hnt]]%Hnew; [|simpl in HX; congruence].
  specialize (Hu p xs Hq). unfold chain in Hu. set_solver.
Qed.

Lemma port_list_step k Q rs ws ts p P xs xs' h :
  kinv k Q rs ws ts -> app_ok k Q ts -> open_port k p P -> Q !! p = Some xs ->
  reps h (<[p := xs']> Q) -> dom h = dom (links (heap k)) ->
  (forall x, x ∈ xs' -> x ∈ xs \/ tasks k !! x = None /\ timer_objs k !! x = None) ->
  let k' := set_heap (mkHeap h (nodes (heap k))) k in
  kinv k' (<[p := xs']> Q) rs ws ts /\ app_ok k' (<[p := xs']> Q) ts /\
  (forall q ys, mail k' q ys <-> if decide (q = p) then ys = xs' else mail k q ys).
Proof.
  intros HK Ha HP Hq Hh Hd Hnew k'.
  pose proof (ao_ports _ _ _ Ha p P HP) as [Hk _].
  pose proof (port_list_app k Q ts p xs xs' h Ha Hq Hk Hd Hnew) as Ha'.
  split_and!; [|done|].
  - eapply kinv_object; [done|by eapply port_queue|done|done|]. intros x [?|[? _]]%Hnew; auto.
  - intros q ys. split.
    + intros Hm. pose proof (mail_lookup k' _ q ys Hh (ao_ports _ _ _ Ha') Hm) as E.
      case_decide as Eq; [subst q; rewrite lookup_insert_eq in E; congruence|].
      rewrite lookup_insert_ne in E by done. split; [exact (proj1 Hm)|].
      by apply (reps_dll _ _ (ki_reps _ _ _ _ _ HK)).
    + case_decide as Eq.
      * intros ->. subst q. split; [by exists P|]. apply (reps_dll _ _ Hh). by rewrite lookup_insert_eq.
      * intros Hm. pose proof (mail_lookup k Q q ys (ki_reps _ _ _ _ _ HK) (ao_ports _ _ _ Ha) Hm) as E.
        split; [exact (proj1 Hm)|]. apply (reps_dll _ _ Hh). by rewrite lookup_insert_ne.
Qed.

(** What the task [u] sees of it. *)
Lemma port_list_own u S k p P xs xs' h : open_port k p P -> mail k p xs ->
  let k' := set_heap (mkHeap h (nodes (heap k))) k in
  dom h = dom (links (heap k)) ->
  (forall q ys, mail k' q ys <-> if decide (q = p) then ys = xs' else mail k q ys) ->
  (app_owner p = u -> p ∉ S -> exists ys, xs' = xs ++ ys) ->
  (forall x, x ∈ xs' -> x ∈ xs \/ (app_owner x = u -> x ∈ S)) -> own_env u S k k'.
Proof.
  intros HP Hm k' Hd Hmail Hgrow Hnew. split; try done; [|intros q R HR; by exists R].
  intros a Hau Has. split; [by apply same_links|constructor|done|done|..].
  - intros ys Hys. destruct (decide (a = p)) as [->|Hne].
    + rewrite (mail_fun k p ys xs) by done. destruct (Hgrow Hau Has) as [zs ->].
      exists zs. apply Hmail. by rewrite decide_True.
    + exists []. rewrite app_nil_r. apply Hmail. by rewrite decide_False.
  - intros (q & ys & Hys%Hmail & Hin). case_decide as E; [subst q ys|by exists q, ys].
    destruct (Hnew a Hin) as [?|Hs]; [by exists p, xs|]. by destruct Has; apply Hs.
Qed.

(** *** Cells that are in no list

    [loose t e k a]: the cell [a] of the object [e] of task [t], which is no open
    port, is in memory and in no list. *)
Record loose (t e : addr) (k : Kernel) (a : addr) : Prop := mkLoose {
  lo_owner : app_owner a = t /\ app_owner e = t;
  lo_closed : forall P, ~ open_port k e P;
  lo_link : is_Some (links (heap k) !! a);
  lo_nonnull : a <> NULL;
  lo_task : tasks k !! a = None;
  lo_timer : timer_objs k !! a = None;
  lo_kernel : a ∉ [ready; tail ready; waiting; tail waiting; timers; tail timers];
  lo_heads : forall q, q ∈ dom (ports k) -> q <> e -> a <> q /\ a <> tail q;
  lo_posted : ~ posted k a }.

Lemma loose_own t e k k' a : own_env t [] k k' -> loose t e k a -> loose t e k' a.
Proof.
  intros Ho [[Ha He] Hcl Hl Hz Htk Htm Hk Hh Hp].
  pose proof (not_elem_of_nil a) as Hn.
  destruct (oe_cells _ _ _ _ Ho a Ha Hn) as [Cl Ct _ _ _ Cp].
  split; try done.
  - intros P [HP Hact]. apply (Hcl P). split; [|done].
    by rewrite <- (ce_port _ _ _ (oe_cells _ _ _ _ Ho e He (not_elem_of_nil _))).
  - by apply Cl.
  - apply not_elem_of_dom. rewrite (oe_dom _ _ _ _ Ho). by apply not_elem_of_dom.
  - rewrite Htm in Ct. by inversion Ct.
  - intros q. rewrite (oe_ports _ _ _ _ Ho). apply Hh.
  - auto.
Qed.

Lemma loose_unowned t e k Q rs ws ts a : kinv k Q rs ws ts -> app_ok k Q ts ->
  loose t e k a -> unowned Q a.
Proof.
  intros HK Ha [_ Hcl _ _ Htk Htm Hk Hh Hp] l xs Hl Hin.
  destruct (ao_lists _ _ _ Ha l) as [Hkl|[P HP]]; [eauto| |].
  - assert (a ∈ xs) as Hx by (unfold chain in Hin; destruct Hkl as [->|[->| ->]]; set_solver).
    destruct Hkl as [->|[->| ->]].
    + rewrite (ki_rs _ _ _ _ _ HK) in Hl. simplify_eq. destruct (kinv_ready_tasks _ _ _ _ _ a HK Hx). congruence.
    + rewrite (ki_ws _ _ _ _ _ HK) in Hl. simplify_eq. destruct (kinv_waiting_tasks _ _ _ _ _ a HK Hx). congruence.
    + rewrite (ki_ts _ _ _ _ _ HK) in Hl. simplify_eq.
      destruct (ki_timers _ _ _ _ _ HK a Hx) as (X & HX & _). congruence.
  - assert (l <> e) as Hne by (intros ->; by apply (Hcl P)).
    destruct (Hh l) as [H1 H2]; [apply elem_of_dom; by exists P; destruct HP|done|].
    apply Hp. exists l, xs. split; [|unfold chain in Hin; set_solver].
    split; [by exists P|]. by apply (reps_dll _ _ (ki_reps _ _ _ _ _ HK)).
Qed.

(** *** A new port *)

Lemma unowned_new Q l a : unowned Q a -> a <> l -> a <> tail l -> unowned (<[l := []]> Q) a.
Proof.
  intros Hu H1 H2 l' xs [[<- <-]|[_ Hl]]%lookup_insert_Some; [unfold chain; set_solver|by eapply Hu].
Qed.

Record new_port (t p : addr) (P : MsgPort) (k : Kernel) : Prop := mkNewPort {
  np_head : loose t p k p;
  np_tail : loose t p k (tail p);
  np_object : is_Some (ports k !! p);
  np_signal : action P = MSGPORT_SIGNAL /\ mp_task P = t /\ is_signals (mp_signal P) }.

Definition opened (p : addr) (P : MsgPort) (h : gmap Z MinNode) (k : Kernel) : Kernel :=
  set_heap (mkHeap h (nodes (heap k))) (set_ports (<[p := P]> (ports k)) k).

Lemma opened_port t k p P h q R : new_port t p P k ->
  open_port (opened p P h k) q R <-> q = p /\ R = P \/ q <> p /\ open_port k q R.
Proof.
  intros [_ _ _ (Hact & _)]. unfold open_port, opened. simpl.
  destruct (decide (q = p)) as [->|Hne].
  - rewrite lookup_insert_eq. split; [intros [[= ->] _]; by left|].
    intros [[_ ->]|[? _]]; [by rewrite Hact|done].
  - rewrite lookup_insert_ne by done. tauto.
Qed.

Lemma opened_ok t k Q rs ws ts p P h : kinv k Q rs ws ts -> app_ok k Q ts -> new_port t p P k ->
  sched_task k t -> reps h (<[p := []]> Q) -> dom h = dom (links (heap k)) ->
  let k' := opened p P h k in
  kinv k' (<[p := []]> Q) rs ws ts /\ app_ok k' (<[p := []]> Q) ts /\
  forall q ys, mail k' q ys <-> if decide (q = p) then ys = [] else mail k q ys.
Proof.
  intros HK Ha Hnp Hs Hh Hd k'. pose proof Hnp as [Hp Htl Hobj (Hact & Htk & Hsig)].
  assert (~ kernel_list p) as Hkp.
  { intros Hkp. apply (lo_kernel _ _ _ _ Hp). destruct Hkp as [->|[->| ->]]; set_solver. }
  assert (app_ok k' (<[p := []]> Q) ts) as Ha'.
  { destruct Ha as [Htm Hown Hnull Hname Hinj Hpo Hli Hsi]. split; try done.
    - intros a X HX. destruct (Htm a X HX) as (Hz & Hta & Hl & Hpl).
      split_and!; [done|done|by apply (same_links k k')|]. destruct Hpl as [?|Hu]; [by left|right].
      simpl in HX. pose proof (lo_timer _ _ _ _ Hp). pose proof (lo_timer _ _ _ _ Htl).
      apply unowned_new; [done|congruence..].
    - intros q R [[-> ->]|[Hne HR]]%(opened_port t); [| |done].
      + split; [done|]. by rewrite lookup_insert_eq.
      + rewrite lookup_insert_ne by done. by apply (Hpo q R).
    - intros l [xs Hl]. destruct (decide (l = p)) as [->|Hne].
      + right. exists P. apply (opened_port t); [done|by left].
      + rewrite lookup_insert_ne in Hl by done. destruct (Hli l) as [?|[R HR]]; [eauto|by left|].
        right. exists R. apply (opened_port t); [done|by right].
    - intros q R [[-> ->]|[Hne HR]]%(opened_port t) HRa; [| |done].
      + destruct (lo_owner _ _ _ _ Hp) as [-> _]. done.
      + by apply (Hsi q R). }
  split_and!; [|done|].
  - eapply kinv_frame; [..|eapply (kinv_list k Q rs ws ts p [] ts h)]; try done.
    1,2: intros ->; apply Hkp; unfold kernel_list; auto.
    + intros u U HU Hu. pose proof (lo_task _ _ _ _ Hp). pose proof (lo_task _ _ _ _ Htl).
      apply unowned_new; [done|congruence..].
    + rewrite lookup_insert_ne; [apply HK|]. intros ->. apply Hkp. unfold kernel_list. auto.
    + apply HK.
    + apply HK.
  - intros q ys. case_decide as Eq.
    + subst q. assert (mail k' p []) as Hm.
      { split; [exists P; apply (opened_port t); [done|by left]|].
        apply (reps_dll _ _ Hh). apply lookup_insert_eq. }
      split; [intros Hy; by apply (mail_fun k' p)|by intros ->].
    + split; intros Hm; destruct (proj1 Hm) as [R HR].
      * pose proof (mail_lookup k' _ q ys Hh (ao_ports _ _ _ Ha') Hm) as E.
        rewrite lookup_insert_ne in E by done.
        apply (opened_port t) in HR as [[? _]|[_ HR]]; [done| |done].
        split; [by exists R|]. by apply (reps_dll _ _ (ki_reps _ _ _ _ _ HK)).
      * pose proof (mail_lookup k Q q ys (ki_reps _ _ _ _ _ HK) (ao_ports _ _ _ Ha) Hm) as E.
        split; [exists R; apply (opened_port t); [done|by right]|].
        apply (reps_dll _ _ Hh). by rewrite lookup_insert_ne.
Qed.

Lemma opened_own t k p P h u S : new_port t p P k -> dom h = dom (links (heap k)) ->
  (forall q ys, mail (opened p P h k) q ys <-> if decide (q = p) then ys = [] else mail k q ys) ->
  (t = u -> p ∈ S) -> own_env u S k (opened p P h k).
Proof.
  intros Hnp Hd Hm HS. destruct (lo_owner _ _ _ _ (np_head _ _ _ _ Hnp)) as [Hp _].
  split; try done.
  - intros a Hau Has. assert (a <> p) as Hne by (intros ->; apply Has, HS; congruence).
    split; [by apply (same_links k (opened p P h k))|constructor|done|by apply lookup_insert_ne|..].
    + intros xs Hx. exists []. rewrite app_nil_r. apply Hm. by rewrite decide_False.
    + intros (q & ys & Hy%Hm & Hin). case_decide; [set_solver|by exists q, ys].
  - intros q R HR. exists R. apply (opened_port t); [done|]. right. split; [|done].
    intros ->. by eapply (lo_closed _ _ _ _ (np_head _ _ _ _ Hnp)).
  - simpl. destruct (np_object _ _ _ _ Hnp) as [R HR]. by eapply dom_insert_lookup_L.
Qed.
End step.

Section ports.
Context `{AP : App} (t : addr).

(** The task stays in thread code when the invariants hold again. *)
Lemma in_thread_list k rs ws ts Q' h : in_thread t k -> sched_ok k rs ->
  let k' := set_heap (mkHeap h (nodes (heap k))) k in
  kinv k' Q' rs ws ts -> app_ok k' Q' ts -> in_thread t k'.
Proof.
  intros [[Hm Hh Hn _ Hi] Hr Hst] Hs k' HK' Ha'. split; [split|done|done]; try done.
  by exists Q', rs, ws, ts.
Qed.

Lemma in_thread_mail k p xs : in_thread t k -> mail k p xs ->
  exists Q rs ws ts P, kinv k Q rs ws ts /\ sched_ok k rs /\ app_ok k Q ts /\
    open_port k p P /\ Q !! p = Some xs.
Proof.
  intros Hit Hm. destruct (in_thread_kinv t k Hit) as (Q & rs & ws & ts & T & HK & Hs & Ha & _).
  destruct (proj1 Hm) as [P HP]. exists Q, rs, ws, ts, P. split_and!; try done.
  eapply mail_lookup; [apply HK|apply Ha|done].
Qed.

Lemma mail_own S k k' p xs : own_env t S k k' -> app_owner p = t -> p ∉ S -> mail k p xs ->
  exists ys, mail k' p (xs ++ ys).
Proof. intros Ho Hp HS. apply (ce_mail _ _ _ (oe_cells _ _ _ _ Ho p Hp HS)). Qed.

(** *** Taking a message

    The port [p] of the task has the signal [m] for itself: other tasks may not
    send it, and no queued timer and no other port of the task sends it. *)
Record mailbox (p m : Z) (k : Kernel) : Prop := mkMailbox {
  mb_owner : app_owner p = t;
  mb_port : exists P, open_port k p P /\ action P = MSGPORT_SIGNAL /\ mp_signal P = 2 ^ m;
  mb_bit : 0 <= m < 16;
  mb_public : Z.testbit (app_public t) m = false;
  mb_timers : forall a X, app_owner a = t -> timer_objs k !! a = Some X ->
    status X = TIMER_ADDED -> Z.testbit (tm_signal X) m = false;
  mb_ports : forall q R, q <> p -> app_owner q = t -> open_port k q R ->
    action R = MSGPORT_SIGNAL -> Z.testbit (mp_signal R) m = false }.

Lemma own_port k k' q : own_env t [] k k' -> app_owner q = t -> ports k' !! q = ports k !! q.
Proof. intros Ho Hq. apply (oe_cells _ _ _ _ Ho q Hq (not_elem_of_nil _)). Qed.

Lemma mailbox_own p m k k' : own_env t [] k k' -> mailbox p m k -> mailbox p m k'.
Proof.
  intros Ho [Hp (P & HP & Ha & Hs) Hm Hpub Htm Hpo]. split; try done.
  - exists P. unfold open_port. by rewrite (own_port k k' p).
  - intros a X Hao HX Hst. eapply Htm; [done| |done]. eapply own_timer_back; [done|done| |done|done].
    set_solver.
  - intros q R Hne Hq [HR Hra] Hact. eapply Hpo; [done|done| |done].
    split; [|done]. by rewrite <- (own_port k k' q).
Qed.

(** The task changes the queue of its port. *)
Lemma mailbox_list p m k h : mailbox p m k -> mailbox p m (set_heap h k).
Proof. by intros []. Qed.

(** [msgport_get] by the owner of the port: [ys] arrived before the message was
    taken, [zs] since. *)
Lemma wpt_msgport_get k0 k p xs (P : Kernel -> addr -> Kernel -> Prop) :
  in_thread t k -> others t k0 k -> app_owner p = t -> mail k p xs ->
  (forall k' ys zs, in_thread t k' -> own_env t [p] k k' ->
    (forall m, mailbox p m k -> mailbox p m k') ->
    mail k' p (drop 1 (xs ++ ys) ++ zs) -> P k' (first NULL (xs ++ ys)) k') ->
  wpt t k0 (msgport_get p) k P.
Proof.
  intros Hit Ho Hp Hx HP. unfold msgport_get.
  eapply wpt_bind, wpt_disable; [done..|]. intros k1 Hit1 _ [Ho1 _].
  destruct (mail_own [] k k1 p xs Ho1 Hp (not_elem_of_nil _) Hx) as [ys Hy].
  destruct (in_thread_mail k1 p _ Hit1 Hy) as (Q & rs & ws & ts & R & HK & Hs & Ha & HR & Hq).
  assert (own_env t [p] k k1) as Ho1' by (eapply own_env_mono; [done|set_solver]).
  assert (forall k2, in_thread t k2 -> others t k1 k2 -> own_env t [p] k1 k2 ->
    (forall m, mailbox p m k1 -> mailbox p m k2) -> mail k2 p (drop 1 (xs ++ ys)) ->
    wpt t k1 (enable;; mret (first NULL (xs ++ ys))) (locked 0 k2) P) as Hend.
  { intros k2 Hit2 Hoth2 Ho2 Hmb2 Hm2. eapply wpt_bind, wpt_leave; [done..|].
    intros k3 Hit3 _ [Ho3 _].
    destruct (mail_own [] k2 k3 p _ Ho3 Hp (not_elem_of_nil _) Hm2) as [zs Hz].
    apply wpt_ret, (HP k3 ys zs); [done| | |done].
    - do 2 (eapply own_env_trans; [done|]). eapply own_env_mono; [done|set_solver].
    - intros m Hmb. eapply mailbox_own; [exact Ho3|]. apply Hmb2. by eapply mailbox_own. }
  pose proof (ki_reps _ _ _ _ _ HK) as Hreps. destruct (xs ++ ys) as [|x rest].
  - eapply wpt_run_bind, wp_list_read; [exact (rem_head_nil _ _ Hreps p Hq)|].
    rewrite (lock_locked t k1) by done. apply Hend; try done; [by apply others_refl|by apply own_env_same].
  - eapply wpt_run_bind, wp_list_step; [exact (rem_head_step _ _ Hreps p x rest Hq)|].
    intros h Hh [Hd _]. set (k2 := set_heap (mkHeap h (nodes (heap k1))) k1).
    destruct (port_list_step k1 Q rs ws ts p R _ rest h HK Ha HR Hq Hh Hd) as (HK2 & Ha2 & Hm2);
      [set_solver|]. fold k2 in HK2, Ha2, Hm2.
    assert (in_thread t k2) as Hit2 by by eapply in_thread_list.
    assert (forall u S, (u = t -> p ∈ S) -> own_env u S k1 k2) as Hown.
    { intros u S Hu. eapply port_list_own; [exact HR|exact Hy|done|exact Hm2| |].
      - intros <- []. by apply Hu.
      - intros y Hin. left. by right. }
    change (set_heap _ (lock k1)) with (lock k2). rewrite (lock_locked t k2) by done.
    apply Hend; [done| |apply Hown; set_solver|intros m; apply mailbox_list|apply Hm2; by rewrite decide_True].
    split; [|done]. intros u Hne. apply env_roused; [by apply Hown|done|done|].
    intros T HT. exists T. split; [done|apply roused_refl].
Qed.

(** *** Waiting for a message *)

(** The signal is received only when a message arrives. *)
Lemma mailbox_signal p m k k' xs : mailbox p m k -> new_signal t k k' m -> mail k p xs ->
  exists y ys, mail k' p (xs ++ y :: ys).
Proof.
  intros [Hp (P & HP & Ha & Hs) Hm Hpub Htm Hpo]
    [?|[(a & X & X' & Hao & HX & _ & Hst & _ & Hb)|(q & R & Hq & HR & Hact & Hb & Hmail)]] Hx.
  - congruence.
  - by rewrite (Htm a X) in Hb.
  - destruct (decide (q = p)) as [->|Hne]; [by apply Hmail|]. by rewrite (Hpo q R) in Hb.
Qed.

Lemma mail_first k p x xs : mail k p (x :: xs) -> get_next p (heap k) = Some (x, heap k).
Proof. intros [_ [_ [E _]]]. unfold get_next. by heap_run. Qed.

(** The loop finds a message. *)
Lemma wpt_msg_some wf fuel k0 k p x xs (P : Kernel -> unit -> Kernel -> Prop) :
  in_thread t k -> mail k p (x :: xs) -> P k0 tt (locked 0 k) ->
  wpt t k0 (msg_loop wf (S fuel) p) (locked 0 k) P.
Proof.
  intros Hit Hx HP. destruct (in_thread_mail k p _ Hit Hx) as (Q & rs & ws & ts & R & HK & _ & _ & _ & Hq).
  cbn [msg_loop]. eapply wpt_run_bind, wp_list_read; [exact (is_empty_run _ _ (ki_reps _ _ _ _ _ HK) p _ Hq)|].
  by apply wpt_ret.
Qed.

(** The loop finds none and waits. *)
Lemma wpt_msg_none wf fuel k0 k p m T (P : Kernel -> unit -> Kernel -> Prop) :
  t <> init_task -> in_thread t k -> others t k0 k -> mailbox p m k -> mail k p [] ->
  tasks k !! t = Some T ->
  (forall k1 k' T' rcvd, in_thread t k' -> others t k1 k' -> tasks k' !! t = Some T' ->
    waited t k k' T T' (2 ^ m) rcvd -> wpt t k1 (msg_loop (S (S wf)) fuel p) (locked 0 k') P) ->
  wpt t k0 (msg_loop (S (S wf)) (S fuel) p) (locked 0 k) P.
Proof.
  intros Ht Hit Ho Hmb Hx HT HP.
  destruct (in_thread_mail k p _ Hit Hx) as (Q & rs & ws & ts & R & HK & _ & _ & HR & Hq).
  destruct (mb_port _ _ _ Hmb) as (R' & HR' & _ & Hs).
  assert (R' = R) as -> by (destruct HR as [HR _], HR' as [HR' _]; congruence). pose proof (mb_bit _ _ _ Hmb) as Hm.
  cbn [msg_loop]. eapply wpt_run_bind, wp_list_read; [exact (is_empty_run _ _ (ki_reps _ _ _ _ _ HK) p _ Hq)|].
  rewrite bool_decide_true by done. eapply wpt_run_bind, wp_load; [exact (proj1 HR)|]. rewrite Hs.
  eapply wpt_bind, (wpt_signal_wait_nested t Ht wf 0 k0 k T); [done|done|done| |lia|].
  - split; [lia|]. apply Z.pow_lt_mono_r; lia.
  - intros k1 rcvd k' T' Hit' HT' Hw Ho'. by eapply HP.
Qed.

(** A message is there at the latest behind the second wait: the first one may
    find the signal of a message that was taken before. *)
Lemma wpt_msg_loop wf fuel k0 k p m xs (P : Kernel -> unit -> Kernel -> Prop) :
  t <> init_task -> in_thread t k -> others t k0 k -> mailbox p m k -> mail k p xs ->
  (forall k1 k' x ys, in_thread t k' -> others t k1 k' -> own_env t [] k k' ->
    mail k' p (x :: ys) -> xs `prefix_of` x :: ys -> P k1 tt (locked 0 k')) ->
  wpt t k0 (msg_loop (S (S wf)) (S (S (S fuel))) p) (locked 0 k) P.
Proof.
  intros Ht Hit Ho Hmb Hx HP. pose proof (mb_owner _ _ _ Hmb) as Hp.
  destruct xs as [|x xs].
  2: { eapply wpt_msg_some; [done|exact Hx|]. eapply (HP k0 k x xs); try done. by apply own_env_same. }
  destruct (in_thread_lookup t k Hit) as [T HT].
  eapply (wpt_msg_none wf _ k0 k p m T); [done..|]. intros k1 k2 T2 rcvd Hit2 Ho2 HT2 Hw2.
  pose proof (wd_own _ _ _ _ _ _ _ Hw2) as Hoe2.
  destruct (mail_own [] k k2 p _ Hoe2 Hp (not_elem_of_nil _) Hx) as [[|x ys] Hx2]; simpl in Hx2.
  2: { eapply wpt_msg_some; [done|exact Hx2|]. eapply (HP k1 k2 x ys); try done. apply prefix_nil. }
  pose proof (mailbox_own p m k k2 Hoe2 Hmb) as Hmb2. pose proof (mb_bit _ _ _ Hmb) as Hm.
  eapply (wpt_msg_none wf _ k1 k2 p m T2); [done..|]. intros k3 k4 T4 rcvd4 Hit4 Ho4 HT4 Hw4.
  pose proof (wd_own _ _ _ _ _ _ _ Hw4) as Hoe4.
  assert (Z.testbit rcvd4 m = true) as Hb4.
  { pose proof (wd_sub _ _ _ _ _ _ _ Hw4) as E. rewrite land_pow2 in E by lia.
    destruct (Z.testbit rcvd4 m); [done|]. by destruct (wd_some _ _ _ _ _ _ _ Hw4). }
  assert (new_signal t k2 k4 m) as Hnew.
  { destruct (wd_new _ _ _ _ _ _ _ Hw4 m Hb4) as [Hi|?]; [|done]. exfalso.
    assert (new_signal t k k2 m) as Hn2.
    { apply (wd_left _ _ _ _ _ _ _ Hw2); [apply Z.pow2_bits_true; lia|done]. }
    destruct (mailbox_signal p m k k2 [] Hmb Hn2 Hx) as (y & ys & Hy).
    by pose proof (mail_fun k2 p _ _ Hx2 Hy). }
  destruct (mailbox_signal p m k2 k4 [] Hmb2 Hnew Hx2) as (y & ys & Hy).
  eapply wpt_msg_some; [done|exact Hy|]. eapply (HP k3 k4 y ys); try done; [|apply prefix_nil].
  by eapply own_env_trans.
Qed.

Lemma wpt_msgport_wait wf fuel k0 k p m xs (P : Kernel -> addr -> Kernel -> Prop) :
  t <> init_task -> in_thread t k -> others t k0 k -> mailbox p m k -> mail k p xs ->
  (forall k' x ys, in_thread t k' -> own_env t [] k k' ->
    mail k' p (x :: ys) -> xs `prefix_of` x :: ys -> P k' x k') ->
  wpt t k0 (msgport_wait (S (S wf)) (S (S (S fuel))) p) k P.
Proof.
  intros Ht Hit Ho Hmb Hx HP. pose proof (mb_owner _ _ _ Hmb) as Hp. unfold msgport_wait.
  eapply wpt_bind, wpt_disable; [done..|]. intros k1 Hit1 _ [Ho1 _].
  destruct (mail_own [] k k1 p xs Ho1 Hp (not_elem_of_nil _) Hx) as [ys Hy].
  rewrite (lock_locked t k1) by done.
  eapply wpt_bind, (wpt_msg_loop wf fuel k1 k1 p m (xs ++ ys));
    [done|done|by apply others_refl|by eapply mailbox_own|done|].
  intros k2 k3 x zs Hit3 Ho3 Hoe3 Hm3 [vs Evs].
  eapply wpt_run_bind, wp_list_read; [exact (mail_first k3 p x zs Hm3)|].
  eapply wpt_bind, wpt_leave; [done..|]. intros k4 Hit4 _ [Ho4 _].
  destruct (mail_own [] k3 k4 p _ Ho4 Hp (not_elem_of_nil _) Hm3) as [us Hu].
  apply wpt_ret, (HP k4 x (zs ++ us)); [done| |done|].
  - do 2 (eapply own_env_trans; [done|]). done.
  - exists (ys ++ vs ++ us). rewrite app_comm_cons, Evs. by rewrite !app_assoc.
Qed.

(** *** Setting up a port *)

Definition port_state (m : Z) (R : MsgPort) : MsgPort :=
  set_mp_task t (set_action MSGPORT_SIGNAL (set_mp_signal (2 ^ m) R)).

Lemma opened_mailbox k k1 p m R h T : delay_ok t k T -> own_env t [] k k1 ->
  0 <= m < 16 -> Z.testbit (sig_alloc T) m = false ->
  new_port t p (port_state m R) k1 -> mailbox p m (opened p (port_state m R) h k1).
Proof.
  intros [Hsp _] Ho Hm Hb Hnp. destruct (Hsp m Hb) as (Hpub & Htm & Hpo).
  pose proof (silent_own t [] k k1 m Ho) as Hpo1. specialize (Hpo1 ltac:(set_solver) Hpo).
  split; try done.
  - apply (lo_owner _ _ _ _ (np_head _ _ _ _ Hnp)).
  - exists (port_state m R). split; [|done]. apply (opened_port t); [done|by left].
  - intros a X Hao HX Hst. eapply Htm; [done| |done].
    eapply own_timer_back; [exact Ho|done|set_solver|exact HX|done].
  - intros q R' Hne Hq [[? _]|[_ HR']]%(opened_port t) Hact; [done|by apply (Hpo1 q R')|done].
Qed.

Lemma wpt_msgport_init k0 k p T (P : Kernel -> unit -> Kernel -> Prop) :
  in_thread t k -> others t k0 k -> tasks k !! t = Some T -> delay_ok t k T ->
  is_Some (ports k !! p) -> loose t p k p -> loose t p k (tail p) ->
  (forall k1 k' T' m, in_thread t k' -> others t k1 k' -> own_env t [p] k k' ->
    mailbox p m k' -> mail k' p [] -> Z.testbit (sig_alloc T) m = false ->
    tasks k' !! t = Some T' -> sig_alloc T' = Z.lor (sig_alloc T) (2 ^ m) -> P k1 tt k') ->
  wpt t k0 (msgport_init p) k P.
Proof.
  intros Hit Ho HT Hdo Hobj Hlp Hlt HP. unfold msgport_init.
  destruct (alloc_any _ (do_free _ _ _ Hdo)) as (m & Hm & Hmf & E).
  eapply wpt_bind, (wpt_signal_allocate t k0 k T); [done..|unfold SIGNALS_WIDTH; lia|].
  intros k1 T1 Hit1 _ HT1 Hoe1 Ha1 _ _. rewrite E in *. cbn [fst snd] in *.
  eapply wpt_run_bind, wp_assert; [apply negb_true_iff, Z.eqb_neq; lia|].
  rewrite uwrap_pow2 by done.
  apply (loose_own t p k k1) in Hlp, Hlt; [|done..].
  assert (is_Some (ports k1 !! p)) as [R HR].
  { apply elem_of_dom. rewrite (oe_ports _ _ _ _ Hoe1). by apply elem_of_dom. }
  do 2 (eapply wpt_run_bind, wp_upd_port; [simpl; rewrite ?lookup_insert_eq; done|]).
  eapply wpt_run_bind, wp_gets, wpt_run_bind, wp_upd_port; [simpl; rewrite lookup_insert_eq; done|].
  simpl. rewrite !insert_insert_eq, (it_running _ _ Hit1). fold (port_state m R).
  destruct (in_thread_kinv t k1 Hit1) as (Q & rs & ws & ts & _ & HK & Hs & Ha & _).
  assert (new_port t p (port_state m R) k1) as Hnp.
  { split; [done|done|eauto|]. split_and!; [done|done|]. split; [simpl; lia|].
    apply Z.pow_lt_mono_r; simpl; lia. }
  destruct (lo_link _ _ _ _ Hlp) as [c1 Hc1]. destruct (lo_link _ _ _ _ Hlt) as [c2 Hc2].
  assert (forall a, unowned Q a -> unowned (delete p Q) a) as Hdel.
  { intros a Hu l xs [_ Hl]%lookup_delete_Some. by eapply Hu. }
  eapply wpt_run; [|intros a k' H; exact H]. eapply wp_list_step.
  { eapply (init_step _ Q (ki_reps _ _ _ _ _ HK) p); [exact Hc1|exact Hc2|apply Hlp|apply Hlt|..];
      by apply Hdel; eapply loose_unowned. }
  intros h Hh [Hd _]. change (wpt t k0) with (wpt t k0).
  pose proof (opened_ok t k1 Q rs ws ts p _ h HK Ha Hnp (in_thread_sched _ _ Hit1) Hh Hd)
    as (HK2 & Ha2 & Hm2).
  match goal with |- P _ _ ?x => change x with (opened p (port_state m R) h k1) end.
  set (k2 := opened p (port_state m R) h k1) in *.
  assert (forall u S, (t = u -> p ∈ S) -> own_env u S k1 k2) as Hown
    by (intros u S; by apply opened_own).
  apply (HP k1 k2 T1 m); try done.
  - destruct Hit1 as [[? ? ? _ ?] ? ?]. split; [split|done|done]; try done.
    by exists (<[p := []]> Q), rs, ws, ts.
  - split; [|done]. intros u Hne. apply env_roused; [apply Hown; congruence|done|done|].
    intros U HU. exists U. split; [done|apply roused_refl].
  - eapply own_env_trans; [eapply own_env_mono; [done|set_solver]|]. apply Hown. set_solver.
  - by eapply opened_mailbox.
  - apply Hm2. by rewrite decide_True.
Qed.

(** *** Sending a message *)

(** The owner of the port is signalled, or not. *)
Definition signalled (k : Kernel) (Q : Queues) (rs ws : list Z) (R : MsgPort) (k' : Kernel) : Prop :=
  if bool_decide (action R = MSGPORT_SIGNAL) then
    exists U, tasks k !! mp_task R = Some U /\ scheduled (state U) = true /\
      sent k Q rs ws (mp_task R) U (mp_signal R) k'
  else k' = k.

(** What the other tasks and the task itself see of the two steps. *)
Lemma posted_own k Q rs ws ts p R xs m h k' u S : kinv k Q rs ws ts -> app_ok k Q ts ->
  open_port k p R -> mail k p xs -> dom h = dom (links (heap k)) ->
  let k2 := set_heap (mkHeap h (nodes (heap k))) k in
  let Q2 := <[p := xs ++ [m]]> Q in
  kinv k2 Q2 rs ws ts -> app_ok k2 Q2 ts ->
  (forall q ys, mail k2 q ys <-> if decide (q = p) then ys = xs ++ [m] else mail k q ys) ->
  signalled (lock k2) Q2 rs ws R k' -> (app_owner m = u -> m ∈ S) ->
  own_env u S k k' /\ kept_mail k2 k'.
Proof.
  intros HK Ha HR Hx Hd k2 Q2 HK2 Ha2 Hm2 Hs HS.
  assert (own_env u S k k2) as Ho2.
  { eapply port_list_own; [done..| |].
    - intros _ _. by exists [m].
    - intros a [?| ->%list_elem_of_singleton]%elem_of_app; [by left|by right]. }
  unfold signalled in Hs. case_bool_decide as Hact.
  - destruct Hs as (U & HU & HUs & Hsent). destruct (ao_signal _ _ _ Ha p R HR Hact) as (_ & Hsig & _).
    destruct (sent_own (lock k2) Q2 rs ws ts (mp_task R) U (mp_signal R) k' u S) as [Ho Hm]; try done.
    + by eapply kinv_frame; [..|exact HK2].
    + by destruct Ha2.
    + split; [|by eapply kept_trans; [|exact Hm]].
      eapply own_env_trans; [exact Ho2|]. eapply own_env_trans; [|exact Ho]. by apply own_env_same.
  - subst k'. split; [|done]. eapply own_env_trans; [done|]. by apply own_env_same.
Qed.

Lemma posted_env k Q rs ws ts p R xs m h k' u : kinv k Q rs ws ts -> app_ok k Q ts ->
  open_port k p R -> mail k p xs -> dom h = dom (links (heap k)) ->
  let k2 := set_heap (mkHeap h (nodes (heap k))) k in
  let Q2 := <[p := xs ++ [m]]> Q in
  kinv k2 Q2 rs ws ts -> app_ok k2 Q2 ts ->
  (forall q ys, mail k2 q ys <-> if decide (q = p) then ys = xs ++ [m] else mail k q ys) ->
  signalled (lock k2) Q2 rs ws R k' -> app_owner m <> u -> env u k k'.
Proof.
  intros HK Ha HR Hx Hd k2 Q2 HK2 Ha2 Hm2 Hs Hne.
  destruct (posted_own k Q rs ws ts p R xs m h k' u []) as [Ho Hm]; try done.
  unfold signalled in Hs. case_bool_decide as Hact.
  - destruct Hs as (U & HU & HUs & Hsent). destruct (ao_signal _ _ _ Ha p R HR Hact) as (Eow & _ & _).
    pose proof (sent_same _ _ _ _ _ _ _ _ Hsent) as [_ Hr _ _ _ Hp _].
    apply env_roused; [done|done|done|]. intros T HT.
    rewrite (sent_tasks _ _ _ _ _ _ _ _ HU Hsent).
    destruct (deliver_roused (mp_task R) (mp_signal R) _ u T HT) as (T' & HT' & Hro).
    exists T'. split; [done|]. eapply roused_mono; [|done]. intros i [<- Hb]. right. right.
    exists p, R. split_and!; try done. intros ys Hy. rewrite (mail_fun k p ys xs) by done.
    exists m, []. apply (km_mail _ _ Hm), Hm2. by rewrite decide_True.
  - subst k'. apply env_roused; [done|done|done|].
    intros T HT. exists T. split; [done|apply roused_refl].
Qed.

(** The rest of the critical section of [msgport_send], behind the queue. *)
Lemma run_notify k Q rs ws ts p R :
  in_thread t k -> kinv k Q rs ws ts -> sched_ok k rs -> app_ok k Q ts -> open_port k p R ->
  exists k', (if negb (NULL =? mp_task R) && bool_decide (MSGPORT_SIGNAL = action R)
      then signal_send (mp_task R) (mp_signal R) else mret tt) (lock k) = Ret tt k' /\
    signalled (lock k) Q rs ws R k' /\
    tasks k' = (if bool_decide (action R = MSGPORT_SIGNAL)
      then deliver (mp_task R) (mp_signal R) (tasks k) else tasks k) /\
    ports k' = ports k /\ id_nestcnt k' = 0 /\ in_thread t (unlock k').
Proof.
  intros Hit HK Hs Ha HR.
  assert (kinv (lock k) Q rs ws ts) as HKl by by eapply kinv_frame; [..|exact HK].
  assert (app_ok (lock k) Q ts) as Hal by by destruct Ha.
  unfold signalled. rewrite (bool_decide_ext (action R = _) (MSGPORT_SIGNAL = action R)) by done.
  case_bool_decide as Hact.
  - destruct (ao_signal _ _ _ Ha p R HR) as (E & Hsig & U & HU & HUs); [done|].
    rewrite <- E in HU. pose proof (twf_nonnull _ _ _ _ _ _ (ki_tasks _ _ _ _ _ HK _ _ HU)) as Hz.
    replace (negb (NULL =? mp_task R)) with true by (symmetry; apply negb_true_iff, Z.eqb_neq; congruence).
    assert (run (signal_send (mp_task R) (mp_signal R)) (lock k)
      (fun _ k' => sent (lock k) Q rs ws (mp_task R) U (mp_signal R) k')) as ([] & k' & Er & Hk').
    { apply wp_run. eapply wp_signal_send; [by apply (in_thread_calm t)| |exact HKl|exact HU|done|done].
      simpl. rewrite (qu_nest _ (it_quiescent _ _ Hit)). lia. }
    exists k'. destruct (sent_end t k Q rs ws ts (mp_task R) U (mp_signal R) k')
      as (? & ? & ? & (Q' & rs' & ws' & ? & ? & ?) & ? & ?); try done; [apply (it_quiescent _ _ Hit)|].
    split_and!; [done|by exists U|by rewrite (sent_tasks (lock k) _ _ _ _ _ _ _ HU Hk')| |done|].
    + by destruct (sent_same (lock k) _ _ _ _ _ _ _ Hk') as [_ _ _ _ _ _ (_ & _ & ? & _)].
    + by apply (critical_thread t k' Q' rs' ws' ts).
  - rewrite andb_false_r. exists (lock k). split_and!; try done.
    + simpl. by rewrite (qu_nest _ (it_quiescent t _ Hit)).
    + rewrite (lock_locked t k) by done. by rewrite (unlock_locked t).
Qed.

(** What the critical section of [msgport_send] does: [m] is behind all messages
    of [p], and the owner of the port has its signal if the port signals. *)
Record sent_mail (p m : addr) (k k' : Kernel) : Prop := mkSentMail {
  st_port : exists R xs, open_port k p R /\ mail k p xs /\ mail k' p (xs ++ [m]) /\
    tasks k' = (if bool_decide (action R = MSGPORT_SIGNAL)
      then deliver (mp_task R) (mp_signal R) (tasks k) else tasks k);
  st_other : forall q ys, q <> p -> mail k' q ys <-> mail k q ys;
  st_ports : ports k' = ports k;
  st_own : own_env t [m] k k';
  st_others : others t k k' }.

(** The state behind [msgport_send]'s queue operation. *)
Lemma run_post k p R m : in_thread t k -> open_port k p R -> loose t m k m ->
  exists k3, (listop (list_add_tail p m);;
      if negb (NULL =? mp_task R) && bool_decide (MSGPORT_SIGNAL = action R)
      then signal_send (mp_task R) (mp_signal R) else mret tt) (lock k) = Ret tt k3 /\
    id_nestcnt k3 = 0 /\ in_thread t (unlock k3) /\ sent_mail p m k (unlock k3).
Proof.
  intros Hit HR Hlo. destruct (in_thread_kinv t k Hit) as (Q & rs & ws & ts & T & HK & Hs & Ha & _).
  destruct (mail_queue k Q p R (ki_reps _ _ _ _ _ HK) (ao_ports _ _ _ Ha) HR) as (xs & Hq & Hx).
  destruct (add_tail_step _ _ (ki_reps _ _ _ _ _ HK) p xs m Hq) as (h & E & Hh & Hd & _).
  { split; [apply Hlo..|]. by eapply loose_unowned. }
  set (k2 := set_heap (mkHeap h (nodes (heap k))) k).
  assert (forall x, x ∈ xs ++ [m] -> x ∈ xs \/ tasks k !! x = None /\ timer_objs k !! x = None) as Hnew.
  { intros x [?| ->%list_elem_of_singleton]%elem_of_app; [by left|right]. by destruct Hlo. }
  destruct (port_list_step k Q rs ws ts p R xs _ h HK Ha HR Hq Hh Hd Hnew) as (HK2 & Ha2 & Hm2).
  fold k2 in HK2, Ha2, Hm2. destruct (lo_owner _ _ _ _ Hlo) as [Hmo _].
  assert (in_thread t k2) as Hit2 by by eapply (in_thread_list k).
  destruct (run_notify k2 (<[p:=xs ++ [m]]> Q) rs ws ts p R) as (k3 & E3 & Hk3 & Ht3 & Hp3 & Hn3 & Hit3);
    [done..|].
  exists k3. split; [|split; [done|split; [done|]]].
  { rewrite (run_bind _ _ (lock k) tt (lock k2)); [done|]. unfold listop. simpl. by rewrite E. }
  destruct (posted_own k Q rs ws ts p R xs m h k3 t [m]) as [Ho3 Hm3]; try done; [set_solver|].
  assert (forall u S, env u k3 (unlock k3) /\ own_env u S k3 (unlock k3) /\ kept_mail k3 (unlock k3)) as Hun.
  { intros u S. rewrite unlock_outer by done. by split_and!; [apply env_same|apply own_env_same|]. }
  destruct (Hun t [m]) as (_ & Hou & Hku). split.
  - exists R, xs. split_and!; [done|done| |rewrite unlock_outer by done; exact Ht3].
    apply (km_mail _ _ Hku), (km_mail _ _ Hm3), Hm2. by rewrite decide_True.
  - intros q ys Hne. transitivity (mail k2 q ys); [|by rewrite Hm2, decide_False].
    transitivity (mail k3 q ys); symmetry; [apply (km_mail _ _ Hku)|apply (km_mail _ _ Hm3)].
  - rewrite unlock_outer by done. exact Hp3.
  - by eapply own_env_trans.
  - split; [|rewrite unlock_outer by done; apply Ho3]. intros u Hne. eapply env_trans; [|apply (Hun u [])].
    eapply (posted_env k Q rs ws ts p R xs m h k3 u); try done. congruence.
Qed.

Lemma window_first {A B} (f : unit -> M A) (g : A -> M B) k : interruptible k = true ->
  ((irq_window ≫= f) ≫= g) k = Preempt k (fun k' => (f tt ≫= g) k').
Proof. intros Hi. unfold mbind, M_bind, irq_window. by rewrite Hi. Qed.

(** [msgport_send]: a place for interrupts, a critical section, and another one. *)
Lemma msgport_send_steps k p m R : in_thread t k -> open_port k p R -> loose t m k m ->
  exists r, msgport_send p m k = Preempt k r /\ forall k1, resumed t k k1 ->
    exists k2, r k1 = Preempt k2 (fun k' => Ret tt k') /\ in_thread t k2 /\ sent_mail p m k1 k2.
Proof.
  intros Hit HR Hlo. pose proof (quiescent_interruptible k (it_quiescent _ _ Hit)) as Hir.
  unfold msgport_send, disable. rewrite window_first by done.
  eexists. split; [reflexivity|]. intros k1 Hk1. cbv beta.
  assert (in_thread t k1) as Hit1 by (eapply resumed_in_thread; [apply Hit|done]).
  pose proof (env_own _ _ _ (res_env _ _ _ Hk1)) as Ho1.
  destruct (oe_open _ _ _ _ Ho1 p R HR) as [R1 HR1]. apply (loose_own t m k k1) in Hlo; [|done].
  assert ((__disable_irq;; add_nestcnt 1) k1 = Ret tt (lock k1)) as E1.
  { pose proof (qu_nest _ (it_quiescent _ _ Hit1)) as Hn.
    destruct (wp_run (add_nestcnt 1) (set_primask true k1) (fun _ k' => k' = lock k1)) as [Hw _].
    destruct Hw as ([] & k' & E & ->); [|exact E].
    apply wp_add_nestcnt; [simpl; rewrite Hn; lia|done]. }
  rewrite (run_bind _ _ _ _ _ E1).
  destruct (run_post k1 p R1 m Hit1 HR1 Hlo) as (k3 & E3 & Hn3 & Hit3 & Hst3).
  exists (unlock k3). split; [|done].
  rewrite (run_bind _ _ _ R1 (lock k1)) by (unfold load; simpl; by rewrite (proj1 HR1)).
  rewrite (run_bind _ _ _ tt (lock k1)).
  2: { destruct HR1 as [_ Ha]. by destruct (action R1). }
  pose proof (enable_outer k3 Hn3 (quiescent_interruptible _ (it_quiescent _ _ Hit3))) as Ee.
  rewrite <- Ee. revert E3. unfold mbind, M_bind.
  destruct (listop (list_add_tail p m) (lock k1)) as [[] k4| | | |]; simpl; try done.
  by intros ->.
Qed.

Lemma wpt_msgport_send k0 k p m (P : Kernel -> unit -> Kernel -> Prop) :
  in_thread t k -> others t k0 k -> (exists R, open_port k p R) -> loose t m k m ->
  (forall k1 k2 k', resumed t k k1 -> sent_mail p m k1 k2 -> resumed t k2 k' -> in_thread t k' ->
    P k' tt k') ->
  wpt t k0 (msgport_send p m) k P.
Proof.
  intros Hit Ho [R HR] Hlo HP. destruct (msgport_send_steps k p m R Hit HR Hlo) as (r & E & Hr).
  unfold wpt. rewrite E. simpl. split; [done|]. left. split; [apply Hit|]. intros k1 Hk1.
  destruct (Hr k1 Hk1) as (k2 & -> & Hit2 & Hst). simpl. split; [apply Hst|]. left.
  split; [apply Hit2|]. intros k' Hk'. eapply HP; [done..|].
  eapply resumed_in_thread; [apply Hit2|done].
Qed.
End ports.

(** ** The contract *)

(** C6. [msgport_wait] in thread code, called by the owner of a port that has a
    signal for itself, under any interrupts and any behaviour of the other tasks
    that keeps the system invariant: it meets no undefined behaviour, its loop
    calls [signal_wait] at most twice, and it returns, with interrupts enabled,
    the first message of the port, which stays in the queue; the messages that
    were there at the call are still there in their order, and nothing else the
    task owns has changed but by its environment. *)
Theorem msgport_wait_returns `{AP : App} wf fuel t k p m xs :
  t <> init_task -> in_thread t k -> mailbox t p m k -> mail k p xs ->
  wpt t k (msgport_wait (S (S wf)) (S (S (S fuel))) p) k (fun _ x k' =>
    in_thread t k' /\ own_env t [] k k' /\
    exists ys, mail k' p (x :: ys) /\ xs `prefix_of` x :: ys).
Proof.
  intros Ht Hit Hmb Hx. eapply (wpt_msgport_wait t wf fuel k k p m xs); try done.
  - by apply others_refl.
  - intros k' x ys ????. split_and!; eauto.
Qed.

(** C7. [msgport_send] in thread code, to a port that is set up, of a message of
    the task that is in no port.  It meets no undefined behaviour and no failing
    assertion, and it is one atomic step between two places where interrupts and
    other tasks may run: from any state [k1] in which it is resumed behind the first
    place, it goes, with interrupts disabled, to a state [k2] in which the message is
    behind all those that are in the port in [k1] and, if and only if the port has
    the action [MSGPORT_SIGNAL], the task of the port has been sent the signal of the
    port, and woken if it waits for it; no other port, task or queue of messages
    changes, nothing the sender owns but the message does, the other tasks keep what
    they rely on, and the system invariant holds again.  Behind [k2] it returns. *)
Theorem msgport_send_delivers `{AP : App} t k p m R :
  in_thread t k -> open_port k p R -> loose t m k m ->
  wpt t k (msgport_send p m) k (fun _ _ k' => in_thread t k') /\
  exists r, msgport_send p m k = Preempt k r /\ forall k1, resumed t k k1 ->
    exists k2 R1 xs, r k1 = Preempt k2 (fun k' => Ret tt k') /\ in_thread t k2 /\
      open_port k1 p R1 /\ mail k1 p xs /\ mail k2 p (xs ++ [m]) /\
      tasks k2 = (if bool_decide (action R1 = MSGPORT_SIGNAL)
        then deliver (mp_task R1) (mp_signal R1) (tasks k1) else tasks k1) /\
      (forall q ys, q <> p -> mail k2 q ys <-> mail k1 q ys) /\ ports k2 = ports k1 /\
      own_env t [m] k1 k2 /\ others t k1 k2.
Proof.
  intros Hit HR Hlo. split.
  - eapply wpt_msgport_send; [done|by apply others_refl|by exists R|done|done].
  - destruct (msgport_send_steps t k p m R Hit HR Hlo) as (r & E & Hr). exists r. split; [done|].
    intros k1 Hk1. destruct (Hr k1 Hk1) as (k2 & Er & Hit2 & [(R1 & xs & ? & ? & ? & ?) ????]).
    by exists k2, R1, xs.
Qed.

(** C22. [msgport_init] in thread code, under any interrupts and behaviour of the
    other tasks, of a port in memory of the task that is not set up: no assertion
    fails, and the port is then open and empty, signals the task with a signal that
    was free and is now allocated and that nothing else can send the task. *)
Theorem msgport_init_opens `{AP : App} t k p T :
  in_thread t k -> tasks k !! t = Some T -> delay_ok t k T ->
  is_Some (ports k !! p) -> loose t p k p -> loose t p k (tail p) ->
  wpt t k (msgport_init p) k (fun k1 _ k' =>
    in_thread t k' /\ others t k1 k' /\ own_env t [p] k k' /\ mail k' p [] /\
    exists m T', mailbox t p m k' /\ Z.testbit (sig_alloc T) m = false /\
      tasks k' !! t = Some T' /\ sig_alloc T' = Z.lor (sig_alloc T) (2 ^ m)).
Proof.
  intros Hit HT Hdo Hobj Hp Htl.
  eapply (wpt_msgport_init t k k p T); [done|by apply others_refl|done..|].
  intros k1 k' T' m ????????. split_and!; eauto 10.
Qed.

(** A server: it waits for a message and takes one, [n] times over.  Each round
    gives what [msgport_wait] and what [msgport_get] returned. *)
Fixpoint receive (wf fuel : nat) (p : addr) (n : nat) : M (list (addr * addr)) :=
  match n with
  | O => mret []
  | S n =>
      x ← msgport_wait wf fuel p;
      y ← msgport_get p;
      rest ← receive wf fuel p n;
      mret ((x, y) :: rest)
  end.

Section server.
Context `{AP : App} (t : addr).

Lemma mail_nonnull k p x xs : mail k p (x :: xs) -> x <> NULL.
Proof. intros [_ [[Hn _]%NoDup_cons _]]. unfold chain in Hn. set_solver. Qed.

(** One round: the head of the queue is taken, the rest stays in its order. *)
Lemma wpt_round {A} wf fuel k0 k p m xs (rest : addr -> addr -> M A) P :
  t <> init_task -> in_thread t k -> others t k0 k -> mailbox t p m k -> mail k p xs ->
  (forall k' x ys, in_thread t k' -> own_env t [p] k k' -> mailbox t p m k' -> x <> NULL ->
    mail k' p ys -> xs `prefix_of` x :: ys -> wpt t k' (rest x x) k' P) ->
  wpt t k0 (x ← msgport_wait (S (S wf)) (S (S (S fuel))) p; y ← msgport_get p; rest x y) k P.
Proof.
  intros Ht Hit Ho Hmb Hx HP. pose proof (mb_owner _ _ _ _ Hmb) as Hp.
  eapply wpt_bind, (wpt_msgport_wait t wf fuel k0 k p m xs); try done.
  intros k1 x ys Hit1 Hoe1 Hm1 Hpre.
  eapply wpt_bind, (wpt_msgport_get t k1 k1 p (x :: ys)); [done|by apply others_refl|done..|].
  intros k2 us zs Hit2 Hoe2 Hmb2 Hm2. simpl in Hm2. rewrite drop_0 in Hm2.
  eapply (HP k2 x); [done| | |by eapply mail_nonnull|exact Hm2|].
  - eapply own_env_trans; [eapply own_env_mono; [done|set_solver]|done].
  - by apply Hmb2, (mailbox_own t p m k k1).
  - etrans; [exact Hpre|]. rewrite <- app_assoc. by exists (us ++ zs).
Qed.

Lemma wpt_receive wf fuel p m n : t <> init_task -> forall k0 k xs P,
  in_thread t k -> others t k0 k -> mailbox t p m k -> mail k p xs ->
  (forall k1 k' ms ys, in_thread t k' -> others t k1 k' -> own_env t [p] k k' ->
    mailbox t p m k' -> length ms = n -> NULL ∉ ms -> mail k' p ys -> xs `prefix_of` ms ++ ys ->
    P k1 ((fun x => (x, x)) <$> ms) k') ->
  wpt t k0 (receive (S (S wf)) (S (S (S fuel))) p n) k P.
Proof.
  intros Ht. induction n as [|n IH]; intros k0 k xs P Hit Ho Hmb Hx HP; cbn [receive].
  - apply wpt_ret, (HP k0 k [] xs); try done; [by apply own_env_same|set_solver].
  - eapply (wpt_round wf fuel k0 k p m xs); [done..|].
    intros k1 x ys Hit1 Hoe1 Hmb1 Hnx Hm1 Hpre. eapply wpt_bind, IH; [done|by apply others_refl|done..|].
    intros k2 k3 ms zs Hit3 Ho3 Hoe3 Hmb3 Hlen Hnull Hm3 Hpre3.
    apply wpt_ret, (HP k2 k3 (x :: ms) zs); try done.
    + by eapply own_env_trans.
    + by rewrite <- Hlen.
    + set_solver.
    + etrans; [exact Hpre|]. simpl. by apply prefix_cons.
Qed.
End server.


(** ** Concrete cells and ports *)

Definition loose_check `{AP : App} (t e : addr) (k : Kernel) (Q : Queues) (a : addr) : Prop :=
  (app_owner a = t /\ app_owner e = t) /\
  (match ports k !! e with Some P => action P = MSGPORT_INVALID | None => True end) /\
  is_Some (links (heap k) !! a) /\ a <> NULL /\ tasks k !! a = None /\ timer_objs k !! a = None /\
  (a ∉ [ready; tail ready; waiting; tail waiting; timers; tail timers]) /\
  map_Forall (fun q _ => q <> e -> a <> q /\ a <> tail q) (ports k) /\
  map_Forall (fun _ xs => a ∉ xs) Q.

#[local] Instance loose_check_dec `{AP : App} t e k Q a : Decision (loose_check t e k Q a).
Proof. unfold loose_check. destruct (ports k !! e); apply _. Defined.

Lemma loose_check_sound `{AP : App} t e k Q rs ws ts a : kinv k Q rs ws ts -> app_ok k Q ts ->
  loose_check t e k Q a -> loose t e k a.
Proof.
  intros HK Ha (Ho & Hcl & Hl & Hz & Htk & Htm & Hk & Hh & Hp). split; try done.
  - intros P [HP Hact]. by rewrite HP in Hcl.
  - intros q [P HP]%elem_of_dom. by apply (Hh q P HP).
  - intros (q & xs & Hm & Hin).
    apply (Hp q xs); [|done]. eapply mail_lookup; [apply HK|apply Ha|done].
Qed.

(** The state [demo_blocked] with the port [demo_mbox] of the running task. *)
Definition demo_open : Kernel := Eval vm_compute in
  state_after (msgport_init demo_mbox) demo_blocked.

Definition demo_open_Q : Queues :=
  {[ready := [init_task]; waiting := [demo_b]; timers := []; demo_port := []; demo_mbox := []]}.

Lemma demo_open_kinv : kinv demo_open demo_open_Q [init_task] [demo_b] [].
Proof. check_kinv. Qed.

Lemma demo_open_app : app_ok demo_open demo_open_Q [].
Proof. check_app. Qed.

Lemma demo_open_thread : in_thread demo_a demo_open.
Proof.
  split; [split; [reflexivity..| |]|reflexivity|].
  - exists demo_open_Q, [init_task], [demo_b], [].
    split_and!; [exact demo_open_kinv| |exact demo_open_app].
    right. apply Forall_forall, (bool_decide_unpack _). vm_compute. exact I.
  - eexists. split; [vm_compute; reflexivity|]. left. reflexivity.
  - apply (bool_decide_unpack _). vm_compute. exact I.
Qed.

(** The port [p] is the only one of the task, and no timer is queued. *)
Lemma only_mailbox `{AP : App} t p m k P : app_owner p = t -> ports k !! p = Some P ->
  action P = MSGPORT_SIGNAL -> mp_signal P = 2 ^ m -> 0 <= m < 16 ->
  Z.testbit (app_public t) m = false ->
  map_Forall (fun _ X => status X <> TIMER_ADDED) (timer_objs k) ->
  map_Forall (fun q _ => q <> p -> app_owner q <> t) (ports k) -> mailbox t p m k.
Proof.
  intros Hp HP Ha Hs Hm Hpub Htm Hpo. split; try done.
  - exists P. split_and!; [split; [done|by rewrite Ha]|done..].
  - intros a X _ HX Hst. by destruct (Htm a X HX).
  - intros q R Hne Hq [HR _] _. by destruct (Hpo q R HR Hne).
Qed.

Lemma demo_open_mailbox : mailbox demo_a demo_mbox 15 demo_open.
Proof.
  apply (only_mailbox _ _ _ _ (mkPort demo_a 32768 MSGPORT_SIGNAL)); try done;
    apply (bool_decide_unpack _); vm_compute; exact I.
Qed.

Lemma msgport_wait_returns_witness :
  wpt demo_a demo_open (msgport_wait 2 3 demo_mbox) demo_open (fun _ x k' =>
    in_thread demo_a k' /\ own_env demo_a [] demo_open k' /\
    exists ys, mail k' demo_mbox (x :: ys) /\ [] `prefix_of` x :: ys).
Proof.
  apply (msgport_wait_returns 0 0 demo_a demo_open demo_mbox 15 []).
  - discriminate.
  - exact demo_open_thread.
  - exact demo_open_mailbox.
  - split.
    + eexists. split; [vm_compute; reflexivity|discriminate].
    + apply (reps_dll _ _ (ki_reps _ _ _ _ _ demo_open_kinv)). reflexivity.
Defined.

(** The queues of [demo_running] but for the semaphore. *)
Lemma demo_running_app :
  app_ok demo_running (delete demo_sem (demo_Q [demo_a; init_task] [])) [].
Proof. check_app. Qed.

Lemma demo_m1_loose : loose demo_b demo_m1 demo_running demo_m1.
Proof.
  eapply loose_check_sound; [apply (kinv_forget _ _ _ _ _ demo_sem demo_running_kinv)|
    exact demo_running_app|]; apply (bool_decide_unpack _); vm_compute; exact I.
Qed.

Lemma msgport_send_delivers_witness :
  wpt demo_b demo_running (msgport_send demo_port demo_m1) demo_running
    (fun _ _ k' => in_thread demo_b k') /\
  exists r, msgport_send demo_port demo_m1 demo_running = Preempt demo_running r.
Proof.
  destruct (msgport_send_delivers demo_b demo_running demo_port demo_m1
    (mkPort init_task 32768 MSGPORT_SIGNAL)) as [H (r & E & _)].
  - exact demo_running_thread.
  - split; [vm_compute; reflexivity|discriminate].
  - exact demo_m1_loose.
  - split; [exact H|exists r; exact E].
Defined.

Lemma demo_mbox_loose a : a = demo_mbox \/ a = tail demo_mbox ->
  loose demo_a demo_mbox demo_blocked a.
Proof.
  assert (app_ok demo_blocked (delete demo_sem (demo_Q [init_task] [demo_b])) []) as Happ by check_app.
  intros [->| ->]; (eapply loose_check_sound; [apply (kinv_forget _ _ _ _ _ demo_sem demo_blocked_kinv)|
    exact Happ|]); apply (bool_decide_unpack _); vm_compute; exact I.
Qed.

Lemma msgport_init_opens_witness :
  wpt demo_a demo_blocked (msgport_init demo_mbox) demo_blocked (fun k1 _ k' =>
    in_thread demo_a k' /\ others demo_a k1 k' /\ own_env demo_a [demo_mbox] demo_blocked k' /\
    mail k' demo_mbox [] /\
    exists m T', mailbox demo_a demo_mbox m k' /\ Z.testbit (sig_alloc demo_a_task) m = false /\
      tasks k' !! demo_a = Some T' /\ sig_alloc T' = Z.lor (sig_alloc demo_a_task) (2 ^ m)).
Proof.
  apply (msgport_init_opens demo_a demo_blocked demo_mbox demo_a_task).
  - exact demo_blocked_thread.
  - vm_compute. reflexivity.
  - exact demo_delay_ok.
  - eexists. vm_compute. reflexivity.
  - apply demo_mbox_loose. by left.
  - apply demo_mbox_loose. by right.
Defined.

(** Two messages are in the port of [demo_a]. *)
Definition demo_posted : Kernel := Eval vm_compute in
  state_after (msgport_send demo_mbox demo_m1;; msgport_send demo_mbox demo_m2) demo_open.

Lemma demo_posted_kinv :
  kinv demo_posted (<[demo_mbox := [demo_m1; demo_m2]]> demo_open_Q) [init_task] [demo_b] [].
Proof. check_kinv. Qed.

Lemma demo_posted_thread : in_thread demo_a demo_posted.
Proof.
  split; [split; [reflexivity..| |]|reflexivity|].
  - exists (<[demo_mbox := [demo_m1; demo_m2]]> demo_open_Q), [init_task], [demo_b], [].
    split_and!; [exact demo_posted_kinv| |check_app].
    right. apply Forall_forall, (bool_decide_unpack _). vm_compute. exact I.
  - eexists. split; [vm_compute; reflexivity|]. left. reflexivity.
  - apply (bool_decide_unpack _). vm_compute. exact I.
Qed.

