(* ===== verification/SemSpec.v ===== *)
(** * What the semaphores do ([src/semaphore.c])

    A semaphore is a counter and a first-in-first-out queue of requests. *)

From S2P Require Import Prelude Heap Lists ListSpec Machine Logic Context Task.
From S2P Require Import Platform Timer Semaphore Invariant Checker Demo TaskSpec.
From S2P Require Import SchedSpec Signals TimerSpec PortSpec.

(** The semaphore [sem] counts [c] and the requests [rq] wait for it; there is
    room to count one up or down. *)
Record sem_ok (k : Kernel) (Q : Queues) (sem : addr) (c : Z) (rq : list Z) : Prop := mkSemOk {
  so_queue : object_queue Q sem rq;
  so_count : sems k !! sem = Some c;
  so_range : - 2 ^ 31 < c < 2 ^ 31 - 1 }.

(** The first request can be granted: its waiter is another task, and the signal
    is one. *)
Record grantable (k : Kernel) (r : addr) (t s : Z) : Prop := mkGrantable {
  gr_req : reqs k !! r = Some (mkReq t s);
  gr_task : is_Some (tasks k !! t);
  gr_other : running k <> t;
  gr_signal : is_signals s;
  gr_nonzero : s <> 0 }.

Definition count_set (sem c : Z) (k : Kernel) : Kernel := set_sems (<[sem := c]> (sems k)) k.

Section sem.
Context (I : Kernel -> Prop) (R : Kernel -> Kernel -> Prop).

Lemma wp_add_count k sem c d (P : unit -> Kernel -> Prop) :
  sems k !! sem = Some c -> - 2 ^ 31 <= c + d < 2 ^ 31 ->
  P tt (count_set sem (c + d) k) -> wp I R (add_count sem d) k P.
Proof.
  intros Hc Hd HP. unfold add_count. eapply wp_bind, wp_load; [exact Hc|].
  rewrite (proj2 (Z.leb_le _ _)) by lia. rewrite (proj2 (Z.ltb_lt _ _)) by lia. done.
Qed.

Lemma wp_sem_add_request k Q rs ws ts sem c rq r (P : bool -> Kernel -> Prop) :
  calm k -> kinv k Q rs ws ts -> sem_ok k Q sem c rq -> object_node k Q r ->
  (if 0 <? c then P false (count_set sem (c - 1) k)
   else forall h, reps h (<[sem := rq ++ [r]]> Q) -> dom h = dom (links (heap k)) ->
     P true (count_set sem (c - 1) (set_heap (mkHeap h (nodes (heap k))) k))) ->
  wp I R (sem_add_request sem r) k P.
Proof.
  intros Hc HK [Hq Hs Hr] [Hf _] HP. unfold sem_add_request.
  eapply wp_bind, wp_disable_calm; [done|].
  eapply wp_bind, wp_add_count; [exact Hs|lia|].
  eapply wp_bind, wp_load; [apply lookup_insert_eq|]. unfold count_set in *.
  destruct (0 <? c) eqn:E; norm_bool.
  - replace (c + -1 <? 0) with false by (symmetry; apply Z.ltb_ge; lia).
    eapply wp_bind, wp_enable_back; [exact Hc|done..|]. apply wp_ret.
    replace (set_id_nestcnt _ _) with (set_sems (<[sem := c - 1]> (sems k)) k); [done|].
    apply kernel_ext; reflexivity.
  - replace (c + -1 <? 0) with true by (symmetry; apply Z.ltb_lt; lia).
    eapply wp_bind, wp_list_step.
    { apply (add_tail_step _ _ (ki_reps _ _ _ _ _ HK) sem rq r); [apply Hq|exact Hf]. }
    intros h Hh [Hd _]. eapply wp_bind, wp_enable_back; [exact Hc|done..|]. apply wp_ret.
    match goal with |- P true ?k' => replace k' with
      (set_sems (<[sem := c - 1]> (sems k)) (set_heap (mkHeap h (nodes (heap k))) k)) end;
      [by apply HP|]. apply kernel_ext; reflexivity.
Qed.

(** Granting the first request. *)
Lemma wp_sem_signal_grant k Q rs ws ts sem c r rq t s (P : unit -> Kernel -> Prop) :
  calm k -> id_nestcnt k < 31998 -> kinv k Q rs ws ts -> sched_ok k rs -> idle_ok k ->
  sem_ok k Q sem c (r :: rq) -> c + 1 < 0 -> grantable k r t s ->
  (forall h k' Q', reps h (<[sem := rq]> Q) -> dom h = dom (links (heap k)) ->
    notified (count_set sem (c + 1) (set_heap (mkHeap h (nodes (heap k))) k))
      (<[sem := rq]> Q) ts (Some (t, s)) k' Q' -> P tt k') ->
  wp I R (sem_signal sem) k P.
Proof.
  intros Hc Hn HK Hsch Hi [Hq Hs Hr] Hneg [Hreq [T HT] Hother Hsig Hnz] HP. unfold sem_signal.
  eapply wp_bind, wp_disable_calm; [done|].
  eapply wp_bind, wp_add_count; [exact Hs|lia|].
  eapply wp_bind, wp_load; [apply lookup_insert_eq|].
  replace (c + 1 <? 0) with true by (symmetry; by apply Z.ltb_lt).
  set (kc := count_set sem (c + 1) (lock k)).
  assert (kinv kc Q rs ws ts) as HKc by by eapply kinv_frame; [..|exact HK].
  eapply wp_bind, wp_bind, wp_list_step;
    [exact (rem_head_step _ _ (ki_reps _ _ _ _ _ HKc) sem r rq (oq_queue _ _ _ Hq))|].
  intros h Hh [Hd _].
  assert (r <> NULL) as Hrz.
  { eapply (node_nonnull (heap kc)); [apply HKc|apply Hq|set_solver]. }
  eapply wp_bind, wp_assert; [by apply negb_true_iff, Z.eqb_neq|].
  eapply wp_bind, wp_gets, wp_bind, wp_load; [exact Hreq|]. simpl waiter. simpl rq_signal.
  eapply wp_bind, wp_assert; [by apply negb_true_iff, Z.eqb_neq|].
  eapply wp_bind, wp_assert; [by apply negb_true_iff, Z.eqb_neq|].
  assert (kinv (set_heap (mkHeap h (nodes (heap kc))) kc) (<[sem := rq]> Q) rs ws ts) as HK2.
  { eapply kinv_object; [exact HKc|exact Hq|done|done|]. set_solver. }
  set (k2 := set_heap _ kc) in *.
  assert (calm (lock k)) as Hcl by (apply lock_calm; [apply Hc|lia]).
  eapply (wp_notify _ _ k2); [by eapply calm_frame; [..|exact Hcl]|simpl; lia|exact HK2|
    exact Hsch|exact Hi|exact HT|done|].
  intros k' Q' Hk'.
  destruct (notified_back (count_set sem (c + 1) k) (<[sem := rq]> Q) ts (Some (t, s)) h k' Q') as (Hk2 & E1 & E2 & E3).
  { by eapply calm_frame; [..|exact Hc]. }
  { exact Hk'. }
  eapply wp_enable_back; [exact Hc|done..|]. by eapply (HP h _ Q').
Qed.

Lemma wp_sem_signal_free k sem c (P : unit -> Kernel -> Prop) :
  calm k -> sems k !! sem = Some c -> -1 <= c < 2 ^ 31 - 1 ->
  P tt (count_set sem (c + 1) k) -> wp I R (sem_signal sem) k P.
Proof.
  intros Hc Hs Hr HP. unfold sem_signal. eapply wp_bind, wp_disable_calm; [done|].
  eapply wp_bind, wp_add_count; [exact Hs|lia|].
  eapply wp_bind, wp_load; [apply lookup_insert_eq|].
  replace (c + 1 <? 0) with false by (symmetry; apply Z.ltb_ge; lia).
  eapply wp_bind, wp_ret, wp_enable_back; [exact Hc|done..|].
  replace (set_id_nestcnt _ _) with (count_set sem (c + 1) k); [done|].
  apply kernel_ext; reflexivity.
Qed.
End sem.

(** [sem_add_request], called where no interrupt can arrive: it takes one
    from the count; if the count was positive it returns [false] and queues
    nothing; otherwise it appends the request to the queue of the semaphore and
    returns [true]; the kernel invariant holds again. *)
Theorem sem_add_request_correct k Q rs ws ts sem c rq r :
  calm k -> kinv k Q rs ws ts -> sem_ok k Q sem c rq -> object_node k Q r ->
  exists k' Q', sem_add_request sem r k = Ret (bool_decide (c <= 0)) k' /\
    kinv k' Q' rs ws ts /\ sems k' = <[sem := c - 1]> (sems k) /\ tasks k' = tasks k /\
    Q' = if bool_decide (c <= 0) then <[sem := rq ++ [r]]> Q else Q.
Proof.
  intros Hc HK Hs Hr.
  assert (run (sem_add_request sem r) k (fun b k' => exists Q', b = bool_decide (c <= 0) /\
    kinv k' Q' rs ws ts /\ sems k' = <[sem := c - 1]> (sems k) /\ tasks k' = tasks k /\
    Q' = if bool_decide (c <= 0) then <[sem := rq ++ [r]]> Q else Q)) as (b & k' & E & Q' & -> & H).
  2: { exists k', Q'. done. }
  apply wp_run. eapply wp_sem_add_request; [done..|].
  destruct (0 <? c) eqn:E; norm_bool.
  - exists Q. rewrite !bool_decide_false by lia. split_and!; try done.
    by eapply kinv_frame; [..|exact HK].
  - intros h Hh Hd. eexists. rewrite !bool_decide_true by lia. split_and!; try done.
    assert (kinv (set_heap (mkHeap h (nodes (heap k))) k) (<[sem := rq ++ [r]]> Q) rs ws ts) as HK'.
    { eapply kinv_object; [done|apply Hs|done|done|].
      intros x [Hx|Hx]%elem_of_app; [by left|]. apply list_elem_of_singleton in Hx as ->.
      right. apply Hr. }
    by eapply kinv_frame; [..|exact HK'].
Qed.

(** [sem_signal], called where no interrupt can arrive, on a semaphore that
    stays negative: it adds one to the count, takes the oldest request off the
    queue and sends the signal of the request to its waiter; the invariants hold
    again. *)
Theorem sem_signal_grants k Q rs ws ts sem c r rq t s :
  calm k -> id_nestcnt k < 31998 -> kinv k Q rs ws ts -> sched_ok k rs -> idle_ok k ->
  sem_ok k Q sem c (r :: rq) -> c + 1 < 0 -> grantable k r t s ->
  exists k' Q' rs' ws', sem_signal sem k = Ret tt k' /\ kinv k' Q' rs' ws' ts /\
    sched_ok k' rs' /\ idle_ok k' /\ Q' !! sem = Some rq /\
    sems k' = <[sem := c + 1]> (sems k) /\ tasks k' = deliver t s (tasks k).
Proof.
  intros Hc Hn HK Hsch Hi Hs Hneg Hg. pose proof (so_queue _ _ _ _ _ Hs) as [Hl H1 H2 H3].
  assert (run (sem_signal sem) k (fun _ k' => exists h Q',
    notified (count_set sem (c + 1) (set_heap (mkHeap h (nodes (heap k))) k))
      (<[sem := rq]> Q) ts (Some (t, s)) k' Q')) as ([] & k' & E & h & Q' & Hnt).
  { apply wp_run. eapply wp_sem_signal_grant; [done..|]. eauto. }
  destruct Hnt as [(rs' & ws' & HK' & Hs') Hi' Hq Ht _ _ (_ & Hsems & _)].
  exists k', Q', rs', ws'. split_and!; try done. rewrite Hq by done. by rewrite lookup_insert_eq.
Qed.

(** What [sem_signal] does for the last waiter: when exactly one request is
    queued and the count is -1, it counts up to 0, but leaves the request in the
    queue, and neither wakes its waiter nor sends any signal.  (The code tests
    [count < 0] behind the increment.) *)
Theorem sem_signal_last_waiter k Q rs ws ts sem r :
  calm k -> kinv k Q rs ws ts -> sem_ok k Q sem (-1) [r] ->
  exists k', sem_signal sem k = Ret tt k' /\ kinv k' Q rs ws ts /\ Q !! sem = Some [r] /\
    sems k' = <[sem := 0]> (sems k) /\ tasks k' = tasks k /\ pendsv k' = pendsv k.
Proof.
  intros Hc HK [Hq Hs Hr].
  assert (run (sem_signal sem) k (fun _ k' => k' = count_set sem 0 k)) as ([] & k' & E & ->).
  { apply wp_run. by eapply wp_sem_signal_free. }
  eexists. split; [done|]. split; [by eapply kinv_frame; [..|exact HK]|]. split; [apply Hq|done].
Qed.

(** ** The properties at concrete states *)

Lemma demo_calm_of k : primask k = false -> handler k = false -> id_nestcnt k = -1 ->
  calm (demo_calm k).
Proof. intros Hp Hh Hn. apply lock_calm; [|lia]. split; [by rewrite Hn|lia]. Qed.

Lemma demo_sem_queue rq : object_queue (demo_Qs rq) demo_sem rq.
Proof. split; [|discriminate..]. reflexivity. Qed.

Lemma sem_add_request_correct_witness : exists k',
  sem_add_request demo_sem demo_req (demo_calm demo_blocked) = Ret true k'.
Proof.
  destruct (sem_add_request_correct (demo_calm demo_blocked) (demo_Q [init_task] [demo_b])
    _ _ _ demo_sem 0 [] demo_req demo_blocked_calm
    (demo_calm_kinv _ _ _ _ _ demo_blocked_kinv)) as (k' & Q' & E & _).
  - split; [split; [reflexivity|discriminate..]|vm_compute; reflexivity|
      split; reflexivity].
  - apply demo_node; vm_compute; reflexivity.
  - exists k'. exact E.
Defined.

Lemma sem_signal_grants_witness : exists k' (Q' : Queues),
  sem_signal demo_sem (demo_calm demo_sem_two) = Ret tt k' /\ Q' !! demo_sem = Some [demo_m1].
Proof.
  destruct (sem_signal_grants (demo_calm demo_sem_two) (demo_Qs [demo_req; demo_m1])
    _ _ _ demo_sem (-2) demo_req [demo_m1] demo_b 8
    (demo_calm_of demo_sem_two eq_refl eq_refl eq_refl) eq_refl
    (demo_calm_kinv _ _ _ _ _ demo_sem_two_kinv)) as (k' & Q' & rs' & ws' & E & _ & _ & _ & Hq & _).
  - right. apply Forall_forall, (bool_decide_unpack _). vm_compute. exact I.
  - eexists. split; [vm_compute; reflexivity|]. left. reflexivity.
  - split; [apply demo_sem_queue|vm_compute; reflexivity|split; reflexivity].
  - reflexivity.
  - split; [vm_compute; reflexivity|eexists; vm_compute; reflexivity|discriminate|
      split; [vm_compute; discriminate|reflexivity]|discriminate].
  - exists k', Q'. split; [exact E|exact Hq].
Defined.

Lemma sem_signal_last_waiter_witness : exists k',
  sem_signal demo_sem (demo_calm demo_sem_one) = Ret tt k' /\
  tasks k' = tasks (demo_calm demo_sem_one).
Proof.
  destruct (sem_signal_last_waiter (demo_calm demo_sem_one) (demo_Qs [demo_req])
    _ _ _ demo_sem demo_req (demo_calm_of demo_sem_one eq_refl eq_refl eq_refl)
    (demo_calm_kinv _ _ _ _ _ demo_sem_one_kinv)) as (k' & E & _ & _ & _ & Ht & _).
  - split; [apply demo_sem_queue|vm_compute; reflexivity|split; reflexivity].
  - exists k'. split; [exact E|exact Ht].
Defined.
