(* ===== verification/SemTrace.v ===== *)
(** * Histories of a semaphore ([src/semaphore.c])

    Any sequence of requests and signals against a reference model: a counter and
    a first-in-first-out queue. *)

From S2P Require Import Prelude Heap Lists ListSpec Machine Logic Context Task.
From S2P Require Import Platform Timer Semaphore Invariant Checker Demo TaskSpec.
From S2P Require Import SchedSpec Signals TimerSpec PortSpec SemSpec.

Inductive sem_op := Request (r : addr) | Signal.

(** The calls of a history; the result of each [sem_add_request]. *)
Fixpoint sem_run (sem : addr) (ops : list sem_op) : M (list bool) :=
  match ops with
  | [] => mret []
  | Request r :: ops => b ← sem_add_request sem r; bs ← sem_run sem ops; mret (b :: bs)
  | Signal :: ops => sem_signal sem;; sem_run sem ops
  end.

(** The reference model: the count, the queue, the requests that were granted
    from the queue, the results, and the signals that found the last request
    and granted nothing. *)
Record SemModel := mkSemModel {
  mo_count : Z; mo_queue : list addr; mo_granted : list addr; mo_results : list bool; mo_lost : Z }.

Definition sem_step (s : SemModel) (o : sem_op) : SemModel :=
  let '(mkSemModel c q g bs l) := s in
  match o with
  | Request r =>
      if 0 <? c then mkSemModel (c - 1) q g (bs ++ [false]) l
      else mkSemModel (c - 1) (q ++ [r]) g (bs ++ [true]) l
  | Signal =>
      if c + 1 <? 0 then
        match q with
        | r :: q => mkSemModel (c + 1) q (g ++ [r]) bs l
        | [] => s
        end
      else mkSemModel (c + 1) q g bs (if c =? -1 then l + 1 else l)
  end.

Definition sem_model (c : Z) (ops : list sem_op) : SemModel :=
  fold_left sem_step ops (mkSemModel c [] [] [] 0).

(** The requests of a history. *)
Definition requests (ops : list sem_op) : list addr :=
  omap (fun o => match o with Request r => Some r | Signal => None end) ops.

Definition signals (ops : list sem_op) : Z := Z.of_nat (length ops - length (requests ops)).

(** What granting the requests [g] does to the tasks. *)
Definition grant_all (objs : gmap Z SemaphoreRequest) (g : list addr) (U : gmap Z Task) : gmap Z Task :=
  fold_left (fun U r => match objs !! r with
    | Some X => deliver (waiter X) (rq_signal X) U | None => U end) g U.

(** ** The model *)

(** The count and the number of immediate grants, of grants from the queue, of
    lost signals and of the requests that are still queued. *)
Record sem_account (c0 : Z) (ops : list sem_op) (s : SemModel) : Prop := mkAccount {
  ac_queue : Z.of_nat (length (mo_queue s)) = Z.max 0 (- mo_count s) + mo_lost s;
  ac_permits : Z.of_nat (count_occ Bool.bool_dec (mo_results s) false) +
    Z.of_nat (length (mo_granted s)) + Z.max 0 (mo_count s) + mo_lost s = c0 + signals ops;
  ac_lost : 0 <= mo_lost s;
  ac_fifo : sublist (mo_granted s ++ mo_queue s) (requests ops) }.

Lemma requests_length ops : (length (requests ops) <= length ops)%nat.
Proof. induction ops as [|[] ops IH]; simpl in *; lia. Qed.

Lemma signals_snoc ops o : signals (ops ++ [o]) =
  signals ops + match o with Signal => 1 | Request _ => 0 end.
Proof.
  unfold signals. pose proof (requests_length ops).
  assert (requests (ops ++ [o]) = requests ops ++ requests [o]) as -> by apply omap_app.
  rewrite !length_app. destruct o; simpl; lia.
Qed.

Lemma sem_step_account c0 ops s o : sem_account c0 ops s -> sem_account c0 (ops ++ [o]) (sem_step s o).
Proof.
  destruct s as [c q g bs l]. intros [Hq Hp Hl Hf]. simpl in *.
  assert (requests (ops ++ [o]) = requests ops ++ requests [o]) as Er by apply omap_app.
  destruct o as [r|]; simpl.
  - destruct (0 <? c) eqn:E; norm_bool; split; simpl;
      rewrite ?count_occ_app, ?length_app, ?signals_snoc; simpl; try lia; rewrite Er.
    + by apply sublist_inserts_r.
    + rewrite app_assoc. by apply sublist_app.
  - destruct (c + 1 <? 0) eqn:E; norm_bool.
    + destruct q as [|r q]; [simpl in Hq; lia|].
      split; simpl in *; rewrite ?length_app, ?signals_snoc; simpl; try lia.
      rewrite Er, <- app_assoc. by apply sublist_inserts_r.
    + assert (sublist (g ++ q) (requests (ops ++ [Signal]))) as Hf'
        by (rewrite Er; by apply sublist_inserts_r).
      destruct (Z.eqb_spec c (-1)); split; simpl; rewrite ?signals_snoc; simpl; done || lia.
Qed.

Lemma sem_model_account c ops : 0 <= c -> sem_account c ops (sem_model c ops).
Proof.
  intros Hc. unfold sem_model. rewrite <- (app_nil_l ops) at 1.
  assert (sem_account c [] (mkSemModel c [] [] [] 0)) as H by (split; simpl; unfold signals; simpl; done || lia).
  revert H. generalize (mkSemModel c [] [] [] 0) as s. generalize (@nil sem_op) as pre.
  induction ops as [|o ops IH]; intros pre s H; simpl; [by rewrite app_nil_r|].
  replace (pre ++ o :: ops) with ((pre ++ [o]) ++ ops) by by rewrite <- app_assoc.
  by apply IH, sem_step_account.
Qed.

(** ** The kernel and the model

    [k0] is the state at the start of the history; [pool] are the requests that
    are still to come. *)
Record sem_world (k0 k : Kernel) (sem : addr) (s : SemModel) (pool : list addr) : Prop :=
  mkSemWorld {
  sw_calm : calm k;
  sw_nest : id_nestcnt k < 31998;
  sw_inv : exists Q rs ws ts, kinv k Q rs ws ts /\ sched_ok k rs /\ idle_ok k /\
    object_queue Q sem (mo_queue s) /\ forall r, r ∈ pool -> object_node k Q r;
  sw_count : sems k !! sem = Some (mo_count s);
  sw_same : reqs k = reqs k0 /\ running k = running k0;
  sw_tasks : tasks k = grant_all (reqs k0) (mo_granted s) (tasks k0);
  sw_pool : NoDup pool;
  sw_grantable : forall r, r ∈ mo_queue s ++ pool -> exists t sg, grantable k0 r t sg }.

Lemma grant_all_is_Some objs g U t : is_Some (grant_all objs g U !! t) <-> is_Some (U !! t).
Proof.
  revert U. induction g as [|r g IH]; intros U; [done|]. unfold grant_all in *. simpl.
  rewrite IH. by destruct (objs !! r) as [X|]; [rewrite deliver_is_Some|].
Qed.

Lemma grant_all_snoc objs g r X U : objs !! r = Some X ->
  grant_all objs (g ++ [r]) U = deliver (waiter X) (rq_signal X) (grant_all objs g U).
Proof. intros HX. unfold grant_all. rewrite fold_left_app. simpl. by rewrite HX. Qed.

(** A request that can be granted at the start can be granted later. *)
Lemma world_grantable k0 k sem s pool r t sg : sem_world k0 k sem s pool ->
  grantable k0 r t sg -> grantable k r t sg.
Proof.
  intros [_ _ _ _ [Er Eu] Et _ _] [Hr Ht Ho Hs Hz]. split; try done.
  - by rewrite Er.
  - rewrite Et. by apply grant_all_is_Some.
  - by rewrite Eu.
Qed.

Section world.
Context (I : Kernel -> Prop) (R : Kernel -> Kernel -> Prop) (k0 : Kernel) (sem : addr).

Lemma wp_request k s r pool (P : bool -> Kernel -> Prop) :
  sem_world k0 k sem s (r :: pool) -> - 2 ^ 31 < mo_count s < 2 ^ 31 - 1 ->
  (forall k', sem_world k0 k' sem (sem_step s (Request r)) pool -> P (negb (0 <? mo_count s)) k') ->
  wp I R (sem_add_request sem r) k P.
Proof.
  intros [Hc Hn (Q & rs & ws & ts & HK & Hsch & Hi & Hq & Hfree) Hs Hsame Ht Hnd Hg] Hr HP.
  apply NoDup_cons in Hnd as [Hni Hnd].
  eapply wp_sem_add_request; [done|exact HK|split; [exact Hq|exact Hs|exact Hr]|apply Hfree; by left|].
  destruct s as [c q g bs l]. simpl in *. destruct (0 <? c) eqn:E.
  - apply HP. split; simpl; try done.
    + by eapply calm_frame; [..|exact Hc].
    + exists Q, rs, ws, ts. split_and!; try done; [by eapply kinv_frame; [..|exact HK]|].
      intros x Hx. destruct (Hfree x) as [? ?]; [by right|]. by split.
    + apply lookup_insert_eq.
    + intros x Hx. apply Hg. set_solver.
  - intros h Hh Hd. apply HP. split; simpl; try done.
    + by eapply calm_frame; [..|exact Hc].
    + exists (<[sem := q ++ [r]]> Q), rs, ws, ts. split_and!; try done.
      * assert (kinv (set_heap (mkHeap h (nodes (heap k))) k) (<[sem := q ++ [r]]> Q) rs ws ts) as HK'.
        { eapply kinv_object; [exact HK|exact Hq|done|done|].
          intros x [?| ->%list_elem_of_singleton]%elem_of_app; [by left|right].
          apply (Hfree r). by left. }
        by eapply kinv_frame; [..|exact HK'].
      * destruct Hq. split; [by rewrite lookup_insert_eq|done..].
      * intros x Hx. destruct (Hfree x) as [[Hl Hz Hu] Hnt]; [by right|]. split; [|done]. split.
        -- apply elem_of_dom. simpl. rewrite Hd. by apply elem_of_dom.
        -- done.
        -- eapply unowned_update; [apply Hq|done|]. pose proof (Hu _ _ (oq_queue _ _ _ Hq)) as Hc'.
           unfold chain in Hc'. set_solver.
    + apply lookup_insert_eq.
    + intros x Hx. apply Hg. set_solver.
Qed.

Lemma wp_signal k s pool ops c0 (P : unit -> Kernel -> Prop) :
  sem_world k0 k sem s pool -> - 2 ^ 31 < mo_count s < 2 ^ 31 - 1 -> sem_account c0 ops s ->
  (forall k', sem_world k0 k' sem (sem_step s Signal) pool -> P tt k') ->
  wp I R (sem_signal sem) k P.
Proof.
  intros Hw Hr Hac HP. pose proof Hw as [Hc Hn (Q & rs & ws & ts & HK & Hsch & Hi & Hq & Hfree) Hs Hsame Ht Hnd Hg].
  destruct s as [c q g bs l]. simpl in *. destruct (c + 1 <? 0) eqn:E; norm_bool.
  - destruct q as [|r q]; [destruct Hac as [Hlen _ Hl0 _]; simpl in *; lia|].
    destruct (Hg r) as (t & sg & Hgr0); [set_solver|].
    pose proof (world_grantable _ _ _ _ _ _ _ _ Hw Hgr0) as Hgr.
    eapply wp_sem_signal_grant; [done|done|exact HK|done|done| |exact E|exact Hgr|].
    { split; [exact Hq|exact Hs|exact Hr]. }
    intros h k' Q' Hh Hd Hnt. apply HP.
    pose proof Hnt as [(rs' & ws' & HK' & Hs') Hi' Hqs Htk Hsm Hl (_ & Hsem & Hrq & _)].
    assert (kinv (set_heap (mkHeap h (nodes (heap k))) k) (<[sem := q]> Q) rs ws ts) as HK2.
    { eapply kinv_object; [exact HK|exact Hq|done|done|]. set_solver. }
    split; simpl; try done.
    + eapply same_machine_calm; [exact Hsm|]. by eapply calm_frame; [..|exact Hc].
    + destruct Hsm as [(_ & _ & ->) _ _ _ _ _ _]. done.
    + exists Q', rs', ws', ts. split_and!; try done.
      * destruct Hq. split; [|done..]. rewrite Hqs by done. by rewrite lookup_insert_eq.
      * intros x Hx. eapply notified_node; [|exact Hnt|].
        { by eapply kinv_frame; [..|exact HK2]. }
        destruct (Hfree x Hx) as [[Hlx Hz Hu] Hnx]. split; [|done]. split; [|done|].
        { apply elem_of_dom. simpl. rewrite Hd. by apply elem_of_dom. }
        eapply unowned_update; [apply Hq|done|]. pose proof (Hu _ _ (oq_queue _ _ _ Hq)) as Hc'.
        unfold chain in Hc'. set_solver.
    + rewrite Hsem. apply lookup_insert_eq.
    + rewrite Hrq. split; [apply Hsame|]. rewrite (sm_running _ _ Hsm). apply Hsame.
    + rewrite Htk. simpl. rewrite Ht. by rewrite (grant_all_snoc _ _ _ _ _ (gr_req _ _ _ _ Hgr0)).
    + intros x Hx. apply Hg. set_solver.
  - eapply wp_sem_signal_free; [done|exact Hs|lia|]. apply HP. split; simpl; try done.
    + by eapply calm_frame; [..|exact Hc].
    + exists Q, rs, ws, ts. split_and!; try done; [by eapply kinv_frame; [..|exact HK]|].
      intros x Hx. destruct (Hfree x Hx) as [? ?]. by split.
    + apply lookup_insert_eq.
Qed.

Lemma step_count s o ops c0 : sem_account c0 ops s ->
  mo_count (sem_step s o) = mo_count s + match o with Signal => 1 | Request _ => -1 end.
Proof.
  destruct s as [c q g bs l]. intros [Hq _ Hl _]. simpl in *.
  destruct o; simpl; [destruct (0 <? c); simpl; lia|].
  destruct (c + 1 <? 0) eqn:E; norm_bool; [|done]. destruct q; [simpl in Hq; lia|done].
Qed.

Lemma wp_sem_run ops : forall k s pre c0 (P : list bool -> Kernel -> Prop),
  sem_world k0 k sem s (requests ops) -> sem_account c0 pre s ->
  - 2 ^ 31 + Z.of_nat (length ops) < mo_count s < 2 ^ 31 - Z.of_nat (length ops) ->
  (forall k' bs, let s' := fold_left sem_step ops s in
    sem_world k0 k' sem s' [] -> mo_results s' = mo_results s ++ bs -> P bs k') ->
  wp I R (sem_run sem ops) k P.
Proof.
  induction ops as [|o ops IH]; intros k s pre c0 P Hw Hac Hr HP; cbn [sem_run length] in *.
  - apply wp_ret, HP; [done|]. by rewrite app_nil_r.
  - pose proof (sem_step_account c0 pre s o Hac) as Hac'.
    pose proof (step_count s o pre c0 Hac) as Hcnt.
    assert (- 2 ^ 31 + Z.of_nat (length ops) < mo_count (sem_step s o) < 2 ^ 31 - Z.of_nat (length ops))
      as Hr' by (rewrite Hcnt; destruct o; lia).
    destruct o as [r|].
    + eapply wp_bind, wp_request; [exact Hw|lia|]. intros k1 Hw1.
      eapply wp_bind, IH; [exact Hw1|exact Hac'|done|]. intros k' bs Hw' Hbs.
      apply wp_ret, HP; [exact Hw'|]. simpl. rewrite Hbs. destruct s as [c q g xs l]. simpl.
      destruct (0 <? c); simpl; by rewrite <- app_assoc.
    + eapply wp_bind, wp_signal; [exact Hw|lia|exact Hac|]. intros k1 Hw1.
      eapply IH; [exact Hw1|exact Hac'|done|]. intros k' bs Hw' Hbs. apply HP; [exact Hw'|].
      simpl. rewrite Hbs. f_equal. destruct s as [c q g xs l]. simpl. by destruct (c + 1 <? 0); [destruct q|].
Qed.
End world.

(** C18. A semaphore over any history of requests and signals, called where no
    interrupt can arrive, from a count of at least 0 and an empty queue: no
    assertion fails; the calls do what the reference model does (count, queue,
    results, and the tasks that are sent signals, in the order of the queue); and
    permits are never created: the requests granted at once, those granted from
    the queue and the count that is left add up to the initial count and the
    signals, less the signals that were lost on the last waiter. *)
Theorem sem_history k Q rs ws ts sem c ops :
  calm k -> id_nestcnt k < 31998 -> kinv k Q rs ws ts -> sched_ok k rs -> idle_ok k ->
  object_queue Q sem [] -> sems k !! sem = Some c -> 0 <= c < 2 ^ 31 - Z.of_nat (length ops) ->
  NoDup (requests ops) ->
  (forall r, r ∈ requests ops -> object_node k Q r /\ exists t s, grantable k r t s) ->
  let s := sem_model c ops in
  exists k' Q' rs' ws' ts', sem_run sem ops k = Ret (mo_results s) k' /\
    kinv k' Q' rs' ws' ts' /\ sched_ok k' rs' /\ idle_ok k' /\
    Q' !! sem = Some (mo_queue s) /\ sems k' !! sem = Some (mo_count s) /\
    tasks k' = grant_all (reqs k) (mo_granted s) (tasks k) /\ sem_account c ops s.
Proof.
  intros Hc Hn HK Hsch Hi Hq Hs Hr Hnd Hreq s.
  assert (sem_account c [] (mkSemModel c [] [] [] 0)) as Hac by exact (sem_model_account c [] (proj1 Hr)).
  assert (run (sem_run sem ops) k (fun bs k' => bs = mo_results s /\ sem_world k k' sem s []))
    as (bs & k' & E & -> & [_ _ (Q' & rs' & ws' & ts' & HK' & Hs' & Hi' & Hq' & _) Hs2 _ Ht _ _]).
  { apply wp_run. eapply (wp_sem_run _ _ k sem ops k (mkSemModel c [] [] [] 0) [] c).
    - split; simpl; try done.
      + exists Q, rs, ws, ts. split_and!; try done. intros r Hin. by apply Hreq.
      + intros r Hin. by apply Hreq.
    - done.
    - simpl. lia.
    - intros k' bs s' Hw Hbs. split; [symmetry; exact Hbs|exact Hw]. }
  exists k', Q', rs', ws', ts'. split_and!; try done; [by destruct Hq'|].
  exact (sem_model_account c ops (proj1 Hr)).
Qed.

Lemma demo_reqs_kinv : kinv (demo_calm demo_reqs) (demo_Q [init_task] [demo_b]) [init_task] [demo_b] [].
Proof. apply demo_calm_kinv. eapply kinv_frame; [..|exact demo_blocked_kinv]; reflexivity. Qed.

(** Two requests are queued; the first signal grants one, the second one is
    lost. *)
Lemma sem_history_witness : exists k',
  sem_run demo_sem [Request demo_req; Request demo_m1; Signal; Signal] (demo_calm demo_reqs) =
    Ret [true; true] k' /\ sems k' !! demo_sem = Some 0.
Proof.
  destruct (sem_history (demo_calm demo_reqs) _ _ _ _ demo_sem 0
    [Request demo_req; Request demo_m1; Signal; Signal]
    (demo_calm_of demo_reqs eq_refl eq_refl eq_refl) eq_refl demo_reqs_kinv)
    as (k' & Q' & rs' & ws' & ts' & E & _ & _ & _ & _ & Hs & _).
  - right. apply Forall_forall, (bool_decide_unpack _). vm_compute. exact I.
  - eexists. split; [vm_compute; reflexivity|]. left. reflexivity.
  - split; [reflexivity|discriminate..].
  - vm_compute. reflexivity.
  - vm_compute. split; [discriminate|reflexivity].
  - apply (bool_decide_unpack _). vm_compute. exact I.
  - intros r [->|[->|[]%elem_of_nil]%elem_of_cons]%elem_of_cons; (split;
      [split; [apply (bool_decide_unpack _); vm_compute; exact I|vm_compute; reflexivity]|]);
      exists demo_b, 8; (split; [vm_compute; reflexivity|eexists; vm_compute; reflexivity|discriminate|
        split; [vm_compute; discriminate|reflexivity]|discriminate]).
  - exists k'. split; [exact E|exact Hs].
Defined.
