(* ===== verification/ArchSpec.v ===== *)
(** * What the lwIP mailboxes do ([lwip_martos/sys_arch.c])

    A mailbox is a message port whose messages carry a pointer in a block of
    lwIP's heap.  lwIP's allocator is a parameter, described at the calls. *)

From S2P Require Import Prelude Heap Lists ListSpec Machine Logic Context Task.
From S2P Require Import Platform Timer MsgPort SysArch Invariant Checker Demo.
From S2P Require Import TaskSpec SchedSpec Signals TimerSpec PortSpec.

Section mbox.
Context (I : Kernel -> Prop) (R : Kernel -> Kernel -> Prop).
Context (SYS_MBOX_EMPTY : Z) (mem_malloc : Z -> M addr) (mem_free : addr -> M unit).
Context (sizeof_sys_msg_t : Z).

Lemma wp_mbox_post k Q rs ws ts mbox P xs m msg old (Φ : unit -> Kernel -> Prop) :
  mem_malloc sizeof_sys_msg_t k = Ret m k -> sysmsgs k !! m = Some old ->
  calm k -> id_nestcnt k < 31998 -> kinv k Q rs ws ts -> sched_ok k rs -> idle_ok k ->
  port_ok k Q mbox P xs -> object_node k Q m ->
  (forall h k' Q', dom h = dom (links (heap k)) ->
    let k1 := set_sysmsgs (<[m := msg]> (sysmsgs k)) k in
    notified (set_heap (mkHeap h (nodes (heap k))) k1) (<[mbox := xs ++ [m]]> Q) ts
      (port_target P) k' Q' -> Φ tt k') ->
  wp I R (sys_mbox_post mem_malloc sizeof_sys_msg_t mbox msg) k Φ.
Proof.
  intros Hm Hold Hc Hn HK Hs Hi Hp Hnode HΦ. unfold sys_mbox_post.
  apply wp_bind. unfold wp at 1. rewrite Hm. simpl.
  eapply wp_bind, wp_load; [exact Hold|]. eapply wp_bind, wp_modify.
  set (k1 := set_sysmsgs _ k).
  eapply (wp_msgport_send _ _ k1 Q rs ws ts mbox P xs); [by eapply calm_frame; [..|exact Hc]|
    done|by eapply kinv_frame; [..|exact HK]|exact Hs|exact Hi|..].
  - destruct Hp as [? ? ? ?]. by split.
  - destruct Hnode as [? ?]. by split.
  - intros h k' Q' _ Hd Hnt. by eapply HΦ.
Qed.

Lemma wp_mbox_tryfetch k Q rs ws ts mbox m xs msg (Φ : Z * option addr -> Kernel -> Prop) :
  (forall k, mem_free m k = Ret tt k) -> sysmsgs k !! m = Some msg -> m <> NULL ->
  calm k -> kinv k Q rs ws ts -> object_queue Q mbox (m :: xs) ->
  (forall h, let k' := set_heap (mkHeap h (nodes (heap k))) k in
    kinv k' (<[mbox := xs]> Q) rs ws ts -> Φ (0, Some msg) k') ->
  wp I R (sys_arch_mbox_tryfetch SYS_MBOX_EMPTY mem_free mbox true) k Φ.
Proof.
  intros Hfree Hmsg Hnz Hc HK Hq HΦ. unfold sys_arch_mbox_tryfetch.
  eapply wp_bind, wp_assert; [done|].
  eapply wp_bind, wp_msgport_get; [done..|]. intros k' (h & -> & HK').
  simpl first. rewrite (proj2 (Z.eqb_neq NULL m)) by done.
  eapply wp_bind, wp_load; [exact Hmsg|]. apply wp_bind. unfold wp at 1. rewrite Hfree. simpl.
  apply wp_ret. by apply HΦ.
Qed.
End mbox.

(** C33. Mailboxes, called where no interrupt can arrive, with an allocator that
    returns an unused block and takes it back: a message posted to an empty mailbox
    is what the next [sys_arch_mbox_tryfetch] returns, with result 0, and the
    mailbox is then empty again; on an empty mailbox it returns [SYS_MBOX_EMPTY]
    and changes nothing. *)
Theorem mbox_post_tryfetch SYS_MBOX_EMPTY mem_malloc mem_free size k Q rs ws ts mbox P m msg old :
  mem_malloc size k = Ret m k -> sysmsgs k !! m = Some old ->
  (forall k, mem_free m k = Ret tt k) ->
  calm k -> id_nestcnt k < 31998 -> kinv k Q rs ws ts -> sched_ok k rs -> idle_ok k ->
  port_ok k Q mbox P [] -> object_node k Q m ->
  (exists k' Q' rs' ws',
    (sys_mbox_post mem_malloc size mbox msg;;
     sys_arch_mbox_tryfetch SYS_MBOX_EMPTY mem_free mbox true) k = Ret (0, Some msg) k' /\
    kinv k' Q' rs' ws' ts /\ Q' !! mbox = Some []) /\
  exists k', sys_arch_mbox_tryfetch SYS_MBOX_EMPTY mem_free mbox true k =
    Ret (SYS_MBOX_EMPTY, None) k' /\ k' = k.
Proof.
  intros Hm Hold Hfree Hc Hn HK Hs Hi Hp Hnode. split.
  - assert (run (sys_mbox_post mem_malloc size mbox msg;;
      sys_arch_mbox_tryfetch SYS_MBOX_EMPTY mem_free mbox true) k (fun r k' => r = (0, Some msg) /\
        exists Q' rs' ws', kinv k' Q' rs' ws' ts /\ Q' !! mbox = Some []))
      as (r & k' & E & -> & Q' & rs' & ws' & HK' & Hq).
    { apply wp_run. eapply wp_bind, wp_mbox_post; [done..|].
      intros h k1 Q1 Hd k0 [(rs1 & ws1 & HK1 & _) _ Hq1 _ Hsm _ (_ & _ & _ & _ & _ & Hmsgs)].
      pose proof Hp as [[Hl H1 H2 H3] _ _ _].
      eapply (wp_mbox_tryfetch _ _ _ _ k1 Q1 rs1 ws1 ts mbox m []);
        [done| |apply Hnode| |exact HK1| |].
      - rewrite Hmsgs. simpl. apply lookup_insert_eq.
      - eapply same_machine_calm; [exact Hsm|]. by eapply calm_frame; [..|exact Hc].
      - split; [|done..]. rewrite Hq1 by done. by rewrite lookup_insert_eq.
      - intros h2 k2 HK2. split; [done|]. eexists _, rs1, ws1. split; [exact HK2|].
        by rewrite lookup_insert_eq. }
    by exists k', Q', rs', ws'.
  - assert (run (sys_arch_mbox_tryfetch SYS_MBOX_EMPTY mem_free mbox true) k (fun r k' =>
      r = (SYS_MBOX_EMPTY, None) /\ k' = k)) as (r & k' & E & -> & ->).
    { apply wp_run. unfold sys_arch_mbox_tryfetch. eapply wp_bind, wp_assert; [done|].
      eapply wp_bind, wp_msgport_get; [done|exact HK|apply Hp|]. intros k' ->.
      by apply wp_ret. }
    by exists k.
Qed.

(** An allocator with one block, at [demo_m1]. *)
Definition demo_malloc (size : Z) : M addr := mret demo_m1.
Definition demo_free (a : addr) : M unit := mret tt.
Definition demo_arch : Kernel := set_sysmsgs {[demo_m1 := 0]} (demo_calm demo_blocked).

Lemma mbox_post_tryfetch_witness : exists k',
  (sys_mbox_post demo_malloc 16 demo_port 4711;;
   sys_arch_mbox_tryfetch 255 demo_free demo_port true) demo_arch =
  Ret (0, Some 4711) k'.
Proof.
  destruct (mbox_post_tryfetch 255 demo_malloc demo_free 16 demo_arch
    (demo_Q [init_task] [demo_b]) [init_task] [demo_b] [] demo_port
    (mkPort init_task 32768 MSGPORT_SIGNAL) demo_m1 4711 0)
    as [(k' & _ & _ & _ & E & _) _].
  - reflexivity.
  - vm_compute. reflexivity.
  - intros k. reflexivity.
  - eapply calm_frame; [..|exact demo_blocked_calm]; reflexivity.
  - reflexivity.
  - eapply kinv_frame; [..|exact (demo_calm_kinv _ _ _ _ _ demo_blocked_kinv)]; reflexivity.
  - exact demo_blocked_sched.
  - exact demo_blocked_idle.
  - destruct demo_port_ok as [? ? ? ?]. split; assumption.
  - destruct (demo_node demo_m1) as [? ?]; [vm_compute; reflexivity|vm_compute; reflexivity|].
    split; assumption.
  - exists k'. exact E.
Defined.
