(* ===== verification/ArchTimeout.v ===== *)
(** * Two runs of the lwIP port ([lwip_martos/sys_arch.c])

    Runs of the system in which [sys_arch_sem_wait] times out, and in which
    [sys_arch_mbox_fetch] leaves a message behind. *)

From S2P Require Import Prelude Heap Lists ListSpec Machine Logic Context Task.
From S2P Require Import Platform Timer Semaphore SysArch Invariant Checker Demo System Interpreter.

(** ** A semaphore behind a timeout *)

(** lwIP's constant, as an unsigned 32-bit number. *)
Definition lwip_timeout : Z := 4294967295.

(** The local variables, on the stack of [demo_a]. *)
Definition wait_req : ReqVar := mkReqVar (demo_stack_a + 512) blank_min (mkReq NULL 0).
Definition next_req : ReqVar := mkReqVar (demo_stack_a + 576) blank_min (mkReq NULL 0).
Definition wait_timer : TimerVar :=
  mkTimerVar (demo_stack_a + 640) blank_min blank_node blank_timer.

(** [demo_a] waits for at most three ticks, and then without a timeout; its local
    state is the result of the first call. *)
Definition waiting_code (t : addr) (l : option Z) : M (option Z) :=
  if t =? demo_a then
    match l with
    | None => r ← sys_arch_sem_wait lwip_timeout 2 wait_req wait_timer demo_sem 3; mret (Some r)
    | Some r => sem_wait 2 next_req demo_sem;; mret (Some r)
    end
  else spin.

(** [demo_a] runs, [demo_b] waits for a signal that nobody sends, and the init task
    is ready; the semaphore is free of permits and requests. *)
Definition waiting_start : @Sys (option Z) := mkSys demo_blocked (fun t => waiting_code t None).

(** [demo_a] blocks; three ticks pass; [demo_a] is switched in and returns. *)
Definition timed_out : list event :=
  replicate 14 Thread ++ [PendSV (demo_stack_a + 768)] ++ replicate 3 TIM2 ++
  [PendSV (init_task_stack + 1000)] ++ replicate 4 Thread.

(** The call has returned, and the queue refers to a variable that is gone. *)
Definition dangling (X : @Sys (option Z)) : Prop :=
  match conts X demo_a (sk X) with
  | Ret r k => r = Some lwip_timeout /\ sems k !! demo_sem = Some (-1) /\
      (next <$> links (heap k) !! demo_sem) = Some (rv_addr wait_req) /\
      links (heap k) !! rv_addr wait_req = None
  | _ => False
  end.

(** The next call has used the queue. *)
Definition undefined (X : @Sys (option Z)) : Prop :=
  match conts X demo_a (sk X) with Fault => running (sk X) = demo_a | _ => False end.

Lemma happen_app {L} (code : addr -> L -> M L) es es' S :
  happen code (es ++ es') S = (S' ← happen code es S; happen code es' S').
Proof.
  revert S. induction es as [|e es IH]; intros S; simpl; [done|].
  destruct (happens code e S); simpl; auto.
Qed.

Lemma timed_out_run : exists X,
  happen waiting_code timed_out waiting_start = Some X /\ dangling X.
Proof.
  apply (run_result (happen waiting_code timed_out waiting_start) dangling).
  vm_compute. repeat split.
Qed.

Lemma next_wait_run : exists X,
  happen waiting_code (timed_out ++ replicate 2 Thread) waiting_start = Some X /\ undefined X.
Proof.
  apply (run_result (happen waiting_code (timed_out ++ replicate 2 Thread) waiting_start) undefined).
  vm_compute. reflexivity.
Qed.

(** C38. [sys_arch_sem_wait] leaves its request in the queue of the semaphore when
    it times out.  The request is a local variable: in this run of three ticks the
    call returns the timeout, the count of the semaphore is still taken down, and
    the queue's head is the variable that is gone; the next wait on the semaphore
    then writes to it, which is undefined. *)
Theorem sem_wait_timeout_dangles : exists X Y k,
  reachable waiting_code waiting_start X /\
  conts X demo_a (sk X) = Ret (Some lwip_timeout) k /\ sems k !! demo_sem = Some (-1) /\
  (next <$> links (heap k) !! demo_sem) = Some (rv_addr wait_req) /\
  links (heap k) !! rv_addr wait_req = None /\
  reachable waiting_code X Y /\ running (sk Y) = demo_a /\ conts Y demo_a (sk Y) = Fault.
Proof.
  destruct timed_out_run as (X & EX & HX). destruct next_wait_run as (Y & EY & HY).
  rewrite happen_app, EX in EY. unfold dangling in HX.
  destruct (conts X demo_a (sk X)) as [r k|k| | |k f] eqn:E; [|contradiction HX..].
  destruct HX as (-> & Hs & Hn & Hl). exists X, Y, k.
  split; [exact (proj2 (reachable_happen waiting_code waiting_start X) (ex_intro _ timed_out EX))|].
  split; [exact E|]. split; [exact Hs|]. split; [exact Hn|]. split; [exact Hl|]. unfold undefined in HY.
  destruct (conts Y demo_a (sk Y)) as [r' k'|k'| | |k' f'] eqn:E'; [contradiction HY|contradiction HY| |contradiction HY..].
  split; [|split; [exact HY|reflexivity]].
  exact (proj2 (reachable_happen waiting_code X Y) (ex_intro _ (replicate 2 Thread) EY)).
Qed.

(** ** A message without a signal *)

(** lwIP's allocator: it gives the first block that is free, and a block is free
    when its pointer is null. *)
Definition block_malloc (size : Z) : M addr :=
  ws ← gets sysmsgs;
  mret (if bool_decide (ws !! demo_m1 = Some NULL) then demo_m1 else demo_m2).
Definition block_free (m : addr) : M unit :=
  modify (fun k => set_sysmsgs (<[m := NULL]> (sysmsgs k)) k).

Definition task_timer (stack : addr) : TimerVar :=
  mkTimerVar (stack + 640) blank_min blank_node blank_timer.

(** What the owner of the mailbox has fetched: the time it took and the message. *)
Definition fetched : Type := list (Z * option addr).

(** [demo_a] sets up a mailbox and fetches messages without a timeout; [demo_b],
    of the higher priority, sleeps for a tick, posts two messages and waits. *)
Definition mbox_code (t : addr) (l : fetched) : M fetched :=
  if t =? demo_a then
    (match l with [] => _ ← sys_mbox_new 0 demo_mbox; mret tt | _ => mret tt end);;
    r ← sys_arch_mbox_fetch lwip_timeout block_free 2 (task_timer demo_stack_a) demo_mbox true 0;
    mret (l ++ [r])
  else if t =? demo_b then
    timer_delay 2 (task_timer demo_stack_b) 1;;
    sys_mbox_post block_malloc 16 demo_mbox 71;;
    sys_mbox_post block_malloc 16 demo_mbox 72;;
    _ ← signal_wait 2 SIGF_SINGLE;
    mret l
  else spin.

(** Both tasks are there, [demo_b] is running, and lwIP's two blocks are free. *)
Definition mbox_start : @Sys fetched :=
  mkSys (set_sysmsgs {[demo_m1 := NULL; demo_m2 := NULL]} demo_running) (fun t => mbox_code t []).

(** [demo_b] sleeps; [demo_a] blocks in its first fetch; a tick wakes [demo_b],
    which posts both messages; [demo_a] is switched in and returns. *)
Definition both_posted : list event :=
  replicate 9 Thread ++ [PendSV (demo_frames demo_b)] ++ replicate 6 Thread ++
  [PendSV (demo_frames demo_a); TIM2; PendSV (demo_frames init_task)] ++ replicate 9 Thread ++
  [PendSV (demo_frames demo_b)] ++ replicate 5 Thread.

(** [demo_a] blocks in its second fetch. *)
Definition second_fetch : list event := replicate 5 Thread ++ [PendSV (demo_frames demo_a)].

Definition first_fetched (X : @Sys fetched) : Prop :=
  match conts X demo_a (sk X) with Ret l k => l = [(1, Some 71)] | _ => False end.

(** The task waits, without the signal, for the signal of its mailbox. *)
Definition stranded (k : Kernel) : Prop :=
  match tasks k !! demo_a, ports k !! demo_mbox with
  | Some T, Some P => state T = TASK_WAITING /\ sig_wait T = mp_signal P /\
      Z.land (sig_wait T) (sig_recvd T) = 0
  | _, _ => False
  end.

Definition message_left (Y : @Sys fetched) : Prop :=
  stranded (sk Y) /\ state <$> tasks (sk Y) !! demo_b = Some TASK_WAITING /\
  (running (sk Y), pendsv (sk Y), sysmsgs (sk Y) !! demo_m2) = (init_task, false, Some 72) /\
  list_get_head demo_mbox (heap (sk Y)) = Some (demo_m2, heap (sk Y)).

(** A run, and another one behind it. *)
Lemma run_twice {L} (code : addr -> L -> M L) es es' S0 (P : Sys -> Sys -> Prop) :
  match happen code es S0 with
  | Some X => match happen code es' X with Some Y => P X Y | None => False end
  | None => False end ->
  exists X Y, happen code es S0 = Some X /\ happen code es' X = Some Y /\ P X Y.
Proof.
  destruct (happen code es S0) as [X|] eqn:E1; [|done].
  destruct (happen code es' X) as [Y|] eqn:E2; [|done]. eauto.
Qed.

Lemma fetch_runs : exists X Y, happen mbox_code both_posted mbox_start = Some X /\
  happen mbox_code second_fetch X = Some Y /\ first_fetched X /\ message_left Y.
Proof.
  apply (run_twice mbox_code both_posted second_fetch mbox_start
    (fun X Y => first_fetched X /\ message_left Y)).
  vm_compute. repeat split.
Qed.

(** C37. A mailbox can hold a message that nobody is told of.  In this run of the
    system the owner of a mailbox waits in [sys_arch_mbox_fetch] when another task
    posts two messages before the owner runs again, which sets its signal once.  The
    fetch takes the signal and returns the first message; the next fetch looks at
    the queue only behind a signal, and it blocks without a timeout: the processor
    runs the init task, both other tasks wait, the owner for the signal of the
    mailbox, which it has not received, and the second message is at the head of the
    queue. *)
Theorem mbox_fetch_strands_message : exists X Y k T P,
  reachable mbox_code mbox_start X /\ conts X demo_a (sk X) = Ret [(1, Some 71)] k /\
  reachable mbox_code X Y /\ running (sk Y) = init_task /\ pendsv (sk Y) = false /\
  in_state (sk Y) TASK_WAITING demo_b /\
  tasks (sk Y) !! demo_a = Some T /\ state T = TASK_WAITING /\
  ports (sk Y) !! demo_mbox = Some P /\ sig_wait T = mp_signal P /\
  Z.land (sig_wait T) (sig_recvd T) = 0 /\
  list_get_head demo_mbox (heap (sk Y)) = Some (demo_m2, heap (sk Y)) /\
  sysmsgs (sk Y) !! demo_m2 = Some 72.
Proof.
  destruct fetch_runs as (X & Y & E1 & E2 & HX & Hs & Hb & Hc & Hh). injection Hc as Hr Hp Hm.
  pose proof (proj2 (reachable_happen mbox_code mbox_start X) (ex_intro _ _ E1)) as R1.
  pose proof (proj2 (reachable_happen mbox_code X Y) (ex_intro _ _ E2)) as R2. clear E1 E2.
  unfold first_fetched in HX. destruct (conts X demo_a (sk X)) as [l k| | | |] eqn:E; try contradiction HX.
  subst l. unfold stranded in Hs.
  destruct (tasks (sk Y) !! demo_a) as [T|] eqn:HT; [|contradiction Hs].
  destruct (ports (sk Y) !! demo_mbox) as [P|] eqn:HP; [|contradiction Hs].
  destruct Hs as (Hst & Hw & Hz). exists X, Y, k, T, P. split_and!; try assumption; try reflexivity.
  unfold in_state. destruct (tasks (sk Y) !! demo_b) as [B|]; [|discriminate Hb].
  injection Hb as Hb. by exists B.
Qed.
